(* ===== verification/_CoqProject ===== *)
-Q . S2P
Prelude.v
BitOps.v
OctTypes.v
Kernel.v
Names.v
ChunkList.v
CmdQueue.v
OneSided.v
BlockIO.v
BlockDev.v
Session.v
Connect.v
System.v
ClientQueues.v
Server.v
Evict.v
Ownership.v
EvictStall.v
EvictRun.v
Protocol.v
Prog.v
OldClient.v
OldSystem.v
OldStall.v
TwoClients.v
HexConn.v
RdmaPair.v
OldDisk.v
CmVerbs.v
SumPrograms.v
SumPair.v
DaemonClient.v
VmArea.v
SwapTests.v
RdmaSyscalls.v
SwapThreads.v
UserFault.v
Ratio.v
SharedBuf.v
SwapCounters.v
ArrayLoops.v
JvmAgent.v
JvmLoad.v
Clocks.v
Layout.v
Samples.v
