(* ===== verification/Prelude.v ===== *)
(** * Octopus: a disk in the memory of another machine

    This library models and verifies the Octopus remote-memory system of the
    repository: a Linux kernel module that offers a block device whose blocks
    live in the memory of a remote server, reached by RDMA, and the user-level
    server that lends its memory.

    ** The program

    - The client, [src/IB-test-case/C-Based-Octopus-Platform/client/].
      [octopus_client.h] holds the constants and structures, [rdma_client.c]
      the RDMA session (connecting, two-sided messages, one-sided reads and
      writes, release of resources), [register_disk.c] the block device and
      the translation of block requests to one-sided requests.
    - The server, [src/IB-test-case/Kernel_Level_RDMA_connection/server/].
      [rdma-common.c] and [rdma-common.h] hold the session (a pool of 1 GB
      chunks), the messages, eviction and expansion; [infiniswap-daemon.c] the
      connection events.
    - [src/c-test/bit_operations/log_function.c]: the base-2 logarithm, whose
      macro the client's shifts are defined with.
    - The older client, [Kernel_Level_RDMA_connection/client/rdma_client.c] and
      [.h]: the connection, the messages and the chunk table of the client,
      without a disk; it talks to the same server.
    - The older block device, [src/block_device/register_disk.c] and [.h]: a
      disk that answers every request without moving data.
    - The read/write programs, [src/IB-test-case/RDMA_read_write/]
      [rdma_client.c] and [rdma_server.c]: two user-level processes that
      exchange their connections as text over TCP, and one writes a string
      into the memory of the other.
    - The adding programs, [src/IB-test-case/RDMA_post_send_recv_a_plus_b/]
      [client.c] and [server.c]: the client gives the server two numbers, one
      by an RDMA write and one as a message, and gets their sum back.
    - The sample client of the server,
      [src/IB-test-case/RDMA_post_send_recv_connect_to_infiniswap_daemon/client.c]:
      it connects and prints the first message.
    - The swap tests, [src/block_device/swap/], and the tests of
      [src/Kernel-dev/{syscall,hugePage,tlb,user_fault_handler,user-kernel-shared-mem}]
      and [src/Semeru/CPUServer]: user-level programs that fill a buffer so that
      its pages are swapped out, hand it to a system call of the authors'
      kernel, answer its page faults, or share it with the kernel, and read it
      back, some of them in several threads.
    - [src/block_device/swap_ratio/]: the share of a range of pages that is in
      memory, from the pagemap of a process.
    - The agents of the Java virtual machine, [src/jvmti/]: one puts a call in
      front of each method it loads, one prints the loaded classes, one prints
      the methods that are entered.
    - Small modules and programs of [src/Kernel-dev] (timers, clocks, exported
      functions, loops over arrays of doubles), the program of [src/pmuTest],
      the device check [src/IB-test-case/Check_IB_device/client.c] and the
      samples of C and C++ in [src/c-test].

    The client connects; the server announces how many chunks are free; the
    client allocates its chunk table, asks for 32 chunks and receives the
    address and the key of each chunk it gets; then it registers the disk.
    From then on a block request is translated to a chunk and an offset and
    posted as one RDMA read or write on the queue of its core; the completion
    handler ends the request.  The server meanwhile watches its free memory
    and takes chunks back, or adds some.

    ** Files

    - [Prelude]: record update ([r <| f := v |>]), machine integers ([u32],
      [u64], [i32]), arrays indexed by C integers, tactics and hint databases.
    - [BitOps]: [power_of_2] and [ilog2] of [log_function.c]; byte order
      ([ntohll] of [octopus_client.h], [htonll] of [rdma-common.c]).
    - [OctTypes]: the constants, enumerations and structures of
      [octopus_client.h], and the parts of kernel structures the code uses.
    - [Kernel]: the state of the module ([world]), the kernel as a parameter,
      faults, the monad [M] of code that runs to its end, the monad [P] of
      code that waits, loops, and the framework of preservation proofs.
    - [Names]: the functions of [rdma_client.c] that name events, completions,
      messages and states.
    - [ChunkList]: [init_remote_chunk_list], [bind_remote_memory_chunks].
    - [CmdQueue]: the queues of RDMA commands: initialisation, the probe for a
      free command, its release, and their concurrent use ([qstep]).
    - [OneSided]: [post_rdma_write], [post_rdma_read], their completions and
      [copy_data_to_rdma_buf].
    - [BlockIO]: [rmem_queue_rq], [transfer_requet_to_rdma_message] and
      [rmem_init_hctx] of [register_disk.c].
    - [BlockDev]: creation and destruction of the block device.
    - [Session]: queue pair, buffers, two-sided messages, the
      connection-manager and completion handlers, release of the session.
    - [Connect]: [octopus_RDMA_connect] and the module's entry points.
    - [System]: the module as a system of interleaved threads ([sys_step]), and
      the runs in which nothing comes between a test of [freed] and what follows
      it ([calm_step]).
    - [ClientQueues]: the RDMA commands in every reachable state of the module.
    - [Server]: the server's session, chunks, messages and connections.
    - [Evict]: [evict_mem] and [free_mem] of the server.
    - [Ownership]: who holds which chunk, in all reachable states of the server,
      with the eviction thread taken step by step ([server_reach]).
    - [EvictStall]: the server's eviction against the client: what the client
      ever sends, and what the server waits for.
    - [EvictRun]: a whole eviction with a client that answers: the session
      invariant [single] through each phase of [evict_mem], up to the books
      of both ends ([evicted]).
    - [Protocol]: client and server together, through the contract
      [chunk_message] of the message that carries chunks.
    - [Prog]: what the models of the other programs share: computations over
      any state and calls ([prog], [wprog]), the rules for running them and for
      what they preserve, and their interleavings ([sched_step]).
    - [OldClient]: the older client, one definition per function.
    - [OldSystem]: the older client as a system of interleaved threads: its
      invariant, its handshake, its unloading after a flush.
    - [OldStall]: the interface [Caller] of a program that posts messages and its
      law [RequestOnly]; the eviction against any such program, with both
      kernel clients as instances.
    - [TwoClients]: the interface [ChunkClient] of a client of the server, the
      handshake proved against it, and both clients as instances.
    - [HexConn]: the connection message of the read/write programs.
    - [RdmaPair]: these programs, and a server and a client process together.
    - [OldDisk]: the older block device.
    - [CmVerbs]: what the adding programs and the sample client share: their
      state with the queues of the adapter, the calls, the connecting functions.
    - [SumPrograms]: the adding programs, with [strtoul] and decimal output.
    - [SumPair]: both adding programs and the adapters between them, in every
      order of their steps, simulated by a finite machine.
    - [DaemonClient]: the sample client of the server.
    - [VmArea]: the address space of a process ([vm]) with [mmap], [madvise] and
      system calls, [reserve_anon_memory] and [commit_anon_memory], loops over
      an array of words and their rules.
    - [SwapTests], [RdmaSyscalls], [SharedBuf]: the tests in one thread, each a
      definition with the address and size of its buffer as arguments, and its
      [main] with the constants of the source.
    - [SwapCounters]: the four programs that read or reset the kernel's counters.
    - [ArrayLoops]: the programs that run over arrays of doubles with an [int].
    - [SwapThreads]: the tests with threads, as a step relation.
    - [UserFault]: the handlers of page faults and the programs they serve.
    - [Ratio]: [pages_inmem_ratio] over the bytes of the pagemap.
    - [JvmAgent]: the agent that instruments methods, with its parser of method
      descriptors; [JvmLoad]: the loading of the three agents and the hooks
      that print.
    - [Clocks]: the life of a kernel module with a timer ([tstep]), the two timer
      modules as instances of [tmodule], the modules that only print.
    - [Layout]: sizes and offsets of structures, and the samples that print them.
    - [Samples]: the samples of pointers, memory, control flow and methods, and
      the check of an InfiniBand device.

    ** Modelling

    The client's state is the record [world]: the session, the device, the
    counters and the trace of kernel calls.  Every call into the kernel is a
    constructor of [kcall] (with the arguments that matter) and is appended to
    the trace; its result is given by the parameter [kernel], a function of
    the trace and the call, so a theorem over all kernels covers every
    sequence of results.  Code that can be suspended ([wait_event_interruptible])
    is a value of [P], a computation cut at its waits; [System] lets any other
    thread run there.  It is cut as well after each test of the session's
    [freed], which is under no lock ([yield]).  A NULL or error pointer that is
    dereferenced, an access outside an array, a loop that never ends and a BUG_ON are values of type
    [fault], so they can be stated and excluded.  Variables that the code
    returns uninitialised are arguments named [uninit].

    The server's state is the record [server], its libraries (verbs, allocator,
    [/proc/meminfo]) the parameter [verbs] in the same style, and [die] the
    result [Exit].  Messages that arrive while a thread waits on a semaphore
    are arguments of the wait.  [float] and [double] arithmetic is IEEE 754 as
    in the Standard Library's [SpecFloat].

    The other programs are computations of [Prog] over their own state:
    [old_data] with the session pointer (absent, live or freed, so that a use
    after the release is a fault), [disk_data], and [proc], a process with its
    memory as a function from addresses to bytes.  Their calls are the types
    [kcall], [dcall] and [RdmaPair.vcall], and the results come from parameters in the
    same style.  [sprintf] and [sscanf] of hexadecimal numbers are modelled
    as the C library defines them.  A process of [CmVerbs] has its memory in
    32-bit words, since its programs only access whole aligned words, and the
    queues of its adapter; what two adapters do with posted requests
    ([transmit], [report]) is the reliable service of InfiniBand: requests are
    carried out in the order of their posting, a message waits for a posted
    receive, a write outside the registered region fails and stops the queue,
    and a completion gives an event only when the queue is armed.  The client's
    [while (1)] recurses on a number of rounds: two are enough, since it has
    two completions to take.

    A test is a computation over its address space: the protection and the
    content of every byte.  The kernel ([vmenv]) decides the result of every
    call and which bytes a system call writes; a mapping is zero; an access to
    a byte that its protection does not allow ends the program.  The calls are
    recorded ([VmArea.vcall]), the printed lines among them.  [SharedBuf] lets
    the kernel write before each read of the shared memory ([sharedenv]), and
    [UserFault] suspends a program at a missing page until a round of the
    handler has filled it.  The agents of [JvmAgent] and [JvmLoad] ask the class
    file library and the virtual machine, which are environments; the effect
    of the inserted instructions is that of a stack machine.

    Integers are [Z] with the conversion of their C type written out where it
    can matter; the host is little-endian, pages are 4096 bytes, [MAX_CLIENT]
    and the other macros have their default values.  Loops whose bound is in
    the code recurse on that bound.  Two loops have none: the probe for a free
    command and the probe for a random chunk; they visit each entry of a ring
    at most once before they repeat themselves, so a fuel of one round is
    enough, and running out of it is the fault [Spin]: the loop never ends.
    The base-2 logarithm needs 64 steps for a 64-bit number, the
    hexadecimal digits 16; a C string is looked for in the half buffer that the
    peer may write, and leaving it is a fault.  The loops of the tests take
    [fuel] rounds, and the theorems say that as many as the loop has are enough
    (for an array of [n] words, more than [n]); the handlers and the loop that
    writes out a class take as many rounds as their theorems' hypotheses say
    that the kernel or the library needs.  The parser of descriptors makes at
    most one round for each character.  The loops of [ArrayLoops] and [Ratio]
    count with an [int]: leaving its range is the fault [SignedOverflow], and
    the result [Overflow].  In [UserFault] a program that waits for a page which
    nobody will fill ([Blocked]) is kept apart from one whose handler has not
    come to an end within its rounds ([Spin]).

    ** What is shown

    - End to end ([Protocol]): after the handshake a block request in one
      chunk goes to memory that the server allocated, registered and recorded
      for this client, at the right offset; what happens with a request beyond
      the chunks, and with a negative free size.
    - Address translation ([BlockIO]): requests in one chunk, across chunks and
      outside the table; the balance of [get_cpu] and [put_cpu].
    - The chunk table ([ChunkList]): contents and invariant of each operation.
    - Commands ([CmdQueue], [OneSided]): mutual exclusion in all
      interleavings, the probe, posting and completion on every branch, the
      round trip of a request, and the read of several bios that does not come
      round; the copy of its data; a race of the unlocked release; the leak of
      failed posts.
    - Session ([Session]): the behaviour of the handlers on every branch, the
      exact release of all resources.
    - The module as a whole ([System], [ClientQueues]): in every reachable state
      the chunk table is well formed, and each command names itself and is taken
      exactly while it holds a request.  No RDMA structure is destroyed twice
      unless another context runs between a test of [freed] and the increment;
      with one there, a state is reached in which all have been.
    - The device ([BlockDev]): registration on every outcome of the kernel's
      calls, the binding of dispatch queues to RDMA queues.
    - The server ([Server], [Evict]): start, handing out exactly the first free
      chunks, disconnection, eviction of unused and of the least active
      chunks, expansion, the invariant of its books, the counting of mapped
      chunks, the second client.
    - Ownership ([Ownership]): a chunk that a connection holds is allocated,
      recorded as its own and held by no other connection, in every state of
      the server reached without a handler between the eviction thread's test
      of a chunk and its freeing; with one there, the thread frees a chunk that
      a connection has just been given.
    - The older client ([OldClient], [OldSystem]): binding agrees with the later
      client while there is room, and overruns a full table; unloading
      releases everything once, in every interleaving nothing is destroyed
      twice; the handshake ends; what errors that are only printed lead to.
    - Any client ([TwoClients]): after the handshake its table holds the regions
      that the server gave it, in order.
    - The read/write programs ([HexConn], [RdmaPair]): the message round trip
      and when it fits its array; the whole transfer, for which of the two
      buffer sizes it succeeds, and that it needs the write to be carried out
      before the server destroys its queue pair; what a bad message of the peer
      does.
    - The older block device ([OldDisk]): what loading and unloading hold and
      give back on every answer of the block layer.
    - The adding programs ([SumPrograms], [SumPair]): numbers as text; every
      order of the steps ends after at most twelve, with the sum printed or
      with a client that has missed the event of its answer; a server buffer
      above 4 GB.
    - The sample client ([DaemonClient]): what it prints for the message with
      which the server greets it.
    - Eviction from a client ([EvictStall], [OldStall]): both kernel clients only
      ever ask for chunks, so an eviction that needs their chunks never ends.
      [EvictRun]: with a client that answers it ends, frees what is not handed
      out, asks for the least active of the chunks, as many as are missing,
      and the server is then smaller by the gigabytes it needed.
    - The tests ([SwapTests], [RdmaSyscalls], [SharedBuf]): the sums they print,
      for every size; that they return, whatever the kernel does with their
      memory; what they do not notice (a failed commit, a transfer of a prefix,
      a length beyond the shared buffer).
    - The threads ([SwapThreads]): in every interleaving no access leaves the
      buffer, every thread ends, and the sums of the disjoint slices add up.
    - Counters and arrays ([SwapCounters], [ArrayLoops]): the counters that are
      shown are those the kernel stored, and 0 where it stored none; two of the
      loops print what they have written, the two others overflow their
      counter or its square.
    - Page faults ([UserFault]): what each test prints with a kernel that answers
      the prefetch, and that with one that refuses it the handler ends and the
      test waits for ever.
    - The ratio ([Ratio]): for fewer than 2^31 pages the byte-wise reader counts
      those whose present bit is set, and those whose entry is beyond the end of
      the file; from 2^31 pages on its [int] overflows.
    - The agents ([JvmAgent], [JvmLoad]): the inserted code passes the first five
      object parameters and leaves the stack as it was; an unterminated name is
      read past its end; what loading registers on each answer.
    - Timers ([Clocks]): the orders of loading, expiry and unloading, and the one
      that faults; the cycles shown, and when the nanoseconds shown are the
      time that passed.
    - Samples ([Layout], [Samples]): the layout of any structure is sound; which
      samples fault; that tests of a type tag call the method of the class; what
      the device check leaves open.

    ** What is not modelled

    The contents of the Octopus chunks and the transfer of their data (the calls
    that copy data are commented out in the client); DMA mapping beyond its
    addresses; locks, except that a region under a lock is one step; the points
    inside a step at which another thread could run, other than the ones named
    above: the test of [freed] of [octopus_free_block_devicce], and each handler,
    each expansion and the exchange with the clients on the server, are whole
    steps; printing; the optimisation by a compiler of the read/write client's
    polling loop, which reads memory that is not volatile.  In [RdmaPair] a write
    that was posted before its queue pair was destroyed is either carried out
    whole or not at all, which is an argument.  In the tests, the
    lines that print the address of a local variable; the compiler may keep a
    shared word in a register, which the models of threads and of shared memory
    do not.  Of [src/c-test], [pointer_value.c] passes structures through
    variable arguments, and [coroutine_tmp.cpp] resumes empty coroutine handles on
    threads of the C++ library: what they do is not defined by the language or
    is that library's.  The programs in Java, Scala and Rust are not in C.  The
    macros of [octopus_client.h] and [rdma_client.h] that only select debugging
    output, the helper [errno] messages of the tests and the functions that
    print usage have no counterpart. *)

From Stdlib Require Export ZArith Lia.
From stdpp Require Export base list numbers strings sets relations.

#[global] Set Default Goal Selector "!".
#[global] Open Scope Z_scope.

(** * Record update

    The C code assigns struct fields in place.  [r <| f := v |>] is the record
    [r] with field [f] set to [v], and [r <| f ::= g |>] applies [g] to the
    field.  A record takes part by declaring, once, its eta expansion. *)

Class Eta (R : Type) := eta : R → R.
Class Setter {R T : Type} (proj : R → T) := setter : (T → T) → R → R.
(** An instance is declared, or built from [Eta], or there is none: the search
    must not introduce the argument and return it. *)
#[global] Typeclasses Opaque Eta Setter.

Ltac build_setter :=
  lazymatch goal with
  | |- @Setter ?R ?T ?proj =>
      let g := fresh "g" in
      let r := fresh "r" in
      intros g r;
      let inst := constr:(_ : Eta R) in
      let e := eval hnf in (@eta R inst r) in
      let p := eval pattern (proj r) in e in
      lazymatch p with
      | ?body (proj r) => exact (body (g (proj r)))
      end
  end.

#[export] Hint Extern 0 (Setter _) => build_setter : typeclass_instances.

Declare Scope record_scope.
Delimit Scope record_scope with rec.
#[global] Open Scope record_scope.
Notation "r '<|' proj '::=' g '|>'" := (@setter _ _ proj _ g r)
  (at level 1, left associativity, g at level 99) : record_scope.
Notation "r '<|' proj ':=' v '|>'" := (@setter _ _ proj _ (λ _, v) r)
  (at level 1, left associativity, v at level 99) : record_scope.


(** * Machine integers

    C integers are kept in [Z]; a conversion to a [w]-bit unsigned type is the
    remainder modulo [2^w], a conversion to [int] the two's complement value
    of the low 32 bits. *)

Definition u8 (z : Z) : Z := z mod 2 ^ 8.
Definition u16 (z : Z) : Z := z mod 2 ^ 16.
Definition u32 (z : Z) : Z := z mod 2 ^ 32.
Definition u64 (z : Z) : Z := z mod 2 ^ 64.
Definition i32 (z : Z) : Z := (z + 2 ^ 31) mod 2 ^ 32 - 2 ^ 31.

#[global] Arguments u8 : simpl never.
#[global] Arguments u16 : simpl never.
#[global] Arguments u32 : simpl never.
#[global] Arguments u64 : simpl never.
#[global] Arguments i32 : simpl never.

Create HintDb cint.
Create Rewrite HintDb cint.

Lemma u32_range z : 0 <= u32 z < 2 ^ 32.
Proof. apply Z.mod_pos_bound. lia. Qed.

Lemma u64_range z : 0 <= u64 z < 2 ^ 64.
Proof. apply Z.mod_pos_bound. lia. Qed.

Lemma i32_range z : - 2 ^ 31 <= i32 z < 2 ^ 31.
Proof. unfold i32. pose proof (Z.mod_pos_bound (z + 2 ^ 31) (2 ^ 32)). lia. Qed.

Lemma u32_id z : 0 <= z < 2 ^ 32 → u32 z = z.
Proof. apply Z.mod_small. Qed.

Lemma u64_id z : 0 <= z < 2 ^ 64 → u64 z = z.
Proof. apply Z.mod_small. Qed.

Lemma i32_id z : - 2 ^ 31 <= z < 2 ^ 31 → i32 z = z.
Proof. intros. unfold i32. rewrite Z.mod_small; lia. Qed.

Lemma u32_i32 z : u32 (i32 z) = u32 z.
Proof.
  unfold u32, i32. rewrite Zminus_mod_idemp_l. f_equal. lia.
Qed.

Lemma u32_u32 z : u32 (u32 z) = u32 z.
Proof. apply u32_id, u32_range. Qed.

#[export] Hint Resolve u32_range u64_range i32_range : cint.
#[export] Hint Rewrite u32_i32 u32_u32 : cint.
#[export] Hint Rewrite u32_id u64_id i32_id using lia : cint.

(** [lia] extended to division and remainder. *)
Ltac dlia := Z.to_euclidean_division_equations; lia.

(** [cint] removes the conversions that do not change their argument. *)
Ltac cint := autorewrite with cint.
Ltac cint_in H := autorewrite with cint in H.

(** Shifts and masks by powers of two, as the arithmetic they stand for. *)
Lemma shiftr_div a k : 0 <= k → Z.shiftr a k = a / 2 ^ k.
Proof. apply Z.shiftr_div_pow2. Qed.

Lemma shiftl_mul a k : 0 <= k → Z.shiftl a k = a * 2 ^ k.
Proof. apply Z.shiftl_mul_pow2. Qed.

Lemma land_mask a k : 0 <= k → Z.land a (2 ^ k - 1) = a mod 2 ^ k.
Proof.
  intros. replace (2 ^ k - 1) with (Z.ones k) by (rewrite Z.ones_equiv; lia).
  by apply Z.land_ones.
Qed.

(** The bits of [a << k] and of a value below [2^k] are disjoint. *)
Lemma lor_shiftl_add a b k :
  0 <= k → 0 <= b < 2 ^ k → Z.lor (Z.shiftl a k) b = a * 2 ^ k + b.
Proof.
  intros Hk Hb. rewrite <- shiftl_mul by done.
  assert (Z.land (Z.shiftl a k) b = 0) as Hd.
  { apply Z.bits_inj'. intros n Hn. rewrite Z.land_spec, Z.bits_0.
    destruct (decide (n < k)).
    - rewrite Z.shiftl_spec_low by done. done.
    - rewrite <- (Z.mod_small b (2 ^ k)) by done.
      rewrite Z.mod_pow2_bits_high by lia. apply andb_false_r. }
  rewrite Z.add_nocarry_lxor by done. symmetry. by apply Z.lxor_lor.
Qed.

(** * Arrays indexed by C integers *)

(** [arr_get l i] is [l[i]], [None] when the access is out of bounds. *)
Definition arr_get {A} (l : list A) (i : Z) : option A :=
  if decide (0 <= i) then l !! Z.to_nat i else None.

(** [arr_set l i x] is [l] after [l[i] = x], [None] when out of bounds. *)
Definition arr_set {A} (l : list A) (i : Z) (x : A) : option (list A) :=
  if decide (0 <= i < Z.of_nat (length l))
  then Some (<[Z.to_nat i := x]> l) else None.

Lemma arr_get_lookup {A} (l : list A) (i : nat) : arr_get l (Z.of_nat i) = l !! i.
Proof. unfold arr_get. rewrite decide_True by lia. by rewrite Nat2Z.id. Qed.

Lemma arr_get_Some {A} (l : list A) i x :
  arr_get l i = Some x → 0 <= i < Z.of_nat (length l).
Proof.
  unfold arr_get. case_decide; [|done]. intros Hi%lookup_lt_Some. lia.
Qed.

Lemma arr_get_is_Some {A} (l : list A) i :
  0 <= i < Z.of_nat (length l) → is_Some (arr_get l i).
Proof.
  intros. unfold arr_get. rewrite decide_True by lia. apply lookup_lt_is_Some. lia.
Qed.

Lemma arr_set_Some {A} (l : list A) i x :
  0 <= i < Z.of_nat (length l) → arr_set l i x = Some (<[Z.to_nat i := x]> l).
Proof. intros. unfold arr_set. by rewrite decide_True. Qed.

#[global] Arguments arr_get : simpl never.
#[global] Arguments arr_set : simpl never.

(** * Lists *)

Lemma filter_all {A} (P : A → Prop) `{!∀ x, Decision (P x)} l : Forall P l → filter P l = l.
Proof.
  induction 1 as [|x l Hx _ IH]; [done|]. by rewrite filter_cons_True, IH.
Qed.

Lemma filter_none {A} (P : A → Prop) `{!∀ x, Decision (P x)} l : Forall (λ x, ¬ P x) l → filter P l = [].
Proof.
  induction 1 as [|x l Hx _ IH]; [done|]. by rewrite filter_cons_False, IH.
Qed.
