(* ===== verification/BitOps.v ===== *)
(** * Bit operations and byte order

    - the two base-2 logarithms of [c-test/bit_operations/log_function.c]: the
      C loop [power_of_2] and the macro [ilog2] the driver takes its shift
      amounts from;
    - the byte-order conversions of the two-sided messages: [ntohl] (the C
      library's 32-bit byte reversal on a little-endian host), the client's
      macro [ntohll] and the server's function [htonll].

    The theorems show that both logarithms compute [Z.log2] on every 64-bit
    value, that [ntohll] reverses the eight bytes of its argument, and that
    what the server encodes with [htonll] the client decodes with [ntohll]. *)

From Stdlib Require Import Sorting.Sorted.
From S2P Require Import Prelude.

(** ** Logarithms *)

(** [while( (num = (num >> 1)) !=0 ) power++;] on a 64-bit [num]; one unit of
    fuel per evaluation of the loop condition, [None] when it runs out. *)
Fixpoint power_loop (fuel : nat) (num power : Z) : option Z :=
  match fuel with
  | O => None
  | S fuel =>
      let num := Z.shiftr num 1 in
      if negb (num =? 0) then power_loop fuel num (u64 (power + 1))
      else Some power
  end.

(** The value of the loop; 64 evaluations of the condition always suffice
    (lemma [power_loop_spec]). *)
Definition power_of_2 (num : Z) : option Z := power_loop 64 num 0.

(** The macro's chain of tests, most significant bit first. *)
Fixpoint ilog2_chain (ks : list Z) (n : Z) : Z :=
  match ks with
  | [] => 1
  | k :: ks =>
      if negb (Z.land n (Z.shiftl 1 k) =? 0) then k else ilog2_chain ks n
  end.

Definition ilog2_bits : list Z :=
  [63; 62; 61; 60; 59; 58; 57; 56; 55; 54; 53; 52; 51; 50; 49; 48;
   47; 46; 45; 44; 43; 42; 41; 40; 39; 38; 37; 36; 35; 34; 33; 32;
   31; 30; 29; 28; 27; 26; 25; 24; 23; 22; 21; 20; 19; 18; 17; 16;
   15; 14; 13; 12; 11; 10; 9; 8; 7; 6; 5; 4; 3; 2].

Definition ilog2 (n : Z) : Z :=
  if n <? 2 then 0 else ilog2_chain ilog2_bits n.

(** ** Byte order *)

(** The [n] low bytes of [x], least significant first, and back. *)
Fixpoint le_bytes (n : nat) (x : Z) : list Z :=
  match n with
  | O => []
  | S n => x mod 256 :: le_bytes n (x / 256)
  end.

Fixpoint of_le_bytes (l : list Z) : Z :=
  match l with
  | [] => 0
  | b :: l => b + 256 * of_le_bytes l
  end.

(** [ntohl] and [htonl] on a little-endian host: the argument is converted to
    [uint32_t] and its four bytes are reversed. *)
Definition ntohl (x : Z) : Z := of_le_bytes (rev (le_bytes 4 (u32 x))).
Definition htonl (x : Z) : Z := ntohl x.

(** The client's macro, on a [uint64_t] argument. *)
Definition ntohll (x : Z) : Z :=
  Z.lor (u64 (Z.shiftl (ntohl (i32 (Z.shiftr (u64 (Z.shiftl x 32)) 32))) 32))
        (u32 (ntohl (i32 (Z.shiftr x 32)))).

(** The server's function, on the little-endian branch it takes on x86
    ([*(char * )&num == 42]). *)
Definition htonll (value : Z) : Z :=
  Z.lor (u64 (Z.shiftl (htonl (Z.land value 0xFFFFFFFF)) 32))
        (htonl (Z.shiftr value 32)).

#[global] Arguments ntohl : simpl never.
#[global] Arguments htonl : simpl never.
#[global] Arguments ntohll : simpl never.
#[global] Arguments htonll : simpl never.

(** ** Lemmas on the logarithms *)

Lemma log2_shiftr1 n : 2 <= n → Z.log2 n = Z.log2 (Z.shiftr n 1) + 1.
Proof.
  intros. rewrite Z.log2_shiftr by lia.
  pose proof (Z.log2_le_mono 2 n). change (Z.log2 2) with 1 in *. lia.
Qed.

Lemma power_loop_spec (fuel : nat) num power :
  0 < num < 2 ^ (Z.of_nat fuel) → 0 <= power → power + Z.log2 num < 2 ^ 64 →
  power_loop fuel num power = Some (power + Z.log2 num).
Proof.
  revert num power. induction fuel as [|fuel IH]; intros num power Hn Hp Hb.
  { simpl in Hn. lia. }
  cbn [power_loop]. cbv zeta.
  assert (Z.shiftr num 1 = num / 2) as Hs by apply (shiftr_div num 1 ltac:(lia)).
  assert (0 <= num / 2 < 2 ^ Z.of_nat fuel) as Hh.
  { rewrite Nat2Z.inj_succ, Z.pow_succ_r in Hn by lia.
    split; [apply Z.div_pos; lia | apply Z.div_lt_upper_bound; lia]. }
  destruct (Z.eqb_spec (Z.shiftr num 1) 0) as [E|E]; cbn [negb].
  - rewrite Hs in E. assert (num = 1) as -> by dlia. f_equal. cbn. lia.
  - assert (2 <= num) by (rewrite Hs in E; dlia).
    rewrite (log2_shiftr1 num) in Hb |- * by lia.
    pose proof (Z.log2_nonneg (Z.shiftr num 1)).
    rewrite u64_id by lia. rewrite IH.
    + f_equal. lia.
    + lia.
    + lia.
    + lia.
Qed.

Lemma power_loop_zero (fuel : nat) power :
  power_loop (S fuel) 0 power = Some power.
Proof. reflexivity. Qed.

Lemma log2_u64 n : 0 <= n < 2 ^ 64 → Z.log2 n < 64.
Proof.
  intros. destruct (decide (n = 0)) as [->|]; [cbn; lia|].
  apply Z.log2_lt_pow2; lia.
Qed.

Lemma land_bit n k : 0 <= k → (Z.land n (Z.shiftl 1 k) =? 0) = negb (Z.testbit n k).
Proof.
  intros Hk.
  assert (Z.land n (Z.shiftl 1 k) = if Z.testbit n k then Z.shiftl 1 k else 0) as ->.
  { apply Z.bits_inj'. intros i Hi. rewrite Z.land_spec, Z.shiftl_1_l, Z.pow2_bits_eqb by lia.
    destruct (Z.eqb_spec k i) as [->|].
    - destruct (Z.testbit n i) eqn:E; [|by rewrite Z.bits_0].
      by rewrite Z.pow2_bits_true by lia.
    - rewrite andb_false_r. destruct (Z.testbit n k); [|by rewrite Z.bits_0].
      by rewrite Z.pow2_bits_false by lia. }
  destruct (Z.testbit n k); [|done].
  rewrite Z.shiftl_1_l. apply Z.eqb_neq. lia.
Qed.

(** The chain stops at the highest set bit: every position it skips is above
    the logarithm, and the logarithm's own bit is set. *)
Lemma ilog2_chain_spec (ks : list Z) n :
  2 <= n → StronglySorted (λ a b, b < a) ks → Forall (λ k, 1 < k) ks →
  Z.log2 n = 1 ∨ In (Z.log2 n) ks →
  ilog2_chain ks n = Z.log2 n.
Proof.
  intros Hn Hs. induction Hs as [|k ks Hs IH Hall]; intros Hk Hin; cbn [ilog2_chain].
  { by destruct Hin as [->|[]]. }
  inversion_clear Hk as [|? ? Hk1 Hks].
  rewrite land_bit, negb_involutive by lia.
  destruct (Z.testbit n k) eqn:E.
  - assert (¬ Z.log2 n < k) as Hle.
    { intros ?. rewrite Z.bits_above_log2 in E by lia. done. }
    destruct Hin as [H1|[H1|H1]]; [lia|done|].
    rewrite Forall_forall in Hall. specialize (Hall (Z.log2 n)).
    rewrite list_elem_of_In in Hall. specialize (Hall H1). lia.
  - apply IH; [done|]. destruct Hin as [H1|[H1|H1]]; [by left| |by right].
    rewrite H1, Z.bit_log2 in E by lia. done.
Qed.

Lemma ilog2_bits_sorted : StronglySorted (λ a b, b < a) ilog2_bits.
Proof. unfold ilog2_bits. repeat (constructor; [|repeat constructor; lia]). constructor. Qed.

Lemma ilog2_bits_In k : 2 <= k < 64 → In k ilog2_bits.
Proof. intros. unfold ilog2_bits. cbn [In]. lia. Qed.

(** ** Lemmas on bytes *)

Lemma le_bytes_length n x : length (le_bytes n x) = n.
Proof. revert x. induction n; intros; cbn; auto. Qed.

Lemma le_bytes_range n x : Forall (λ b, 0 <= b < 256) (le_bytes n x).
Proof.
  revert x. induction n as [|n IH]; intros x; cbn [le_bytes]; constructor; [|apply IH].
  apply Z.mod_pos_bound. lia.
Qed.

Lemma of_le_bytes_range l :
  Forall (λ b, 0 <= b < 256) l → 0 <= of_le_bytes l < 256 ^ Z.of_nat (length l).
Proof.
  induction 1 as [|b l Hb Hl IH]; cbn [of_le_bytes length]; [lia|].
  rewrite Nat2Z.inj_succ, Z.pow_succ_r by lia. lia.
Qed.

Lemma of_le_bytes_of n x : of_le_bytes (le_bytes n x) = x mod 256 ^ Z.of_nat n.
Proof.
  revert x. induction n as [|n IH]; intros x; cbn [le_bytes of_le_bytes].
  { by rewrite Z.mod_1_r. }
  rewrite IH, Nat2Z.inj_succ, Z.pow_succ_r by lia.
  rewrite Z.rem_mul_r by lia. lia.
Qed.

Lemma le_bytes_of l :
  Forall (λ b, 0 <= b < 256) l → le_bytes (length l) (of_le_bytes l) = l.
Proof.
  induction 1 as [|b l Hb Hl IH]; cbn [of_le_bytes length le_bytes]; [done|].
  f_equal.
  - rewrite Z.mul_comm, Z.mod_add by lia. by apply Z.mod_small.
  - rewrite Z.mul_comm, Z.div_add, Z.div_small by lia. done.
Qed.

Lemma of_le_bytes_app l k :
  of_le_bytes (l ++ k) = of_le_bytes l + 256 ^ Z.of_nat (length l) * of_le_bytes k.
Proof.
  induction l as [|b l IH]; cbn [of_le_bytes app length].
  { cbn. lia. }
  rewrite IH, Nat2Z.inj_succ, Z.pow_succ_r by lia. ring.
Qed.

Lemma le_bytes_app n m x :
  le_bytes (n + m) x = le_bytes n x ++ le_bytes m (x / 256 ^ Z.of_nat n).
Proof.
  revert x. induction n as [|n IH]; intros x; cbn [le_bytes app Nat.add].
  { by rewrite Z.div_1_r. }
  rewrite IH, Nat2Z.inj_succ, Z.pow_succ_r, Z.div_div by lia. done.
Qed.

Lemma ntohl_range x : 0 <= ntohl x < 2 ^ 32.
Proof.
  unfold ntohl.
  pose proof (of_le_bytes_range (rev (le_bytes 4 (u32 x)))) as H.
  rewrite length_rev, le_bytes_length in H. apply H, Forall_rev, le_bytes_range.
Qed.

Lemma ntohl_u32 x : ntohl (u32 x) = ntohl x.
Proof. unfold ntohl. by rewrite u32_u32. Qed.

Lemma ntohl_i32 x : ntohl (i32 x) = ntohl x.
Proof. unfold ntohl. by rewrite u32_i32. Qed.

Lemma ntohl_bytes x : le_bytes 4 (ntohl x) = rev (le_bytes 4 (u32 x)).
Proof.
  unfold ntohl. rewrite <- (le_bytes_of (rev _)) at 2
    by (apply Forall_rev, le_bytes_range).
  by rewrite length_rev, le_bytes_length.
Qed.

Lemma ntohl_involutive x : ntohl (ntohl x) = u32 x.
Proof.
  unfold ntohl at 1. rewrite u32_id by apply ntohl_range.
  rewrite ntohl_bytes, rev_involutive, of_le_bytes_of.
  change (256 ^ Z.of_nat 4) with (2 ^ 32). apply u32_u32.
Qed.

(** The macro's value, free of casts: the low word's reversal on top. *)
Lemma ntohll_words x :
  ntohll x = ntohl x * 2 ^ 32 + ntohl (x / 2 ^ 32).
Proof.
  unfold ntohll. rewrite !ntohl_i32, !shiftr_div, !shiftl_mul by lia.
  pose proof (ntohl_range x). pose proof (ntohl_range (x / 2 ^ 32)).
  assert (u64 (x * 2 ^ 32) / 2 ^ 32 = u32 x) as ->.
  { unfold u64, u32. change (2 ^ 64) with (2 ^ 32 * 2 ^ 32).
    rewrite Z.mul_mod_distr_r by lia. rewrite Z.div_mul by lia. done. }
  rewrite ntohl_u32, u32_id by lia.
  rewrite u64_id by nia. rewrite <- lor_shiftl_add, shiftl_mul by lia. done.
Qed.

Lemma htonll_ntohll value : 0 <= value < 2 ^ 64 → htonll value = ntohll value.
Proof.
  intros. rewrite ntohll_words. unfold htonll, htonl.
  change 0xFFFFFFFF with (2 ^ 32 - 1). rewrite land_mask by lia.
  change (value mod 2 ^ 32) with (u32 value). rewrite ntohl_u32, shiftr_div by lia.
  pose proof (ntohl_range value). pose proof (ntohl_range (value / 2 ^ 32)).
  rewrite u64_id by (rewrite shiftl_mul by lia; nia).
  apply lor_shiftl_add; lia.
Qed.

Lemma ntohll_bytes x :
  0 <= x < 2 ^ 64 → le_bytes 8 (ntohll x) = rev (le_bytes 8 x).
Proof.
  intros. rewrite ntohll_words.
  change (le_bytes 8) with (le_bytes (4 + 4)). rewrite !le_bytes_app, rev_app_distr.
  change (256 ^ Z.of_nat 4) with (2 ^ 32).
  pose proof (ntohl_range (x / 2 ^ 32)).
  assert (∀ y, le_bytes 4 y = le_bytes 4 (u32 y)) as Hlow.
  { intros y. rewrite <- (rev_involutive (le_bytes 4 (u32 y))), <- ntohl_bytes, <- ntohl_u32.
    rewrite ntohl_bytes, rev_involutive, u32_u32.
    rewrite <- (le_bytes_of (le_bytes 4 y)) by apply le_bytes_range.
    by rewrite of_le_bytes_of, le_bytes_length. }
  rewrite (Z.add_comm (_ * _)), Z.div_add, (Z.div_small (ntohl (x / 2 ^ 32))) by lia.
  rewrite (Hlow (_ + _)), (Hlow x), (Hlow (x / 2 ^ 32)).
  f_equal.
  - rewrite <- ntohl_bytes. f_equal. unfold u32.
    rewrite Z.mod_add by lia. by apply Z.mod_small.
  - apply ntohl_bytes.
Qed.

Lemma ntohll_involutive x : 0 <= x < 2 ^ 64 → ntohll (ntohll x) = x.
Proof.
  intros Hx.
  assert (0 <= ntohll x < 2 ^ 64) as Hr.
  { rewrite ntohll_words. pose proof (ntohl_range x).
    pose proof (ntohl_range (x / 2 ^ 32)). nia. }
  assert (∀ y, 0 <= y < 2 ^ 64 → of_le_bytes (le_bytes 8 y) = y) as Hid.
  { intros y Hy. rewrite of_le_bytes_of. by apply Z.mod_small. }
  assert (0 <= ntohll (ntohll x) < 2 ^ 64).
  { rewrite (ntohll_words (ntohll x)). pose proof (ntohl_range (ntohll x)).
    pose proof (ntohl_range (ntohll x / 2 ^ 32)). nia. }
  rewrite <- (Hid (ntohll (ntohll x))), ntohll_bytes, ntohll_bytes, rev_involutive by done.
  by apply Hid.
Qed.

(** ** Theorems *)

(** Both logarithms agree with the mathematical one on every 64-bit value:
    the shift loop ends within its 64 passes, the macro's chain of bit tests
    stops at the highest set bit, and the two return the same number. *)
Theorem logarithms_agree n :
  0 <= n < 2 ^ 64 → power_of_2 n = Some (Z.log2 n) ∧ ilog2 n = Z.log2 n.
Proof.
  intros Hn. pose proof (log2_u64 n Hn). split.
  - unfold power_of_2. destruct (decide (n = 0)) as [->|]; [done|].
    by rewrite (power_loop_spec 64) by lia.
  - unfold ilog2. destruct (Z.ltb_spec n 2).
    { assert (n = 0 ∨ n = 1) as [-> | ->] by lia; done. }
    assert (1 <= Z.log2 n) by (apply (Z.log2_le_mono 2 n); lia).
    apply ilog2_chain_spec; [done|apply ilog2_bits_sorted| |].
    + unfold ilog2_bits. repeat constructor; lia.
    + destruct (decide (Z.log2 n = 1)); [by left|right]. apply ilog2_bits_In. lia.
Qed.

Lemma logarithms_agree_witness : power_of_2 512 = Some 9 ∧ ilog2 512 = 9.
Proof. apply (logarithms_agree 512). lia. Defined.

(** Byte order of the two-sided messages: what the server encodes with its
    function [htonll] the client decodes with its macro [ntohll], for every
    64-bit value, and the encoding is the reversal of the eight bytes; the
    same holds of the 32-bit keys. *)
Theorem byte_order_roundtrip v k :
  0 <= v < 2 ^ 64 → 0 <= k < 2 ^ 32 →
  ntohll (htonll v) = v ∧ le_bytes 8 (htonll v) = rev (le_bytes 8 v) ∧
  ntohl (htonl k) = k ∧ le_bytes 4 (htonl k) = rev (le_bytes 4 k).
Proof.
  intros Hv Hk. rewrite htonll_ntohll by done. unfold htonl.
  rewrite ntohl_involutive, ntohl_bytes, u32_id by done.
  auto using ntohll_involutive, ntohll_bytes.
Qed.

Lemma byte_order_roundtrip_witness :
  ntohll (htonll 0x7f0040000000) = 0x7f0040000000 ∧ htonl 0x1234 = 0x34120000.
Proof.
  split; [|vm_compute; reflexivity].
  apply (byte_order_roundtrip 0x7f0040000000 0x1234); lia.
Defined.
