(* ===== verification/OctTypes.v ===== *)
(** * Data model of the Octopus block device

    The constants, enumerations and structures of [octopus_client.h], and the
    state the two C files share: the global RDMA session
    [rdma_session_global], the global device controller
    [rmem_dev_ctrl_global], the module's counters, and the sequence of calls
    made to the kernel ([world]).  Structures of the kernel ([ib_sge],
    [request], [gendisk], ...) are given the fields the driver reads or
    writes.  *)

From Stdlib Require Import Ascii.
From S2P Require Import Prelude BitOps.

(** ** Constants *)

Definition RMEM_PHY_SECT_SIZE : Z := 512.
Definition RMEM_LOGICAL_SECT_SIZE : Z := 512.
Definition RMEM_QUEUE_DEPTH : Z := 16.
Definition RMEM_QUEUE_MAX_SECT_SIZE : Z := 1024.
Definition DEVICE_NAME_LEN : Z := 32.
Definition ONE_GB : Z := 1024 * 1024 * 1024.
Definition CHUNK_SIZE_GB : Z := 1.
Definition MAX_REMOTE_MEMORY_SIZE_GB : Z := 32.
Definition RDMA_READ_WRITE_QUEUE_DEPTH : Z := 16.
Definition MAX_REQUEST_SGL : Z := 64.
(** The page size of the x86-64 kernel the module is built for. *)
Definition PAGE_SIZE : Z := 4096.
Definition ONE_SIEDED_RDMA_BUF_SIZE : Z := MAX_REQUEST_SGL * PAGE_SIZE.
Definition GB_SHIFT : Z := 30.
Definition CHUNK_SHIFT : Z := GB_SHIFT + ilog2 CHUNK_SIZE_GB.
(** [(1 << CHUNK_SHIFT) - 1], an [int] expression. *)
Definition CHUNK_MASK : Z := i32 (i32 (Z.shiftl 1 CHUNK_SHIFT) - 1).
Definition RMEM_LOGICAL_SECT_SHIFT : Z := ilog2 RMEM_LOGICAL_SECT_SIZE.
(** [ONE_GB / RMEM_PHY_SECT_SIZE * MAX_REMOTE_MEMORY_SIZE_GB], where the
    unparenthesised [ONE_GB] expands to a product. *)
Definition RMEM_SIZE_IN_PHY_SECT : Z :=
  u64 (1024 * 1024 * 1024 / RMEM_PHY_SECT_SIZE * MAX_REMOTE_MEMORY_SIZE_GB).
(** Number of entries of the message's [buf] and [rkey] arrays. *)
Definition MAX_CHUNKS : Z := MAX_REMOTE_MEMORY_SIZE_GB / CHUNK_SIZE_GB.

(** ** Enumerations *)

Inductive rdma_session_context_state :=
| IDLE | CONNECT_REQUEST | ADDR_RESOLVED | ROUTE_RESOLVED | CONNECTED
| FREE_MEM_RECV | RECEIVED_CHUNKS | RDMA_BUF_ADV | WAIT_OPS | RECV_STOP
| RECV_EVICT | RDMA_WRITE_RUNNING | RDMA_READ_RUNNING | SEND_DONE | RDMA_DONE
| RDMA_READ_ADV | RDMA_WRITE_ADV | CM_DISCONNECT | ERROR | TEST_DONE.

#[export] Instance rdma_session_context_state_dec :
  EqDecision rdma_session_context_state.
Proof. solve_decision. Defined.

(** The enumerators' values: [IDLE = 1] and consecutive from there. *)
Definition state_code (s : rdma_session_context_state) : Z :=
  match s with
  | IDLE => 1 | CONNECT_REQUEST => 2 | ADDR_RESOLVED => 3 | ROUTE_RESOLVED => 4
  | CONNECTED => 5 | FREE_MEM_RECV => 6 | RECEIVED_CHUNKS => 7
  | RDMA_BUF_ADV => 8 | WAIT_OPS => 9 | RECV_STOP => 10 | RECV_EVICT => 11
  | RDMA_WRITE_RUNNING => 12 | RDMA_READ_RUNNING => 13 | SEND_DONE => 14
  | RDMA_DONE => 15 | RDMA_READ_ADV => 16 | RDMA_WRITE_ADV => 17
  | CM_DISCONNECT => 18 | ERROR => 19 | TEST_DONE => 20
  end.

Inductive mem_type := DMA | FASTREG | MW | MR.

#[export] Instance mem_type_dec : EqDecision mem_type.
Proof. solve_decision. Defined.

Inductive message_type :=
| DONE | GOT_CHUNKS | GOT_SINGLE_CHUNK | FREE_SIZE | EVICT | ACTIVITY | STOP
| REQUEST_CHUNKS | REQUEST_SINGLE_CHUNK | QUERY.

#[export] Instance message_type_dec : EqDecision message_type.
Proof. solve_decision. Defined.

Definition message_type_code (t : message_type) : Z :=
  match t with
  | DONE => 1 | GOT_CHUNKS => 2 | GOT_SINGLE_CHUNK => 3 | FREE_SIZE => 4
  | EVICT => 5 | ACTIVITY => 6 | STOP => 7 | REQUEST_CHUNKS => 8
  | REQUEST_SINGLE_CHUNK => 9 | QUERY => 10
  end.

(** The enumerator a received [type] field stands for, if any. *)
Definition message_type_of_code (z : Z) : option message_type :=
  match z with
  | 1 => Some DONE | 2 => Some GOT_CHUNKS | 3 => Some GOT_SINGLE_CHUNK
  | 4 => Some FREE_SIZE | 5 => Some EVICT | 6 => Some ACTIVITY | 7 => Some STOP
  | 8 => Some REQUEST_CHUNKS | 9 => Some REQUEST_SINGLE_CHUNK | 10 => Some QUERY
  | _ => None
  end.

Inductive chunk_mapping_state := EMPTY | MAPPED.

#[export] Instance chunk_mapping_state_dec : EqDecision chunk_mapping_state.
Proof. solve_decision. Defined.

(** ** Pointers *)

(** What a kernel function returning a pointer gives back: [NULL], an
    address, or an error pointer [ERR_PTR(-e)] carrying an errno [e]. *)
Inductive kptr := KNull | KPtr (a : Z) | KErr (e : positive).

#[export] Instance kptr_dec : EqDecision kptr.
Proof. solve_decision. Defined.

Definition IS_ERR (p : kptr) : bool := match p with KErr _ => true | _ => false end.
Definition PTR_ERR (p : kptr) : Z := match p with KErr e => Z.neg e | KPtr a => a | KNull => 0 end.

(** A pointer to heap data the driver owns: [NULL], or an address with the
    data stored there. *)
Definition cptr (A : Type) : Type := option (Z * A).

(** A pointer to a [struct rmem_rdma_command], as stored in [wr_id]: [NULL] or
    the command's queue and position in the queue's list. *)
Definition cmd_ref : Type := option (Z * Z).

(** ** Messages and chunks *)

Record message := mkMessage {
  msg_buf : list Z;        (* uint64_t buf[32], network byte order *)
  msg_rkey : list Z;       (* uint32_t rkey[32], network byte order *)
  msg_size_gb : Z;         (* int *)
  msg_type : Z             (* enum message_type *)
}.
#[export] Instance message_eta : Eta message :=
  λ r, mkMessage (msg_buf r) (msg_rkey r) (msg_size_gb r) (msg_type r).

(** [sizeof(struct message)]: two arrays and two 4-byte fields, no padding. *)
Definition sizeof_message : Z := 8 * MAX_CHUNKS + 4 * MAX_CHUNKS + 4 + 4.

(** A freshly zeroed message ([kzalloc]). *)
Definition zero_message : message :=
  mkMessage (replicate (Z.to_nat MAX_CHUNKS) 0) (replicate (Z.to_nat MAX_CHUNKS) 0) 0 0.

Record remote_mapping_chunk := mkChunk {
  remote_rkey : Z;
  remote_addr : Z;
  chunk_state : chunk_mapping_state
}.
#[export] Instance remote_mapping_chunk_eta : Eta remote_mapping_chunk :=
  λ r, mkChunk (remote_rkey r) (remote_addr r) (chunk_state r).

Record remote_mapping_chunk_list := mkChunkList {
  remote_chunk : cptr (list remote_mapping_chunk);
  remote_free_size_gb : Z;
  chunk_num : Z;
  chunk_ptr : Z
}.
#[export] Instance remote_mapping_chunk_list_eta : Eta remote_mapping_chunk_list :=
  λ r, mkChunkList (remote_chunk r) (remote_free_size_gb r) (chunk_num r) (chunk_ptr r).

(** ** Block layer requests *)

Record bio := mkBio {
  bi_phys_segments : Z;
  bi_data : list Z         (* the bytes [bio_data] points at *)
}.

Record request := mkRequest {
  rq_tag : Z;
  rq_write : bool;         (* rq_data_dir(rq) == WRITE *)
  rq_pos : Z;              (* blk_rq_pos, in sectors *)
  rq_bytes : Z;            (* blk_rq_bytes *)
  rq_nr_phys_segments : Z;
  rq_bio : list bio;       (* the bio list, [] when rq->bio is NULL *)
  rq_errors : Z
}.

(** ** One-sided RDMA commands and their queues *)

Record ib_sge := mkSge { sge_addr : Z; sge_length : Z; sge_lkey : Z }.
#[export] Instance ib_sge_eta : Eta ib_sge :=
  λ r, mkSge (sge_addr r) (sge_length r) (sge_lkey r).

Inductive ib_opcode := IB_WR_NONE | IB_WR_SEND | IB_WR_RDMA_WRITE | IB_WR_RDMA_READ.

#[export] Instance ib_opcode_dec : EqDecision ib_opcode.
Proof. solve_decision. Defined.

(** [struct ib_rdma_wr]; its [sg_list] points at the command's own
    [rdma_sgl], recorded by [wr_sg_own]. *)
Record ib_rdma_wr := mkWr {
  wr_id : cmd_ref;
  wr_opcode : ib_opcode;
  wr_signaled : bool;      (* send_flags == IB_SEND_SIGNALED *)
  wr_sg_own : bool;
  wr_num_sge : Z;
  wr_remote_addr : Z;
  wr_rkey : Z
}.
#[export] Instance ib_rdma_wr_eta : Eta ib_rdma_wr :=
  λ r, mkWr (wr_id r) (wr_opcode r) (wr_signaled r) (wr_sg_own r) (wr_num_sge r)
            (wr_remote_addr r) (wr_rkey r).

Record rmem_rdma_command := mkCmd {
  rdma_sq_wr : ib_rdma_wr;
  rdma_sgl : ib_sge;
  rdma_buf : kptr;
  rdma_dma_addr : Z;
  io_rq : option request;
  free_state : Z
}.
#[export] Instance rmem_rdma_command_eta : Eta rmem_rdma_command :=
  λ r, mkCmd (rdma_sq_wr r) (rdma_sgl r) (rdma_buf r) (rdma_dma_addr r) (io_rq r)
             (free_state r).

(** A freshly zeroed command ([kzalloc]). *)
Definition zero_cmd : rmem_rdma_command :=
  mkCmd (mkWr None IB_WR_NONE false false 0 0 0) (mkSge 0 0 0) KNull 0 None 0.

Record rmem_rdma_queue := mkQueue {
  rmem_rdma_cmd_list : cptr (list rmem_rdma_command);
  rdma_queue_depth : Z;
  cmd_ptr : Z;
  q_index : Z;
  q_rdma_session : bool    (* rdma_session points at rdma_session_global *)
}.
#[export] Instance rmem_rdma_queue_eta : Eta rmem_rdma_queue :=
  λ r, mkQueue (rmem_rdma_cmd_list r) (rdma_queue_depth r) (cmd_ptr r) (q_index r)
               (q_rdma_session r).

Definition zero_queue : rmem_rdma_queue := mkQueue None 0 0 0 false.

(** ** The RDMA session *)

Record rdma_session_context := mkSession {
  cm_id : kptr;
  cq : kptr;
  pd : kptr;
  qp : kptr;
  port : Z;
  addr : Z;                (* the IPv4 address in4_pton stores *)
  addr_type : Z;
  txdepth : Z;
  state : rdma_session_context_state;
  freed : Z;               (* uint8_t *)
  rq_wr_num_sge : Z;       (* rq_wr, bound to recv_sgl *)
  recv_sgl : ib_sge;
  recv_buf : cptr message;
  recv_dma_addr : Z;
  sq_wr_opcode : ib_opcode;  (* sq_wr, bound to send_sgl *)
  sq_wr_num_sge : Z;
  send_sgl : ib_sge;
  send_buf : cptr message;
  send_dma_addr : Z;
  dma_mr : kptr;
  mem : option mem_type;
  rmem_rdma_queue_list : cptr (list rmem_rdma_queue);
  remote_chunk_list : remote_mapping_chunk_list;
  s_rmem_dev_ctrl : bool   (* rmem_dev_ctrl points at rmem_dev_ctrl_global *)
}.
#[export] Instance rdma_session_context_eta : Eta rdma_session_context :=
  λ r, mkSession (cm_id r) (cq r) (pd r) (qp r) (port r) (addr r) (addr_type r)
    (txdepth r) (state r) (freed r) (rq_wr_num_sge r) (recv_sgl r) (recv_buf r)
    (recv_dma_addr r) (sq_wr_opcode r) (sq_wr_num_sge r) (send_sgl r) (send_buf r)
    (send_dma_addr r) (dma_mr r) (mem r) (rmem_rdma_queue_list r)
    (remote_chunk_list r) (s_rmem_dev_ctrl r).

(** ** The block device controller *)

Record gendisk := mkDisk {
  gd_major : Z;
  gd_first_minor : Z;
  gd_fops : bool;          (* fops == &rmem_device_ops *)
  gd_queue : kptr;
  gd_private_data : bool;  (* private_data == rmem_dev_ctrl *)
  gd_disk_name : list ascii;
  gd_capacity : Z          (* set_capacity, in 512-byte sectors *)
}.
#[export] Instance gendisk_eta : Eta gendisk :=
  λ r, mkDisk (gd_major r) (gd_first_minor r) (gd_fops r) (gd_queue r)
              (gd_private_data r) (gd_disk_name r) (gd_capacity r).

Record blk_mq_tag_set := mkTagSet {
  ts_ops : bool;           (* ops == &rmem_mq_ops *)
  ts_nr_hw_queues : Z;
  ts_queue_depth : Z;
  ts_numa_node : Z;
  ts_cmd_size : Z;
  ts_should_merge : bool;  (* flags == BLK_MQ_F_SHOULD_MERGE *)
  ts_driver_data : bool    (* driver_data == rmem_dev_ctrl *)
}.
#[export] Instance blk_mq_tag_set_eta : Eta blk_mq_tag_set :=
  λ r, mkTagSet (ts_ops r) (ts_nr_hw_queues r) (ts_queue_depth r) (ts_numa_node r)
                (ts_cmd_size r) (ts_should_merge r) (ts_driver_data r).

(** The limits the driver sets on its [request_queue]. *)
Record queue_limits := mkLimits {
  ql_queuedata : bool;     (* queuedata == rmem_dev_ctrl *)
  ql_logical_block_size : Z;
  ql_physical_block_size : Z;
  ql_max_hw_sectors : Z
}.

Record rmem_device_control := mkDev {
  major : Z;
  disk : cptr gendisk;
  queue : kptr;
  queue_lim : queue_limits;
  tag_set : blk_mq_tag_set;
  queue_depth : Z;
  nr_queues : Z;
  dev_name : list ascii;   (* char dev_name[32] *)
  dev_freed : Z;
  d_rdma_session : bool    (* rdma_session points at rdma_session_global *)
}.
#[export] Instance rmem_device_control_eta : Eta rmem_device_control :=
  λ r, mkDev (major r) (disk r) (queue r) (queue_lim r) (tag_set r) (queue_depth r)
             (nr_queues r) (dev_name r) (dev_freed r) (d_rdma_session r).

(** ** Static initial values

    The two globals are zero-initialised C objects.  The zero of the [state]
    field is no enumerator; the field is assigned before it is first read, and
    [IDLE] stands for it here. *)

Definition zero_session : rdma_session_context :=
  mkSession KNull KNull KNull KNull 0 0 0 0 IDLE 0 0 (mkSge 0 0 0) None 0
    IB_WR_NONE 0 (mkSge 0 0 0) None 0 KNull None None (mkChunkList None 0 0 0) false.

Definition zero_dev : rmem_device_control :=
  mkDev 0 None KNull (mkLimits false 0 0 0) (mkTagSet false 0 0 0 0 false false) 0 0
    (replicate (Z.to_nat DEVICE_NAME_LEN) zero) 0 false.
