(* ===== verification/Kernel.v ===== *)
(** * The kernel interface and the monads of the driver

    The driver is written against the Linux kernel (RDMA CM, verbs, the
    multi-queue block layer, the slab allocator), which is not part of the
    repository.  The kernel is the parameter [kernel]: for every call it gives
    a result that may depend on all calls made so far, so that a theorem
    proved for every [kernel] holds for every behaviour of it.  Each call is
    recorded, with its arguments, in the trace of the [world].

    [M] is the monad of code that runs without blocking: it reads and writes
    the world and may end in a [fault] (a kernel oops or an endless spin).
    [P] adds the blocking of [wait_event_interruptible]: a computation may
    suspend with a wake-up condition and is resumed in a later world.  A
    computation that may be overtaken by other contexts between two accesses to
    shared state, although it waits for nothing, suspends with a condition that
    always holds ([yield]); [calm] is the run in which nobody overtakes it. *)

From S2P Require Import Prelude BitOps OctTypes.

(** ** Calls *)

Inductive kcall :=
(* RDMA connection manager *)
| K_rdma_create_id
| K_rdma_resolve_addr (ip port timeout : Z)
| K_rdma_resolve_route (timeout : Z)
| K_rdma_connect (responder_resources initiator_depth retry_count : Z)
| K_rdma_disconnect (id : kptr)
| K_rdma_create_qp (max_send_wr max_recv_wr : Z)
| K_rdma_destroy_id (id : kptr)
(* verbs *)
| K_ib_alloc_pd
| K_ib_create_cq (cqe : Z)
| K_get_dma_mr
| K_ib_dma_map_single (buf len : Z)
| K_ib_req_notify_cq (p : kptr)
| K_ib_post_recv (sge : ib_sge)
| K_ib_post_send_msg (sge : ib_sge) (m : message)
| K_ib_post_send_rdma (wr : ib_rdma_wr) (sge : ib_sge)
| K_ib_destroy_qp (p : kptr)
| K_ib_destroy_cq (p : kptr)
| K_ib_dealloc_pd (p : kptr)
| K_ib_dereg_mr (p : kptr)
(* memory, scheduling, strings *)
| K_kzalloc (size : Z)
| K_kmalloc (size : Z)
| K_kfree (a : Z)
| K_wake_up
| K_get_cpu
| K_put_cpu
| K_in4_pton
(* block layer *)
| K_blk_mq_start_request (tag : Z)
| K_blk_mq_end_request (tag errors : Z)
| K_blk_mq_alloc_tag_set (ts : blk_mq_tag_set)
| K_blk_mq_free_tag_set
| K_blk_mq_init_queue
| K_blk_cleanup_queue (q : kptr)
| K_alloc_disk_node
| K_add_disk (capacity : Z)
| K_del_gendisk (disk : Z)
| K_put_disk (disk : Z)
| K_register_blkdev
| K_unregister_blkdev (maj : Z).

(** ** Events and completions of the kernel *)

Inductive rdma_cm_event :=
| RDMA_CM_EVENT_ADDR_RESOLVED | RDMA_CM_EVENT_ADDR_ERROR | RDMA_CM_EVENT_ROUTE_RESOLVED
| RDMA_CM_EVENT_ROUTE_ERROR | RDMA_CM_EVENT_CONNECT_REQUEST | RDMA_CM_EVENT_CONNECT_RESPONSE
| RDMA_CM_EVENT_CONNECT_ERROR | RDMA_CM_EVENT_UNREACHABLE | RDMA_CM_EVENT_REJECTED
| RDMA_CM_EVENT_ESTABLISHED | RDMA_CM_EVENT_DISCONNECTED | RDMA_CM_EVENT_DEVICE_REMOVAL
| RDMA_CM_EVENT_MULTICAST_JOIN | RDMA_CM_EVENT_MULTICAST_ERROR | RDMA_CM_EVENT_ADDR_CHANGE
| RDMA_CM_EVENT_TIMEWAIT_EXIT.

Inductive ib_wc_opcode := IB_WC_SEND | IB_WC_RDMA_WRITE | IB_WC_RDMA_READ | IB_WC_RECV | IB_WC_OTHER.

(** A work completion; one for a receive comes with the message the HCA has
    put into the receive buffer. *)
Record ib_wc := mkWc {
  wc_status : Z;           (* IB_WC_SUCCESS is 0 *)
  wc_opcode : ib_wc_opcode;
  wc_byte_len : Z;
  wc_wr_id : cmd_ref;
  wc_data : option message
}.

(** ** The kernel as a parameter *)

Class kernel := mkKernel {
  k_int : list kcall → kcall → Z;      (* results of integer calls *)
  k_ptr : list kcall → kcall → kptr;   (* results of pointer calls *)
  k_qp : kptr;                         (* cm_id->qp after rdma_create_qp *)
  k_local_dma_lkey : Z;                (* qp->device->local_dma_lkey *)
  k_mr_lkey : Z;                       (* dma_mr->lkey *)
  k_num_online_cpus : Z;
  k_sizeof_cmd : Z;                    (* sizeof(struct rmem_rdma_command) *)
  k_sizeof_queue : Z                   (* sizeof(struct rmem_rdma_queue) *)
}.

(** ** State, faults and the two monads *)

Record world := mkWorld {
  w_sess : rdma_session_context;       (* rdma_session_global *)
  w_dev : rmem_device_control;         (* rmem_dev_ctrl_global *)
  w_rmem_major_num : Z;
  w_online_cores : Z;
  w_rmda_ops_count : Z;
  w_cq_notify_count : Z;
  w_cq_get_count : Z;
  w_trace : list kcall                 (* oldest call first *)
}.
#[export] Instance world_eta : Eta world :=
  λ r, mkWorld (w_sess r) (w_dev r) (w_rmem_major_num r) (w_online_cores r)
    (w_rmda_ops_count r) (w_cq_notify_count r) (w_cq_get_count r) (w_trace r).

(** The world when the module is loaded. *)
Definition world0 : world := mkWorld zero_session zero_dev 0 0 0 0 0 [].

Inductive fault :=
| NullDeref       (* dereference of NULL *)
| BadPtr          (* dereference of an error pointer *)
| OutOfBounds     (* array access outside the allocation *)
| BugOn           (* BUG_ON *)
| UseAfterFree    (* access to freed memory *)
| Spin            (* a loop that never ends *)
| Blocked         (* a wait for what never comes *)
| SignedOverflow. (* an int leaves its range *)

Inductive res (A : Type) :=
| Ret (a : A) (w : world)
| Oops (f : fault).
Arguments Ret {A} a w.
Arguments Oops {A} f.

Definition M (A : Type) : Type := world → res A.

#[export] Instance M_ret : MRet M := λ A a w, Ret a w.
#[export] Instance M_bind : MBind M := λ A B k m w,
  match m w with
  | Ret a w' => k a w'
  | Oops f => Oops f
  end.

Inductive susp (A : Type) :=
| Finished (a : A) (w : world)
| Waiting (cond : rdma_session_context_state → bool) (w : world) (k : world → susp A)
| Crashed (f : fault).
Arguments Finished {A} a w.
Arguments Waiting {A} cond w k.
Arguments Crashed {A} f.

Definition P (A : Type) : Type := world → susp A.

Fixpoint susp_bind {A B} (s : susp A) (k : A → world → susp B) : susp B :=
  match s with
  | Finished a w => k a w
  | Waiting c w r => Waiting c w (λ w', susp_bind (r w') k)
  | Crashed f => Crashed f
  end.

#[export] Instance P_ret : MRet P := λ A a w, Finished a w.
#[export] Instance P_bind : MBind P := λ A B k m w, susp_bind (m w) k.

(** Code that does not block, as code that may. *)
Definition lift {A} (m : M A) : P A := λ w,
  match m w with
  | Ret a w' => Finished a w'
  | Oops f => Crashed f
  end.

(** ** Primitives *)

Section Primitives.
Context {K : kernel}.

Definition gets {A} (f : world → A) : M A := λ w, Ret (f w) w.
Definition modify (f : world → world) : M unit := λ w, Ret tt (f w).
Definition sess {A} (f : rdma_session_context → A) : M A := λ w, Ret (f (w_sess w)) w.
Definition dev {A} (f : rmem_device_control → A) : M A := λ w, Ret (f (w_dev w)) w.
Definition set_sess (f : rdma_session_context → rdma_session_context) : M unit :=
  modify (λ w, w <| w_sess ::= f |>).
Definition set_dev (f : rmem_device_control → rmem_device_control) : M unit :=
  modify (λ w, w <| w_dev ::= f |>).
Definition oops {A} (f : fault) : M A := λ _, Oops f.

(** A call with an integer result, a pointer result, or none. *)
Definition call_int (c : kcall) : M Z := λ w,
  Ret (k_int (w_trace w) c) (w <| w_trace ::= (.++ [c]) |>).
Definition call_ptr (c : kcall) : M kptr := λ w,
  Ret (k_ptr (w_trace w) c) (w <| w_trace ::= (.++ [c]) |>).
Definition call (c : kcall) : M unit :=
  modify (λ w, w <| w_trace ::= (.++ [c]) |>).

(** [kzalloc] of data whose zeroed value is [init]. *)
Definition kzalloc {A} (size : Z) (init : A) : M (cptr A) :=
  p ← call_ptr (K_kzalloc size);
  mret (match p with KPtr a => Some (a, init) | _ => None end).

(** Dereference of a kernel pointer. *)
Definition deref (p : kptr) : M Z :=
  match p with
  | KPtr a => mret a
  | KNull => oops NullDeref
  | KErr _ => oops BadPtr
  end.

(** The value behind a pointer, and array accesses; failures are faults. *)
Definition deref_opt {A} (p : option A) : M A :=
  match p with Some a => mret a | None => oops NullDeref end.
Definition in_bounds {A} (p : option A) : M A :=
  match p with Some a => mret a | None => oops OutOfBounds end.

(** [for (i = i0; i < i0 + n; i++) body], the body saying whether to go on
    ([break] is [false]). *)
Fixpoint for_loop (n : nat) (i : Z) (body : Z → M bool) : M unit :=
  match n with
  | O => mret tt
  | S n => go ← body i; if go : bool then for_loop n (i + 1) body else mret tt
  end.

(** [wait_event_interruptible(sem, cond(state))]: no suspension when the
    condition holds already.  The resumption does not assume the condition:
    the caller may have been woken by a signal, whose return code the driver
    ignores. *)
Definition wait_event (cond : rdma_session_context_state → bool) : P unit := λ w,
  if cond (state (w_sess w)) then Finished tt w
  else Waiting cond w (Finished tt).

(** A point between two accesses to shared state where no lock is held: other
    contexts may run here, and the computation may go on at once. *)
Definition yield : P unit := λ w, Waiting (λ _, true) w (Finished tt).

End Primitives.

(** The computation up to its end or to a wait for something that has not
    come: wherever it may go on at once, it does, in the world it has left. *)
Fixpoint calm {A} (s : susp A) : susp A :=
  match s with
  | Waiting c w k => if c (state (w_sess w)) then calm (k w) else Waiting c w k
  | s => s
  end.

(** ** Lemmas on the monads *)

Lemma M_bind_Ret {A B} (m : M A) (k : A → M B) w b w' :
  (m ≫= k) w = Ret b w' ↔ ∃ a w1, m w = Ret a w1 ∧ k a w1 = Ret b w'.
Proof.
  unfold mbind, M_bind. destruct (m w) as [a w1|f].
  - split; [eauto|]. by intros (? & ? & [= <- <-] & ?).
  - split; [done|]. by intros (? & ? & ? & ?).
Qed.

Lemma M_bind_unfold {A B} (m : M A) (k : A → M B) w :
  (m ≫= k) w = match m w with Ret a w' => k a w' | Oops f => Oops f end.
Proof. reflexivity. Qed.

(** What a bind does once its first part is known to return. *)
Lemma M_bind_step {A B} (m : M A) (k : A → M B) w a w1 :
  m w = Ret a w1 → (m ≫= k) w = k a w1.
Proof. unfold mbind, M_bind. by intros ->. Qed.

Lemma M_bind_oops {A B} (m : M A) (k : A → M B) w f :
  m w = Oops f → (m ≫= k) w = Oops f.
Proof. unfold mbind, M_bind. by intros ->. Qed.

(** [mstep] runs the first primitive of the computation in the goal. *)
Ltac mstep :=
  match goal with
  | |- context C [@mbind M M_bind ?A ?B ?k ?m ?w] =>
      let r := eval hnf in (m w) in
      lazymatch r with
      | Ret ?a ?w1 => let g := context C [k a w1] in change g; cbv beta zeta
      | Oops ?f => let g := context C [@Oops B f] in change g
      end
  end.

(** [minv H] takes apart a hypothesis [H] that a computation returned. *)
Ltac minv H :=
  repeat lazymatch type of H with
  | (?m ≫= ?k) ?w = Ret _ _ =>
      let a := fresh "a" in let w1 := fresh "w" in let H1 := fresh "Hs" in
      apply M_bind_Ret in H as (a & w1 & H1 & H)
  end.

(** [mrun] takes apart every hypothesis that a computation returned, down to
    the primitives and the cases they distinguish. *)
Ltac mprim H :=
  progress unfold sess, dev, gets, set_sess, set_dev, modify, mret, M_ret, deref_opt, in_bounds,
    deref, oops, call, call_int, call_ptr in H.
Ltac mrun :=
  repeat match goal with
  | H : mbind _ _ _ = Ret _ _ |- _ =>
      let H1 := fresh "Hs" in apply M_bind_Ret in H as (? & ? & H1 & H)
  | H : Ret _ _ = Ret _ _ |- _ => injection H; clear H; intros; subst
  | H : Oops _ = Ret _ _ |- _ => discriminate H
  | H : _ = Ret _ _ |- _ => mprim H
  | H : (match ?x with _ => _ end) _ = Ret _ _ |- _ => let E := fresh "E" in destruct x eqn:E
  | H : (match ?x with _ => _ end) = Ret _ _ |- _ => let E := fresh "E" in destruct x eqn:E
  end.

Lemma susp_bind_lift {A B} (m : M A) (k : A → P B) w :
  susp_bind (lift m w) k =
  match m w with Ret a w' => k a w' | Oops f => Crashed f end.
Proof. unfold lift. by destruct (m w). Qed.

(** A loop whose body keeps [I] (indexed by the loop variable) and always
    returns ends in a world where [I] holds at the exit index. *)
Lemma for_loop_inv (I : Z → world → Prop) (body : Z → M bool) n i w :
  I i w →
  (∀ j v, i <= j < i + Z.of_nat n → I j v →
     ∃ v', body j v = Ret true v' ∧ I (j + 1) v') →
  ∃ w', for_loop n i body w = Ret tt w' ∧ I (i + Z.of_nat n) w'.
Proof.
  revert i w. induction n as [|n IH]; intros i w Hi Hbody; cbn [for_loop].
  { exists w. rewrite Z.add_0_r. done. }
  destruct (Hbody i w) as (v' & Hv & Hv'); [lia|done|].
  rewrite (M_bind_step _ _ _ _ _ Hv).
  destruct (IH (i + 1) v') as (w' & Hw & Hw'); [done| |].
  { intros j v Hj. apply Hbody. lia. }
  exists w'. split; [done|]. by replace (i + Z.of_nat (S n)) with (i + 1 + Z.of_nat n) by lia.
Qed.

Lemma for_loop_0 i body w : for_loop 0 i body w = Ret tt w.
Proof. reflexivity. Qed.

(** A loop pass that goes on, and one that breaks. *)
Lemma for_loop_go n i body w w' :
  body i w = Ret true w' → for_loop (S n) i body w = for_loop n (i + 1) body w'.
Proof. intros Hb. cbn [for_loop]. by rewrite (M_bind_step _ _ _ _ _ Hb). Qed.

Lemma for_loop_break n i body w w' :
  body i w = Ret false w' → for_loop (S n) i body w = Ret tt w'.
Proof. intros Hb. cbn [for_loop]. by rewrite (M_bind_step _ _ _ _ _ Hb). Qed.

Lemma for_loop_oops n i body w f :
  body i w = Oops f → for_loop (S n) i body w = Oops f.
Proof. intros Hb. cbn [for_loop]. by apply M_bind_oops. Qed.

#[global] Arguments for_loop : simpl never.

(** ** Preservation

    [pres R m]: whenever [m] returns, the worlds before and after are related
    by [R].  [guar R w s] is the same of a suspended computation: every
    stretch between two suspensions is related by [R], whatever the world it
    is resumed in. *)

Definition pres {A} (R : relation world) (m : M A) : Prop :=
  ∀ w a w', m w = Ret a w' → R w w'.

Fixpoint guar {A} (R : relation world) (w0 : world) (s : susp A) : Prop :=
  match s with
  | Finished _ w => R w0 w
  | Waiting _ w k => R w0 w ∧ ∀ w', guar R w' (k w')
  | Crashed _ => True
  end.

Definition gpres {A} (R : relation world) (p : P A) : Prop := ∀ w, guar R w (p w).

Section Pres.
Context {R : relation world} `{!PreOrder R}.

Lemma pres_ret {A} (a : A) : pres R (mret a : M A).
Proof. intros w b w' [= _ <-]. reflexivity. Qed.

Lemma pres_oops {A} f : pres R (oops f : M A).
Proof. by intros w a w'. Qed.

Lemma pres_bind {A B} (m : M A) (k : A → M B) :
  pres R m → (∀ a, pres R (k a)) → pres R (m ≫= k).
Proof. intros Hm Hk w b w' (a & w1 & H1 & H2)%M_bind_Ret. etrans; [by eapply Hm|by eapply Hk]. Qed.

(** The same, with what is known of the first part's result. *)
Lemma pres_bind_post {A B} (Q : A → Prop) (m : M A) (k : A → M B) :
  pres R m → (∀ w a w', m w = Ret a w' → Q a) → (∀ a, Q a → pres R (k a)) → pres R (m ≫= k).
Proof.
  intros Hm HQ Hk w b w' (a & w1 & H1 & H2)%M_bind_Ret. etrans; [by eapply Hm|]. eapply Hk; [|done].
  by eapply HQ.
Qed.

Lemma pres_gets {A} (f : world → A) : pres R (gets f).
Proof. intros w b w' [= _ <-]. reflexivity. Qed.

Lemma pres_sess {A} (f : rdma_session_context → A) : pres R (sess f).
Proof. intros w b w' [= _ <-]. reflexivity. Qed.

Lemma pres_dev {A} (f : rmem_device_control → A) : pres R (dev f).
Proof. intros w b w' [= _ <-]. reflexivity. Qed.

Lemma pres_deref p : pres R (deref p).
Proof. destruct p; [apply pres_oops|apply pres_ret|apply pres_oops]. Qed.

Lemma pres_deref_opt {A} (p : option A) : pres R (deref_opt p).
Proof. destruct p; [apply pres_ret|apply pres_oops]. Qed.

Lemma pres_in_bounds {A} (p : option A) : pres R (in_bounds p).
Proof. destruct p; [apply pres_ret|apply pres_oops]. Qed.

Lemma pres_for_loop n i body : (∀ j, pres R (body j)) → pres R (for_loop n i body).
Proof.
  intros Hb. revert i. induction n as [|n IH]; intros i; [apply pres_ret|]. cbn [for_loop].
  apply pres_bind; [done|]. intros [|]; [apply IH|apply pres_ret].
Qed.

Lemma guar_bind {A B} w (s : susp A) (k : A → P B) :
  guar R w s → (∀ a, gpres R (k a)) → guar R w (susp_bind s k).
Proof.
  intros Hs Hk. revert w Hs. induction s as [a v|c v r IH|f]; intros w Hs; cbn in *; [|split|done].
  - assert (∀ (t : susp B), guar R v t → guar R w t) as Htr; [|by apply Htr, Hk].
    intros []; cbn; [|intros [? ?]; split|]; try done; by etrans.
  - by destruct Hs.
  - intros w'. by apply IH, Hs.
Qed.

Lemma gpres_bind {A B} (p : P A) (k : A → P B) :
  gpres R p → (∀ a, gpres R (k a)) → gpres R (p ≫= k).
Proof. intros Hp Hk w. by apply guar_bind. Qed.

Lemma gpres_ret {A} (a : A) : gpres R (mret a : P A).
Proof. intros w. cbn. reflexivity. Qed.

Lemma gpres_lift {A} (m : M A) : pres R m → gpres R (lift m).
Proof. intros Hm w. unfold lift. destruct (m w) eqn:E; [|done]. by eapply Hm. Qed.

Lemma gpres_yield : gpres R yield.
Proof. intros w. cbn. split; reflexivity. Qed.

Lemma gpres_wait c : gpres R (wait_event c).
Proof. intros w. unfold wait_event. case_match; cbn; [|split]; reflexivity. Qed.

End Pres.

Lemma pres_weaken {A} (R R' : relation world) (m : M A) :
  (∀ w w', R w w' → R' w w') → pres R m → pres R' m.
Proof. intros HR Hm w a w' H. eapply HR, Hm, H. Qed.

Lemma gpres_weaken {A} (R R' : relation world) (p : P A) :
  (∀ w w', R w w' → R' w w') → gpres R p → gpres R' p.
Proof.
  intros HR Hp w. specialize (Hp w). revert Hp. generalize (p w) as s. intros s. revert w.
  induction s as [a v|c v r IH|f]; intros w; cbn; [apply HR| |done].
  intros [H1 H2]. split; [by apply HR|]. intros w'. by apply IH.
Qed.

(** [pres_go] proves preservation along the structure of a computation; the
    database [pres] holds what is known of the operations it calls. *)
Create HintDb pres.
#[export] Hint Resolve pres_ret pres_oops pres_gets pres_sess pres_dev pres_deref pres_deref_opt
  pres_in_bounds gpres_ret gpres_wait gpres_yield : pres.
#[export] Hint Extern 0 (PreOrder _) => apply _ : pres.

Ltac pres_go :=
  repeat first
    [ solve [auto with pres nocore]
    | apply pres_bind; [|intros ?]
    | apply pres_for_loop; intros ?
    | apply gpres_bind; [|intros ?]
    | apply gpres_lift
    | match goal with
      | |- pres _ (match ?x with _ => _ end) => destruct x
      | |- gpres _ (match ?x with _ => _ end) => destruct x
      end ].

(** A kernel in which every call succeeds and allocations get distinct
    addresses, for evaluating the definitions on concrete inputs. *)
Definition kernel_ok : kernel := {|
  k_int := λ _ c, match c with K_in4_pton => 1 | _ => 0 end;
  k_ptr := λ tr _, KPtr (4096 * (1 + Z.of_nat (length tr)));
  k_qp := KPtr 64;
  k_local_dma_lkey := 7;
  k_mr_lkey := 8;
  k_num_online_cpus := 2;
  k_sizeof_cmd := 120;
  k_sizeof_queue := 40
|}.
