(* ===== verification/Names.v ===== *)
(** * Debug names

    The four functions of [rdma_client.c] that turn codes into names:
    [rdma_cm_message_print], [rdma_wc_status_name], [rdma_message_print] and
    [rdma_session_context_state_print].  Each copies a literal into a fresh
    buffer of 32 bytes that it returns; the event handlers call them while
    printing, and nothing frees the buffer.

    The file also holds the C strings the driver uses.  The theorems show that
    every name fits its buffer and reads back, and that distinct codes of an
    enumeration have distinct names, the last session state excepted. *)

From Stdlib Require Import Ascii String.
From S2P Require Import Prelude BitOps OctTypes Kernel.

(** ** C strings *)

(** The array [dst] after its first bytes have been replaced by [src]. *)
Definition overwrite (src dst : list ascii) : list ascii :=
  take (length dst) src ++ drop (length src) dst.

(** The bytes of a string literal, with its terminating zero. *)
Definition c_str (s : string) : list ascii := list_ascii_of_string s ++ [Ascii.zero].

(** The C string in a byte array: up to the first zero byte, [None] when there
    is none. *)
Fixpoint c_string (l : list ascii) : option (list ascii) :=
  match l with
  | [] => None
  | c :: l => if decide (c = Ascii.zero) then Some [] else cons c <$> c_string l
  end.

(** [strcpy] of a literal into an array. *)
Definition strcpy (dst : list ascii) (s : string) : M (list ascii) :=
  if decide (length (c_str s) <= length dst)%nat then mret (overwrite (c_str s) dst)
  else oops OutOfBounds.

(** ** The tables *)

Definition cm_message_name (id : Z) : string :=
  match id with
  | 0 => "RDMA_CM_EVENT_ADDR_RESOLVED"
  | 1 => "RDMA_CM_EVENT_ADDR_ERROR"
  | 2 => "RDMA_CM_EVENT_ROUTE_RESOLVED"
  | 3 => "RDMA_CM_EVENT_ROUTE_ERROR"
  | 4 => "RDMA_CM_EVENT_CONNECT_REQUEST"
  | 5 => "RDMA_CM_EVENT_CONNECT_RESPONSE"
  | 6 => "RDMA_CM_EVENT_CONNECT_ERROR"
  | 7 => "RDMA_CM_EVENT_UNREACHABLE"
  | 8 => "RDMA_CM_EVENT_REJECTED"
  | 9 => "RDMA_CM_EVENT_ESTABLISHED"
  | 10 => "RDMA_CM_EVENT_DISCONNECTED"
  | 11 => "RDMA_CM_EVENT_DEVICE_REMOVAL"
  | 12 => "RDMA_CM_EVENT_MULTICAST_JOIN"
  | 13 => "RDMA_CM_EVENT_MULTICAST_ERROR"
  | 14 => "RDMA_CM_EVENT_ADDR_CHANGE"
  | 15 => "RDMA_CM_EVENT_TIMEWAIT_EXIT"
  | _ => "ERROR Message Type"
  end.

Definition wc_status_text (id : Z) : string :=
  match id with
  | 0 => "IB_WC_SUCCESS"
  | 1 => "IB_WC_LOC_LEN_ERR"
  | 2 => "IB_WC_LOC_QP_OP_ERR"
  | 3 => "IB_WC_LOC_EEC_OP_ERR"
  | 4 => "IB_WC_LOC_PROT_ERR"
  | 5 => "IB_WC_WR_FLUSH_ERR"
  | 6 => "IB_WC_MW_BIND_ERR"
  | 7 => "IB_WC_BAD_RESP_ERR"
  | 8 => "IB_WC_LOC_ACCESS_ERR"
  | 9 => "IB_WC_REM_INV_REQ_ERR"
  | 10 => "IB_WC_REM_ACCESS_ERR"
  | 11 => "IB_WC_REM_OP_ERR"
  | 12 => "IB_WC_RETRY_EXC_ERR"
  | 13 => "IB_WC_RNR_RETRY_EXC_ERR"
  | 14 => "IB_WC_LOC_RDD_VIOL_ERR"
  | 15 => "IB_WC_REM_INV_RD_REQ_ERR"
  | 16 => "IB_WC_REM_ABORT_ERR"
  | 17 => "IB_WC_INV_EECN_ERR"
  | 18 => "IB_WC_INV_EEC_STATE_ERR"
  | 19 => "IB_WC_FATAL_ERR"
  | 20 => "IB_WC_RESP_TIMEOUT_ERR"
  | 21 => "IB_WC_GENERAL_ERR"
  | _ => "ERROR Message Type"
  end.

Definition message_text (id : Z) : string :=
  match id with
  | 1 => "DONE"
  | 2 => "GOT_CHUNKS"
  | 3 => "GOT_SINGLE_CHUNK"
  | 4 => "FREE_SIZE"
  | 5 => "EVICT"
  | 6 => "ACTIVITY"
  | 7 => "STOP"
  | 8 => "REQUEST_CHUNKS"
  | 9 => "REQUEST_SINGLE_CHUNK"
  | 10 => "QUERY"
  | _ => "ERROR Message Type"
  end.

Definition session_state_text (id : Z) : string :=
  match id with
  | 1 => "IDLE"
  | 2 => "CONNECT_REQUEST"
  | 3 => "ADDR_RESOLVED"
  | 4 => "ROUTE_RESOLVED"
  | 5 => "CONNECTED"
  | 6 => "FREE_MEM_RECV"
  | 7 => "RECEIVED_CHUNKS"
  | 8 => "RDMA_BUF_ADV"
  | 9 => "WAIT_OPS"
  | 10 => "RECV_STOP"
  | 11 => "RECV_EVICT"
  | 12 => "RDMA_WRITE_RUNNING"
  | 13 => "RDMA_READ_RUNNING"
  | 14 => "SEND_DONE"
  | 15 => "RDMA_DONE"
  | 16 => "RDMA_READ_ADV"
  | 17 => "RDMA_WRITE_ADV"
  | 18 => "CM_DISCONNECT"
  | 19 => "ERROR"
  | _ => "Un-defined state."
  end.

(** ** Operations *)

Section Ops.
Context {K : kernel}.

(** The buffer a name is returned in: its address and contents. *)
Definition name_buffer (name : string) : M (Z * list ascii) :=
  p ← kzalloc 32 (replicate 32 Ascii.zero);
  b ← deref_opt p;
  s ← strcpy b.2 name;
  mret (b.1, s).

Definition rdma_cm_message_print (cm_message_id : Z) : M (Z * list ascii) :=
  name_buffer (cm_message_name cm_message_id).
Definition rdma_wc_status_name (wc_status_id : Z) : M (Z * list ascii) :=
  name_buffer (wc_status_text wc_status_id).
Definition rdma_message_print (message_id : Z) : M (Z * list ascii) :=
  name_buffer (message_text message_id).
Definition rdma_session_context_state_print (id : Z) : M (Z * list ascii) :=
  name_buffer (session_state_text id).

End Ops.

(** ** Lemmas *)

Lemma c_string_app n l : Ascii.zero ∉ n → c_string (n ++ Ascii.zero :: l) = Some n.
Proof.
  induction n as [|c n IH]; intros Hn; cbn [app c_string]; [by rewrite decide_True|].
  apply not_elem_of_cons in Hn as [Hc Hn].
  rewrite decide_False by done. by rewrite IH.
Qed.

Lemma c_string_none n : Ascii.zero ∉ n → c_string n = None.
Proof.
  induction n as [|c n IH]; intros Hn; cbn [c_string]; [done|].
  apply not_elem_of_cons in Hn as [Hc Hn]. rewrite decide_False by done. by rewrite IH.
Qed.

(** A name that can be returned: it fits the 32 bytes with its terminator and
    holds no zero byte. *)
Definition name_ok (s : string) : bool :=
  (length (list_ascii_of_string s) <? 32)%nat &&
  bool_decide (Ascii.zero ∉ list_ascii_of_string s).

Lemma name_buffer_run `{K : kernel} s w a :
  name_ok s = true → k_ptr (w_trace w) (K_kzalloc 32) = KPtr a →
  ∃ b, name_buffer s w = Ret (a, b) (w <| w_trace ::= (.++ [K_kzalloc 32]) |>) ∧
    length b = 32%nat ∧ c_string b = Some (list_ascii_of_string s).
Proof.
  unfold name_ok. rewrite andb_true_iff, Nat.ltb_lt, bool_decide_eq_true. intros [Hl Hz] Ha.
  unfold name_buffer, kzalloc. erewrite (M_bind_step (mbind _ _)) by (mstep; rewrite Ha; reflexivity).
  mstep. cbn [fst snd]. unfold strcpy.
  assert (length (c_str s) = S (length (list_ascii_of_string s))) as Hs.
  { unfold c_str. rewrite length_app. cbn. lia. }
  rewrite decide_True by (rewrite length_replicate, Hs; lia). mstep.
  eexists. split; [reflexivity|]. unfold overwrite. rewrite length_replicate.
  rewrite take_ge by lia. split.
  - rewrite length_app, length_drop, length_replicate. lia.
  - unfold c_str. rewrite <- app_assoc. by apply c_string_app.
Qed.

(** A table is in order when all its codes below [n] and above have names that
    can be returned. *)
Lemma name_ok_all (f : Z → string) (n : nat) (z : Z) :
  forallb (λ i, name_ok (f i)) (seqZ 0 (Z.of_nat n)) = true →
  (∀ i, i < 0 ∨ Z.of_nat n <= i → f i = f (-1)) → name_ok (f (-1)) = true → name_ok (f z) = true.
Proof.
  intros Hall Hdef Hd. destruct (decide (0 <= z < Z.of_nat n)) as [Hz|Hz].
  - rewrite forallb_forall in Hall. apply Hall. apply list_elem_of_In, elem_of_seqZ. lia.
  - rewrite Hdef by lia. done.
Qed.

(** A code outside a table: every case of the match but the last is refuted. *)
Ltac outside :=
  intros i Hi; destruct i as [|p|p]; try reflexivity; try lia;
  repeat (match goal with p : positive |- _ => destruct p end; try reflexivity; try lia).

Lemma cm_message_ok z : name_ok (cm_message_name z) = true.
Proof. apply (name_ok_all _ 16); [vm_compute; done|outside|vm_compute; done]. Qed.

Lemma wc_status_ok z : name_ok (wc_status_text z) = true.
Proof. apply (name_ok_all _ 22); [vm_compute; done|outside|vm_compute; done]. Qed.

Lemma message_text_ok z : name_ok (message_text z) = true.
Proof. apply (name_ok_all _ 11); [vm_compute; done|outside|vm_compute; done]. Qed.

Lemma session_state_ok z : name_ok (session_state_text z) = true.
Proof. apply (name_ok_all _ 20); [vm_compute; done|outside|vm_compute; done]. Qed.

(** ** Theorems *)

(** The name functions, for every code: when the buffer can be allocated
    they return it with the name as a terminated C string of at most 32 bytes
    (no name overflows the buffer), and when it cannot they write through
    NULL; the buffer is a fresh allocation each time. *)
Theorem debug_names_fit `{K : kernel} w z :
  (∀ a, k_ptr (w_trace w) (K_kzalloc 32) = KPtr a →
    ∀ f t, (f, t) ∈ [(rdma_cm_message_print, cm_message_name); (rdma_wc_status_name, wc_status_text);
                     (rdma_message_print, message_text);
                     (rdma_session_context_state_print, session_state_text)] →
    ∃ b, f z w = Ret (a, b) (w <| w_trace ::= (.++ [K_kzalloc 32]) |>) ∧
      length b = 32%nat ∧ c_string b = Some (list_ascii_of_string (t z))) ∧
  (k_ptr (w_trace w) (K_kzalloc 32) = KNull →
    rdma_cm_message_print z w = Oops NullDeref ∧ rdma_wc_status_name z w = Oops NullDeref ∧
    rdma_message_print z w = Oops NullDeref ∧ rdma_session_context_state_print z w = Oops NullDeref).
Proof.
  split.
  - intros a Ha f t Hin. rewrite !elem_of_cons in Hin.
    destruct Hin as [[= -> ->]|[[= -> ->]|[[= -> ->]|[[= -> ->]|Hin]]]];
      [..|by apply not_elem_of_nil in Hin].
    all: apply name_buffer_run; auto using cm_message_ok, wc_status_ok, message_text_ok, session_state_ok.
  - intros Hn. assert (∀ s, name_buffer s w = Oops NullDeref) as Hb.
    { intros s. unfold name_buffer, kzalloc.
      erewrite (M_bind_step (mbind _ _)) by (mstep; rewrite Hn; reflexivity). by mstep. }
    split_and!; apply Hb.
Qed.

Lemma debug_names_fit_witness :
  ∃ b, @rdma_message_print kernel_ok 4 world0 = Ret b (world0 <| w_trace := [K_kzalloc 32] |>).
Proof.
  destruct (@debug_names_fit kernel_ok world0 4) as [H _].
  destruct (H 4096 eq_refl (@rdma_message_print kernel_ok) message_text) as (b & Hb & _).
  - do 2 right. left.
  - eexists. exact Hb.
Defined.

(** The names identify the codes: two message types with the same name are
    the same, and so are two session states unless one of them is [TEST_DONE],
    whose name is that of an undefined state. *)
Theorem names_injective :
  (∀ t t', message_text (message_type_code t) = message_text (message_type_code t') → t = t') ∧
  (∀ t, message_text (message_type_code t) ≠ message_text 0) ∧
  (∀ s s', session_state_text (state_code s) = session_state_text (state_code s') → s = s') ∧
  (∀ s, session_state_text (state_code s) = session_state_text 0 ↔ s = TEST_DONE).
Proof.
  split_and!.
  - intros [] []; vm_compute; congruence.
  - intros []; vm_compute; congruence.
  - intros [] []; vm_compute; congruence.
  - intros []; vm_compute; split; congruence.
Qed.
