(* ===== verification/ChunkList.v ===== *)
(** * The table of remote chunks

    [init_remote_chunk_list] and [bind_remote_memory_chunks] of
    [rdma_client.c]: the client's table that maps the chunks of the block
    device to memory of the remote server.  The table is allocated when the
    server announces its free size and filled from the [buf]/[rkey] arrays of
    a chunk message.

    [received m] is the specification of what a chunk message carries: the
    pairs of address and key of its non-empty entries, in order, in host byte
    order.  The theorems show that initialisation gives an empty table of the
    announced size, that binding appends exactly the received chunks up to
    the table's size and never writes outside it, and that the table's
    invariant [wf_chunks] is kept. *)

From S2P Require Import Prelude BitOps OctTypes Kernel.

(** ** Operations *)

Definition zero_chunk : remote_mapping_chunk := mkChunk 0 0 EMPTY.

(** [sizeof(struct remote_mapping_chunk)]: 4 + 4 (padding) + 8 + 4 + 4. *)
Definition sizeof_chunk : Z := 24.

Section Ops.
Context {K : kernel}.

Definition set_chunk_list (f : remote_mapping_chunk_list → remote_mapping_chunk_list) :
  M unit := set_sess (λ s, s <| remote_chunk_list ::= f |>).

(** [remote_chunk_list.remote_chunk[i] = c]. *)
Definition set_chunk (i : Z) (c : remote_mapping_chunk) : M unit :=
  cl ← sess remote_chunk_list;
  p ← deref_opt (remote_chunk cl);
  l ← in_bounds (arr_set p.2 i c);
  set_chunk_list (λ cl, cl <| remote_chunk := Some (p.1, l) |>).

Definition init_remote_chunk_list : M Z :=
  cl ← sess remote_chunk_list;
  let tmp_chunk_num := u32 (remote_free_size_gb cl / CHUNK_SIZE_GB) in
  set_chunk_list (λ cl, cl <| chunk_ptr := 0 |>);;
  set_chunk_list (λ cl, cl <| chunk_num := tmp_chunk_num |>);;
  p ← kzalloc (u64 (sizeof_chunk * tmp_chunk_num))
              (replicate (Z.to_nat tmp_chunk_num) zero_chunk);
  set_chunk_list (λ cl, cl <| remote_chunk := p |>);;
  for_loop (Z.to_nat tmp_chunk_num) 0
    (λ i, set_chunk i (mkChunk 0 0 EMPTY);; mret true);;
  mret 0.

Definition bind_body (i : Z) : M bool :=
  s ← sess id;
  let cl := remote_chunk_list s in
  if chunk_num cl <=? chunk_ptr cl then mret false
  else
    m ← deref_opt (recv_buf s);
    rkey ← in_bounds (arr_get (msg_rkey m.2) i);
    if negb (rkey =? 0) then
      buf ← in_bounds (arr_get (msg_buf m.2) i);
      set_chunk (chunk_ptr cl) (mkChunk (ntohl rkey) (ntohll buf) MAPPED);;
      set_chunk_list (λ cl, cl <| chunk_ptr ::= λ p, u32 (p + 1) |>);;
      mret true
    else mret true.

Definition bind_remote_memory_chunks : M unit :=
  for_loop (Z.to_nat MAX_CHUNKS) 0 bind_body;;
  set_chunk_list (λ cl, cl <| chunk_num := chunk_ptr cl |>).

End Ops.

(** ** Specification *)

(** One entry of a chunk message: nothing when its key is zero. *)
Definition entry (p : Z * Z) : option remote_mapping_chunk :=
  if p.2 =? 0 then None else Some (mkChunk (ntohl p.2) (ntohll p.1) MAPPED).

Definition received (m : message) : list remote_mapping_chunk :=
  omap entry (zip (msg_buf m) (msg_rkey m)).

(** A message as the two ends exchange it: two arrays of 32 entries. *)
Definition wf_message (m : message) : Prop :=
  length (msg_buf m) = 32%nat ∧ length (msg_rkey m) = 32%nat.

(** The table's invariant: the array has at least [chunk_num] entries, the
    first [chunk_ptr] of them, and only those below [chunk_num], are bound. *)
Definition wf_chunks (cl : remote_mapping_chunk_list) : Prop :=
  0 <= chunk_ptr cl <= chunk_num cl ∧ chunk_num cl < 2 ^ 32 ∧
  ∃ a l, remote_chunk cl = Some (a, l) ∧
    chunk_num cl <= Z.of_nat (length l) ∧
    ∀ i c, l !! i = Some c → (chunk_state c = MAPPED ↔ Z.of_nat i < chunk_ptr cl).

(** The table after storing [new] from [chunk_ptr] on, as far as there is
    room, and the table a whole chunk message leads to: the received chunks
    are appended and the table is cut to what is bound. *)
Definition fill_chunks (new : list remote_mapping_chunk)
    (cl : remote_mapping_chunk_list) : remote_mapping_chunk_list :=
  let p := Z.to_nat (chunk_ptr cl) in
  let fit := take (Z.to_nat (chunk_num cl) - p) new in
  match remote_chunk cl with
  | Some (a, l) =>
      mkChunkList (Some (a, take p l ++ fit ++ drop (p + length fit) l))
        (remote_free_size_gb cl) (chunk_num cl) (chunk_ptr cl + Z.of_nat (length fit))
  | None => cl
  end.

Definition append_chunks (new : list remote_mapping_chunk)
    (cl : remote_mapping_chunk_list) : remote_mapping_chunk_list :=
  let cl' := fill_chunks new cl in cl' <| chunk_num := chunk_ptr cl' |>.

(** The world with another chunk table. *)
Definition with_chunks (w : world) (cl : remote_mapping_chunk_list) : world :=
  w <| w_sess ::= λ s, s <| remote_chunk_list := cl |> |>.

(** ** Lemmas *)

Lemma with_chunks_list w cl : remote_chunk_list (w_sess (with_chunks w cl)) = cl.
Proof. reflexivity. Qed.

Lemma with_chunks_recv w cl : recv_buf (w_sess (with_chunks w cl)) = recv_buf (w_sess w).
Proof. reflexivity. Qed.

Lemma with_chunks_twice w cl cl' : with_chunks (with_chunks w cl) cl' = with_chunks w cl'.
Proof. reflexivity. Qed.

Lemma with_chunks_id w : with_chunks w (remote_chunk_list (w_sess w)) = w.
Proof. destruct w as [[] ? ? ? ? ? ? ?]. reflexivity. Qed.

Lemma set_chunk_ok `{kernel} i c w cl a l :
  remote_chunk cl = Some (a, l) → 0 <= i < Z.of_nat (length l) →
  set_chunk i c (with_chunks w cl) =
  Ret tt (with_chunks w (cl <| remote_chunk := Some (a, <[Z.to_nat i := c]> l) |>)).
Proof.
  intros Hr Hi. unfold set_chunk. mstep. cbn. rewrite Hr. mstep. cbn.
  rewrite arr_set_Some by done. mstep. reflexivity.
Qed.

Lemma set_chunk_null `{kernel} i c w :
  remote_chunk (remote_chunk_list (w_sess w)) = None →
  set_chunk i c w = Oops NullDeref.
Proof. intros Hr. unfold set_chunk. mstep. rewrite Hr. by mstep. Qed.

(** One pass of the binding loop: it stops when the table is full, and
    otherwise stores the entry, if there is one, at [chunk_ptr]. *)
Lemma bind_body_full `{kernel} i w cl :
  chunk_num cl <= chunk_ptr cl → bind_body i (with_chunks w cl) = Ret false (with_chunks w cl).
Proof.
  intros Hc. unfold bind_body. mstep. cbn -[Z.leb].
  by destruct (Z.leb_spec (chunk_num cl) (chunk_ptr cl)); [|lia].
Qed.

Definition store_entry (c : option remote_mapping_chunk) (a : Z)
    (l : list remote_mapping_chunk) (cl : remote_mapping_chunk_list) :
    remote_mapping_chunk_list :=
  match c with
  | Some c => mkChunkList (Some (a, <[Z.to_nat (chunk_ptr cl) := c]> l))
                (remote_free_size_gb cl) (chunk_num cl) (chunk_ptr cl + 1)
  | None => cl
  end.

Lemma bind_body_entry `{kernel} (i : nat) w cl a l am m b k :
  recv_buf (w_sess w) = Some (am, m) →
  remote_chunk cl = Some (a, l) →
  0 <= chunk_ptr cl < chunk_num cl → chunk_num cl < 2 ^ 32 →
  chunk_num cl <= Z.of_nat (length l) →
  msg_buf m !! i = Some b → msg_rkey m !! i = Some k →
  bind_body (Z.of_nat i) (with_chunks w cl) =
  Ret true (with_chunks w (store_entry (entry (b, k)) a l cl)).
Proof.
  intros Hm Hr Hp Hn Hl Hb Hk. unfold bind_body. mstep. cbn -[Z.leb mbind].
  destruct (Z.leb_spec (chunk_num cl) (chunk_ptr cl)); [lia|].
  rewrite Hm. mstep. cbn -[mbind]. rewrite (arr_get_lookup (msg_rkey m)), Hk. mstep.
  unfold entry. cbn [fst snd]. destruct (Z.eqb_spec k 0); cbn [negb]; [done|].
  rewrite (arr_get_lookup (msg_buf m)), Hb. mstep.
  rewrite (M_bind_step _ _ _ _ _ (set_chunk_ok (chunk_ptr cl) _ w cl a l Hr ltac:(lia))).
  mstep. unfold store_entry. rewrite <- (u32_id (chunk_ptr cl + 1)) by lia. reflexivity.
Qed.

Lemma fill_chunks_nil cl a l :
  remote_chunk cl = Some (a, l) → fill_chunks [] cl = cl.
Proof.
  intros Hr. unfold fill_chunks. rewrite Hr, take_nil. cbn [length app].
  rewrite Nat.add_0_r, take_drop, Z.add_0_r. destruct cl. cbn in *. by rewrite Hr.
Qed.

Lemma fill_chunks_full new cl a l :
  remote_chunk cl = Some (a, l) → chunk_num cl <= chunk_ptr cl → fill_chunks new cl = cl.
Proof.
  intros Hr Hc. rewrite <- (fill_chunks_nil cl a l Hr) at 2. unfold fill_chunks.
  rewrite Hr. replace (Z.to_nat (chunk_num cl) - Z.to_nat (chunk_ptr cl))%nat with 0%nat by lia.
  by rewrite !take_0.
Qed.

Lemma fill_chunks_cons c new cl a l :
  remote_chunk cl = Some (a, l) →
  0 <= chunk_ptr cl < chunk_num cl → chunk_num cl <= Z.of_nat (length l) →
  fill_chunks (c :: new) cl = fill_chunks new (store_entry (Some c) a l cl).
Proof.
  intros Hr Hp Hl. unfold fill_chunks, store_entry. rewrite Hr. cbn -[take drop].
  set (p := Z.to_nat (chunk_ptr cl)).
  replace (Z.to_nat (chunk_ptr cl + 1)) with (S p) by lia.
  replace (Z.to_nat (chunk_num cl) - p)%nat with (S (Z.to_nat (chunk_num cl) - S p)) by lia.
  cbn [take length].
  assert (p < length l)%nat as Hpl by lia.
  erewrite (take_S_r (<[p:=c]> l)) by (by apply list_lookup_insert_eq).
  rewrite take_insert_ge, drop_insert_lt by lia. rewrite <- app_assoc. cbn [app].
  f_equal; [|lia]. do 4 f_equal. by rewrite Nat.add_succ_r.
Qed.

Lemma bind_loop `{kernel} w a am m : ∀ (n i : nat) cl l,
  recv_buf (w_sess w) = Some (am, m) →
  length (msg_buf m) = (i + n)%nat → length (msg_rkey m) = (i + n)%nat →
  remote_chunk cl = Some (a, l) →
  0 <= chunk_ptr cl <= chunk_num cl → chunk_num cl < 2 ^ 32 →
  chunk_num cl <= Z.of_nat (length l) →
  for_loop n (Z.of_nat i) bind_body (with_chunks w cl) =
  Ret tt (with_chunks w (fill_chunks (omap entry (drop i (zip (msg_buf m) (msg_rkey m)))) cl)).
Proof.
  induction n as [|n IH]; intros i cl l Hm Hb Hk Hr Hp Hn Hl.
  { rewrite drop_ge by (rewrite length_zip_with; lia). cbn [omap].
    by erewrite fill_chunks_nil. }
  destruct (decide (chunk_num cl <= chunk_ptr cl)) as [Hf|Hf].
  { erewrite for_loop_break by (by apply bind_body_full). by erewrite fill_chunks_full. }
  destruct (lookup_lt_is_Some_2 (msg_buf m) i) as [b Hbi]; [lia|].
  destruct (lookup_lt_is_Some_2 (msg_rkey m) i) as [k Hki]; [lia|].
  erewrite for_loop_go by (eapply bind_body_entry; [done|done|lia|lia|lia|done|done]).
  replace (Z.of_nat i + 1) with (Z.of_nat (S i)) by lia.
  assert (zip (msg_buf m) (msg_rkey m) !! i = Some (b, k)) as Hz.
  { apply lookup_zip_with_Some. eauto. }
  rewrite (drop_S _ _ _ Hz). cbn [omap list_omap].
  destruct (entry (b, k)) as [c|]; cbn [store_entry].
  - erewrite fill_chunks_cons by (done || lia).
    eapply IH; cbn; [done|lia|lia|done|lia|lia|rewrite length_insert; lia].
  - by eapply IH; cbn; [| lia | lia | | | |].
Qed.

Lemma bind_chunks_run `{kernel} w a am m l :
  recv_buf (w_sess w) = Some (am, m) → wf_message m →
  remote_chunk (remote_chunk_list (w_sess w)) = Some (a, l) →
  wf_chunks (remote_chunk_list (w_sess w)) →
  bind_remote_memory_chunks w =
  Ret tt (with_chunks w (append_chunks (received m) (remote_chunk_list (w_sess w)))).
Proof.
  intros Hm [Hb Hk] Hr (Hp & Hn & a' & l' & Hr' & Hl & _). simplify_eq.
  rewrite <- (with_chunks_id w) at 1. unfold bind_remote_memory_chunks.
  erewrite M_bind_step; [|by eapply (bind_loop w a am m 32 0)]. reflexivity.
Qed.

(** Initialisation, by the result of the allocation. *)
Definition init_size (w : world) : Z :=
  u32 (remote_free_size_gb (remote_chunk_list (w_sess w)) / CHUNK_SIZE_GB).

Definition init_call (w : world) : kcall := K_kzalloc (u64 (sizeof_chunk * init_size w)).

Definition init_world (w : world) (p : cptr (list remote_mapping_chunk)) : world :=
  with_chunks (w <| w_trace ::= (.++ [init_call w]) |>)
    (mkChunkList p (remote_free_size_gb (remote_chunk_list (w_sess w))) (init_size w) 0).

Lemma init_zero_loop `{kernel} w a f n :
  for_loop n 0 (λ i, set_chunk i (mkChunk 0 0 EMPTY);; mret true)
    (with_chunks w (mkChunkList (Some (a, replicate n zero_chunk)) f (Z.of_nat n) 0)) =
  Ret tt (with_chunks w (mkChunkList (Some (a, replicate n zero_chunk)) f (Z.of_nat n) 0)).
Proof.
  set (w1 := with_chunks w _).
  destruct (for_loop_inv (λ _ v, v = w1)
    (λ i, set_chunk i (mkChunk 0 0 EMPTY);; mret true) n 0 w1) as (w' & -> & ->); [done| |done].
  intros j v Hj ->. exists w1. split; [|done]. subst w1.
  erewrite M_bind_step by (eapply set_chunk_ok; [done|]; cbn; rewrite length_replicate; lia).
  cbn. unfold zero_chunk.
  rewrite list_insert_id by (apply lookup_replicate_2; lia). reflexivity.
Qed.

Lemma init_run `{kernel} w :
  init_remote_chunk_list w =
  match k_ptr (w_trace w) (init_call w) with
  | KPtr a =>
      Ret 0 (init_world w (Some (a, replicate (Z.to_nat (init_size w)) zero_chunk)))
  | _ => if decide (init_size w = 0) then Ret 0 (init_world w None) else Oops NullDeref
  end.
Proof.
  pose proof (u32_range (remote_free_size_gb (remote_chunk_list (w_sess w)) / CHUNK_SIZE_GB)) as Hn.
  fold (init_size w) in Hn.
  assert (∀ p, k_ptr (w_trace w) (init_call w) = p →
    init_remote_chunk_list w =
    (for_loop (Z.to_nat (init_size w)) 0 (λ i, set_chunk i (mkChunk 0 0 EMPTY);; mret true);;
     mret 0) (init_world w (match p with KPtr a =>
       Some (a, replicate (Z.to_nat (init_size w)) zero_chunk) | _ => None end))) as Hrun.
  { intros p <-. unfold init_remote_chunk_list. do 3 mstep.
    unfold kzalloc. do 2 mstep. reflexivity. }
  assert (0 < init_size w → (for_loop (Z.to_nat (init_size w)) 0
     (λ i, set_chunk i (mkChunk 0 0 EMPTY);; mret true);; mret 0) (init_world w None)
     = Oops NullDeref) as Hnull.
  { intros Hpos. destruct (Z.to_nat (init_size w)) as [|n] eqn:En; [lia|].
    apply M_bind_oops, for_loop_oops, M_bind_oops. by apply set_chunk_null. }
  destruct (k_ptr (w_trace w) (init_call w)) as [|a|e]; rewrite (Hrun _ eq_refl).
  1,3: case_decide as Hz; [by rewrite Hz|apply Hnull; lia].
  unfold init_world. erewrite M_bind_step; [reflexivity|].
  pose proof (init_zero_loop (w <| w_trace ::= (.++ [init_call w]) |>) a
    (remote_free_size_gb (remote_chunk_list (w_sess w))) (Z.to_nat (init_size w))) as Hl.
  by rewrite Z2Nat.id in Hl by lia.
Qed.

(** ** The invariant *)

Lemma init_wf w a :
  wf_chunks (remote_chunk_list (w_sess
    (init_world w (Some (a, replicate (Z.to_nat (init_size w)) zero_chunk))))).
Proof.
  pose proof (u32_range (remote_free_size_gb (remote_chunk_list (w_sess w)) / CHUNK_SIZE_GB)) as Hn.
  fold (init_size w) in Hn. split; [cbn; lia|]. split; [cbn; lia|].
  eexists _, _. split; [done|]. cbn. rewrite length_replicate. split; [lia|].
  intros i c [-> _]%lookup_replicate. cbn. split; [done|lia].
Qed.

Lemma received_mapped m : Forall (λ c, chunk_state c = MAPPED) (received m).
Proof.
  unfold received. induction (zip (msg_buf m) (msg_rkey m)) as [|p l IH]; cbn; [constructor|].
  unfold entry. destruct (p.2 =? 0); [done|]. by constructor.
Qed.

Lemma append_wf new cl :
  wf_chunks cl → Forall (λ c, chunk_state c = MAPPED) new → wf_chunks (append_chunks new cl).
Proof.
  intros (Hp & Hn & a & l & Hr & Hl & Hi) Hnew. unfold append_chunks, fill_chunks. rewrite Hr.
  set (p := Z.to_nat (chunk_ptr cl)).
  set (fit := take (Z.to_nat (chunk_num cl) - p) new).
  assert (length fit <= Z.to_nat (chunk_num cl) - p)%nat as Hfit.
  { unfold fit. rewrite length_take. lia. }
  assert (Forall (λ c, chunk_state c = MAPPED) fit) as Hmap by by apply Forall_take.
  assert (length (take p l) = p) as Hlt by (rewrite length_take; lia).
  split; [cbn; lia|]. split; [cbn; lia|]. eexists _, _. split; [done|]. cbn. split.
  { rewrite !length_app, length_drop. lia. }
  intros i c. rewrite lookup_app_Some. intros [Hlow|[Hge Hx]].
  - pose proof (lookup_lt_Some _ _ _ Hlow). split; [lia|]. intros _.
    apply lookup_take_Some in Hlow as [Hlow Hip]. apply (Hi i); [done|lia].
  - rewrite Hlt in *. rewrite lookup_app_Some in Hx. destruct Hx as [Hf|[Hge' Hd]].
    + pose proof (lookup_lt_Some _ _ _ Hf). split; [lia|].
      intros _. by apply (Forall_lookup_1 _ _ _ _ Hmap Hf).
    + rewrite lookup_drop in Hd. rewrite (Hi _ _ Hd). lia.
Qed.

(** ** Theorems *)

(** Initialising the chunk table, on every outcome of the allocation: with
    memory, it returns 0 and leaves a well-formed table of
    [remote_free_size_gb / CHUNK_SIZE_GB] empty chunks; without memory it
    returns only when the table has no entry, and otherwise dereferences the
    NULL table. *)
Theorem init_remote_chunk_list_spec `{K : kernel} w :
  match k_ptr (w_trace w) (init_call w) with
  | KPtr a =>
      ∃ w', init_remote_chunk_list w = Ret 0 w' ∧
        let cl := remote_chunk_list (w_sess w') in
        wf_chunks cl ∧ chunk_ptr cl = 0 ∧ chunk_num cl = init_size w ∧
        remote_chunk cl = Some (a, replicate (Z.to_nat (init_size w)) zero_chunk)
  | _ =>
      (init_size w = 0 → ∃ w', init_remote_chunk_list w = Ret 0 w') ∧
      (init_size w ≠ 0 → init_remote_chunk_list w = Oops NullDeref)
  end.
Proof.
  pose proof (init_run w) as Hrun.
  destruct (k_ptr (w_trace w) (init_call w)) as [|a|e]; rewrite Hrun.
  1,3: by split; intros Hz; [rewrite decide_True by done; eauto|rewrite decide_False by done].
  eexists. split; [done|]. split; [apply init_wf|]. done.
Qed.

Lemma append_lookup new cl a l j c :
  remote_chunk cl = Some (a, l) → 0 <= chunk_ptr cl <= Z.of_nat (length l) →
  new !! j = Some c → chunk_ptr cl + Z.of_nat j < chunk_num cl →
  ∃ l', remote_chunk (append_chunks new cl) = Some (a, l') ∧
    l' !! (Z.to_nat (chunk_ptr cl) + j)%nat = Some c.
Proof.
  intros Hr Hp Hj Hlt. unfold append_chunks, fill_chunks. rewrite Hr. eexists. split; [done|].
  assert (length (take (Z.to_nat (chunk_ptr cl)) l) = Z.to_nat (chunk_ptr cl)) as Hl
    by (rewrite length_take; lia).
  rewrite lookup_app_r by lia. rewrite Hl, lookup_app_l.
  - rewrite lookup_take_lt by lia. by replace (_ + j - _)%nat with j by lia.
  - rewrite length_take. apply lookup_lt_Some in Hj. lia.
Qed.

(** C7. Binding a chunk message: on a well-formed table and message the loop
    ends without a fault and changes nothing but the table; the [j]-th
    non-empty entry of the message, decoded to host byte order, becomes the
    [j]-th new chunk as long as there is room; [chunk_num] and [chunk_ptr] both
    become the number of chunks bound; and the table stays well formed. *)
Theorem bind_remote_memory_chunks_spec `{K : kernel} w am m :
  recv_buf (w_sess w) = Some (am, m) → wf_message m →
  wf_chunks (remote_chunk_list (w_sess w)) →
  ∃ cl', bind_remote_memory_chunks w = Ret tt (with_chunks w cl') ∧ wf_chunks cl' ∧
    let cl := remote_chunk_list (w_sess w) in
    chunk_ptr cl' = Z.min (chunk_num cl) (chunk_ptr cl + Z.of_nat (length (received m))) ∧
    chunk_num cl' = chunk_ptr cl' ∧
    (∀ j c, received m !! j = Some c → chunk_ptr cl + Z.of_nat j < chunk_num cl →
       ∃ a l, remote_chunk cl' = Some (a, l) ∧
              l !! (Z.to_nat (chunk_ptr cl) + j)%nat = Some c).
Proof.
  intros Hm Hwm Hwf. pose proof Hwf as (Hp & Hn & a & l & Hr & Hl & _).
  exists (append_chunks (received m) (remote_chunk_list (w_sess w))).
  split; [by eapply bind_chunks_run|].
  split; [apply append_wf; [done|apply received_mapped]|]. split_and!.
  - unfold append_chunks, fill_chunks. rewrite Hr. cbn. rewrite length_take. lia.
  - unfold append_chunks. reflexivity.
  - intros j c Hj Hlt. destruct (append_lookup (received m) _ a l j c Hr ltac:(lia) Hj Hlt)
      as (l' & Hl' & Hc). eauto.
Qed.

(** A session that announced 4 chunks and received a message with two. *)
Definition demo_message : message :=
  mkMessage (ntohll 0x7f0040000000 :: ntohll 0 :: ntohll 0x7f0080000000 :: replicate 29 0)
            (ntohl 0x1234 :: 0 :: ntohl 0x5678 :: replicate 29 0) 2 2.

Definition demo_world : world :=
  with_chunks (world0 <| w_sess ::= λ s, s <| recv_buf := Some (256, demo_message) |> |>)
    (mkChunkList (Some (512, replicate 4 zero_chunk)) 4 4 0).

Lemma demo_wf_chunks : wf_chunks (remote_chunk_list (w_sess demo_world)).
Proof.
  split; [cbn; lia|]. split; [cbn; lia|]. eexists _, _. split; [reflexivity|]. split; [cbn; lia|].
  intros i c [-> _]%lookup_replicate. split; [discriminate|cbn; lia].
Qed.

Lemma demo_wf_message : wf_message demo_message.
Proof. by split. Qed.

Lemma bind_remote_memory_chunks_spec_witness :
  received demo_message = [mkChunk 0x1234 0x7f0040000000 MAPPED; mkChunk 0x5678 0x7f0080000000 MAPPED] ∧
  ∃ cl', @bind_remote_memory_chunks demo_world = Ret tt (with_chunks demo_world cl') ∧
    chunk_ptr cl' = 2.
Proof.
  split; [vm_compute; reflexivity|].
  destruct (@bind_remote_memory_chunks_spec kernel_ok demo_world 256 demo_message
    eq_refl demo_wf_message demo_wf_chunks) as (cl' & Hb & _ & Hp & _).
  exists cl'. split; [exact Hb|]. rewrite Hp. vm_compute. reflexivity.
Defined.

(** A table takes chunks from one message only: since binding cuts the
    table to what it has bound, binding a further message (after a second
    single-chunk request, say) leaves the world as it is. *)
Theorem bind_again_noop `{K : kernel} w w' am m a' m' :
  recv_buf (w_sess w) = Some (am, m) → wf_message m →
  wf_chunks (remote_chunk_list (w_sess w)) →
  bind_remote_memory_chunks w = Ret tt w' →
  let w2 := w' <| w_sess ::= λ s, s <| recv_buf := Some (a', m') |> |> in
  bind_remote_memory_chunks w2 = Ret tt w2.
Proof.
  intros Hm Hwm Hwf Hb w2. pose proof Hwf as (_ & _ & a & l & Hr & _).
  rewrite (bind_chunks_run w a am m l) in Hb by done. injection Hb as <-.
  unfold bind_remote_memory_chunks. rewrite <- (with_chunks_id w2).
  change (Z.to_nat MAX_CHUNKS) with (S 31).
  erewrite M_bind_step by (apply for_loop_break, bind_body_full; cbn; lia).
  reflexivity.
Qed.

Lemma bind_again_noop_witness :
  ∃ w', @bind_remote_memory_chunks demo_world = Ret tt w' ∧
    let w2 := w' <| w_sess ::= λ s, s <| recv_buf := Some (256, demo_message) |> |> in
    @bind_remote_memory_chunks w2 = Ret tt w2.
Proof.
  eexists. split; [vm_compute; reflexivity|].
  apply (@bind_again_noop kernel_ok demo_world _ 256 demo_message 256 demo_message);
    [reflexivity|exact demo_wf_message|exact demo_wf_chunks|vm_compute; reflexivity].
Defined.
