(* ===== verification/CmdQueue.v ===== *)
(** * The queues of one-sided RDMA commands

    [init_rdma_command_list], [init_rdma_command_queue_list],
    [get_a_free_rdma_cmd_from_rdma_q] and [free_a_rdma_cmd_to_rdma_q] of
    [rdma_client.c].  Every dispatch queue of the block device has its own
    list of commands; a command is taken for a request by a linear probe under
    the queue's lock and given back, without the lock, on completion.

    [probe_loop] is the probe run by one CPU alone; the second half of the
    file is the queue under concurrent use ([lifecycle], [qstep]): requests
    that probe, fill, complete and release commands in any interleaving of
    their memory accesses. *)

From S2P Require Import Prelude BitOps OctTypes Kernel.

(** ** Access paths *)

Section Access.
Context {K : kernel}.

(** [rdma_session->rmem_rdma_queue_list[qi]] *)
Definition get_queue (qi : Z) : M rmem_rdma_queue :=
  p ← sess rmem_rdma_queue_list;
  l ← deref_opt p;
  in_bounds (arr_get l.2 qi).

Definition set_queue (qi : Z) (q : rmem_rdma_queue) : M unit :=
  p ← sess rmem_rdma_queue_list;
  l ← deref_opt p;
  l' ← in_bounds (arr_set l.2 qi q);
  set_sess (λ s, s <| rmem_rdma_queue_list := Some (l.1, l') |>).

(** The command a [cmd_ref] points at. *)
Definition get_cmd (qi ci : Z) : M rmem_rdma_command :=
  q ← get_queue qi;
  l ← deref_opt (rmem_rdma_cmd_list q);
  in_bounds (arr_get l.2 ci).

Definition upd_cmd (qi ci : Z) (f : rmem_rdma_command → rmem_rdma_command) : M unit :=
  q ← get_queue qi;
  l ← deref_opt (rmem_rdma_cmd_list q);
  c ← in_bounds (arr_get l.2 ci);
  l' ← in_bounds (arr_set l.2 ci (f c));
  set_queue qi (q <| rmem_rdma_cmd_list := Some (l.1, l') |>).

(** ** Initialisation *)

(** The address a [kzalloc]ed buffer is mapped at; [NULL] is 0. *)
Definition kptr_addr (p : kptr) : Z :=
  match p with KPtr a => a | _ => 0 end.

(** One pass of the loop of [init_rdma_command_list]. *)
Definition init_rdma_command (queue_ind i : Z) : M bool :=
  upd_cmd queue_ind i (λ c, c <| free_state := 1 |>);;
  buf ← call_ptr (K_kzalloc ONE_SIEDED_RDMA_BUF_SIZE);
  upd_cmd queue_ind i (λ c, c <| rdma_buf := buf |>);;
  _ ← (p ← sess pd; deref p);
  dma ← call_int (K_ib_dma_map_single (kptr_addr buf) ONE_SIEDED_RDMA_BUF_SIZE);
  upd_cmd queue_ind i (λ c, c <| rdma_dma_addr := u64 dma |>);;
  upd_cmd queue_ind i (λ c, c <| rdma_sgl ::= λ g, g <| sge_addr := rdma_dma_addr c |> |>);;
  _ ← (q ← sess qp; deref q);
  (if negb (k_local_dma_lkey =? 0)
   then upd_cmd queue_ind i (λ c, c <| rdma_sgl ::= λ g, g <| sge_lkey := k_local_dma_lkey |> |>)
   else upd_cmd queue_ind i (λ c, c <| rdma_sgl ::= λ g, g <| sge_lkey := 0 |> |>));;
  upd_cmd queue_ind i (λ c, c <| rdma_sq_wr ::= λ wr,
    wr <| wr_signaled := true |> <| wr_sg_own := true |> <| wr_num_sge := 1 |>
       <| wr_id := Some (queue_ind, i) |> |>);;
  upd_cmd queue_ind i (λ c, c <| io_rq := None |>);;
  mret true.

Definition init_rdma_command_list (queue_ind : Z) : M Z :=
  q ← get_queue queue_ind;
  let q := q <| cmd_ptr := 0 |> <| rdma_queue_depth := RMEM_QUEUE_DEPTH |>
             <| q_index := 0 |> <| q_rdma_session := true |> in
  set_queue queue_ind q;;
  p ← kzalloc (u64 (k_sizeof_cmd * rdma_queue_depth q))
              (replicate (Z.to_nat (rdma_queue_depth q)) zero_cmd);
  set_queue queue_ind (q <| rmem_rdma_cmd_list := p |>);;
  for_loop (Z.to_nat (rdma_queue_depth q)) 0 (init_rdma_command queue_ind);;
  mret 0.

Definition init_rdma_command_queue_list : M Z :=
  cores ← gets w_online_cores;
  let rdma_q_num := u32 cores in
  p ← kzalloc (u64 (k_sizeof_queue * rdma_q_num)) (replicate (Z.to_nat rdma_q_num) zero_queue);
  set_sess (λ s, s <| rmem_rdma_queue_list := p |>);;
  for_loop (Z.to_nat rdma_q_num) 0 (λ i, init_rdma_command_list i;; mret true);;
  mret 0.

(** ** Taking and giving back a command *)

Inductive probe_result :=
| Found (ind : Z)
| OutsideList
| NoResult.       (* out of fuel: still probing *)

#[export] Instance probe_result_dec : EqDecision probe_result.
Proof. solve_decision. Defined.

(** [if(rdma_cmd_ind++ == rdma_queue_depth - 1) rdma_cmd_ind = 0;] *)
Definition next_ind (depth ind : Z) : Z :=
  if u32 ind =? u32 (depth - 1) then 0 else ind + 1.

(** The [while(1)] of the probe; one unit of fuel per critical section. *)
Fixpoint probe_loop (fuel : nat) (cmds : list rmem_rdma_command) (depth ind : Z) :
    probe_result :=
  match fuel with
  | O => NoResult
  | S fuel =>
      match arr_get cmds ind with
      | None => OutsideList
      | Some c => if free_state c =? 1 then Found ind
                  else probe_loop fuel cmds depth (next_ind depth ind)
      end
  end.

(** One round over the list is enough fuel: a probe that has found nothing
    after it never will (lemma [probe_none]). *)
Definition get_a_free_rdma_cmd_from_rdma_q (qi : Z) : M Z :=
  q ← get_queue qi;
  l ← deref_opt (rmem_rdma_cmd_list q);
  match probe_loop (S (length l.2)) l.2 (rdma_queue_depth q) 0 with
  | Found ind => upd_cmd qi ind (λ c, c <| free_state := 0 |>);; mret ind
  | OutsideList => oops OutOfBounds
  | NoResult => oops Spin
  end.

Definition free_a_rdma_cmd_to_rdma_q (qi ci : Z) : M unit :=
  upd_cmd qi ci (λ c, c <| free_state := 1 |>);;
  upd_cmd qi ci (λ c, c <| io_rq := None |>).

End Access.

(** ** Commands as a two-level map *)

Definition lookup_cmd (p : cptr (list rmem_rdma_queue)) (qi ci : Z) :
    option rmem_rdma_command :=
  l ← p; q ← arr_get l.2 qi; cl ← rmem_rdma_cmd_list q; arr_get cl.2 ci.

Definition alter_in_queue (ci : Z) (f : rmem_rdma_command → rmem_rdma_command)
    (q : rmem_rdma_queue) : rmem_rdma_queue :=
  q <| rmem_rdma_cmd_list ::= fmap (prod_map id (alter f (Z.to_nat ci))) |>.

Definition alter_cmd (qi ci : Z) (f : rmem_rdma_command → rmem_rdma_command)
    (p : cptr (list rmem_rdma_queue)) : cptr (list rmem_rdma_queue) :=
  prod_map id (alter (alter_in_queue ci f) (Z.to_nat qi)) <$> p.

Definition with_queues (w : world) (p : cptr (list rmem_rdma_queue)) : world :=
  w <| w_sess ::= λ s, s <| rmem_rdma_queue_list := p |> |>.

Definition queues (w : world) : cptr (list rmem_rdma_queue) :=
  rmem_rdma_queue_list (w_sess w).

Definition alter_w (qi ci : Z) (f : rmem_rdma_command → rmem_rdma_command) (w : world) : world :=
  with_queues w (alter_cmd qi ci f (queues w)).

Lemma lookup_cmd_Some p qi ci c :
  lookup_cmd p qi ci = Some c ↔
  ∃ a ql q b cl, p = Some (a, ql) ∧ arr_get ql qi = Some q ∧
    rmem_rdma_cmd_list q = Some (b, cl) ∧ arr_get cl ci = Some c.
Proof.
  unfold lookup_cmd. split.
  - destruct p as [[a ql]|]; cbn; [|done]. destruct (arr_get ql qi) as [q|] eqn:Eq; cbn; [|done].
    destruct (rmem_rdma_cmd_list q) as [[b cl]|] eqn:El; cbn; [|done]. eauto 10.
  - intros (a & ql & q & b & cl & -> & Hq & Hl & Hc). cbn. rewrite Hq. cbn. by rewrite Hl.
Qed.

Lemma arr_get_alter {A} (f : A → A) (l : list A) i j :
  0 <= i → 0 <= j →
  arr_get (alter f (Z.to_nat i) l) j = if decide (i = j) then f <$> arr_get l j else arr_get l j.
Proof.
  intros Hi Hj. unfold arr_get. rewrite !(decide_True (P := 0 <= j)) by done. case_decide as E.
  - subst. apply list_lookup_alter_eq.
  - apply list_lookup_alter_ne. lia.
Qed.

Lemma arr_get_neg {A} (l : list A) i : i < 0 → arr_get l i = None.
Proof. intros. unfold arr_get. by rewrite decide_False by lia. Qed.

(** Altering a command changes that command and no other. *)
Lemma lookup_alter_cmd f p qi ci qj cj :
  0 <= qi → 0 <= ci →
  lookup_cmd (alter_cmd qi ci f p) qj cj =
  if decide (qi = qj ∧ ci = cj) then f <$> lookup_cmd p qj cj else lookup_cmd p qj cj.
Proof.
  intros Hqi Hci. unfold lookup_cmd, alter_cmd.
  destruct p as [[a ql]|]; cbn; [|by case_decide].
  destruct (decide (0 <= qj)) as [Hqj|]; [|by rewrite !arr_get_neg by lia; cbn; case_decide].
  rewrite arr_get_alter by done.
  destruct (decide (qi = qj)) as [->|Hne]; [|rewrite decide_False by tauto; done].
  destruct (arr_get ql qj) as [q|]; cbn; [|by case_decide].
  destruct (rmem_rdma_cmd_list q) as [[b cl]|]; cbn; [|by case_decide].
  destruct (decide (0 <= cj)) as [Hcj|]; [|by rewrite !arr_get_neg by lia; cbn; case_decide].
  rewrite arr_get_alter by done.
  destruct (decide (ci = cj)); [by rewrite decide_True by tauto|by rewrite decide_False by tauto].
Qed.

Lemma get_queue_run w qi q a ql :
  queues w = Some (a, ql) → arr_get ql qi = Some q → get_queue qi w = Ret q w.
Proof.
  intros Hp Hq. unfold get_queue. unfold queues in Hp. mstep. rewrite Hp. mstep. cbn.
  by rewrite Hq.
Qed.

Lemma get_cmd_run w qi ci c :
  lookup_cmd (queues w) qi ci = Some c → get_cmd qi ci w = Ret c w.
Proof.
  rewrite lookup_cmd_Some. intros (a & ql & q & b & cl & Hp & Hq & Hl & Hc).
  unfold get_cmd. erewrite M_bind_step by (by eapply get_queue_run).
  rewrite Hl. mstep. cbn. by rewrite Hc.
Qed.

Lemma insert_alter {A} (f : A → A) (l : list A) i x :
  arr_get l i = Some x → <[Z.to_nat i := f x]> l = alter f (Z.to_nat i) l.
Proof.
  unfold arr_get. case_decide; [|done]. intros Hx. apply list_eq. intros j.
  destruct (decide (Z.to_nat i = j)) as [<-|].
  - rewrite list_lookup_alter_eq, Hx, list_lookup_insert_eq by (by eapply lookup_lt_Some). done.
  - by rewrite list_lookup_alter_ne, list_lookup_insert_ne by done.
Qed.

Lemma upd_cmd_run w qi ci c f :
  lookup_cmd (queues w) qi ci = Some c → upd_cmd qi ci f w = Ret tt (alter_w qi ci f w).
Proof.
  rewrite lookup_cmd_Some. intros (a & ql & q & b & cl & Hp & Hq & Hl & Hc).
  unfold upd_cmd. erewrite M_bind_step by (by eapply get_queue_run).
  rewrite Hl. mstep. cbn. rewrite Hc. mstep.
  pose proof (arr_get_Some _ _ _ Hc). pose proof (arr_get_Some _ _ _ Hq).
  rewrite arr_set_Some by done. mstep. unfold set_queue. mstep. fold (queues w).
  rewrite Hp. mstep.
  cbn. rewrite arr_set_Some by done. mstep.
  rewrite (insert_alter f) by done.
  unfold alter_w, alter_cmd. rewrite Hp. cbn.
  rewrite <- (insert_alter (alter_in_queue ci f) ql qi q Hq).
  destruct q. cbn in Hl. subst. reflexivity.
Qed.

(** ** The probe *)

(** A queue ready for use: a list of [rdma_queue_depth] commands. *)
Definition wf_queue (q : rmem_rdma_queue) : Prop :=
  0 < rdma_queue_depth q < 2 ^ 31 ∧
  ∃ b cl, rmem_rdma_cmd_list q = Some (b, cl) ∧ Z.of_nat (length cl) = rdma_queue_depth q.

Definition is_free (c : rmem_rdma_command) : bool := free_state c =? 1.

Lemma next_ind_spec depth ind :
  0 < depth < 2 ^ 31 → 0 <= ind < depth →
  next_ind depth ind = if decide (ind = depth - 1) then 0 else ind + 1.
Proof.
  intros. unfold next_ind. rewrite !u32_id by lia.
  destruct (Z.eqb_spec ind (depth - 1)); [by rewrite decide_True|by rewrite decide_False].
Qed.

(** From any position at or before it, the first free command is found. *)
Lemma probe_found cmds depth k c :
  0 < depth < 2 ^ 31 → Z.of_nat (length cmds) = depth →
  cmds !! k = Some c → is_free c = true →
  (∀ j d, (j < k)%nat → cmds !! j = Some d → is_free d = false) →
  ∀ fuel i, (i <= k)%nat → (k - i < fuel)%nat →
  probe_loop fuel cmds depth (Z.of_nat i) = Found (Z.of_nat k).
Proof.
  intros Hd Hl Hk Hc Hmin. pose proof (lookup_lt_Some _ _ _ Hk).
  induction fuel as [|fuel IH]; intros i Hi Hf; [lia|]. cbn [probe_loop].
  rewrite arr_get_lookup.
  destruct (decide (i = k)) as [->|Hne].
  { rewrite Hk. unfold is_free in Hc. by rewrite Hc. }
  destruct (lookup_lt_is_Some_2 cmds i) as [d Hdi]; [lia|]. rewrite Hdi.
  assert ((free_state d =? 1) = false) as -> by (apply (Hmin i); [lia|done]).
  rewrite next_ind_spec, decide_False by lia.
  replace (Z.of_nat i + 1) with (Z.of_nat (S i)) by lia. apply IH; lia.
Qed.

(** When no command is free the probe never gives a result. *)
Lemma probe_none cmds depth :
  0 < depth < 2 ^ 31 → Z.of_nat (length cmds) = depth →
  (∀ j d, cmds !! j = Some d → is_free d = false) →
  ∀ fuel i, 0 <= i < depth → probe_loop fuel cmds depth i = NoResult.
Proof.
  intros Hd Hl Hbusy. induction fuel as [|fuel IH]; intros i Hi; cbn [probe_loop]; [done|].
  destruct (arr_get_is_Some cmds i) as [d Hdi]; [lia|]. rewrite Hdi.
  assert ((free_state d =? 1) = false) as ->.
  { apply (Hbusy (Z.to_nat i)). unfold arr_get in Hdi. by rewrite decide_True in Hdi by lia. }
  apply IH. rewrite next_ind_spec by lia. case_decide; lia.
Qed.

(** Every list has a first free command or none. *)
Lemma first_free (cmds : list rmem_rdma_command) :
  (∃ k c, cmds !! k = Some c ∧ is_free c = true ∧
     ∀ j d, (j < k)%nat → cmds !! j = Some d → is_free d = false) ∨
  (∀ j d, cmds !! j = Some d → is_free d = false).
Proof.
  induction cmds as [|c cmds IH]; [by right|].
  destruct (is_free c) eqn:Hc.
  { left. exists 0%nat, c. split_and!; [done|done|]. intros. lia. }
  destruct IH as [(k & d & Hk & Hd & Hmin)|Hnone].
  - left. exists (S k), d. split_and!; [done|done|].
    intros [|j] e Hj He; [by simplify_eq/=|]. apply (Hmin j); [lia|done].
  - right. intros [|j] e He; [by simplify_eq/=|]. by apply (Hnone j).
Qed.

(** Taking a command from a well-formed queue, by whether one is free. *)
Lemma get_free_run w qi a ql q b cl :
  queues w = Some (a, ql) → arr_get ql qi = Some q →
  rmem_rdma_cmd_list q = Some (b, cl) → wf_queue q →
  (∃ k c, cl !! k = Some c ∧ is_free c = true ∧
     (∀ j d, (j < k)%nat → cl !! j = Some d → is_free d = false) ∧
     get_a_free_rdma_cmd_from_rdma_q qi w =
       Ret (Z.of_nat k) (alter_w qi (Z.of_nat k) (λ c, c <| free_state := 0 |>) w)) ∨
  ((∀ j d, cl !! j = Some d → is_free d = false) ∧
   get_a_free_rdma_cmd_from_rdma_q qi w = Oops Spin).
Proof.
  intros Hp Hq Hl (Hd & b' & cl' & Hl' & Hlen). rewrite Hl in Hl'. injection Hl' as <- <-.
  unfold get_a_free_rdma_cmd_from_rdma_q.
  erewrite M_bind_step by (by eapply get_queue_run). rewrite Hl.
  destruct (first_free cl) as [(k & c & Hk & Hc & Hmin)|Hnone].
  - left. exists k, c. split_and!; [done|done|done|].
    pose proof (lookup_lt_Some _ _ _ Hk). mstep. cbn [snd].
    change 0 with (Z.of_nat 0) at 1.
    rewrite (probe_found cl _ k c Hd Hlen Hk Hc Hmin (S (length cl)) 0) by lia.
    erewrite M_bind_step; [reflexivity|]. apply (upd_cmd_run _ _ _ c).
    apply lookup_cmd_Some. exists a, ql, q, b, cl. by rewrite arr_get_lookup.
  - right. split; [done|]. mstep. cbn [snd].
    rewrite (probe_none cl _ Hd Hlen Hnone) by lia. done.
Qed.

(** ** Concurrent use

    A request goes through the phases of [lifecycle]; every step is one of the
    accesses the code makes to shared memory: one critical section of the
    probe, the store of [io_rq] in [post_rdma_write]/[post_rdma_read] (the
    command is posted right after), the load of [io_rq] by the completion
    handler, and the two stores of [free_a_rdma_cmd_to_rdma_q], which runs
    without the queue's lock. *)

Inductive lifecycle :=
| Probing (rq : request) (ind : Z)
| Acquired (rq : request) (ind : Z)
| Posted (rq : request) (ind : Z)
| Completing (rq : request) (ind : Z)   (* rq: the request the handler found *)
| Freeing (ind : Z)
| Over
| Broken.                               (* the handler found a NULL io_rq *)

(** The next step of one request, on the shared command list. *)
Definition lifecycle_step (cmds : list rmem_rdma_command) (t : lifecycle) :
    option (list rmem_rdma_command * lifecycle) :=
  match t with
  | Probing rq ind =>
      c ← arr_get cmds ind;
      if free_state c =? 1
      then Some (<[Z.to_nat ind := c <| free_state := 0 |>]> cmds, Acquired rq ind)
      else Some (cmds, Probing rq (next_ind (Z.of_nat (length cmds)) ind))
  | Acquired rq ind =>
      Some (alter (λ c, c <| io_rq := Some rq |>) (Z.to_nat ind) cmds, Posted rq ind)
  | Posted rq ind =>
      c ← arr_get cmds ind;
      Some (cmds, match io_rq c with Some r => Completing r ind | None => Broken end)
  | Completing _ ind =>
      Some (alter (λ c, c <| free_state := 1 |>) (Z.to_nat ind) cmds, Freeing ind)
  | Freeing ind =>
      Some (alter (λ c, c <| io_rq := None |>) (Z.to_nat ind) cmds, Over)
  | Over | Broken => None
  end.

(** A queue in use: its commands and the requests under way. *)
Definition qstate : Type := list rmem_rdma_command * list lifecycle.

Inductive qstep : qstate → qstate → Prop :=
| qstep_request cmds ts i t cmds' t' :
    ts !! i = Some t → lifecycle_step cmds t = Some (cmds', t') →
    qstep (cmds, ts) (cmds', <[i := t']> ts)
| qstep_submit cmds ts rq :
    qstep (cmds, ts) (cmds, ts ++ [Probing rq 0]).

(** The command a request owns, from its acquisition to the store that frees
    it. *)
Definition owned (t : lifecycle) : option Z :=
  match t with
  | Acquired _ ind | Posted _ ind | Completing _ ind => Some ind
  | _ => None
  end.

(** The positions the phases work with stay inside the list. *)
Definition position_ok (n : nat) (t : lifecycle) : Prop :=
  match t with
  | Probing _ ind | Acquired _ ind | Posted _ ind | Completing _ ind | Freeing ind =>
      0 <= ind < Z.of_nat n
  | Over | Broken => True
  end.

(** The queue's invariant: the commands with [free_state = 0] are exactly the
    owned ones, and each has one owner. *)
Definition qinv (s : qstate) : Prop :=
  0 < Z.of_nat (length s.1) < 2 ^ 31 ∧
  Forall (position_ok (length s.1)) s.2 ∧
  (∀ i j t t' ind, s.2 !! i = Some t → s.2 !! j = Some t' →
     owned t = Some ind → owned t' = Some ind → i = j) ∧
  (∀ i t ind c, s.2 !! i = Some t → owned t = Some ind →
     arr_get s.1 ind = Some c → is_free c = false).

(** A queue nobody uses. *)
Definition idle_queue (cmds : list rmem_rdma_command) : qstate := (cmds, []).

Lemma idle_inv cmds : 0 < Z.of_nat (length cmds) < 2 ^ 31 → qinv (idle_queue cmds).
Proof. intros. split; [done|]. split; [constructor|]. by split. Qed.

Lemma lifecycle_length cmds t cmds' t' :
  lifecycle_step cmds t = Some (cmds', t') → length cmds' = length cmds.
Proof.
  destruct t; cbn; intros H; simplify_option_eq; repeat case_match; simplify_eq;
    by rewrite ?length_insert, ?length_alter.
Qed.

Lemma lifecycle_position cmds t cmds' t' :
  0 < Z.of_nat (length cmds) < 2 ^ 31 → position_ok (length cmds) t →
  lifecycle_step cmds t = Some (cmds', t') → position_ok (length cmds) t'.
Proof.
  intros Hn Hp H. destruct t; cbn in *; simplify_option_eq; try done.
  all: repeat case_match; simplify_eq; cbn; try done.
  rewrite next_ind_spec by lia. case_decide; lia.
Qed.

Lemma arr_get_insert_inv {A} (l : list A) k i (x y : A) :
  0 <= k → arr_get (<[Z.to_nat k := x]> l) i = Some y →
  (i = k ∧ y = x) ∨ (i ≠ k ∧ arr_get l i = Some y).
Proof.
  unfold arr_get. case_decide; [|done]. intros Hk [(Hi & -> & _)|[? ?]]%list_lookup_insert_Some.
  - left. split; [lia|done].
  - right. split; [lia|done].
Qed.

(** What a step does to ownership: nothing, it takes a free command, or it
    gives one up. *)
Lemma lifecycle_cases cmds t cmds' t' :
  position_ok (length cmds) t → lifecycle_step cmds t = Some (cmds', t') →
  (owned t' = owned t ∧ ∀ i c', arr_get cmds' i = Some c' →
     ∃ c, arr_get cmds i = Some c ∧ is_free c = is_free c') ∨
  (∃ k c, owned t = None ∧ owned t' = Some k ∧ arr_get cmds k = Some c ∧ is_free c = true ∧
     ∀ i c', arr_get cmds' i = Some c' → (i = k ∧ is_free c' = false) ∨ (i ≠ k ∧ arr_get cmds i = Some c')) ∨
  (∃ k, owned t = Some k ∧ owned t' = None ∧
     ∀ i c', i ≠ k → arr_get cmds' i = Some c' → arr_get cmds i = Some c').
Proof.
  intros Hp H. destruct t as [rq ind|rq ind|rq ind|rq ind|ind| |]; cbn in *; simplify_option_eq.
  - case_match eqn:Hf; simplify_eq; [|by left; eauto].
    right; left. eexists ind, _. split_and!; [done|done|done|done|].
    intros i c' [[-> ->]|?]%arr_get_insert_inv; [by left|by right|lia].
  - left. split; [done|]. intros i c' Hi. pose proof (arr_get_Some _ _ _ Hi).
    rewrite arr_get_alter in Hi by lia. case_decide; [|eauto].
    apply fmap_Some in Hi as (c & Hc & ->). eauto.
  - destruct (io_rq _); [by left; eauto|]. right; right. eauto.
  - right; right. exists ind. split_and!; [done|done|]. intros i c' Hne Hi.
    pose proof (arr_get_Some _ _ _ Hi). rewrite arr_get_alter, decide_False in Hi by lia. done.
  - left. split; [done|]. intros i c' Hi. pose proof (arr_get_Some _ _ _ Hi).
    rewrite arr_get_alter in Hi by lia. case_decide; [|eauto].
    apply fmap_Some in Hi as (c & Hc & ->). eauto.
Qed.

Lemma qinv_step s s' : qinv s → qstep s s' → qinv s'.
Proof.
  intros (Hn & Hpos & Huniq & Hbusy) Hs.
  destruct Hs as [cmds ts k t cmds' t' Hk Ht|cmds ts rq]; unfold qinv in *; cbn [fst snd] in *.
  - pose proof (lifecycle_length _ _ _ _ Ht) as Hlen.
    assert (position_ok (length cmds) t) as Hpt by (by eapply Forall_lookup_1).
    rewrite Hlen. split; [done|].
    split; [apply Forall_insert; [done|by eapply lifecycle_position]|].
    destruct (lifecycle_cases _ _ _ _ Hpt Ht) as
      [[Ho Hc]|[(x & c & Hno & Ho & Hx & Hfree & Hc)|(x & Ho & Hno & Hc)]]; split.
    + intros i j u u' ind [(<- & <- & _)|[? Hi]]%list_lookup_insert_Some
        [(<- & <- & _)|[? Hj]]%list_lookup_insert_Some; rewrite ?Ho; eauto.
    + intros i u ind c' [(<- & <- & _)|[? Hi]]%list_lookup_insert_Some Hou (c & Hc' & <-)%Hc;
        rewrite ?Ho in Hou; eauto.
    + intros i j u u' ind [(<- & <- & _)|[? Hi]]%list_lookup_insert_Some
        [(<- & <- & _)|[? Hj]]%list_lookup_insert_Some Hu Hu'; [done| | |eauto];
        rewrite Ho in *; simplify_eq; exfalso.
      * pose proof (Hbusy _ _ _ _ Hj Hu' Hx). congruence.
      * pose proof (Hbusy _ _ _ _ Hi Hu Hx). congruence.
    + intros i u ind c' [(<- & <- & _)|[? Hi]]%list_lookup_insert_Some Hou [[-> ?]|[? Hold]]%Hc;
        rewrite ?Ho in Hou; simplify_eq; try done; by eauto.
    + intros i j u u' ind [(<- & <- & _)|[? Hi]]%list_lookup_insert_Some
        [(<- & <- & _)|[? Hj]]%list_lookup_insert_Some Hu Hu';
        rewrite ?Hno in *; simplify_eq; eauto.
    + intros i u ind c' [(<- & <- & _)|[? Hi]]%list_lookup_insert_Some Hou Hc';
        [rewrite Hno in Hou; done|].
      destruct (decide (ind = x)) as [->|Hne]; [|by eauto].
      pose proof (Huniq _ _ _ _ _ Hk Hi Ho Hou). done.
  - split; [done|]. split; [apply Forall_app; split; [done|]; constructor; [cbn; lia|done]|].
    split.
    + intros i j u u' ind [Hi|[? Hi]]%lookup_app_Some [Hj|[? Hj]]%lookup_app_Some Hu Hu';
        [eauto|..]; apply list_lookup_singleton_Some in Hi as [? <-] || idtac;
        apply list_lookup_singleton_Some in Hj as [? <-] || idtac; done.
    + intros i u ind c [Hi|[? Hi]]%lookup_app_Some Hu Hc; [eauto|].
      apply list_lookup_singleton_Some in Hi as [_ <-]. done.
Qed.

(** ** Initialisation *)

(** What initialisation establishes of the command at position [ci] of queue
    [qi]: it is free, holds no request, and its work request is signalled,
    carries the command's own segment and names the command in [wr_id]. *)
Definition cmd_ready (qi ci : Z) (c : rmem_rdma_command) : Prop :=
  free_state c = 1 ∧ io_rq c = None ∧ wr_id (rdma_sq_wr c) = Some (qi, ci) ∧
  wr_signaled (rdma_sq_wr c) = true ∧ wr_sg_own (rdma_sq_wr c) = true ∧
  wr_num_sge (rdma_sq_wr c) = 1 ∧ sge_addr (rdma_sgl c) = rdma_dma_addr c.

Definition queue_ready (qi : Z) (q : rmem_rdma_queue) : Prop :=
  wf_queue q ∧ rdma_queue_depth q = RMEM_QUEUE_DEPTH ∧ q_rdma_session q = true ∧
  ∀ b cl i c, rmem_rdma_cmd_list q = Some (b, cl) → cl !! i = Some c →
    cmd_ready qi (Z.of_nat i) c.

(** The world changed in nothing but the queues and the trace. *)
Definition only_queues (w w' : world) : Prop :=
  ∃ p tr, w' = (with_queues w p) <| w_trace := tr |>.

Lemma only_queues_refl w : only_queues w w.
Proof. exists (queues w), (w_trace w). destruct w as [[]]. reflexivity. Qed.

Lemma only_queues_trans w1 w2 w3 : only_queues w1 w2 → only_queues w2 w3 → only_queues w1 w3.
Proof. intros (p & tr & ->) (p' & tr' & ->). exists p', tr'. reflexivity. Qed.

Lemma alter_cmd_compose qi ci f g p :
  alter_cmd qi ci f (alter_cmd qi ci g p) = alter_cmd qi ci (f ∘ g) p.
Proof.
  unfold alter_cmd. destruct p as [[a ql]|]; [|done]. cbn. do 2 f_equal.
  rewrite list_alter_alter_eq. apply list_alter_ext; [|done].
  intros [p ? ? ? ?] _. unfold alter_in_queue, compose. cbn.
  destruct p as [[b cl]|]; [|done]. cbn.
  unfold setter. cbn. do 3 f_equal. apply list_alter_alter_eq.
Qed.

(** A world reached from [w] by updates of one command and kernel calls. *)
Definition chain (w : world) (qi ci : Z) (f : rmem_rdma_command → rmem_rdma_command)
    (v : world) : Prop :=
  queues v = alter_cmd qi ci f (queues w) ∧ only_queues w v.

Lemma chain_trace w qi ci f v c : chain w qi ci f v → chain w qi ci f (v <| w_trace ::= (.++ [c]) |>).
Proof.
  intros [Hq Ho]. split; [done|]. eapply only_queues_trans; [done|].
  exists (queues v), (w_trace v ++ [c]). destruct v as [[]]. reflexivity.
Qed.

Lemma chain_upd {B} w qi ci f v c g (k : unit → M B) :
  lookup_cmd (queues w) qi ci = Some c → 0 <= qi → 0 <= ci → chain w qi ci f v →
  (upd_cmd qi ci g ≫= k) v = k tt (alter_w qi ci g v) ∧ chain w qi ci (g ∘ f) (alter_w qi ci g v).
Proof.
  intros Hc Hq Hi [Hv Ho]. split; [|split].
  - apply M_bind_step. eapply upd_cmd_run. by rewrite Hv, lookup_alter_cmd, decide_True, Hc by done.
  - unfold alter_w. change (queues (with_queues ?v ?p)) with p. by rewrite Hv, alter_cmd_compose.
  - eapply only_queues_trans; [done|]. exists (alter_cmd qi ci g (queues v)), (w_trace v).
    destruct v as [[]]. reflexivity.
Qed.

Lemma chain_start w qi ci : chain w qi ci id w.
Proof.
  split; [|apply only_queues_refl]. unfold alter_cmd. destruct (queues w) as [[a ql]|]; [|done].
  cbn. rewrite list_alter_id; [done|]. intros [p ? ? ? ?]. unfold alter_in_queue, setter. cbn.
  f_equal. destruct p as [[b cl]|]; [|done]. cbn. by rewrite list_alter_id.
Qed.

Lemma chain_pd w qi ci f v : chain w qi ci f v →
  pd (w_sess v) = pd (w_sess w) ∧ qp (w_sess v) = qp (w_sess w).
Proof. by intros [_ (p & tr & ->)]. Qed.

Lemma deref_field (proj : rdma_session_context → kptr) v a :
  proj (w_sess v) = KPtr a → (p ← sess proj; deref p) v = Ret a v.
Proof. intros Hp. mstep. by rewrite Hp. Qed.

(** Runs the next [upd_cmd] of the goal and extends the chain [H]. *)
Ltac run_upd H :=
  match goal with
  | Hc : lookup_cmd _ ?qi ?i = Some _ |- context [(upd_cmd ?qi ?i ?g ≫= ?k) ?v] =>
      let E := fresh in let H' := fresh in
      edestruct (fun Hq Hi => chain_upd _ qi i _ v _ g k Hc Hq Hi H) as [E H'];
      [done|done|rewrite E; clear E H; rename H' into H]
  end.

Section Init.
Context {K : kernel}.

(** The command after the pass of the loop that initialises it. *)
Definition ready_cmd (qi ci : Z) (buf : kptr) (dma : Z) (c : rmem_rdma_command) :
    rmem_rdma_command :=
  mkCmd (mkWr (Some (qi, ci)) (wr_opcode (rdma_sq_wr c)) true true 1
              (wr_remote_addr (rdma_sq_wr c)) (wr_rkey (rdma_sq_wr c)))
        (mkSge (u64 dma) (sge_length (rdma_sgl c))
               (if negb (k_local_dma_lkey =? 0) then k_local_dma_lkey else 0))
        buf (u64 dma) None 1.

Lemma init_rdma_command_run w qi i c a1 a2 :
  lookup_cmd (queues w) qi i = Some c → 0 <= qi → 0 <= i →
  pd (w_sess w) = KPtr a1 → qp (w_sess w) = KPtr a2 →
  ∃ buf dma w', init_rdma_command qi i w = Ret true w' ∧
    chain w qi i (ready_cmd qi i buf dma) w'.
Proof.
  intros Hc Hq Hi Hpd Hqp. unfold init_rdma_command.
  pose proof (chain_start w qi i) as Hch.
  assert (∀ f v, chain w qi i f v → pd (w_sess v) = KPtr a1 ∧ qp (w_sess v) = KPtr a2) as Hptr.
  { intros f v [-> ->]%chain_pd. done. }
  run_upd Hch. mstep. set (buf := k_ptr _ _).
  apply (chain_trace _ _ _ _ _ (K_kzalloc ONE_SIEDED_RDMA_BUF_SIZE)) in Hch.
  run_upd Hch. erewrite M_bind_step by (apply deref_field; eapply Hptr, Hch).
  mstep. set (dma := k_int _ _).
  apply (chain_trace _ _ _ _ _ (K_ib_dma_map_single (kptr_addr buf) ONE_SIEDED_RDMA_BUF_SIZE)) in Hch.
  do 2 run_upd Hch. erewrite M_bind_step by (apply deref_field; eapply Hptr, Hch).
  exists buf, dma. unfold ready_cmd.
  destruct (negb (k_local_dma_lkey =? 0)); do 3 run_upd Hch;
    (eexists; split; [reflexivity|exact Hch]).
Qed.

Lemma set_queue_run w qi q a ql :
  queues w = Some (a, ql) → 0 <= qi < Z.of_nat (length ql) →
  set_queue qi q w = Ret tt (with_queues w (Some (a, <[Z.to_nat qi := q]> ql))).
Proof.
  intros Hp Hi. unfold set_queue. mstep. fold (queues w). rewrite Hp. mstep. cbn.
  rewrite arr_set_Some by done. by mstep.
Qed.

Lemma arr_get_insert_eq {A} (l : list A) i x :
  0 <= i < Z.of_nat (length l) → arr_get (<[Z.to_nat i := x]> l) i = Some x.
Proof.
  intros. unfold arr_get. rewrite decide_True by lia. apply list_lookup_insert_eq. lia.
Qed.

(** The queue under initialisation, as one element of the queue list. *)
Lemma alter_cmd_insert qi ci f a ql q :
  0 <= qi < Z.of_nat (length ql) →
  alter_cmd qi ci f (Some (a, <[Z.to_nat qi := q]> ql)) =
  Some (a, <[Z.to_nat qi := alter_in_queue ci f q]> ql).
Proof.
  intros Hq. unfold alter_cmd. cbn. do 2 f_equal.
  rewrite <- (insert_alter _ _ qi q) by (by apply arr_get_insert_eq).
  by rewrite list_insert_insert_eq.
Qed.

(** The initialisation loop, from a zeroed list of [n] commands on: after
    [j] passes the first [j] commands are ready. *)
Lemma init_loop_run w qi a ql q b n a1 a2 :
  queues w = Some (a, <[Z.to_nat qi := q <| rmem_rdma_cmd_list := Some (b, replicate n zero_cmd) |>]> ql) →
  0 <= qi < Z.of_nat (length ql) →
  pd (w_sess w) = KPtr a1 → qp (w_sess w) = KPtr a2 →
  ∃ w' l, for_loop n 0 (init_rdma_command qi) w = Ret tt w' ∧ only_queues w w' ∧
    queues w' = Some (a, <[Z.to_nat qi := q <| rmem_rdma_cmd_list := Some (b, l) |>]> ql) ∧
    length l = n ∧ ∀ k c, l !! k = Some c → cmd_ready qi (Z.of_nat k) c.
Proof.
  intros Hw Hq Hpd Hqp.
  destruct (for_loop_inv (λ j v, only_queues w v ∧ ∃ l,
    queues v = Some (a, <[Z.to_nat qi := q <| rmem_rdma_cmd_list := Some (b, l) |>]> ql) ∧
    length l = n ∧ ∀ k c, Z.of_nat k < j → l !! k = Some c → cmd_ready qi (Z.of_nat k) c)
    (init_rdma_command qi) n 0 w) as (w' & Hrun & Ho & l & Hl & Hn & Hr).
  - split; [apply only_queues_refl|]. exists (replicate n zero_cmd).
    split_and!; [done|apply length_replicate|]. intros. lia.
  - intros j v Hj (Ho & l & Hl & Hn & Hr).
    destruct (arr_get_is_Some l j) as [c Hc]; [lia|].
    assert (lookup_cmd (queues v) qi j = Some c) as Hlk.
    { rewrite Hl. apply lookup_cmd_Some. eexists a, _, _, b, l.
      split_and!; [done|by apply arr_get_insert_eq|done|done]. }
    pose proof Ho as (p & tr & Hv).
    destruct (init_rdma_command_run v qi j c a1 a2 Hlk) as (buf & dma & v' & Hv' & Hch & Ho');
      [lia|lia|by rewrite Hv|by rewrite Hv|].
    exists v'. split; [done|]. split; [by eapply only_queues_trans|].
    exists (alter (ready_cmd qi j buf dma) (Z.to_nat j) l).
    rewrite Hch, Hl, alter_cmd_insert by done. split; [done|]. split; [by rewrite length_alter|].
    intros k c' Hk Hc'. destruct (decide (Z.to_nat j = k)) as [<-|Hne].
    + rewrite list_lookup_alter_eq in Hc'. apply fmap_Some in Hc' as (c0 & _ & ->).
      rewrite Z2Nat.id by lia. repeat split.
    + rewrite list_lookup_alter_ne in Hc' by done. apply Hr; [lia|done].
  - exists w', l. split_and!; [done|done|done|done|]. intros k c Hk. apply Hr; [|done].
    apply lookup_lt_Some in Hk. lia.
Qed.

(** Memory is available: [kzalloc] gives an address. *)
Definition kzalloc_ok : Prop := ∀ tr size, ∃ a, k_ptr tr (K_kzalloc size) = KPtr a.

Lemma init_list_run w qi a ql q b a1 a2 :
  k_ptr (w_trace w) (K_kzalloc (u64 (k_sizeof_cmd * RMEM_QUEUE_DEPTH))) = KPtr b →
  queues w = Some (a, ql) → arr_get ql qi = Some q →
  pd (w_sess w) = KPtr a1 → qp (w_sess w) = KPtr a2 →
  ∃ w' q', init_rdma_command_list qi w = Ret 0 w' ∧ only_queues w w' ∧
    queues w' = Some (a, <[Z.to_nat qi := q']> ql) ∧ queue_ready qi q'.
Proof.
  intros Hb Hp Hq Hpd Hqp. pose proof (arr_get_Some _ _ _ Hq) as Hlt.
  unfold init_rdma_command_list.
  erewrite M_bind_step by (by eapply get_queue_run). cbv zeta.
  set (q1 := q <| cmd_ptr := 0 |> <| rdma_queue_depth := _ |> <| q_index := 0 |> <| q_rdma_session := true |>).
  erewrite M_bind_step by (by eapply set_queue_run).
  set (v1 := with_queues w _). unfold kzalloc.
  change (k_ptr (w_trace v1) (K_kzalloc (u64 (k_sizeof_cmd * rdma_queue_depth q1))) = KPtr b) in Hb.
  erewrite (M_bind_step (mbind _ _)) by (mstep; rewrite Hb; reflexivity).
  set (v2 := v1 <| w_trace ::= _ |>).
  erewrite (M_bind_step (set_queue _ _)).
  2:{ apply (set_queue_run v2 qi _ a (<[Z.to_nat qi:=q1]> ql)); [done|by rewrite length_insert]. }
  rewrite list_insert_insert_eq.
  destruct (init_loop_run (with_queues v2 (Some (a, <[Z.to_nat qi := q1 <| rmem_rdma_cmd_list :=
    Some (b, replicate 16 zero_cmd) |>]> ql))) qi a ql q1 b 16 a1 a2)
    as (w' & l & Hrun & Ho & Hw' & Hl & Hr); [done|done|done|done|].
  eexists w', _. split.
  { change (Z.to_nat (rdma_queue_depth q1)) with 16%nat. by erewrite M_bind_step. }
  split; [|split; [done|]].
  - eapply only_queues_trans; [|done]. eexists _, _. reflexivity.
  - split; [split; [done|]; exists b, l; split; [done|]; by rewrite Hl|].
    split_and!; [done|done|]. intros b' cl i c [= <- <-] Hi. by apply Hr.
Qed.

End Init.

(** ** Theorems *)

(** Setting up the RDMA queues: with memory available and the protection
    domain and queue pair in place, one queue per core is created; each has
    [RMEM_QUEUE_DEPTH] commands, every one of them free, without request, and
    with a signalled work request that names it in [wr_id]; nothing else of
    the session changes. *)
Theorem init_rdma_command_queue_list_spec `{K : kernel} w a1 a2 :
  kzalloc_ok → pd (w_sess w) = KPtr a1 → qp (w_sess w) = KPtr a2 →
  0 <= w_online_cores w < 2 ^ 32 →
  ∃ w' a ql, init_rdma_command_queue_list w = Ret 0 w' ∧ only_queues w w' ∧
    queues w' = Some (a, ql) ∧ Z.of_nat (length ql) = w_online_cores w ∧
    ∀ i q, ql !! i = Some q → queue_ready (Z.of_nat i) q.
Proof.
  intros Hmem Hpd Hqp Hcores. unfold init_rdma_command_queue_list. mstep.
  rewrite u32_id by done. unfold kzalloc.
  destruct (Hmem (w_trace w) (u64 (k_sizeof_queue * w_online_cores w))) as [a Ha].
  erewrite (M_bind_step (mbind _ _)) by (mstep; rewrite Ha; reflexivity). mstep.
  set (n := Z.to_nat (w_online_cores w)).
  match goal with |- context [(for_loop n 0 ?body ≫= _) ?v] =>
    destruct (for_loop_inv (λ j v', only_queues w v' ∧ ∃ ql,
      queues v' = Some (a, ql) ∧ length ql = n ∧
      ∀ i q, Z.of_nat i < j → ql !! i = Some q → queue_ready (Z.of_nat i) q) body n 0 v)
      as (w' & Hrun & Ho & ql & Hq & Hn & Hr) end.
  - split; [eexists _, _; reflexivity|]. eexists. split; [reflexivity|].
    split; [apply length_replicate|]. intros. lia.
  - intros j v Hj (Ho & ql & Hq & Hn & Hr).
    destruct (arr_get_is_Some ql j) as [q Hjq]; [lia|]. pose proof Ho as (p & tr & Hv).
    destruct (Hmem (w_trace v) (u64 (k_sizeof_cmd * RMEM_QUEUE_DEPTH))) as [b Hb].
    destruct (init_list_run v j a ql q b a1 a2) as (v' & q' & Hrun & Ho' & Hq' & Hready);
      [done|done|done|by rewrite Hv|by rewrite Hv|].
    exists v'. split; [by erewrite M_bind_step|]. split; [by eapply only_queues_trans|].
    eexists. split; [done|]. split; [by rewrite length_insert|].
    intros i qi Hi [(<- & <- & _)|[? Hold]]%list_lookup_insert_Some.
    + by rewrite Z2Nat.id by lia.
    + apply Hr; [lia|done].
  - exists w', a, ql. split; [by erewrite M_bind_step|]. split_and!; [done|done|lia|].
    intros i q Hi. apply Hr; [|done]. apply lookup_lt_Some in Hi. lia.
Qed.

(** A session with protection domain and queue pair, on two cores. *)
Definition demo_queue_world : world :=
  world0 <| w_online_cores := 2 |>
    <| w_sess ::= λ s, s <| pd := KPtr 32 |> <| qp := KPtr 64 |> |>.

Lemma init_rdma_command_queue_list_spec_witness :
  ∃ w' a ql, @init_rdma_command_queue_list kernel_ok demo_queue_world = Ret 0 w' ∧
    queues w' = Some (a, ql) ∧ length ql = 2%nat.
Proof.
  destruct (@init_rdma_command_queue_list_spec kernel_ok demo_queue_world 32 64)
    as (w' & a & ql & Hr & _ & Hq & Hl & _).
  - intros tr size. eexists. reflexivity.
  - reflexivity.
  - reflexivity.
  - cbn. lia.
  - exists w', a, ql. split; [exact Hr|]. split; [exact Hq|]. cbn in Hl. lia.
Defined.

(** C37. Taking a command, on every state of a well-formed queue: if a command
    is free, the first free one in list order is returned, marked as taken,
    and nothing else changes; if none is, the probe yields no result however
    long it runs. *)
Theorem get_a_free_rdma_cmd_spec w qi a ql q b cl :
  queues w = Some (a, ql) → arr_get ql qi = Some q →
  rmem_rdma_cmd_list q = Some (b, cl) → wf_queue q →
  (∃ k c, cl !! k = Some c ∧ is_free c = true ∧
     (∀ j d, (j < k)%nat → cl !! j = Some d → is_free d = false) ∧
     get_a_free_rdma_cmd_from_rdma_q qi w =
       Ret (Z.of_nat k) (alter_w qi (Z.of_nat k) (λ c, c <| free_state := 0 |>) w)) ∨
  ((∀ j d, cl !! j = Some d → is_free d = false) ∧
   get_a_free_rdma_cmd_from_rdma_q qi w = Oops Spin ∧
   ∀ fuel, probe_loop fuel cl (rdma_queue_depth q) 0 = NoResult).
Proof.
  intros Hp Hq Hl Hwf. destruct (get_free_run w qi a ql q b cl Hp Hq Hl Hwf) as [?|[Hn Hs]];
    [by left|right]. split_and!; [done|done|].
  destruct Hwf as (Hd & b' & cl' & Hl' & Hlen). simplify_eq.
  intros fuel. apply probe_none; [done|done|done|lia].
Qed.

(** A queue of three commands of which the second is free. *)
Definition demo_cmds : list rmem_rdma_command :=
  [zero_cmd; zero_cmd <| free_state := 1 |>; zero_cmd].
Definition demo_queue : rmem_rdma_queue := mkQueue (Some (128, demo_cmds)) 3 0 0 true.

Lemma get_a_free_rdma_cmd_spec_witness :
  is_Some (demo_cmds !! 1%nat) ∧
  ((∃ k c, demo_cmds !! k = Some c ∧ is_free c = true) ∨
   (∀ fuel, probe_loop fuel demo_cmds 3 0 = NoResult)).
Proof.
  split; [by eexists|].
  destruct (get_a_free_rdma_cmd_spec (with_queues world0 (Some (8, [demo_queue]))) 0 8 [demo_queue]
    demo_queue 128 demo_cmds) as [(k & c & Hk & Hc & _)|(_ & _ & Hn)].
  - reflexivity.
  - reflexivity.
  - reflexivity.
  - split; [cbn; lia|]. exists 128, demo_cmds. split; reflexivity.
  - left. exists k, c. split; [exact Hk|exact Hc].
  - right. exact Hn.
Defined.

Lemma qinv_reachable cmds s :
  0 < Z.of_nat (length cmds) < 2 ^ 31 → rtc qstep (idle_queue cmds) s → qinv s.
Proof.
  intros Hn. apply (rtc_ind_r qinv); [by apply idle_inv|]. intros ? ? _ Hs Hi. by eapply qinv_step.
Qed.

(** C4. Mutual exclusion: in every interleaving of any number of requests on
    one queue, two requests never own the same command, and a command that is
    owned is marked as taken, so no third request can take it. *)
Theorem cmd_mutual_exclusion cmds s i j t t' ind :
  0 < Z.of_nat (length cmds) < 2 ^ 31 → rtc qstep (idle_queue cmds) s →
  s.2 !! i = Some t → s.2 !! j = Some t' → owned t = Some ind → owned t' = Some ind →
  i = j ∧ ∀ c, arr_get s.1 ind = Some c → is_free c = false.
Proof.
  intros Hn Hr Hi Hj Ho Ho'. destruct (qinv_reachable _ _ Hn Hr) as (_ & _ & Huniq & Hbusy).
  split; [eauto|]. intros c. eauto.
Qed.

Definition demo_rq (tag : Z) : request := mkRequest tag true 0 4096 1 [mkBio 1 []] 0.

(** Runs the request at each listed position in turn. *)
Fixpoint run_schedule (sched : list nat) (s : qstate) : option qstate :=
  match sched with
  | [] => Some s
  | i :: sched =>
      t ← s.2 !! i; r ← lifecycle_step s.1 t; run_schedule sched (r.1, <[i := r.2]> s.2)
  end.

Lemma run_schedule_steps sched s s' : run_schedule sched s = Some s' → rtc qstep s s'.
Proof.
  revert s. induction sched as [|i sched IH]; intros [cmds ts]; cbn [run_schedule fst snd].
  - intros [= ->]. done.
  - intros H. apply bind_Some in H as (t & Ht & H). apply bind_Some in H as ([cmds' t'] & Hs & H).
    eapply rtc_l; [|by apply IH]. by econstructor.
Qed.

(** C40. Releasing a command is not safe under concurrency, although the
    comment on [free_a_rdma_cmd_to_rdma_q] says so: for any two requests and
    any queue whose first command is free there is an interleaving in which
    the first request's completion marks the command free, the second request
    takes it and stores its [io_rq], and only then the first completion's
    second store clears that pointer; the second request's completion handler
    finds NULL. *)
Theorem free_cmd_race c cmds (rqA rqB : request) :
  is_free c = true →
  rtc qstep (idle_queue (c :: cmds)) (c :: cmds, [Probing rqA 0; Probing rqB 0]) ∧
  ∃ s, rtc qstep (c :: cmds, [Probing rqA 0; Probing rqB 0]) s ∧ s.2 = [Over; Broken].
Proof.
  intros Hc. unfold is_free in Hc.
  set (s0 := (c :: cmds, [Probing rqA 0; Probing rqB 0])).
  split.
  { eapply rtc_l; [apply (qstep_submit _ _ rqA)|]. eapply rtc_l; [apply (qstep_submit _ _ rqB)|].
    reflexivity. }
  assert (∃ s, run_schedule [0; 0; 0; 0; 1; 1; 0; 1]%nat s0 = Some s ∧ s.2 = [Over; Broken])
    as (s & Hs & Hb).
  { unfold s0. cbn [run_schedule lifecycle_step fst snd lookup list_lookup mbind option_bind].
    change (arr_get (c :: cmds) 0) with (Some c). cbn. rewrite Hc. eexists. split; reflexivity. }
  exists s. split; [|done]. by eapply run_schedule_steps.
Qed.

Lemma free_cmd_race_witness :
  ∃ s, rtc qstep ([zero_cmd <| free_state := 1 |>],
                  [Probing (demo_rq 1) 0; Probing (demo_rq 2) 0]) s ∧ s.2 = [Over; Broken].
Proof.
  destruct (free_cmd_race (zero_cmd <| free_state := 1 |>) [] (demo_rq 1) (demo_rq 2)) as [_ H];
    [reflexivity|exact H].
Defined.

Lemma cmd_mutual_exclusion_witness :
  ∃ s, rtc qstep (idle_queue demo_cmds) s ∧ s.2 !! 0%nat = Some (Acquired (demo_rq 1) 1) ∧
    (0%nat = 0%nat ∧ ∀ c, arr_get s.1 1 = Some c → is_free c = false).
Proof.
  pose (s0 := (demo_cmds, [Probing (demo_rq 1) 0])).
  assert (∃ s, run_schedule [0; 0]%nat s0 = Some s ∧ s.2 = [Acquired (demo_rq 1) 1]) as (s & Hs & Ht).
  { eexists. split; vm_compute; reflexivity. }
  assert (rtc qstep (idle_queue demo_cmds) s) as Hr.
  { eapply rtc_l; [apply (qstep_submit _ _ (demo_rq 1))|]. by eapply run_schedule_steps. }
  assert (s.2 !! 0%nat = Some (Acquired (demo_rq 1) 1)) as Hl by (by rewrite Ht).
  exists s. split; [exact Hr|]. split; [exact Hl|].
  apply (cmd_mutual_exclusion demo_cmds s 0 0 (Acquired (demo_rq 1) 1) (Acquired (demo_rq 1) 1) 1);
    [cbn; lia|exact Hr|exact Hl|exact Hl|reflexivity|reflexivity].
Defined.
