(* ===== verification/OneSided.v ===== *)
(** * One-sided RDMA reads and writes

    [post_rdma_write], [post_rdma_read], [rdma_write_done], [rdma_read_done]
    and [copy_data_to_rdma_buf] of [rdma_client.c]: a block request takes a
    command of its queue, turns it into a signalled RDMA work request on the
    remote chunk and posts it; the completion ends the request and gives the
    command back.

    The theorems give the posted work request on every branch, show that a
    posted command and its completion leave the queue as it was, and show the
    two ways in which a command is lost: a failing [ib_post_send], and a read
    completion of a request with more than one bio. *)

From S2P Require Import Prelude BitOps OctTypes Kernel ChunkList CmdQueue.

(** ** Operations *)

Section Ops.
Context {K : kernel}.

(** The common body of [post_rdma_write] and [post_rdma_read], which differ
    in the opcode only.  [chunk] is what [remote_chunk_ptr] points at. *)
Definition post_rdma (op : ib_opcode) (rq : request) (qi : Z)
    (chunk : remote_mapping_chunk) (offset_within_chunk len : Z) : M Z :=
  if bool_decide (chunk_state chunk ≠ MAPPED) then mret (-1)
  else
    ci ← get_a_free_rdma_cmd_from_rdma_q qi;
    upd_cmd qi ci (λ c, c <| io_rq := Some rq |>);;
    upd_cmd qi ci (λ c, c <| rdma_sq_wr ::= λ wr, wr <| wr_rkey := remote_rkey chunk |> |>);;
    upd_cmd qi ci (λ c, c <| rdma_sq_wr ::= λ wr,
      wr <| wr_remote_addr := u64 (remote_addr chunk + offset_within_chunk) |> |>);;
    upd_cmd qi ci (λ c, c <| rdma_sq_wr ::= λ wr, wr <| wr_opcode := op |> |>);;
    c ← get_cmd qi ci;
    (if wr_sg_own (rdma_sq_wr c)
     then upd_cmd qi ci (λ c, c <| rdma_sgl ::= λ g, g <| sge_length := u32 len |> |>)
     else oops NullDeref);;
    _ ← (q ← sess qp; deref q);
    c ← get_cmd qi ci;
    call_int (K_ib_post_send_rdma (rdma_sq_wr c) (rdma_sgl c)).

Definition post_rdma_write := post_rdma IB_WR_RDMA_WRITE.
Definition post_rdma_read := post_rdma IB_WR_RDMA_READ.

(** The completion handlers take the [wr_id] of the work completion. *)
Definition rdma_write_done (id : cmd_ref) : M Z :=
  match id with
  | None => mret (-1)
  | Some (qi, ci) =>
      c ← get_cmd qi ci;
      rq ← deref_opt (io_rq c);                (* io_rq->tag *)
      _ ← deref_opt (head (rq_bio rq));        (* bio_for_each_segment_all *)
      call (K_blk_mq_end_request (rq_tag rq) (rq_errors rq));;
      free_a_rdma_cmd_to_rdma_q qi ci;;
      mret 0
  end.

Definition rdma_read_done (id : cmd_ref) : M Z :=
  match id with
  | None => mret (-1)
  | Some (qi, ci) =>
      c ← get_cmd qi ci;
      rq ← deref_opt (io_rq c);                (* blk_rq_bytes(io_rq) *)
      b ← deref_opt (head (rq_bio rq));        (* io_rq->bio->bi_phys_segments *)
      if negb (rq_nr_phys_segments rq =? bi_phys_segments b) then mret (-1)
      else
        call (K_blk_mq_end_request (rq_tag rq) (rq_errors rq));;
        free_a_rdma_cmd_to_rdma_q qi ci;;
        mret 0
  end.

End Ops.

(** [memcpy(dst + off, src, n)] between byte arrays of known extent. *)
Definition memcpy (dst : list Z) (off : Z) (src : list Z) (n : Z) : fault + list Z :=
  if decide (0 <= off ∧ off + n <= Z.of_nat (length dst) ∧ n <= Z.of_nat (length src))
  then inr (take (Z.to_nat off) dst ++ take (Z.to_nat n) src ++ drop (Z.to_nat (off + n)) dst)
  else inl OutOfBounds.

(** The loop of [copy_data_to_rdma_buf], along the [bi_next] list. *)
Fixpoint copy_loop (bios : list bio) (num_seg seg_ind : Z) (dst : list Z) : fault + list Z :=
  if seg_ind <? num_seg then
    match bios with
    | [] => inl NullDeref
    | b :: bios =>
        match memcpy dst (u32 seg_ind * PAGE_SIZE) (bi_data b) (bi_phys_segments b * PAGE_SIZE) with
        | inl f => inl f
        | inr dst => copy_loop bios num_seg (u32 (seg_ind + bi_phys_segments b)) dst
        end
    end
  else inr dst.

(** The contents of [rdma_buf] after the copy. *)
Definition copy_data_to_rdma_buf (rq : request) (rdma_buf : list Z) : fault + list Z :=
  copy_loop (rq_bio rq) (u32 (rq_nr_phys_segments rq)) 0 rdma_buf.

(** ** The queues' invariant *)

(** What stays true of a command from its initialisation on: its work request
    names it, is signalled and carries its own segment, which is its buffer. *)
Definition cmd_shape (qi ci : Z) (c : rmem_rdma_command) : Prop :=
  wr_id (rdma_sq_wr c) = Some (qi, ci) ∧ wr_signaled (rdma_sq_wr c) = true ∧
  wr_sg_own (rdma_sq_wr c) = true ∧ wr_num_sge (rdma_sq_wr c) = 1 ∧
  sge_addr (rdma_sgl c) = rdma_dma_addr c.

Definition queue_ok (qi : Z) (q : rmem_rdma_queue) : Prop :=
  wf_queue q ∧ q_rdma_session q = true ∧
  ∀ b cl i c, rmem_rdma_cmd_list q = Some (b, cl) → cl !! i = Some c →
    cmd_shape qi (Z.of_nat i) c.

Definition queues_ok (w : world) : Prop :=
  ∃ a ql, queues w = Some (a, ql) ∧ ∀ i q, ql !! i = Some q → queue_ok (Z.of_nat i) q.

(** The command [post_rdma] fills for a request, from the free command. *)
Definition prepared (op : ib_opcode) (rq : request) (chunk : remote_mapping_chunk)
    (offset len : Z) (c : rmem_rdma_command) : rmem_rdma_command :=
  mkCmd (mkWr (wr_id (rdma_sq_wr c)) op (wr_signaled (rdma_sq_wr c)) (wr_sg_own (rdma_sq_wr c))
              (wr_num_sge (rdma_sq_wr c)) (u64 (remote_addr chunk + offset)) (remote_rkey chunk))
        (mkSge (sge_addr (rdma_sgl c)) (u32 len) (sge_lkey (rdma_sgl c)))
        (rdma_buf c) (rdma_dma_addr c) (Some rq) 0.

(** The call that posts a command. *)
Definition post_call (c : rmem_rdma_command) : kcall :=
  K_ib_post_send_rdma (rdma_sq_wr c) (rdma_sgl c).

Definition add_trace (c : kcall) (w : world) : world := w <| w_trace ::= (.++ [c]) |>.

(** A command given back. *)
Definition released (c : rmem_rdma_command) : rmem_rdma_command :=
  c <| free_state := 1 |> <| io_rq := None |>.

(** The first free command of queue [qi]. *)
Definition first_free_at (w : world) (qi : Z) (k : nat) (c : rmem_rdma_command) : Prop :=
  lookup_cmd (queues w) qi (Z.of_nat k) = Some c ∧ is_free c = true ∧
  ∀ j d, (j < k)%nat → lookup_cmd (queues w) qi (Z.of_nat j) = Some d → is_free d = false.

Definition no_free (w : world) (qi : Z) : Prop :=
  ∀ j d, lookup_cmd (queues w) qi (Z.of_nat j) = Some d → is_free d = false.

(** ** Lemmas *)

Lemma queues_ok_lookup w qi a ql q :
  queues_ok w → queues w = Some (a, ql) → arr_get ql qi = Some q → queue_ok qi q.
Proof.
  intros (a' & ql' & Hq & Hall) Hq' Hi. rewrite Hq in Hq'. injection Hq' as -> ->.
  pose proof (arr_get_Some _ _ _ Hi). unfold arr_get in Hi. rewrite decide_True in Hi by lia.
  apply Hall in Hi. by rewrite Z2Nat.id in Hi by lia.
Qed.

Lemma lookup_cmd_list w qi a ql q b cl (j : nat) :
  queues w = Some (a, ql) → arr_get ql qi = Some q → rmem_rdma_cmd_list q = Some (b, cl) →
  lookup_cmd (queues w) qi (Z.of_nat j) = cl !! j.
Proof.
  intros Hp Hq Hl. unfold lookup_cmd. rewrite Hp. cbn. rewrite Hq. cbn. rewrite Hl. cbn.
  apply arr_get_lookup.
Qed.

(** Taking a command, in terms of the two-level map. *)
Lemma get_free_cases w qi a ql q :
  queues_ok w → queues w = Some (a, ql) → arr_get ql qi = Some q →
  (∃ k c, first_free_at w qi k c ∧ cmd_shape qi (Z.of_nat k) c ∧
     get_a_free_rdma_cmd_from_rdma_q qi w =
       Ret (Z.of_nat k) (alter_w qi (Z.of_nat k) (λ c, c <| free_state := 0 |>) w)) ∨
  (no_free w qi ∧ get_a_free_rdma_cmd_from_rdma_q qi w = Oops Spin).
Proof.
  intros Hok Hp Hq. destruct (queues_ok_lookup _ _ _ _ _ Hok Hp Hq) as (Hwf & _ & Hsh).
  pose proof Hwf as (_ & b & cl & Hl & _).
  pose proof (λ j, lookup_cmd_list w qi a ql q b cl j Hp Hq Hl) as Hlk.
  destruct (get_free_run w qi a ql q b cl Hp Hq Hl Hwf) as [(k & c & Hk & Hc & Hmin & Hr)|[Hn Hr]].
  - left. exists k, c. split; [split_and!; [by rewrite Hlk|done|]|split; [by eapply Hsh|done]].
    intros j d Hj. rewrite Hlk. by apply Hmin.
  - right. split; [|done]. intros j d. rewrite Hlk. apply Hn.
Qed.

Lemma lookup_cmd_nonneg p qi ci c : lookup_cmd p qi ci = Some c → 0 <= qi ∧ 0 <= ci.
Proof.
  rewrite lookup_cmd_Some. intros (? & ? & ? & ? & ? & _ & H1%arr_get_Some & _ & H2%arr_get_Some). lia.
Qed.

Lemma lookup_alter_w_eq w qi ci f c :
  lookup_cmd (queues w) qi ci = Some c →
  lookup_cmd (queues (alter_w qi ci f w)) qi ci = Some (f c).
Proof.
  intros Hc. destruct (lookup_cmd_nonneg _ _ _ _ Hc).
  change (queues (alter_w qi ci f w)) with (alter_cmd qi ci f (queues w)).
  by rewrite lookup_alter_cmd, decide_True, Hc by done.
Qed.

Lemma alter_w_compose qi ci f g w :
  alter_w qi ci f (alter_w qi ci g w) = alter_w qi ci (f ∘ g) w.
Proof. unfold alter_w. change (queues (with_queues w ?p)) with p. by rewrite alter_cmd_compose. Qed.

(** An update followed by the rest, with the updates gathered in one. *)
Lemma upd_cmd_step {B} w qi ci f g c (k : unit → M B) :
  lookup_cmd (queues w) qi ci = Some c →
  (upd_cmd qi ci g ≫= k) (alter_w qi ci f w) = k tt (alter_w qi ci (g ∘ f) w).
Proof.
  intros Hc. erewrite M_bind_step by (eapply upd_cmd_run; by apply lookup_alter_w_eq).
  by rewrite alter_w_compose.
Qed.

Lemma get_cmd_step {B} w qi ci f c (k : rmem_rdma_command → M B) :
  lookup_cmd (queues w) qi ci = Some c →
  (get_cmd qi ci ≫= k) (alter_w qi ci f w) = k (f c) (alter_w qi ci f w).
Proof. intros Hc. apply M_bind_step, get_cmd_run. by apply lookup_alter_w_eq. Qed.

Lemma deref_step {B} (proj : rdma_session_context → kptr) v a (k : Z → M B) :
  proj (w_sess v) = KPtr a → ((p ← sess proj; deref p) ≫= k) v = k a v.
Proof. intros. by apply M_bind_step, deref_field. Qed.

Lemma alter_w_ext qi ci f g w c :
  lookup_cmd (queues w) qi ci = Some c → f c = g c → alter_w qi ci f w = alter_w qi ci g w.
Proof.
  rewrite lookup_cmd_Some. intros (a & ql & q & b & cl & Hp & Hq & Hl & Hc) Hfg.
  unfold alter_w, alter_cmd. rewrite Hp. cbn. do 3 f_equal.
  rewrite <- !(insert_alter _ _ _ _ Hq). f_equal. destruct q. cbn in Hl. subst.
  unfold alter_in_queue, setter. cbn. do 3 f_equal.
  by rewrite <- !(insert_alter _ _ _ _ Hc), Hfg.
Qed.

#[global] Arguments alter_w : simpl never.

Lemma post_rdma_run `{K : kernel} w op rq qi chunk off len k c aq :
  first_free_at w qi k c → cmd_shape qi (Z.of_nat k) c →
  get_a_free_rdma_cmd_from_rdma_q qi w =
    Ret (Z.of_nat k) (alter_w qi (Z.of_nat k) (λ c, c <| free_state := 0 |>) w) →
  qp (w_sess w) = KPtr aq → chunk_state chunk = MAPPED →
  let c' := prepared op rq chunk off len c in
  post_rdma op rq qi chunk off len w =
    Ret (k_int (w_trace w) (post_call c'))
        (add_trace (post_call c') (alter_w qi (Z.of_nat k) (prepared op rq chunk off len) w)).
Proof.
  intros (Hc & Hf & _) Hsh Hg Hqp Hm c'. unfold post_rdma.
  rewrite bool_decide_false by tauto. rewrite (M_bind_step _ _ _ _ _ Hg).
  rewrite !(upd_cmd_step _ _ _ _ _ _ _ Hc), (get_cmd_step _ _ _ _ _ _ Hc). cbn -[mbind].
  destruct Hsh as (_ & _ & Hown & _). rewrite Hown.
  rewrite (upd_cmd_step _ _ _ _ _ _ _ Hc).
  assert (∀ f v, qp (w_sess v) = KPtr aq → qp (w_sess (alter_w qi (Z.of_nat k) f v)) = KPtr aq) as Hq.
  { by intros. }
  rewrite (deref_step qp _ aq) by (by apply Hq). rewrite (get_cmd_step _ _ _ _ _ _ Hc).
  erewrite alter_w_ext; [|done|]; [reflexivity|]. by destruct c as [[] []].
Qed.

(** A change of one command that keeps its shape keeps the invariant. *)
Lemma queues_ok_alter w qi ci f :
  queues_ok w → 0 <= qi → 0 <= ci →
  (∀ c, cmd_shape qi ci c → cmd_shape qi ci (f c)) → queues_ok (alter_w qi ci f w).
Proof.
  intros (a & ql & Hq & Hall) Hqi Hci Hf. unfold queues_ok.
  change (queues (alter_w qi ci f w)) with (alter_cmd qi ci f (queues w)).
  rewrite Hq. eexists a, _. split; [reflexivity|]. intros i q Hi. cbn in Hi.
  destruct (decide (Z.to_nat qi = i)) as [<-|Hne].
  2:{ rewrite list_lookup_alter_ne in Hi by done. by apply Hall. }
  rewrite list_lookup_alter_eq in Hi. apply fmap_Some in Hi as (q0 & Hq0 & ->).
  apply Hall in Hq0. rewrite Z2Nat.id in * by lia.
  destruct Hq0 as ((Hd & b & cl & Hl & Hlen) & Hs & Hsh). destruct q0 as [p d cp ix s]. cbn in *.
  subst p. split; [split; [done|]; eexists _, _; split; [reflexivity|]; by rewrite length_alter|].
  split; [done|]. intros b' cl' j c [= <- <-] Hj.
  destruct (decide (Z.to_nat ci = j)) as [<-|Hne].
  - rewrite list_lookup_alter_eq in Hj. apply fmap_Some in Hj as (c0 & Hc0 & ->).
    rewrite Z2Nat.id by lia. apply Hf. rewrite <- (Z2Nat.id ci) by lia. by eapply Hsh.
  - rewrite list_lookup_alter_ne in Hj by done. by eapply Hsh.
Qed.

Lemma queues_ok_trace w c : queues_ok w → queues_ok (add_trace c w).
Proof. done. Qed.

Lemma prepared_shape qi ci op rq chunk off len c :
  cmd_shape qi ci c → cmd_shape qi ci (prepared op rq chunk off len c).
Proof. done. Qed.

Lemma released_shape qi ci c : cmd_shape qi ci c → cmd_shape qi ci (released c).
Proof. done. Qed.

Create HintDb queues.
#[export] Hint Resolve queues_ok_alter queues_ok_trace prepared_shape released_shape : queues.

Lemma cmd_shape_lookup w qi ci c :
  queues_ok w → lookup_cmd (queues w) qi ci = Some c → cmd_shape qi ci c.
Proof.
  intros Hok (a & ql & q & b & cl & Hp & Hq & Hl & Hc)%lookup_cmd_Some.
  destruct (queues_ok_lookup _ _ _ _ _ Hok Hp Hq) as (_ & _ & Hsh).
  pose proof (arr_get_Some _ _ _ Hc). unfold arr_get in Hc. rewrite decide_True in Hc by lia.
  rewrite <- (Z2Nat.id ci) by lia. by eapply Hsh.
Qed.

Lemma free_cmd_run w qi ci c :
  lookup_cmd (queues w) qi ci = Some c →
  free_a_rdma_cmd_to_rdma_q qi ci w = Ret tt (alter_w qi ci released w).
Proof.
  intros Hc. unfold free_a_rdma_cmd_to_rdma_q.
  rewrite (M_bind_step _ _ _ _ _ (upd_cmd_run _ _ _ _ _ Hc)).
  erewrite upd_cmd_run by (by apply lookup_alter_w_eq). by rewrite alter_w_compose.
Qed.

Definition end_call (rq : request) : kcall := K_blk_mq_end_request (rq_tag rq) (rq_errors rq).

(** The world after a completion: the request ended, the command free. *)
Definition completed (qi ci : Z) (rq : request) (w : world) : world :=
  alter_w qi ci released (add_trace (end_call rq) w).

Lemma end_and_free w qi ci c rq :
  lookup_cmd (queues w) qi ci = Some c →
  (call (end_call rq);; free_a_rdma_cmd_to_rdma_q qi ci;; mret 0) w = Ret 0 (completed qi ci rq w).
Proof.
  intros Hc. mstep.
  by rewrite (M_bind_step _ _ _ _ _ (free_cmd_run (add_trace (end_call rq) w) _ _ c Hc)).
Qed.

Lemma write_done_run w qi ci c rq b bs :
  lookup_cmd (queues w) qi ci = Some c → io_rq c = Some rq → rq_bio rq = b :: bs →
  rdma_write_done (Some (qi, ci)) w = Ret 0 (completed qi ci rq w).
Proof.
  intros Hc Hr Hb. unfold rdma_write_done.
  rewrite (M_bind_step _ _ _ _ _ (get_cmd_run _ _ _ _ Hc)), Hr. mstep. rewrite Hb. mstep.
  by apply (end_and_free _ _ _ c).
Qed.

Lemma read_done_run w qi ci c rq b bs :
  lookup_cmd (queues w) qi ci = Some c → io_rq c = Some rq → rq_bio rq = b :: bs →
  rdma_read_done (Some (qi, ci)) w =
  if negb (rq_nr_phys_segments rq =? bi_phys_segments b) then Ret (-1) w
  else Ret 0 (completed qi ci rq w).
Proof.
  intros Hc Hr Hb. unfold rdma_read_done.
  rewrite (M_bind_step _ _ _ _ _ (get_cmd_run _ _ _ _ Hc)), Hr. mstep. rewrite Hb. mstep.
  case_match; [done|]. by apply (end_and_free _ _ _ c).
Qed.

(** ** Counting free commands *)

Definition cmds_of (w : world) (qi : Z) : list rmem_rdma_command :=
  default [] (l ← queues w; q ← arr_get l.2 qi; snd <$> rmem_rdma_cmd_list q).

Definition free_count (w : world) (qi : Z) : nat :=
  length (filter (λ c, is_free c = true) (cmds_of w qi)).

Lemma lookup_cmds_of w qi (j : nat) :
  lookup_cmd (queues w) qi (Z.of_nat j) = cmds_of w qi !! j.
Proof.
  unfold lookup_cmd, cmds_of. destruct (queues w) as [[a ql]|]; cbn; [|done].
  destruct (arr_get ql qi) as [q|]; cbn; [|done].
  destruct (rmem_rdma_cmd_list q) as [[b cl]|]; cbn; [|done]. apply arr_get_lookup.
Qed.

Lemma cmds_of_alter w qi (k : nat) f :
  0 <= qi → cmds_of (alter_w qi (Z.of_nat k) f w) qi = alter f k (cmds_of w qi).
Proof.
  intros Hq. apply list_eq. intros j. rewrite <- lookup_cmds_of.
  change (queues (alter_w qi ?k f w)) with (alter_cmd qi k f (queues w)).
  rewrite lookup_alter_cmd by lia. destruct (decide (k = j)) as [->|Hne].
  - by rewrite decide_True, list_lookup_alter_eq, lookup_cmds_of by done.
  - rewrite decide_False, list_lookup_alter_ne by (done || lia). apply lookup_cmds_of.
Qed.

Lemma filter_alter_taken (l : list rmem_rdma_command) k c f :
  l !! k = Some c → is_free c = true → is_free (f c) = false →
  length (filter (λ c, is_free c = true) l) =
  S (length (filter (λ c, is_free c = true) (alter f k l))).
Proof.
  revert k. induction l as [|d l IH]; intros k Hk Hc Hf; [done|]. destruct k as [|k]; cbn in Hk.
  - simplify_eq. change (alter f 0%nat (c :: l)) with (f c :: l). rewrite !filter_cons.
    by rewrite decide_True, decide_False by (rewrite ?Hf; done).
  - change (alter f (S k) (d :: l)) with (d :: alter f k l). rewrite !filter_cons.
    case_decide; cbn; [f_equal|]; by apply IH.
Qed.

Lemma free_count_zero w qi : free_count w qi = 0%nat → no_free w qi.
Proof.
  unfold free_count. intros Hz%nil_length_inv j d Hd. rewrite lookup_cmds_of in Hd.
  apply list_elem_of_lookup_2 in Hd. destruct (is_free d) eqn:E; [|done].
  assert (d ∈ filter (λ c, is_free c = true) (cmds_of w qi)) as Hin by by apply list_elem_of_filter.
  rewrite Hz in Hin. by apply not_elem_of_nil in Hin.
Qed.

Lemma free_count_taken w qi k c :
  lookup_cmd (queues w) qi (Z.of_nat k) = Some c → is_free c = true →
  ∀ f, is_free (f c) = false →
  free_count w qi = S (free_count (alter_w qi (Z.of_nat k) f w) qi).
Proof.
  intros Hc Hf f Hff. destruct (lookup_cmd_nonneg _ _ _ _ Hc). unfold free_count.
  rewrite cmds_of_alter by done. rewrite lookup_cmds_of in Hc. by eapply filter_alter_taken.
Qed.

(** The queue of a request exists. *)
Definition has_queue (w : world) (qi : Z) : Prop :=
  ∃ a ql q, queues w = Some (a, ql) ∧ arr_get ql qi = Some q.

Lemma has_queue_alter w qi qj ci f : has_queue w qi → 0 <= qj → has_queue (alter_w qj ci f w) qi.
Proof.
  intros (a & ql & q & Hp & Hq) Hj. pose proof (arr_get_Some _ _ _ Hq). unfold has_queue.
  change (queues (alter_w qj ci f w)) with (alter_cmd qj ci f (queues w)). rewrite Hp. cbn.
  exists a, (alter (alter_in_queue ci f) (Z.to_nat qj) ql).
  destruct (arr_get_is_Some (alter (alter_in_queue ci f) (Z.to_nat qj) ql) qi) as [q' Hq'].
  { by rewrite length_alter. }
  by exists q'.
Qed.

(** A post on a queue that is in order, by whether a command is free. *)
Lemma post_rdma_cases `{K : kernel} w op rq qi chunk off len aq :
  queues_ok w → has_queue w qi → qp (w_sess w) = KPtr aq → chunk_state chunk = MAPPED →
  (∃ k c, first_free_at w qi k c ∧ cmd_shape qi (Z.of_nat k) c ∧
     let c' := prepared op rq chunk off len c in
     post_rdma op rq qi chunk off len w =
       Ret (k_int (w_trace w) (post_call c'))
         (add_trace (post_call c') (alter_w qi (Z.of_nat k) (prepared op rq chunk off len) w))) ∨
  (no_free w qi ∧ post_rdma op rq qi chunk off len w = Oops Spin).
Proof.
  intros Hok (a & ql & q & Hp & Hq) Hqp Hm.
  destruct (get_free_cases w qi a ql q Hok Hp Hq) as [(k & c & Hf & Hs & Hg)|[Hn Hg]].
  - left. exists k, c. split; [done|]. split; [done|]. by eapply post_rdma_run.
  - right. split; [done|]. unfold post_rdma. rewrite bool_decide_false by tauto.
    by apply M_bind_oops.
Qed.

(** ** Copying the data of a request *)

Definition bio_segs (bios : list bio) : Z := foldr (λ b n, bi_phys_segments b + n) 0 bios.

(** A bio whose data covers its segments. *)
Definition bio_ok (b : bio) : Prop :=
  0 <= bi_phys_segments b ∧ bi_phys_segments b * PAGE_SIZE <= Z.of_nat (length (bi_data b)).

(** The payload of a bio list: the data of its segments, one after another. *)
Definition payload (bios : list bio) : list Z :=
  concat ((λ b, take (Z.to_nat (bi_phys_segments b * PAGE_SIZE)) (bi_data b)) <$> bios).

Lemma bio_segs_cons b bios : bio_segs (b :: bios) = bi_phys_segments b + bio_segs bios.
Proof. reflexivity. Qed.

Lemma bio_segs_nonneg bios : Forall bio_ok bios → 0 <= bio_segs bios.
Proof. induction 1 as [|b bios [Hb _] _ IH]; rewrite ?bio_segs_cons; [done|lia]. Qed.

Lemma payload_cons b bios :
  payload (b :: bios) = take (Z.to_nat (bi_phys_segments b * PAGE_SIZE)) (bi_data b) ++ payload bios.
Proof. reflexivity. Qed.

Lemma payload_length bios :
  Forall bio_ok bios → Z.of_nat (length (payload bios)) = bio_segs bios * PAGE_SIZE.
Proof.
  induction 1 as [|b bios [Hb Hd] Hbs IH]; [done|].
  rewrite payload_cons, length_app, length_take. rewrite bio_segs_cons.
  unfold PAGE_SIZE in *. lia.
Qed.

Lemma copy_loop_fits bios : ∀ seg (pre suf : list Z),
  Forall bio_ok bios → 0 <= seg → seg + bio_segs bios < 2 ^ 32 →
  Z.of_nat (length pre) = seg * PAGE_SIZE →
  bio_segs bios * PAGE_SIZE <= Z.of_nat (length suf) →
  copy_loop bios (seg + bio_segs bios) seg (pre ++ suf) =
  inr (pre ++ payload bios ++ drop (Z.to_nat (bio_segs bios * PAGE_SIZE)) suf).
Proof.
  induction bios as [|b bios IH]; intros seg pre suf Hok Hseg Hw Hpre Hsuf.
  { cbn. destruct (Z.ltb_spec seg (seg + 0)); [lia|]. done. }
  inversion_clear Hok as [|? ? [Hb Hd] Hbs]. pose proof (bio_segs_nonneg _ Hbs).
  rewrite bio_segs_cons in *. cbn [copy_loop].
  destruct (Z.ltb_spec seg (seg + (bi_phys_segments b + bio_segs bios))) as [Hlt|Hge].
  - unfold memcpy. unfold PAGE_SIZE in *. rewrite u32_id by lia.
    set (n := bi_phys_segments b * 4096) in *.
    assert (n = bi_phys_segments b * 4096) as Hn by reflexivity. clearbody n.
    rewrite decide_True by (rewrite length_app; lia).
    rewrite take_app_length' by lia. rewrite drop_app_ge by lia.
    replace (Z.to_nat (seg * 4096 + n) - length pre)%nat with (Z.to_nat n) by lia.
    rewrite u32_id, Z.add_assoc, app_assoc by lia. rewrite IH; [|done|lia|lia| |].
    + rewrite payload_cons. unfold PAGE_SIZE. rewrite <- Hn, drop_drop, <- !app_assoc. do 5 f_equal. lia.
    + rewrite length_app, length_take. lia.
    + rewrite length_drop. lia.
  - assert (bi_phys_segments b = 0) as Hb0 by lia. assert (bio_segs bios = 0) as Hs0 by lia.
    rewrite payload_cons, Hb0. pose proof (payload_length bios Hbs) as Hpl.
    rewrite Hs0 in *. destruct (payload bios); [done|cbn in Hpl; lia].
Qed.

(** A list of bios that does not fit makes the copy leave the buffer. *)
Lemma copy_loop_overflow bios : ∀ seg num (dst : list Z),
  Forall bio_ok bios → 0 <= seg → num = seg + bio_segs bios → num < 2 ^ 32 →
  seg * PAGE_SIZE <= Z.of_nat (length dst) → Z.of_nat (length dst) < num * PAGE_SIZE →
  copy_loop bios num seg dst = inl OutOfBounds.
Proof.
  induction bios as [|b bios IH]; intros seg num dst Hok Hseg Hnum Hw Hlo Hhi.
  { cbn in Hnum. lia. }
  inversion_clear Hok as [|? ? [Hb Hd] Hbs]. pose proof (bio_segs_nonneg _ Hbs).
  rewrite bio_segs_cons in *. cbn [copy_loop].
  unfold PAGE_SIZE in *. destruct (Z.ltb_spec seg num); [|lia].
  unfold memcpy. rewrite u32_id by lia. case_decide as Hfit; [|done].
  rewrite u32_id by lia. apply IH; [done|lia|lia|done| |];
    rewrite !length_app, !length_take, length_drop; lia.
Qed.

(** ** Theorems *)

(** C33. Posting a one-sided read or write, on every branch: a chunk that is
    not bound to remote memory is refused with -1 and nothing happens;
    otherwise the first free command of the queue becomes a signalled work
    request with the given opcode, the chunk's key, the chunk's address plus
    the offset, the request's length and the command itself as [wr_id], it is
    posted, the result of the post is returned, and no other command changes;
    with no free command the post never returns.  The queues' invariant is
    kept. *)
Theorem post_rdma_spec `{K : kernel} w op rq qi chunk off len aq :
  queues_ok w → has_queue w qi → qp (w_sess w) = KPtr aq →
  (chunk_state chunk = EMPTY → post_rdma op rq qi chunk off len w = Ret (-1) w) ∧
  (chunk_state chunk = MAPPED →
    (∃ k c c' w', first_free_at w qi k c ∧
       post_rdma op rq qi chunk off len w =
         Ret (k_int (w_trace w) (K_ib_post_send_rdma (rdma_sq_wr c') (rdma_sgl c'))) w' ∧
       rdma_sq_wr c' = mkWr (Some (qi, Z.of_nat k)) op true true 1
                         (u64 (remote_addr chunk + off)) (remote_rkey chunk) ∧
       rdma_sgl c' = mkSge (rdma_dma_addr c) (u32 len) (sge_lkey (rdma_sgl c)) ∧
       io_rq c' = Some rq ∧ free_state c' = 0 ∧
       lookup_cmd (queues w') qi (Z.of_nat k) = Some c' ∧
       (∀ qj cj, (qj, cj) ≠ (qi, Z.of_nat k) →
          lookup_cmd (queues w') qj cj = lookup_cmd (queues w) qj cj) ∧
       queues_ok w' ∧ free_count w qi = S (free_count w' qi)) ∨
    (no_free w qi ∧ post_rdma op rq qi chunk off len w = Oops Spin)).
Proof.
  intros Hok Hq Hqp. split.
  { intros He. unfold post_rdma. by rewrite bool_decide_true by (by rewrite He). }
  intros Hm. destruct (post_rdma_cases w op rq qi chunk off len aq Hok Hq Hqp Hm)
    as [(k & c & Hf & Hs & Hr)|]; [left|by right].
  pose proof Hf as (Hc & Hfree & _). destruct (lookup_cmd_nonneg _ _ _ _ Hc).
  eexists k, c, _, _. split; [done|]. split; [exact Hr|].
  destruct Hs as (H1 & H2 & H3 & H4 & H5).
  split; [cbn; by rewrite H1, H2, H3, H4|]. split; [cbn; by rewrite H5|]. split; [done|].
  split; [done|]. split; [by apply lookup_alter_w_eq|]. split_and!.
  - intros qj cj Hne. change (queues (add_trace _ (alter_w ?q ?i ?f w))) with (alter_cmd q i f (queues w)).
    rewrite lookup_alter_cmd by lia. rewrite decide_False; [done|]. by intros [<- <-].
  - apply queues_ok_trace, queues_ok_alter; [done|done|lia|]. eauto with queues.
  - by eapply free_count_taken.
Qed.

(** The completion handlers, on every branch: no command or no request
    behind the completion's [wr_id] is an error code or a NULL dereference; a
    write, and a read whose first bio holds all its segments, end the request
    with its error code and free the command; a read of more than one bio is
    given up with -1, its request not ended and its command still taken. *)
Theorem rdma_done_spec w qi ci c :
  lookup_cmd (queues w) qi ci = Some c →
  rdma_write_done None w = Ret (-1) w ∧ rdma_read_done None w = Ret (-1) w ∧
  (io_rq c = None → rdma_write_done (Some (qi, ci)) w = Oops NullDeref ∧
                    rdma_read_done (Some (qi, ci)) w = Oops NullDeref) ∧
  (∀ rq b bs, io_rq c = Some rq → rq_bio rq = b :: bs →
     rdma_write_done (Some (qi, ci)) w = Ret 0 (completed qi ci rq w) ∧
     (rq_nr_phys_segments rq = bi_phys_segments b →
      rdma_read_done (Some (qi, ci)) w = Ret 0 (completed qi ci rq w)) ∧
     (rq_nr_phys_segments rq ≠ bi_phys_segments b →
      rdma_read_done (Some (qi, ci)) w = Ret (-1) w)).
Proof.
  intros Hc. split; [done|]. split; [done|]. split.
  - intros Hn. unfold rdma_write_done, rdma_read_done.
    rewrite !(M_bind_step _ _ _ _ _ (get_cmd_run _ _ _ _ Hc)), Hn. by split.
  - intros rq b bs Hr Hb. split; [by eapply write_done_run|].
    rewrite (read_done_run w qi ci c rq b bs Hc Hr Hb).
    destruct (Z.eqb_spec (rq_nr_phys_segments rq) (bi_phys_segments b)); by split.
Qed.

(** The completion handler of an opcode. *)
Definition done_of (op : ib_opcode) : cmd_ref → M Z :=
  match op with IB_WR_RDMA_READ => rdma_read_done | _ => rdma_write_done end.

(** C15. Round trip of a request: when a post succeeds and the completion that
    carries the posted [wr_id] is handled, then, for a write, and for a read of
    a request whose first bio holds all its segments, the request has been ended
    exactly once, right after the post, every command of every queue is free
    again if it was free before, the command used holds no request, and the
    invariant holds, so the queue can take the next request.  A read of a
    request of several bios does not come round: the handler gives up with -1,
    the request is not ended, and the command, free before the post, stays
    taken. *)
Theorem one_sided_roundtrip `{K : kernel} w w' op rq qi chunk off len aq b bs :
  queues_ok w → has_queue w qi → qp (w_sess w) = KPtr aq → chunk_state chunk = MAPPED →
  rq_bio rq = b :: bs → post_rdma op rq qi chunk off len w = Ret 0 w' →
  ∃ k wr sge, wr_id wr = Some (qi, k) ∧ is_free <$> lookup_cmd (queues w) qi k = Some true ∧
    w_trace w' = w_trace w ++ [K_ib_post_send_rdma wr sge] ∧
    (op ≠ IB_WR_RDMA_READ ∨ rq_nr_phys_segments rq = bi_phys_segments b →
     ∃ w'', done_of op (wr_id wr) w' = Ret 0 w'' ∧
       w_trace w'' = w_trace w' ++ [K_blk_mq_end_request (rq_tag rq) (rq_errors rq)] ∧
       (∀ qj cj, is_free <$> lookup_cmd (queues w'') qj cj = is_free <$> lookup_cmd (queues w) qj cj) ∧
       io_rq <$> lookup_cmd (queues w'') qi k = Some None ∧ queues_ok w'') ∧
    (op = IB_WR_RDMA_READ → rq_nr_phys_segments rq ≠ bi_phys_segments b →
     done_of op (wr_id wr) w' = Ret (-1) w' ∧ is_free <$> lookup_cmd (queues w') qi k = Some false).
Proof.
  intros Hok Hq Hqp Hm Hb Hpost.
  destruct (post_rdma_cases w op rq qi chunk off len aq Hok Hq Hqp Hm)
    as [(k & c & (Hc & Hfree & _) & Hs & Hr)|[_ Hr]]; rewrite Hr in Hpost; [|done].
  destruct (lookup_cmd_nonneg _ _ _ _ Hc). injection Hpost as Hret <-.
  set (c' := prepared op rq chunk off len c) in *. set (w1 := add_trace _ _).
  assert (lookup_cmd (queues w1) qi (Z.of_nat k) = Some c') as Hc1 by by apply lookup_alter_w_eq.
  exists (Z.of_nat k), (rdma_sq_wr c'), (rdma_sgl c').
  assert (wr_id (rdma_sq_wr c') = Some (qi, Z.of_nat k)) as Hid by apply Hs.
  assert (alter_w qi (Z.of_nat k) (released ∘ prepared op rq chunk off len) w =
          alter_w qi (Z.of_nat k) released (alter_w qi (Z.of_nat k) (prepared op rq chunk off len) w))
    as Hcomp by (by rewrite alter_w_compose).
  assert (queues (completed qi (Z.of_nat k) rq w1) =
          queues (alter_w qi (Z.of_nat k) (released ∘ prepared op rq chunk off len) w)) as Hqs.
  { rewrite Hcomp. reflexivity. }
  rewrite Hid. split; [done|]. split; [by rewrite Hc; cbn; rewrite Hfree|]. split; [done|]. split; cycle 1.
  { intros -> Hseg. cbn [done_of]. erewrite read_done_run by done. rewrite (proj2 (Z.eqb_neq _ _) Hseg).
    split; [done|]. by rewrite Hc1. }
  intros Hseg. exists (completed qi (Z.of_nat k) rq w1). split.
  { unfold done_of. destruct op; try by eapply write_done_run.
    erewrite read_done_run by done. destruct Hseg as [?|Hseg]; [done|]. by rewrite Hseg, Z.eqb_refl. }
  split; [done|]. rewrite Hqs. change (queues (alter_w ?q ?i ?f w)) with (alter_cmd q i f (queues w)). split_and!.
  - intros qj cj. rewrite lookup_alter_cmd by lia. case_decide as E; [|done].
    destruct E as [<- <-]. rewrite Hc. cbn. by rewrite Hfree.
  - rewrite lookup_alter_cmd, decide_True, Hc by (done || lia). done.
  - apply queues_ok_alter; [|done|lia|by eauto with queues].
    apply queues_ok_trace, queues_ok_trace, queues_ok_alter; [done|done|lia|by eauto with queues].
Qed.

(** Posting a list of jobs on one queue; the results are collected. *)
Definition job : Type := ib_opcode * request * remote_mapping_chunk * Z * Z.

Fixpoint post_all `{K : kernel} (qi : Z) (jobs : list job) : M (list Z) :=
  match jobs with
  | [] => mret []
  | (op, rq, chunk, off, len) :: jobs =>
      r ← post_rdma op rq qi chunk off len; rs ← post_all qi jobs; mret (r :: rs)
  end.

Definition job_mapped (j : job) : Prop := let '(_, _, chunk, _, _) := j in chunk_state chunk = MAPPED.

Lemma post_all_run `{K : kernel} qi aq jobs : ∀ w,
  queues_ok w → has_queue w qi → qp (w_sess w) = KPtr aq → Forall job_mapped jobs →
  (length jobs <= free_count w qi)%nat →
  ∃ rs w', post_all qi jobs w = Ret rs w' ∧ length rs = length jobs ∧
    queues_ok w' ∧ has_queue w' qi ∧ qp (w_sess w') = KPtr aq ∧
    free_count w qi = (length jobs + free_count w' qi)%nat ∧
    (∀ P : Z → Prop, (∀ tr wr sge, P (k_int tr (K_ib_post_send_rdma wr sge))) → Forall P rs).
Proof.
  induction jobs as [|[[[[op rq] chunk] off] len] jobs IH]; intros w Hok Hq Hqp Hm Hn.
  { exists [], w. split_and!; done. }
  inversion_clear Hm as [|? ? Hm1 Hms]. cbn [length] in Hn. cbn [post_all].
  destruct (post_rdma_cases w op rq qi chunk off len aq Hok Hq Hqp Hm1)
    as [(k & c & (Hc & Hf & _) & Hs & Hr)|[Hno _]].
  2:{ exfalso. unfold free_count in Hn.
      destruct (filter _ (cmds_of w qi)) as [|d l] eqn:E; [cbn in Hn; lia|].
      assert (d ∈ filter (λ c, is_free c = true) (cmds_of w qi)) as Hd by (rewrite E; left).
      apply list_elem_of_filter in Hd as [Hd Hin]. apply list_elem_of_lookup in Hin as [j Hj].
      rewrite <- lookup_cmds_of in Hj. apply Hno in Hj. congruence. }
  destruct (lookup_cmd_nonneg _ _ _ _ Hc).
  rewrite (M_bind_step _ _ _ _ _ Hr). set (w1 := add_trace _ _).
  pose proof (free_count_taken w qi k c Hc Hf (prepared op rq chunk off len) eq_refl) as Hcnt.
  destruct (IH w1) as (rs & w' & Hrun & Hlen & Hok' & Hq' & Hqp' & Hc' & HP).
  - apply queues_ok_trace, queues_ok_alter; [done|done|lia|by eauto with queues].
  - by apply has_queue_alter.
  - done.
  - done.
  - change (free_count w1 qi) with (free_count (alter_w qi (Z.of_nat k) (prepared op rq chunk off len) w) qi).
    lia.
  - eexists (_ :: rs), w'. split; [by rewrite (M_bind_step _ _ _ _ _ Hrun)|].
    split; [cbn; by rewrite Hlen|]. do 3 (split; [done|]). split.
    + change (free_count w1 qi) with (free_count (alter_w qi (Z.of_nat k) (prepared op rq chunk off len) w) qi) in Hc'.
      cbn [length]. lia.
    + intros P HP'. constructor; [apply HP'|by apply HP].
Qed.

(** C39. A failing [ib_post_send] loses the command: if every post fails, then
    after as many posts as there were free commands each of them has returned
    an error, no work request is outstanding, and yet the queue has no free
    command, so that the next post on it never returns. *)
Theorem failed_posts_exhaust_queue `{K : kernel} w qi aq jobs op rq chunk off len :
  queues_ok w → has_queue w qi → qp (w_sess w) = KPtr aq → Forall job_mapped jobs →
  length jobs = free_count w qi → chunk_state chunk = MAPPED →
  (∀ tr wr sge, k_int tr (K_ib_post_send_rdma wr sge) ≠ 0) →
  ∃ rs w', post_all qi jobs w = Ret rs w' ∧ Forall (λ r, r ≠ 0) rs ∧
    post_rdma op rq qi chunk off len w' = Oops Spin.
Proof.
  intros Hok Hq Hqp Hj Hn Hm Hfail.
  destruct (post_all_run qi aq jobs w Hok Hq Hqp Hj) as (rs & w' & Hr & _ & Hok' & Hq' & Hqp' & Hc & HP); [lia|].
  exists rs, w'. split; [done|]. split; [by apply HP|].
  assert (no_free w' qi) as Hno by (apply free_count_zero; lia).
  destruct (post_rdma_cases w' op rq qi chunk off len aq Hok' Hq' Hqp' Hm)
    as [(k & c & (Hk & Hf & _) & _)|[_ ?]]; [|done].
  apply Hno in Hk. congruence.
Qed.

(** Copying the data of a write request into the command's buffer: when
    the bios hold the request's segments, the buffer afterwards starts with
    their data in order and is otherwise unchanged if the request has at most
    [MAX_REQUEST_SGL] pages, and the copy leaves the buffer if it has more. *)
Theorem copy_data_to_rdma_buf_spec rq buf :
  Forall bio_ok (rq_bio rq) → bio_segs (rq_bio rq) = rq_nr_phys_segments rq →
  rq_nr_phys_segments rq < 2 ^ 16 → Z.of_nat (length buf) = ONE_SIEDED_RDMA_BUF_SIZE →
  copy_data_to_rdma_buf rq buf =
  if decide (rq_nr_phys_segments rq <= MAX_REQUEST_SGL)
  then inr (payload (rq_bio rq) ++ drop (length (payload (rq_bio rq))) buf)
  else inl OutOfBounds.
Proof.
  intros Hok Hs Hn Hb. unfold copy_data_to_rdma_buf, ONE_SIEDED_RDMA_BUF_SIZE in *.
  pose proof (bio_segs_nonneg _ Hok). pose proof (payload_length _ Hok) as Hpl.
  rewrite u32_id by lia. rewrite <- Hs in *. unfold PAGE_SIZE, MAX_REQUEST_SGL in *. case_decide.
  - pose proof (copy_loop_fits (rq_bio rq) 0 [] buf Hok) as Hfit. unfold PAGE_SIZE in Hfit.
    cbn [app length] in Hfit. rewrite Z.add_0_l in Hfit. rewrite Hfit by lia.
    do 3 f_equal. lia.
  - apply copy_loop_overflow; unfold PAGE_SIZE; [done|lia|lia|lia|lia|lia].
Qed.

(** ** Witnesses *)

Definition demo_bio : bio := mkBio 1 (replicate 4096 9).
Definition demo_request : request := mkRequest 3 true 8 4096 1 [demo_bio] 0.
Definition demo_chunk : remote_mapping_chunk := mkChunk 0x1234 0x7f0040000000 MAPPED.
Definition demo_cmd (ci : Z) : rmem_rdma_command :=
  mkCmd (mkWr (Some (0, ci)) IB_WR_NONE true true 1 0 0) (mkSge (4096 * ci) 0 7) (KPtr 8192)
        (4096 * ci) None 1.

(** A session with one queue of two free commands. *)
Definition demo_post_world : world :=
  (with_queues world0 (Some (64, [mkQueue (Some (128, [demo_cmd 0; demo_cmd 1])) 2 0 0 true])))
    <| w_sess ::= λ s, s <| qp := KPtr 32 |> |>.

Lemma demo_queues_ok : queues_ok demo_post_world.
Proof.
  eexists _, _. split; [reflexivity|]. intros [|i] q [= <-]. split.
  - split; [cbn; lia|]. eexists _, _. split; reflexivity.
  - split; [reflexivity|]. intros b cl i c [= <- <-].
    destruct i as [|[|i]]; intros [= <-]; repeat split.
Qed.

Lemma demo_has_queue : has_queue demo_post_world 0.
Proof. eexists _, _, _. split; reflexivity. Qed.

Lemma post_rdma_spec_witness :
  @post_rdma kernel_ok IB_WR_RDMA_WRITE demo_request 0 (mkChunk 0 0 EMPTY) 0 4096 demo_post_world =
    Ret (-1) demo_post_world ∧
  ∃ w', @post_rdma kernel_ok IB_WR_RDMA_WRITE demo_request 0 demo_chunk 4096 4096 demo_post_world = Ret 0 w'.
Proof.
  split.
  - apply (@post_rdma_spec kernel_ok demo_post_world IB_WR_RDMA_WRITE demo_request 0
      (mkChunk 0 0 EMPTY) 0 4096 32 demo_queues_ok demo_has_queue eq_refl). reflexivity.
  - destruct (@post_rdma_spec kernel_ok demo_post_world IB_WR_RDMA_WRITE demo_request 0 demo_chunk
      4096 4096 32 demo_queues_ok demo_has_queue eq_refl) as [_ H].
    destruct (H eq_refl) as [(k & c & c' & w' & _ & Hr & _)|[Hno _]].
    + exists w'. exact Hr.
    + exfalso. discriminate (Hno 0%nat (demo_cmd 0) eq_refl).
Defined.

Lemma rdma_done_spec_witness :
  rdma_write_done (Some (0, 1)) demo_post_world = Oops NullDeref.
Proof.
  destruct (rdma_done_spec demo_post_world 0 1 (demo_cmd 1) eq_refl) as (_ & _ & H & _).
  apply H. reflexivity.
Defined.

Lemma one_sided_roundtrip_witness :
  ∃ w' w'', @post_rdma kernel_ok IB_WR_RDMA_READ demo_request 0 demo_chunk 4096 4096 demo_post_world = Ret 0 w' ∧
    (∃ id, done_of IB_WR_RDMA_READ id w' = Ret 0 w'') ∧
    (∀ qj cj, is_free <$> lookup_cmd (queues w'') qj cj = is_free <$> lookup_cmd (queues demo_post_world) qj cj).
Proof.
  eexists.
  destruct (@one_sided_roundtrip kernel_ok demo_post_world _ IB_WR_RDMA_READ demo_request 0 demo_chunk
    4096 4096 32 demo_bio [] demo_queues_ok demo_has_queue eq_refl eq_refl eq_refl
    ltac:(vm_compute; reflexivity)) as (k & wr & sge & _ & _ & _ & Hrun & _).
  destruct (Hrun ltac:(right; reflexivity)) as (w'' & Hd & _ & Hf & _).
  exists w''. split; [vm_compute; reflexivity|]. split; [exists (wr_id wr); exact Hd|exact Hf].
Defined.

(** A kernel whose send queue refuses every work request. *)
Definition kernel_post_fails : kernel := {|
  k_int := λ _ c, match c with K_ib_post_send_rdma _ _ => -12 | _ => 0 end;
  k_ptr := @k_ptr kernel_ok; k_qp := KPtr 64; k_local_dma_lkey := 7; k_mr_lkey := 8;
  k_num_online_cpus := 2; k_sizeof_cmd := 120; k_sizeof_queue := 40 |}.

Definition demo_job : job := (IB_WR_RDMA_WRITE, demo_request, demo_chunk, 0, 4096).

Lemma failed_posts_exhaust_queue_witness :
  ∃ rs w', @post_all kernel_post_fails 0 [demo_job; demo_job] demo_post_world = Ret rs w' ∧
    @post_rdma kernel_post_fails IB_WR_RDMA_WRITE demo_request 0 demo_chunk 0 4096 w' = Oops Spin.
Proof.
  destruct (@failed_posts_exhaust_queue kernel_post_fails demo_post_world 0 32 [demo_job; demo_job]
    IB_WR_RDMA_WRITE demo_request demo_chunk 0 4096 demo_queues_ok demo_has_queue eq_refl)
    as (rs & w' & Hr & _ & Hs).
  - repeat constructor.
  - reflexivity.
  - reflexivity.
  - intros tr wr sge. discriminate.
  - exists rs, w'. split; [exact Hr|exact Hs].
Defined.

Definition demo_buf : list Z := replicate (Z.to_nat ONE_SIEDED_RDMA_BUF_SIZE) 0.

Lemma copy_data_to_rdma_buf_spec_witness :
  copy_data_to_rdma_buf demo_request demo_buf =
  inr (payload [demo_bio] ++ drop (length (payload [demo_bio])) demo_buf).
Proof.
  rewrite (copy_data_to_rdma_buf_spec demo_request demo_buf).
  - rewrite decide_True; [reflexivity|]. unfold MAX_REQUEST_SGL. cbn. lia.
  - repeat constructor; cbn; [lia|]. unfold PAGE_SIZE. lia.
  - reflexivity.
  - cbn. lia.
  - unfold demo_buf. rewrite length_replicate. vm_compute. reflexivity.
Defined.
