(* ===== verification/BlockIO.v ===== *)
(** * From block requests to one-sided RDMA

    [rmem_init_hctx], [rmem_queue_rq] and [transfer_requet_to_rdma_message] of
    [register_disk.c]: the block layer hands a request to the dispatch queue
    of the submitting CPU, the request's sector address is split into a chunk
    index and an offset, and a one-sided read or write of that chunk is posted
    on the RDMA queue bound to the dispatch queue.

    The theorems show the translation correct for every request that lies in
    one chunk (the posted work request covers exactly the request's bytes of
    the remote chunk), give the behaviour on requests that cross a chunk
    boundary or lie outside the table, and account for the CPU the handler
    pins. *)

From S2P Require Import Prelude BitOps OctTypes Kernel ChunkList CmdQueue OneSided.

(** ** Operations *)

(** The chunk index, the offset in the chunk and the byte length of a request;
    [None] when it is refused because it crosses a chunk boundary. *)
Definition translate (rq : request) : option (Z * Z * Z) :=
  let start_addr := u64 (Z.shiftl (rq_pos rq) RMEM_LOGICAL_SECT_SHIFT) in
  let bytes_len := u64 (rq_bytes rq) in
  let start_chunk_index := u32 (Z.shiftr start_addr CHUNK_SHIFT) in
  let end_chunk_index := u32 (Z.shiftr (u64 (start_addr + bytes_len - 1)) CHUNK_SHIFT) in
  let offset_within_chunk := Z.land start_addr CHUNK_MASK in
  if negb (start_chunk_index =? end_chunk_index) then
    let bytes_len := u64 (rq_nr_phys_segments rq * PAGE_SIZE) in
    let end_chunk_index := u32 (Z.shiftr (u64 (start_addr + bytes_len)) CHUNK_SHIFT) in
    if negb (start_chunk_index =? end_chunk_index) then None
    else Some (start_chunk_index, offset_within_chunk, bytes_len)
  else Some (start_chunk_index, offset_within_chunk, bytes_len).

Section Ops.
Context {K : kernel}.

(** [rdma_session->remote_chunk_list.remote_chunk[i]] *)
Definition get_chunk (i : Z) : M remote_mapping_chunk :=
  cl ← sess remote_chunk_list;
  p ← deref_opt (remote_chunk cl);
  in_bounds (arr_get p.2 i).

Definition transfer_requet_to_rdma_message (qi : Z) (rq : request) : M Z :=
  q ← get_queue qi;                       (* rdma_q_ptr->rdma_session *)
  match translate rq with
  | None => mret (-1)
  | Some (start_chunk_index, offset_within_chunk, bytes_len) =>
      if negb (q_rdma_session q) then oops NullDeref
      else
        chunk ← get_chunk start_chunk_index;
        modify (λ w, w <| w_rmda_ops_count ::= λ n, u64 (n + 1) |>);;
        call (K_blk_mq_start_request (rq_tag rq));;
        if rq_write rq
        then post_rdma_write rq qi chunk offset_within_chunk bytes_len
        else post_rdma_read rq qi chunk offset_within_chunk bytes_len
  end.

(** [BLK_MQ_RQ_QUEUE_OK] of the block layer. *)
Definition BLK_MQ_RQ_QUEUE_OK : Z := 0.

(** [driver_data] is [hctx->driver_data], an RDMA queue or NULL. *)
Definition rmem_queue_rq (driver_data : option Z) (rq : request) : M Z :=
  _ ← deref_opt (head (rq_bio rq));       (* rq->bio->bi_phys_segments *)
  call K_get_cpu;;
  qi ← deref_opt driver_data;
  itnernal_ret ← transfer_requet_to_rdma_message qi rq;
  if negb (itnernal_ret =? 0) then mret (-1)
  else
    call K_put_cpu;;
    mret BLK_MQ_RQ_QUEUE_OK.

(** The result is the return code and [hctx->driver_data] afterwards. *)
Definition rmem_init_hctx (driver_data : option Z) (hw_index : Z) : M (Z * option Z) :=
  d ← dev id;
  if negb (d_rdma_session d) then oops NullDeref
  else
    p ← sess rmem_rdma_queue_list;
    match p with
    | None => mret (0, driver_data)
    | Some _ =>
        q ← get_queue hw_index;
        let q := q <| q_index := hw_index |> in
        set_queue hw_index q;;
        if negb (rdma_queue_depth q =? queue_depth d) then mret (0, driver_data)
        else mret (0, Some hw_index)
    end.

End Ops.

(** [rmem_end_io] returns the error code it is given. *)
Definition rmem_end_io (err : Z) : Z := err.

(** ** Specification of the translation *)

(** The byte address of a request, and requests the block layer can make: a
    sector position and a length inside the device of 32 GB. *)
Definition rq_start (rq : request) : Z := rq_pos rq * RMEM_LOGICAL_SECT_SIZE.
Definition rq_chunk (rq : request) : Z := rq_start rq / ONE_GB.
Definition rq_offset (rq : request) : Z := rq_start rq mod ONE_GB.

Definition on_device (rq : request) : Prop :=
  0 <= rq_pos rq ∧ 0 < rq_bytes rq ∧
  rq_start rq + rq_bytes rq <= RMEM_SIZE_IN_PHY_SECT * RMEM_PHY_SECT_SIZE ∧
  0 <= rq_nr_phys_segments rq < 2 ^ 16.

(** The request, and its fallback length, stay in the chunk of its start. *)
Definition in_one_chunk (rq : request) : Prop := rq_offset rq + rq_bytes rq <= ONE_GB.
Definition fallback_fits (rq : request) : Prop :=
  rq_offset rq + rq_nr_phys_segments rq * PAGE_SIZE < ONE_GB.

#[export] Instance in_one_chunk_dec rq : Decision (in_one_chunk rq).
Proof. unfold in_one_chunk. apply _. Defined.
#[export] Instance fallback_fits_dec rq : Decision (fallback_fits rq).
Proof. unfold fallback_fits. apply _. Defined.

Definition translate_spec (rq : request) : option (Z * Z * Z) :=
  if decide (in_one_chunk rq) then Some (rq_chunk rq, rq_offset rq, rq_bytes rq)
  else if decide (fallback_fits rq)
       then Some (rq_chunk rq, rq_offset rq, rq_nr_phys_segments rq * PAGE_SIZE)
       else None.

(** ** Lemmas *)

Lemma chunk_consts :
  CHUNK_SHIFT = 30 ∧ CHUNK_MASK = 2 ^ 30 - 1 ∧ RMEM_LOGICAL_SECT_SHIFT = 9 ∧
  RMEM_SIZE_IN_PHY_SECT = 2 ^ 26.
Proof. vm_compute. done. Qed.

(** Two addresses of the device have the same chunk index exactly when the
    higher one is within the lower one's chunk. *)
Lemma same_chunk s n :
  0 <= s → 0 <= n → (s / 2 ^ 30 =? (s + n) / 2 ^ 30) = bool_decide (s mod 2 ^ 30 + n < 2 ^ 30).
Proof.
  intros Hs Hn. change (2 ^ 30) with 1073741824.
  destruct (Z.eqb_spec (s / 1073741824) ((s + n) / 1073741824));
    [rewrite bool_decide_true by dlia|rewrite bool_decide_false by dlia]; done.
Qed.

Lemma translate_ok rq : on_device rq → translate rq = translate_spec rq.
Proof.
  intros (Hp & Hb & Hd & Hn). destruct chunk_consts as (Es & Em & El & Ez).
  unfold translate, translate_spec, rq_start in *. rewrite Ez in Hd.
  unfold RMEM_PHY_SECT_SIZE, RMEM_LOGICAL_SECT_SIZE in *.
  assert (u64 (Z.shiftl (rq_pos rq) RMEM_LOGICAL_SECT_SHIFT) = rq_pos rq * 512) as ->.
  { rewrite El, shiftl_mul by lia. change (2 ^ 9) with 512. apply u64_id. lia. }
  rewrite Es, Em, land_mask, !shiftr_div by lia.
  unfold in_one_chunk, fallback_fits, rq_chunk, rq_offset, rq_start, RMEM_LOGICAL_SECT_SIZE, ONE_GB, PAGE_SIZE.
  change (1024 * 1024 * 1024) with (2 ^ 30). set (s := rq_pos rq * 512) in *.
  rewrite !(u64_id (rq_bytes rq)), (u64_id (s + rq_bytes rq - 1)) by lia.
  rewrite (u64_id (rq_nr_phys_segments rq * 4096)), (u64_id (s + rq_nr_phys_segments rq * 4096)) by lia.
  assert (∀ x, 0 <= x < 2 ^ 62 → u32 (x / 2 ^ 30) = x / 2 ^ 30) as Hu.
  { intros x Hx. apply u32_id. split; [apply Z.div_pos; lia|apply Z.div_lt_upper_bound; lia]. }
  rewrite !Hu by lia.
  replace (s + rq_bytes rq - 1) with (s + (rq_bytes rq - 1)) by lia.
  rewrite !same_chunk by lia.
  destruct (decide (s mod 2 ^ 30 + rq_bytes rq <= 2 ^ 30)).
  { by rewrite bool_decide_true by lia. }
  rewrite bool_decide_false by lia. cbn [negb].
  destruct (decide (s mod 2 ^ 30 + rq_nr_phys_segments rq * 4096 < 2 ^ 30));
    [by rewrite bool_decide_true|by rewrite bool_decide_false].
Qed.

Lemma translate_bounds rq i off len :
  on_device rq → translate rq = Some (i, off, len) →
  0 <= i < MAX_CHUNKS ∧ 0 <= off ∧ 0 <= len ∧ off + len <= ONE_GB.
Proof.
  intros Hon. rewrite translate_ok by done. destruct Hon as (Hp & Hb & Hd & Hn).
  destruct chunk_consts as (_ & _ & _ & Ez). rewrite Ez in Hd.
  unfold translate_spec, rq_chunk, rq_offset, in_one_chunk, fallback_fits.
  unfold rq_start, RMEM_PHY_SECT_SIZE, RMEM_LOGICAL_SECT_SIZE, PAGE_SIZE, ONE_GB, MAX_CHUNKS,
    MAX_REMOTE_MEMORY_SIZE_GB, CHUNK_SIZE_GB, rq_offset, rq_start, RMEM_LOGICAL_SECT_SIZE, ONE_GB in *.
  change (1024 * 1024 * 1024) with 1073741824. change (2 ^ 26) with 67108864 in *.
  intros H. repeat case_decide; simplify_eq; unfold rq_offset, rq_start, RMEM_LOGICAL_SECT_SIZE, ONE_GB in *; dlia.
Qed.

(** A pass through the table lookup, up to the post. *)
Definition started (rq : request) (w : world) : world :=
  add_trace (K_blk_mq_start_request (rq_tag rq)) (w <| w_rmda_ops_count ::= λ n, u64 (n + 1) |>).

Definition op_of (rq : request) : ib_opcode :=
  if rq_write rq then IB_WR_RDMA_WRITE else IB_WR_RDMA_READ.

Lemma transfer_step `{K : kernel} w qi rq i off len a l :
  queues_ok w → has_queue w qi → translate rq = Some (i, off, len) →
  remote_chunk (remote_chunk_list (w_sess w)) = Some (a, l) →
  transfer_requet_to_rdma_message qi rq w =
  match arr_get l i with
  | Some chunk => post_rdma (op_of rq) rq qi chunk off len (started rq w)
  | None => Oops OutOfBounds
  end.
Proof.
  intros Hok (b & ql & q & Hp & Hq) Ht Hc. unfold transfer_requet_to_rdma_message.
  rewrite (M_bind_step _ _ _ _ _ (get_queue_run _ _ _ _ _ Hp Hq)), Ht.
  destruct (queues_ok_lookup _ _ _ _ _ Hok Hp Hq) as (_ & Hs & _). rewrite Hs. cbn [negb].
  assert (get_chunk i w = in_bounds (arr_get l i) w) as Hg.
  { unfold get_chunk. mstep. rewrite Hc. by mstep. }
  destruct (arr_get l i) as [chunk|].
  - rewrite (M_bind_step _ _ _ _ _ Hg). do 2 mstep. unfold op_of. by destruct (rq_write rq).
  - by apply M_bind_oops.
Qed.

Lemma started_ok rq w : queues_ok w → queues_ok (started rq w).
Proof. done. Qed.

(** [transfer] handed request [rq] to the send queue as [wr] with segment
    [sge], and returned what the post returned. *)
Definition posted_as `{K : kernel} (w : world) (qi : Z) (rq : request) (wr : ib_rdma_wr)
    (sge : ib_sge) (w' : world) : Prop :=
  transfer_requet_to_rdma_message qi rq w =
    Ret (k_int (w_trace w ++ [K_blk_mq_start_request (rq_tag rq)]) (K_ib_post_send_rdma wr sge)) w' ∧
  w_trace w' = w_trace w ++ [K_blk_mq_start_request (rq_tag rq); K_ib_post_send_rdma wr sge] ∧
  queues_ok w'.

Lemma transfer_posts `{K : kernel} w qi rq i off len a l chunk aq :
  queues_ok w → has_queue w qi → qp (w_sess w) = KPtr aq → ¬ no_free w qi →
  translate rq = Some (i, off, len) →
  remote_chunk (remote_chunk_list (w_sess w)) = Some (a, l) →
  arr_get l i = Some chunk → chunk_state chunk = MAPPED →
  ∃ wr sge w', posted_as w qi rq wr sge w' ∧ wr_opcode wr = op_of rq ∧
    wr_rkey wr = remote_rkey chunk ∧ wr_remote_addr wr = u64 (remote_addr chunk + off) ∧
    sge_length sge = u32 len.
Proof.
  intros Hok Hq Hqp Hfree Ht Hl Hc Hm.
  unfold posted_as. rewrite (transfer_step w qi rq i off len a l Hok Hq Ht Hl), Hc.
  destruct (post_rdma_cases (started rq w) (op_of rq) rq qi chunk off len aq)
    as [(k & c & (Hk & _) & Hs & Hr)|[Hno _]]; [done|done|done|done| |by destruct Hfree].
  destruct (lookup_cmd_nonneg _ _ _ _ Hk).
  eexists _, _, _. split; [split; [exact Hr|split]|by split_and!].
  - change (w_trace (add_trace ?c (alter_w ?x ?y ?z (started rq w))))
      with ((w_trace w ++ [K_blk_mq_start_request (rq_tag rq)]) ++ [c]). by rewrite <- app_assoc.
  - apply queues_ok_trace, queues_ok_alter; [done|done|lia|by eauto with queues].
Qed.

(** ** Who pins the CPU *)

(** Calls to [get_cpu] not yet matched by [put_cpu]. *)
Definition cpu_step (c : kcall) : Z :=
  match c with K_get_cpu => 1 | K_put_cpu => -1 | _ => 0 end.
Definition pinned (tr : list kcall) : Z := foldr (λ c n, cpu_step c + n) 0 tr.

Lemma pinned_app t1 t2 : pinned (t1 ++ t2) = pinned t1 + pinned t2.
Proof. induction t1 as [|c t1 IH]; [done|]. unfold pinned in *. cbn. rewrite IH. lia. Qed.

Lemma set_queue_trace w qi q r w' : set_queue qi q w = Ret r w' → w_trace w' = w_trace w.
Proof. unfold set_queue. intros H. mrun. done. Qed.

Lemma get_queue_same w qi q w' : get_queue qi w = Ret q w' → w' = w.
Proof. unfold get_queue. intros H. mrun. done. Qed.

Lemma get_cmd_same w qi ci c w' : get_cmd qi ci w = Ret c w' → w' = w.
Proof. unfold get_cmd. intros H. mrun. by eapply get_queue_same. Qed.

Lemma upd_cmd_trace w qi ci f r w' : upd_cmd qi ci f w = Ret r w' → w_trace w' = w_trace w.
Proof.
  unfold upd_cmd. intros H. mrun. apply set_queue_trace in H. by apply get_queue_same in Hs as ->.
Qed.

Lemma get_free_trace w qi r w' :
  get_a_free_rdma_cmd_from_rdma_q qi w = Ret r w' → w_trace w' = w_trace w.
Proof.
  unfold get_a_free_rdma_cmd_from_rdma_q. intros H. mrun. apply get_queue_same in Hs as ->.
  by eapply upd_cmd_trace.
Qed.

Lemma post_rdma_pinned `{K : kernel} op rq qi chunk off len w r w' :
  post_rdma op rq qi chunk off len w = Ret r w' → pinned (w_trace w') = pinned (w_trace w).
Proof.
  unfold post_rdma. intros H. mrun; [done|].
  repeat match goal with
  | H : get_cmd _ _ _ = Ret _ _ |- _ => apply get_cmd_same in H; subst
  | H : upd_cmd _ _ _ _ = Ret _ _ |- _ => apply upd_cmd_trace in H
  | H : get_a_free_rdma_cmd_from_rdma_q _ _ = Ret _ _ |- _ => apply get_free_trace in H
  end.
  cbn. rewrite pinned_app, Z.add_0_r. congruence.
Qed.

Lemma get_chunk_same i w c w' : get_chunk i w = Ret c w' → w' = w.
Proof. unfold get_chunk. intros H. mrun. done. Qed.

Lemma transfer_pinned `{K : kernel} qi rq w r w' :
  transfer_requet_to_rdma_message qi rq w = Ret r w' → pinned (w_trace w') = pinned (w_trace w).
Proof.
  unfold transfer_requet_to_rdma_message, post_rdma_write, post_rdma_read. intros H. mrun.
  all: apply get_queue_same in Hs as ->; try done.
  all: apply get_chunk_same in Hs0 as ->; apply post_rdma_pinned in H; rewrite H; cbn;
    by rewrite pinned_app, Z.add_0_r.
Qed.

(** A request in one chunk, up to the post. *)
Lemma transfer_inside `{K : kernel} w qi rq a l chunk aq :
  queues_ok w → has_queue w qi → qp (w_sess w) = KPtr aq → ¬ no_free w qi →
  on_device rq → in_one_chunk rq →
  remote_chunk (remote_chunk_list (w_sess w)) = Some (a, l) →
  arr_get l (rq_chunk rq) = Some chunk → chunk_state chunk = MAPPED →
  0 <= remote_addr chunk → remote_addr chunk + ONE_GB <= 2 ^ 64 →
  ∃ wr sge w', posted_as w qi rq wr sge w' ∧ wr_opcode wr = op_of rq ∧
    wr_rkey wr = remote_rkey chunk ∧ sge_length sge = rq_bytes rq ∧
    wr_remote_addr wr - remote_addr chunk = rq_start rq - rq_chunk rq * ONE_GB ∧
    remote_addr chunk <= wr_remote_addr wr ∧
    wr_remote_addr wr + sge_length sge <= remote_addr chunk + ONE_GB.
Proof.
  intros Hok Hq Hqp Hfree Hon Hin Hl Hc Hm Ha1 Ha2.
  assert (translate rq = Some (rq_chunk rq, rq_offset rq, rq_bytes rq)) as Ht.
  { rewrite translate_ok by done. unfold translate_spec. by rewrite decide_True. }
  destruct (transfer_posts w qi rq _ _ _ a l chunk aq Hok Hq Hqp Hfree Ht Hl Hc Hm)
    as (wr & sge & w' & Hp & H1 & H2 & H3 & H4).
  destruct (translate_bounds _ _ _ _ Hon Ht) as (_ & Ho & Hlen & Hsum).
  pose proof Hon as (_ & Hpos & _).
  unfold ONE_GB in *. rewrite u64_id in H3 by lia. rewrite u32_id in H4 by lia.
  exists wr, sge, w'. split_and!; [done|done|done|done| |lia|lia].
  rewrite H3. pose proof (Z.div_mod (rq_start rq) ONE_GB ltac:(done)).
  unfold rq_offset, rq_chunk, ONE_GB in *. lia.
Qed.

(** ** Theorems *)

(** C3. Address translation: a request of the device that lies in one chunk,
    submitted while a command is free and the chunk is bound, is started and
    posted as one work request of its own direction that covers exactly its
    bytes: from the chunk's remote address plus the request's offset in the
    chunk, over the request's length, which stays inside the remote chunk; the
    key is the chunk's, and the result is that of the post. *)
Theorem transfer_in_one_chunk `{K : kernel} w qi rq a l chunk aq :
  queues_ok w → has_queue w qi → qp (w_sess w) = KPtr aq → ¬ no_free w qi →
  on_device rq → in_one_chunk rq →
  remote_chunk (remote_chunk_list (w_sess w)) = Some (a, l) →
  arr_get l (rq_chunk rq) = Some chunk → chunk_state chunk = MAPPED →
  0 <= remote_addr chunk → remote_addr chunk + ONE_GB <= 2 ^ 64 →
  ∃ wr sge w', posted_as w qi rq wr sge w' ∧ wr_opcode wr = op_of rq ∧
    wr_rkey wr = remote_rkey chunk ∧ sge_length sge = rq_bytes rq ∧
    wr_remote_addr wr - remote_addr chunk = rq_start rq - rq_chunk rq * ONE_GB ∧
    remote_addr chunk <= wr_remote_addr wr ∧
    wr_remote_addr wr + sge_length sge <= remote_addr chunk + ONE_GB.
Proof. apply transfer_inside. Qed.

(** C38. A request that crosses a chunk boundary: unless the length recomputed
    from its segment count stays below the boundary, it is refused with -1
    before it is started; when that length does stay below, only that part of
    the request is posted, and the result is that of the post. *)
Theorem transfer_crossing `{K : kernel} w qi rq a l chunk aq :
  queues_ok w → has_queue w qi → qp (w_sess w) = KPtr aq → ¬ no_free w qi →
  on_device rq → ¬ in_one_chunk rq →
  remote_chunk (remote_chunk_list (w_sess w)) = Some (a, l) →
  arr_get l (rq_chunk rq) = Some chunk → chunk_state chunk = MAPPED →
  (¬ fallback_fits rq → transfer_requet_to_rdma_message qi rq w = Ret (-1) w) ∧
  (fallback_fits rq → ∃ wr sge w', posted_as w qi rq wr sge w' ∧
     sge_length sge = rq_nr_phys_segments rq * PAGE_SIZE ∧ sge_length sge < rq_bytes rq).
Proof.
  intros Hok Hq Hqp Hfree Hon Hin Hl Hc Hm.
  pose proof (translate_ok rq Hon) as Ht. unfold translate_spec in Ht.
  rewrite decide_False in Ht by done. split; intros Hf.
  - rewrite decide_False in Ht by done. destruct Hq as (b & ql & q & Hp & Hq).
    unfold transfer_requet_to_rdma_message.
    by rewrite (M_bind_step _ _ _ _ _ (get_queue_run _ _ _ _ _ Hp Hq)), Ht.
  - rewrite decide_True in Ht by done.
    destruct (transfer_posts w qi rq _ _ _ a l chunk aq Hok Hq Hqp Hfree Ht Hl Hc Hm)
      as (wr & sge & w' & Hp & _ & _ & _ & H4).
    destruct (translate_bounds _ _ _ _ Hon Ht) as (_ & Ho & Hlen & Hsum).
    unfold ONE_GB, PAGE_SIZE in *. rewrite u32_id in H4 by lia.
    exists wr, sge, w'. split_and!; [done|done|].
    unfold in_one_chunk, fallback_fits, PAGE_SIZE, ONE_GB in *. lia.
Qed.

(** The device's capacity is 32 GB whatever the server offers: a request
    of the device whose chunk lies beyond the table makes the handler read
    outside the table's allocation, and one whose chunk is in the table but
    not bound is refused with -1 after it has been started. *)
Theorem transfer_outside_table `{K : kernel} w qi rq i off len a l aq :
  queues_ok w → has_queue w qi → qp (w_sess w) = KPtr aq →
  on_device rq → translate rq = Some (i, off, len) →
  remote_chunk (remote_chunk_list (w_sess w)) = Some (a, l) →
  (Z.of_nat (length l) <= i → transfer_requet_to_rdma_message qi rq w = Oops OutOfBounds) ∧
  (∀ chunk, arr_get l i = Some chunk → chunk_state chunk = EMPTY →
     ∃ w', transfer_requet_to_rdma_message qi rq w = Ret (-1) w' ∧
       w_trace w' = w_trace w ++ [K_blk_mq_start_request (rq_tag rq)]).
Proof.
  intros Hok Hq Hqp Hon Ht Hl. rewrite (transfer_step w qi rq i off len a l Hok Hq Ht Hl). split.
  - intros Hlen. destruct (arr_get l i) as [c|] eqn:E; [|done].
    apply arr_get_Some in E. lia.
  - intros chunk -> He. exists (started rq w). unfold post_rdma.
    by rewrite bool_decide_true by (by rewrite He).
Qed.

(** The CPU that [rmem_queue_rq] pins with [get_cpu] is released exactly
    when it returns success: whatever the kernel does, after a return of
    [BLK_MQ_RQ_QUEUE_OK] as many CPUs are pinned as before, and after a
    failure one more stays pinned. *)
Theorem rmem_queue_rq_pins `{K : kernel} data rq w r w' :
  rmem_queue_rq data rq w = Ret r w' →
  (r = BLK_MQ_RQ_QUEUE_OK ∧ pinned (w_trace w') = pinned (w_trace w)) ∨
  (r = -1 ∧ pinned (w_trace w') = pinned (w_trace w) + 1).
Proof.
  unfold rmem_queue_rq. intros H. mrun.
  all: match goal with H : transfer_requet_to_rdma_message _ _ _ = _ |- _ =>
    apply transfer_pinned in H; cbn in H; rewrite pinned_app in H; cbn in H end.
  - right. split; [done|]. lia.
  - left. split; [done|]. cbn. rewrite pinned_app. cbn. lia.
Qed.

(** Binding dispatch queues to RDMA queues: [rmem_init_hctx] returns 0 on
    every path; with the queue list in place and the depths equal, dispatch
    queue [i] is bound to RDMA queue [i]; without the queue list, or with
    another depth, the success code hides that the dispatch queue is left
    unbound, and the first request on it dereferences NULL. *)
Theorem rmem_init_hctx_spec `{K : kernel} w i :
  queues_ok w → d_rdma_session (w_dev w) = true → has_queue w i →
  ∃ q w', get_queue i w = Ret q w ∧
    rmem_init_hctx None i w =
      Ret (0, if rdma_queue_depth q =? queue_depth (w_dev w) then Some i else None) w' ∧
    queues_ok w' ∧
    (rdma_queue_depth q ≠ queue_depth (w_dev w) →
       ∀ rq b bs, rq_bio rq = b :: bs → rmem_queue_rq None rq w' = Oops NullDeref).
Proof.
  intros Hok Hs (a & ql & q & Hp & Hq). pose proof (get_queue_run _ _ _ _ _ Hp Hq) as Hg.
  pose proof (arr_get_Some _ _ _ Hq) as Hi.
  set (w' := with_queues w (Some (a, <[Z.to_nat i := q <| q_index := i |>]> ql))).
  exists q, w'. split; [done|]. split_and!.
  - unfold rmem_init_hctx. mstep. cbn [id]. rewrite Hs. cbn [negb]. mstep.
    fold (queues w). rewrite Hp. rewrite (M_bind_step _ _ _ _ _ Hg). cbv zeta.
    rewrite (M_bind_step _ _ _ _ _ (set_queue_run _ _ _ _ _ Hp Hi)).
    cbn -[queue_depth]. by destruct (_ =? _).
  - pose proof (queues_ok_lookup _ _ _ _ _ Hok Hp Hq) as Hqk.
    destruct Hok as (a' & ql' & Hp' & Hall). rewrite Hp in Hp'. injection Hp' as <- <-.
    exists a, (<[Z.to_nat i := q <| q_index := i |>]> ql). split; [done|].
    intros j q' [(<- & <- & _)|[_ Hold]]%list_lookup_insert_Some; [|by apply Hall].
    by rewrite Z2Nat.id by lia.
  - intros _ rq b bs Hb. unfold rmem_queue_rq. rewrite Hb. by repeat mstep.
Qed.

(** The largest request the queue limits admit does not fit the command's
    buffer: a request of [RMEM_QUEUE_MAX_SECT_SIZE] sectors within one chunk
    is posted with a segment twice as long as the buffer mapped for it. *)
Theorem max_request_exceeds_buffer `{K : kernel} w qi rq a l chunk aq :
  queues_ok w → has_queue w qi → qp (w_sess w) = KPtr aq → ¬ no_free w qi →
  on_device rq → in_one_chunk rq →
  remote_chunk (remote_chunk_list (w_sess w)) = Some (a, l) →
  arr_get l (rq_chunk rq) = Some chunk → chunk_state chunk = MAPPED →
  rq_bytes rq = RMEM_QUEUE_MAX_SECT_SIZE * RMEM_LOGICAL_SECT_SIZE →
  ∃ wr sge w', posted_as w qi rq wr sge w' ∧ sge_length sge = 2 * ONE_SIEDED_RDMA_BUF_SIZE.
Proof.
  intros Hok Hq Hqp Hfree Hon Hin Hl Hc Hm Hmax.
  assert (translate rq = Some (rq_chunk rq, rq_offset rq, rq_bytes rq)) as Ht.
  { rewrite translate_ok by done. unfold translate_spec. by rewrite decide_True. }
  destruct (transfer_posts w qi rq _ _ _ a l chunk aq Hok Hq Hqp Hfree Ht Hl Hc Hm)
    as (wr & sge & w' & Hp & _ & _ & _ & H4).
  exists wr, sge, w'. split; [done|]. rewrite H4, Hmax. reflexivity.
Qed.

(** ** Witnesses *)

(** The session of [demo_post_world] with a table of one bound and one unbound
    chunk, and requests of one page, of two GB-crossing kinds and of the
    maximal size. *)
Definition demo_io_world : world :=
  with_chunks demo_post_world (mkChunkList (Some (512, [demo_chunk; zero_chunk])) 2 2 1).

Definition demo_io_rq (pos bytes segs : Z) : request :=
  mkRequest 3 true pos bytes segs [mkBio segs []] 0.

Lemma demo_io_ok : queues_ok demo_io_world.
Proof. exact demo_queues_ok. Qed.

Lemma demo_io_queue : has_queue demo_io_world 0.
Proof. exact demo_has_queue. Qed.

Lemma demo_io_free : ¬ no_free demo_io_world 0.
Proof. intros Hno. discriminate (Hno 0%nat (demo_cmd 0) eq_refl). Qed.

Lemma transfer_in_one_chunk_witness :
  ∃ wr sge w', @posted_as kernel_ok demo_io_world 0 (demo_io_rq 8 4096 1) wr sge w' ∧
    sge_length sge = 4096.
Proof.
  destruct (@transfer_in_one_chunk kernel_ok demo_io_world 0 (demo_io_rq 8 4096 1) 512
    [demo_chunk; zero_chunk] demo_chunk 32 demo_io_ok demo_io_queue eq_refl demo_io_free)
    as (wr & sge & w' & Hp & _ & _ & Hl & _).
  - repeat split; vm_compute; congruence.
  - vm_compute. congruence.
  - reflexivity.
  - reflexivity.
  - reflexivity.
  - vm_compute. congruence.
  - vm_compute. congruence.
  - exists wr, sge, w'. split; [exact Hp|exact Hl].
Defined.

(** A request of 16 KB in one physical segment that starts two pages before
    the chunk's end is cut; one of 8 KB in two segments that starts one page
    before it is refused. *)
Lemma transfer_crossing_witness :
  @transfer_requet_to_rdma_message kernel_ok 0 (demo_io_rq 2097144 8192 2) demo_io_world =
    Ret (-1) demo_io_world ∧
  ∃ wr sge w', @posted_as kernel_ok demo_io_world 0 (demo_io_rq 2097136 16384 1) wr sge w' ∧
    sge_length sge < 16384.
Proof.
  split.
  - apply (@transfer_crossing kernel_ok demo_io_world 0 (demo_io_rq 2097144 8192 2) 512
      [demo_chunk; zero_chunk] demo_chunk 32 demo_io_ok demo_io_queue eq_refl demo_io_free).
    + repeat split; vm_compute; congruence.
    + intros H. vm_compute in H. congruence.
    + reflexivity.
    + reflexivity.
    + reflexivity.
    + intros H. vm_compute in H. congruence.
  - destruct (@transfer_crossing kernel_ok demo_io_world 0 (demo_io_rq 2097136 16384 1) 512
      [demo_chunk; zero_chunk] demo_chunk 32 demo_io_ok demo_io_queue eq_refl demo_io_free)
      as [_ H].
    + repeat split; vm_compute; congruence.
    + intros H. vm_compute in H. congruence.
    + reflexivity.
    + reflexivity.
    + reflexivity.
    + destruct H as (wr & sge & w' & Hp & _ & Hl); [vm_compute; reflexivity|].
      exists wr, sge, w'. split; [exact Hp|exact Hl].
Defined.

Lemma transfer_outside_table_witness :
  @transfer_requet_to_rdma_message kernel_ok 0 (demo_io_rq 4194304 4096 1) demo_io_world =
    Oops OutOfBounds.
Proof.
  apply (@transfer_outside_table kernel_ok demo_io_world 0 (demo_io_rq 4194304 4096 1) 2 0 4096 512
    [demo_chunk; zero_chunk] 32 demo_io_ok demo_io_queue eq_refl).
  - repeat split; vm_compute; congruence.
  - vm_compute. reflexivity.
  - reflexivity.
  - cbn. lia.
Defined.

Lemma rmem_queue_rq_pins_witness :
  ∃ w', @rmem_queue_rq kernel_ok (Some 0) (demo_io_rq 2097144 8192 2) demo_io_world = Ret (-1) w' ∧
    pinned (w_trace w') = 1.
Proof.
  eexists.
  assert (@rmem_queue_rq kernel_ok (Some 0) (demo_io_rq 2097144 8192 2) demo_io_world =
    Ret (-1) (add_trace K_get_cpu demo_io_world)) as Hr by (vm_compute; reflexivity).
  split; [exact Hr|].
  destruct (@rmem_queue_rq_pins kernel_ok _ _ _ _ _ Hr) as [[H _]|[_ H]];
    [vm_compute in H; discriminate H|exact H].
Defined.

Definition demo_dev_world : world :=
  demo_io_world <| w_dev ::= λ d, d <| d_rdma_session := true |> |>.

Lemma rmem_init_hctx_spec_witness :
  ∃ w', @rmem_init_hctx None 0 demo_dev_world
    = Ret (0, None) w'.
Proof.
  destruct (@rmem_init_hctx_spec kernel_ok
    demo_dev_world 0 demo_io_ok eq_refl
    demo_io_queue) as (q & w' & Hq & Hr & _).
  exists w'. rewrite Hr. vm_compute in Hq. injection Hq as <-. reflexivity.
Defined.

Lemma max_request_exceeds_buffer_witness :
  ∃ wr sge w', @posted_as kernel_ok demo_io_world 0 (demo_io_rq 0 524288 128) wr sge w' ∧
    sge_length sge = 2 * ONE_SIEDED_RDMA_BUF_SIZE.
Proof.
  apply (@max_request_exceeds_buffer kernel_ok demo_io_world 0 (demo_io_rq 0 524288 128) 512
    [demo_chunk; zero_chunk] demo_chunk 32 demo_io_ok demo_io_queue eq_refl demo_io_free).
  - repeat split; vm_compute; congruence.
  - vm_compute. congruence.
  - reflexivity.
  - reflexivity.
  - reflexivity.
  - reflexivity.
Defined.
