(* ===== verification/BlockDev.v ===== *)
(** * The block device

    Registration and removal of the block device in [register_disk.c]:
    [init_rmem_device_control], [init_blk_mq_tag_set], [init_blk_mq_queue],
    [init_gendisk], [RMEM_create_device], [rmem_init_disk_driver],
    [octopus_free_block_devicce], and the operation tables.

    The theorems give the result of the registration for every answer of the
    kernel, the state of the device it builds, and what removal gives back. *)

From Stdlib Require Import Ascii String.
From S2P Require Import Prelude BitOps OctTypes Kernel Names ChunkList CmdQueue OneSided BlockIO.

(** ** Operation tables *)

Definition ENOTTY : Z := 25.
Definition ENOMEM : Z := 12.

Definition rmem_dev_open : M Z := mret 0.
Definition rmem_dev_release : M unit := mret tt.
Definition rmem_dev_media_changed : M Z := mret 0.
Definition rmem_dev_revalidate : M Z := mret 0.
Definition rmem_dev_ioctl : M Z := mret (- ENOTTY).
Definition rmem_getgeo : M Z := mret (- ENOTTY).

(** [struct block_device_operations rmem_device_ops]. *)
Record block_device_operations := mkOps {
  bd_open : M Z;
  bd_release : M unit;
  bd_media_changed : M Z;
  bd_revalidate_disk : M Z;
  bd_ioctl : M Z;
  bd_getgeo : M Z
}.

Definition rmem_device_ops : block_device_operations :=
  mkOps rmem_dev_open rmem_dev_release rmem_dev_media_changed rmem_dev_revalidate
        rmem_dev_ioctl rmem_getgeo.

(** [struct blk_mq_ops rmem_mq_ops]; [map_queues] is the kernel's own. *)
Record blk_mq_ops := mkMqOps {
  mq_queue_rq : option Z → request → M Z;
  mq_init_hctx : option Z → Z → M (Z * option Z)
}.

Definition rmem_mq_ops `{K : kernel} : blk_mq_ops := mkMqOps rmem_queue_rq rmem_init_hctx.

(** ** Operations

    [ctrl] says whether the [rmem_dev_ctrl] argument is the global controller
    ([true]) or NULL. *)

Section Ops.
Context {K : kernel}.

Definition init_rmem_device_control (name : option (list ascii)) (ctrl : bool) : M Z :=
  if negb ctrl then mret (-1)
  else
    match name with
    | Some n =>
        let len := if DEVICE_NAME_LEN <=? Z.of_nat (length n) then DEVICE_NAME_LEN
                   else Z.of_nat (length n) in
        set_dev (λ d, d <| dev_name ::= overwrite (take (Z.to_nat len) n) |>)       (* memcpy *)
    | None => set_dev (λ d, d <| dev_name ::= overwrite (c_str "rmempool") |>)      (* strcpy *)
    end;;
    maj ← gets w_rmem_major_num;
    set_dev (λ d, d <| major := maj |>);;
    set_dev (λ d, d <| queue_depth := RMEM_QUEUE_DEPTH |>);;
    cores ← gets w_online_cores;
    set_dev (λ d, d <| nr_queues := u32 cores |>);;
    set_dev (λ d, d <| dev_freed := 0 |>);;
    mret 0.

(** [NUMA_NO_NODE] of the kernel. *)
Definition NUMA_NO_NODE : Z := -1.

Definition init_blk_mq_tag_set : M Z :=
  set_dev (λ d, d <| tag_set ::= λ t, t <| ts_ops := true |> |>);;
  set_dev (λ d, d <| tag_set ::= λ t, t <| ts_nr_hw_queues := nr_queues d |> |>);;
  set_dev (λ d, d <| tag_set ::= λ t, t <| ts_queue_depth := queue_depth d |> |>);;
  set_dev (λ d, d <| tag_set ::= λ t, t <| ts_numa_node := NUMA_NO_NODE |> |>);;
  set_dev (λ d, d <| tag_set ::= λ t, t <| ts_cmd_size := k_sizeof_cmd |> |>);;
  set_dev (λ d, d <| tag_set ::= λ t, t <| ts_should_merge := true |> |>);;
  set_dev (λ d, d <| tag_set ::= λ t, t <| ts_driver_data := true |> |>);;
  ts ← dev tag_set;
  call_int (K_blk_mq_alloc_tag_set ts).

Definition init_blk_mq_queue : M Z :=
  q ← call_ptr K_blk_mq_init_queue;
  set_dev (λ d, d <| queue := q |>);;
  if IS_ERR q then mret (PTR_ERR q)
  else
    _ ← deref q;                             (* queue->queuedata = ... *)
    set_dev (λ d, d <| queue_lim := mkLimits true RMEM_LOGICAL_SECT_SIZE RMEM_PHY_SECT_SIZE
                                              RMEM_QUEUE_MAX_SECT_SIZE |>);;
    mret 0.

(** What [alloc_disk_node] returns is zeroed. *)
Definition zero_disk : gendisk := mkDisk 0 0 false KNull false (replicate 32 Ascii.zero) 0.

Definition set_disk (f : gendisk → gendisk) : M unit :=
  p ← dev disk;
  g ← deref_opt p;
  set_dev (λ d, d <| disk := Some (g.1, f g.2) |>).

Definition init_gendisk : M Z :=
  p ← call_ptr K_alloc_disk_node;
  set_dev (λ d, d <| disk := match p with KPtr a => Some (a, zero_disk) | _ => None end |>);;
  g ← dev disk;
  match g with
  | None => call (K_del_gendisk 0);; mret (- ENOMEM)
  | Some _ =>
      d ← dev id;
      set_disk (λ g, g <| gd_major := major d |>);;
      set_disk (λ g, g <| gd_first_minor := 0 |>);;
      set_disk (λ g, g <| gd_fops := true |>);;
      set_disk (λ g, g <| gd_queue := queue d |>);;
      set_disk (λ g, g <| gd_private_data := true |>);;
      set_disk (λ g, g <| gd_disk_name ::= overwrite (take (Z.to_nat DEVICE_NAME_LEN) (dev_name d)) |>);;
      set_disk (λ g, g <| gd_capacity := RMEM_SIZE_IN_PHY_SECT |>);;
      call (K_add_disk RMEM_SIZE_IN_PHY_SECT);;
      mret 0
  end.

Definition RMEM_create_device (name : option (list ascii)) (ctrl : bool) : M Z :=
  if negb ctrl then mret (-1)
  else
    ret ← init_rmem_device_control name ctrl;
    if negb (ret =? 0) then mret ret
    else
      ret ← init_blk_mq_tag_set;
      if negb (ret =? 0) then mret ret
      else
        ret ← init_blk_mq_queue;
        if negb (ret =? 0) then mret ret
        else
          ret ← init_gendisk;
          mret ret.

Definition rmem_init_disk_driver (ctrl : bool) : M Z :=
  maj ← call_int K_register_blkdev;
  modify (λ w, w <| w_rmem_major_num := maj |>);;
  if maj <? 0 then mret (-1)
  else RMEM_create_device None ctrl.

Definition octopus_free_block_devicce (ctrl : bool) : M Z :=
  f ← dev dev_freed;
  if ctrl && negb (f =? 0) then mret 0
  else if negb ctrl then oops NullDeref      (* rmem_dev_ctrl->freed = 1 *)
  else
    set_dev (λ d, d <| dev_freed := 1 |>);;
    d ← dev id;
    (match disk d with Some g => call (K_del_gendisk g.1) | None => mret tt end);;
    (if bool_decide (queue d ≠ KNull) then call (K_blk_cleanup_queue (queue d)) else mret tt);;
    call K_blk_mq_free_tag_set;;
    (match disk d with Some g => call (K_put_disk g.1) | None => mret tt end);;
    call (K_unregister_blkdev (major d));;
    mret 0.

End Ops.

(** ** Specification *)

(** The device as a successful registration leaves it. *)
Definition ready_tag_set `{K : kernel} (w : world) : blk_mq_tag_set :=
  mkTagSet true (u32 (w_online_cores w)) RMEM_QUEUE_DEPTH NUMA_NO_NODE k_sizeof_cmd true true.

Definition rmempool_name (d : rmem_device_control) : list ascii :=
  overwrite (c_str "rmempool") (dev_name d).

(** The controller after its fields and the tag set have been filled in. *)
Definition configured `{K : kernel} (w : world) (maj : Z) : rmem_device_control :=
  let d := w_dev w in
  mkDev maj (disk d) (queue d) (queue_lim d) (ready_tag_set w) RMEM_QUEUE_DEPTH
        (u32 (w_online_cores w)) (rmempool_name d) 0 (d_rdma_session d).

Definition driver_limits : queue_limits :=
  mkLimits true RMEM_LOGICAL_SECT_SIZE RMEM_PHY_SECT_SIZE RMEM_QUEUE_MAX_SECT_SIZE.

Definition active_disk (d : rmem_device_control) : gendisk :=
  mkDisk (major d) 0 true (queue d) true
    (overwrite (take 32 (dev_name d)) (replicate 32 Ascii.zero)) RMEM_SIZE_IN_PHY_SECT.

(** The world after [calls] with controller [d] and major number [maj]. *)
Definition dev_world (w : world) (maj : Z) (d : rmem_device_control) (calls : list kcall) : world :=
  mkWorld (w_sess w) d maj (w_online_cores w) (w_rmda_ops_count w) (w_cq_notify_count w)
    (w_cq_get_count w) (w_trace w ++ calls).

(** What registration does, step by step, for the answers of the kernel. *)
Definition registration `{K : kernel} (w : world) : res Z :=
  let t := w_trace w in
  let ts := ready_tag_set w in
  let maj := k_int t K_register_blkdev in
  if maj <? 0 then Ret (-1) (dev_world w maj (w_dev w) [K_register_blkdev])
  else
    let c1 := [K_register_blkdev] in
    let r := k_int (t ++ c1) (K_blk_mq_alloc_tag_set ts) in
    let d1 := configured w maj in
    let c2 := c1 ++ [K_blk_mq_alloc_tag_set ts] in
    if negb (r =? 0) then Ret r (dev_world w maj d1 c2)
    else
      let c3 := c2 ++ [K_blk_mq_init_queue] in
      match k_ptr (t ++ c2) K_blk_mq_init_queue with
      | KErr e => Ret (Z.neg e) (dev_world w maj (d1 <| queue := KErr e |>) c3)
      | KNull => Oops NullDeref
      | KPtr q =>
          let d2 := d1 <| queue := KPtr q |> <| queue_lim := driver_limits |> in
          let c4 := c3 ++ [K_alloc_disk_node] in
          match k_ptr (t ++ c3) K_alloc_disk_node with
          | KPtr a => Ret 0 (dev_world w maj (d2 <| disk := Some (a, active_disk d2) |>)
                               (c4 ++ [K_add_disk RMEM_SIZE_IN_PHY_SECT]))
          | _ => Ret (- ENOMEM) (dev_world w maj (d2 <| disk := None |>) (c4 ++ [K_del_gendisk 0]))
          end
      end.

Lemma init_control_run w maj c :
  let d := w_dev w in
  init_rmem_device_control None true (dev_world w maj d c) =
  Ret 0 (dev_world w maj (mkDev maj (disk d) (queue d) (queue_lim d) (tag_set d) RMEM_QUEUE_DEPTH
    (u32 (w_online_cores w)) (rmempool_name d) 0 (d_rdma_session d)) c).
Proof. reflexivity. Qed.

Lemma dev_world_app w maj d c c' :
  (dev_world w maj d c) <| w_trace ::= (.++ c') |> = dev_world w maj d (c ++ c').
Proof. unfold dev_world, setter. cbn. by rewrite <- app_assoc. Qed.

(** Runs the driver's straight-line code on a controller in the goal. *)
Ltac dev_steps := repeat (mstep; cbn [negb IS_ERR PTR_ERR]).

Lemma init_tag_set_run `{K : kernel} w maj d c :
  let ts := mkTagSet true (nr_queues d) (queue_depth d) NUMA_NO_NODE k_sizeof_cmd true true in
  init_blk_mq_tag_set (dev_world w maj d c) =
  Ret (k_int (w_trace w ++ c) (K_blk_mq_alloc_tag_set ts))
      (dev_world w maj (d <| tag_set := ts |>) (c ++ [K_blk_mq_alloc_tag_set ts])).
Proof. intros ts. rewrite <- dev_world_app. reflexivity. Qed.

Lemma init_queue_run `{K : kernel} w maj d c :
  let c' := c ++ [K_blk_mq_init_queue] in
  init_blk_mq_queue (dev_world w maj d c) =
  match k_ptr (w_trace w ++ c) K_blk_mq_init_queue with
  | KErr e => Ret (Z.neg e) (dev_world w maj (d <| queue := KErr e |>) c')
  | KNull => Oops NullDeref
  | KPtr q => Ret 0 (dev_world w maj (d <| queue := KPtr q |> <| queue_lim := driver_limits |>) c')
  end.
Proof.
  intros c'. unfold init_blk_mq_queue. dev_steps.
  change (w_trace (dev_world w maj d c)) with (w_trace w ++ c). unfold c'.
  destruct (k_ptr _ _); cbn [IS_ERR]; rewrite <- ?dev_world_app; reflexivity.
Qed.

Lemma init_gendisk_run `{K : kernel} w maj d c :
  let c' := c ++ [K_alloc_disk_node] in
  init_gendisk (dev_world w maj d c) =
  match k_ptr (w_trace w ++ c) K_alloc_disk_node with
  | KPtr a => Ret 0 (dev_world w maj (d <| disk := Some (a, active_disk d) |>)
                       (c' ++ [K_add_disk RMEM_SIZE_IN_PHY_SECT]))
  | _ => Ret (- ENOMEM) (dev_world w maj (d <| disk := None |>) (c' ++ [K_del_gendisk 0]))
  end.
Proof.
  intros c'. unfold init_gendisk. dev_steps.
  change (w_trace (dev_world w maj d c)) with (w_trace w ++ c). unfold c'.
  destruct (k_ptr _ _); rewrite <- !dev_world_app; reflexivity.
Qed.

Lemma registration_run `{K : kernel} w : rmem_init_disk_driver true w = registration w.
Proof.
  unfold rmem_init_disk_driver, registration. mstep. mstep.
  set (maj := k_int (w_trace w) K_register_blkdev). destruct (maj <? 0); [done|].
  set (c1 := [K_register_blkdev]).
  transitivity (RMEM_create_device None true (dev_world w maj (w_dev w) c1)); [done|].
  unfold RMEM_create_device. cbn [negb].
  rewrite M_bind_unfold, init_control_run. cbn [Z.eqb negb].
  rewrite M_bind_unfold, init_tag_set_run. cbv zeta beta iota.
  change (mkTagSet true _ _ _ _ _ _) with (ready_tag_set w).
  match goal with |- context [dev_world w maj ?d (c1 ++ _)] =>
    lazymatch d with setter _ _ => change d with (configured w maj) end end.
  destruct (negb _); [done|].
  rewrite M_bind_unfold, init_queue_run. cbv zeta beta iota.
  destruct (k_ptr _ K_blk_mq_init_queue); [done| |done]. cbn [Z.eqb negb].
  rewrite M_bind_unfold, init_gendisk_run. cbv zeta beta iota. by destruct (k_ptr _ _).
Qed.

(** An active block device: 32 GB under the name rmempool, one dispatch queue
    per core, with the depth of the RDMA queues. *)
Definition device_active (w : world) : Prop :=
  let d := w_dev w in
  ∃ q a g, queue d = KPtr q ∧ disk d = Some (a, g) ∧ queue_lim d = driver_limits ∧
    major d = w_rmem_major_num w ∧ 0 <= major d ∧ dev_freed d = 0 ∧
    gd_major g = major d ∧ gd_queue g = KPtr q ∧ gd_fops g = true ∧ gd_private_data g = true ∧
    gd_capacity g * RMEM_PHY_SECT_SIZE = MAX_REMOTE_MEMORY_SIZE_GB * ONE_GB ∧
    c_string (gd_disk_name g) = Some (list_ascii_of_string "rmempool") ∧
    ts_nr_hw_queues (tag_set d) = u32 (w_online_cores w) ∧
    ts_queue_depth (tag_set d) = RMEM_QUEUE_DEPTH ∧ ts_ops (tag_set d) = true ∧
    ts_driver_data (tag_set d) = true.

Lemma disk_name_rmempool n :
  length n = 32%nat →
  c_string (overwrite (take 32 (overwrite (c_str "rmempool") n)) (replicate 32 Ascii.zero)) =
  Some (list_ascii_of_string "rmempool").
Proof.
  intros Hn. unfold overwrite at 2. rewrite Hn, (take_ge _ 32) by (rewrite length_app, length_drop; cbn; lia).
  unfold overwrite. rewrite length_replicate.
  rewrite (take_ge (_ ++ _)) by (rewrite length_app, length_drop, Hn; cbn; lia). reflexivity.
Qed.

Definition is_add_disk (c : kcall) : bool := match c with K_add_disk _ => true | _ => false end.

(** ** Theorems *)

(** Registration of the block device, for every behaviour of the kernel:
    it returns 0 exactly when it has activated the disk, and activating is the
    last thing it does; the device is then a 32 GB disk named rmempool with
    one dispatch queue per core.  Otherwise the result is the error of the
    step that failed, and nothing after that step is done; the only fault
    possible is a NULL request queue. *)
Theorem rmem_init_disk_driver_spec `{K : kernel} w :
  length (dev_name (w_dev w)) = 32%nat →
  match rmem_init_disk_driver true w with
  | Ret r w' => ∃ calls, w_trace w' = w_trace w ++ calls ∧ w_sess w' = w_sess w ∧
      (r = 0 ↔ existsb is_add_disk calls = true) ∧
      (r = 0 → device_active w' ∧ last calls = Some (K_add_disk RMEM_SIZE_IN_PHY_SECT)) ∧
      (r ≠ 0 →
        let ts := ready_tag_set w in
        (r = -1 ∧ calls = [K_register_blkdev]) ∨
        calls = [K_register_blkdev; K_blk_mq_alloc_tag_set ts] ∨
        (∃ e, r = Z.neg e ∧ queue (w_dev w') = KErr e ∧
           calls = [K_register_blkdev; K_blk_mq_alloc_tag_set ts; K_blk_mq_init_queue]) ∨
        (r = - ENOMEM ∧ disk (w_dev w') = None ∧
           calls = [K_register_blkdev; K_blk_mq_alloc_tag_set ts; K_blk_mq_init_queue;
                    K_alloc_disk_node; K_del_gendisk 0]))
  | Oops f => f = NullDeref ∧ ∃ tr, k_ptr tr K_blk_mq_init_queue = KNull
  end.
Proof.
  intros Hn. rewrite registration_run. unfold registration. cbv zeta.
  set (maj := k_int _ K_register_blkdev). destruct (Z.ltb_spec maj 0) as [Hm|Hm].
  { eexists. do 3 (split; [done|]). split; [done|]. by left. }
  set (r := k_int _ (K_blk_mq_alloc_tag_set _)). destruct (Z.eqb_spec r 0) as [Hr|Hr]; cbn [negb].
  2:{ eexists. do 3 (split; [done|]). split; [done|]. intros _. by right; left. }
  destruct (k_ptr _ K_blk_mq_init_queue) as [|q|e] eqn:Eq.
  - split; [done|]. eauto.
  - destruct (k_ptr _ K_alloc_disk_node) as [|a|e].
    1,3: eexists; do 3 (split; [done|]); split; [done|]; intros _; right; right; right; done.
    eexists. do 3 (split; [done|]). split; [|done]. intros _. split; [|done].
    exists q, a. eexists. split_and!; try done.
    apply disk_name_rmempool. exact Hn.
  - eexists. do 3 (split; [done|]). split; [done|]. intros _. right; right; left. by exists e.
Qed.

(** The two halves of the driver fit together: in any world whose device
    was configured by the registration and whose RDMA queues were set up for
    the same number of cores with [RMEM_QUEUE_DEPTH] commands each, every
    dispatch queue of the device is bound to the RDMA queue of its index. *)
Theorem dispatch_queues_bound `{K : kernel} w v maj a ql i :
  w_dev v = configured w maj → d_rdma_session (w_dev w) = true →
  queues v = Some (a, ql) → Z.of_nat (length ql) = ts_nr_hw_queues (ready_tag_set w) →
  (∀ j q, ql !! j = Some q → queue_ready (Z.of_nat j) q) →
  0 <= i < ts_nr_hw_queues (ready_tag_set w) →
  ∃ v', rmem_init_hctx None i v = Ret (0, Some i) v' ∧ has_queue v' i.
Proof.
  intros Hd Hs Hq Hlen Hready Hi. destruct (arr_get_is_Some ql i) as [q Hiq]; [lia|].
  assert (rdma_queue_depth q = RMEM_QUEUE_DEPTH) as Hdep.
  { pose proof (arr_get_Some _ _ _ Hiq). unfold arr_get in Hiq. rewrite decide_True in Hiq by lia.
    by apply Hready in Hiq as (_ & Hdep & _). }
  unfold rmem_init_hctx. mstep. cbn [id]. rewrite Hd. cbn [d_rdma_session configured].
  rewrite Hs. cbn [negb]. mstep. fold (queues v). rewrite Hq.
  rewrite (M_bind_step _ _ _ _ _ (get_queue_run _ _ _ _ _ Hq Hiq)). cbv zeta.
  erewrite M_bind_step by (apply (set_queue_run _ _ _ _ _ Hq); lia).
  change (rdma_queue_depth (setter _ q)) with (rdma_queue_depth q).
  change (queue_depth (configured w maj)) with RMEM_QUEUE_DEPTH. rewrite Hdep. cbn [Z.eqb negb].
  eexists. split; [reflexivity|]. eexists a, _, _. split; [reflexivity|].
  apply arr_get_insert_eq. lia.
Qed.

(** The device name: a name of fewer than 32 characters given to
    [init_rmem_device_control] on a fresh controller reads back as the same C
    string; a longer one fills the array without a terminating zero, so that
    reading it as a string (as [unregister_blkdev] and the disk name do) runs
    past the array. *)
Theorem device_name_roundtrip w n :
  w_dev w = zero_dev → Ascii.zero ∉ n →
  ∃ w', init_rmem_device_control (Some n) true w = Ret 0 w' ∧
    length (dev_name (w_dev w')) = 32%nat ∧
    ((length n < 32)%nat → c_string (dev_name (w_dev w')) = Some n) ∧
    ((32 <= length n)%nat → c_string (dev_name (w_dev w')) = None).
Proof.
  intros Hd Hn. eexists. split; [reflexivity|]. cbn -[overwrite take Z.to_nat]. rewrite Hd.
  unfold zero_dev, DEVICE_NAME_LEN. cbn -[overwrite take Z.to_nat replicate].
  change (Z.to_nat 32) with 32%nat. unfold overwrite. rewrite length_replicate.
  destruct (Z.leb_spec 32 (Z.of_nat (length n))) as [Hl|Hl].
  - rewrite (take_ge (take _ _)) by (rewrite length_take; lia).
    rewrite drop_ge, app_nil_r by (rewrite length_replicate, length_take; lia).
    change (Z.to_nat 32) with 32%nat.
    split_and!; [rewrite length_take; lia|lia|]. intros _. apply c_string_none.
    intros (i & Hi & _)%elem_of_take. by apply Hn, (list_elem_of_lookup_2 _ i).
  - rewrite Nat2Z.id, (take_ge n), take_ge by lia.
    split_and!; [rewrite length_app, length_drop, length_replicate; lia| |lia].
    intros _. rewrite drop_replicate.
    destruct (32 - length n)%nat as [|m] eqn:E; [lia|]. cbn [replicate]. by apply c_string_app.
Qed.

(** Removal of the device: with a NULL controller it faults; on a device
    already removed it does nothing; otherwise it gives back, in order, the
    disk, the request queue, the tag set, the disk's reference and the major
    number, each once, and a second removal does nothing.  A request queue
    that failed to be created is given back as the error pointer it is. *)
Theorem octopus_free_block_devicce_spec w :
  octopus_free_block_devicce false w = Oops NullDeref ∧
  (dev_freed (w_dev w) ≠ 0 → octopus_free_block_devicce true w = Ret 0 w) ∧
  (dev_freed (w_dev w) = 0 → ∃ w',
     octopus_free_block_devicce true w = Ret 0 w' ∧
     octopus_free_block_devicce true w' = Ret 0 w' ∧
     w_trace w' = w_trace w ++
       (match disk (w_dev w) with Some g => [K_del_gendisk g.1] | None => [] end) ++
       (if bool_decide (queue (w_dev w) ≠ KNull) then [K_blk_cleanup_queue (queue (w_dev w))] else []) ++
       [K_blk_mq_free_tag_set] ++
       (match disk (w_dev w) with Some g => [K_put_disk g.1] | None => [] end) ++
       [K_unregister_blkdev (major (w_dev w))]).
Proof.
  split; [done|]. split.
  - intros Hf. unfold octopus_free_block_devicce. mstep. by destruct (Z.eqb_spec (dev_freed (w_dev w)) 0).
  - intros Hf. unfold octopus_free_block_devicce at 1. mstep. rewrite Hf. cbn [Z.eqb negb andb].
    dev_steps. cbn [id]. destruct (disk (w_dev w)) as [[a g]|] eqn:Ed;
      destruct (bool_decide (queue (w_dev w) ≠ KNull)) eqn:Eq;
      (eexists; split; [|split]; [cbn; rewrite Ed; repeat (cbn; rewrite ?Eq); reflexivity|reflexivity|]);
      cbn; rewrite <- !app_assoc; reflexivity.
Qed.

(** ** Witnesses *)

Lemma rmem_init_disk_driver_spec_witness :
  ∃ w', @rmem_init_disk_driver kernel_ok true world0 = Ret 0 w' ∧ device_active w'.
Proof.
  pose proof (@rmem_init_disk_driver_spec kernel_ok world0 eq_refl) as H.
  destruct (@rmem_init_disk_driver kernel_ok true world0) as [r w'|f] eqn:E.
  - assert (r = 0) as -> by (vm_compute in E; injection E as <- _; reflexivity).
    destruct H as (calls & _ & _ & _ & H & _). exists w'. split; [reflexivity|]. apply H. reflexivity.
  - exfalso. vm_compute in E. discriminate E.
Defined.

(** Two dispatch queues over two RDMA queues of 16 ready commands. *)
Definition ready_cmds (i : Z) : list rmem_rdma_command :=
  (λ j, mkCmd (mkWr (Some (i, j)) IB_WR_NONE true true 1 0 0) (mkSge 0 0 7) (KPtr 8192) 0 None 1)
    <$> seqZ 0 16.

Definition ready_queue (i : Z) : rmem_rdma_queue :=
  mkQueue (Some (64, ready_cmds i)) RMEM_QUEUE_DEPTH 0 0 true.

Definition demo_attach_world : world :=
  with_queues (world0 <| w_online_cores := 2 |>
    <| w_dev ::= λ d, d <| d_rdma_session := true |> |>) (Some (32, [ready_queue 0; ready_queue 1])).

Lemma ready_queue_ready i : queue_ready i (ready_queue i).
Proof.
  split; [split; [vm_compute; split; congruence|]; eexists _, _; split; reflexivity|].
  split; [reflexivity|]. split; [reflexivity|]. intros b cl j c Hcl. injection Hcl as <- <-.
  unfold ready_cmds. rewrite list_lookup_fmap. intros (k & Hk & ->)%fmap_Some.
  apply lookup_seqZ in Hk as [-> _]. repeat split.
Qed.

Lemma dispatch_queues_bound_witness :
  ∃ v', @rmem_init_hctx None 1 (demo_attach_world <| w_dev := @configured kernel_ok demo_attach_world 8 |>)
    = Ret (0, Some 1) v'.
Proof.
  destruct (@dispatch_queues_bound kernel_ok demo_attach_world
    (demo_attach_world <| w_dev := @configured kernel_ok demo_attach_world 8 |>) 8 32
    [ready_queue 0; ready_queue 1] 1) as (v' & Hv & _).
  - reflexivity.
  - reflexivity.
  - reflexivity.
  - reflexivity.
  - intros [|[|j]] q; intros Hq; [injection Hq as <-..|discriminate Hq]; apply ready_queue_ready.
  - vm_compute. split; congruence.
  - exists v'. exact Hv.
Defined.

Lemma device_name_roundtrip_witness :
  ∃ w', init_rmem_device_control (Some (list_ascii_of_string "swap0")) true world0 = Ret 0 w' ∧
    c_string (dev_name (w_dev w')) = Some (list_ascii_of_string "swap0").
Proof.
  destruct (device_name_roundtrip world0 (list_ascii_of_string "swap0")) as (w' & Hr & _ & Hs & _).
  - reflexivity.
  - rewrite list_elem_of_In. cbn. intros H. repeat (destruct H as [H|H]; [discriminate H|]). exact H.
  - exists w'. split; [exact Hr|]. apply Hs. cbn. lia.
Defined.

Lemma octopus_free_block_devicce_spec_witness :
  ∃ w', octopus_free_block_devicce true world0 = Ret 0 w' ∧
    octopus_free_block_devicce true w' = Ret 0 w'.
Proof.
  destruct (octopus_free_block_devicce_spec world0) as (_ & _ & H).
  destruct (H eq_refl) as (w' & H1 & H2 & _). exists w'. split; [exact H1|exact H2].
Defined.
