(* ===== verification/Session.v ===== *)
(** * The RDMA session: events, messages, resources

    The connection-manager and completion-queue handlers of [rdma_client.c],
    the two-sided messages ([send_message_to_remote], [handle_recv_wr],
    [octupos_requset_for_chunk]), the creation of queues and buffers, and the
    functions that free them.

    The handlers may call [octopus_disconenct_and_collect_resource], which
    waits, so they live in the suspending monad [P].  A local variable the code
    returns without assigning it is an argument [uninit] of the definition. *)

From S2P Require Import Prelude BitOps OctTypes Kernel Names ChunkList CmdQueue OneSided BlockIO BlockDev.

(** ** Events and states *)

(** The kernel's values of the events. *)
Definition cm_event_code (e : rdma_cm_event) : Z :=
  match e with
  | RDMA_CM_EVENT_ADDR_RESOLVED => 0 | RDMA_CM_EVENT_ADDR_ERROR => 1
  | RDMA_CM_EVENT_ROUTE_RESOLVED => 2 | RDMA_CM_EVENT_ROUTE_ERROR => 3
  | RDMA_CM_EVENT_CONNECT_REQUEST => 4 | RDMA_CM_EVENT_CONNECT_RESPONSE => 5
  | RDMA_CM_EVENT_CONNECT_ERROR => 6 | RDMA_CM_EVENT_UNREACHABLE => 7
  | RDMA_CM_EVENT_REJECTED => 8 | RDMA_CM_EVENT_ESTABLISHED => 9
  | RDMA_CM_EVENT_DISCONNECTED => 10 | RDMA_CM_EVENT_DEVICE_REMOVAL => 11
  | RDMA_CM_EVENT_MULTICAST_JOIN => 12 | RDMA_CM_EVENT_MULTICAST_ERROR => 13
  | RDMA_CM_EVENT_ADDR_CHANGE => 14 | RDMA_CM_EVENT_TIMEWAIT_EXIT => 15
  end.

(** The enumerators are compared by their values ([state < CONNECTED]). *)
Definition state_lt (s t : rdma_session_context_state) : bool := state_code s <? state_code t.
Definition state_ge (s t : rdma_session_context_state) : bool := state_code t <=? state_code s.
Definition state_is (s t : rdma_session_context_state) : bool := bool_decide (s = t).

Section Ops.
Context {K : kernel}.

Definition set_state (s : rdma_session_context_state) : M unit :=
  set_sess (λ r, r <| state := s |>).
Definition wake_up : M unit := call K_wake_up.
Definition count_op : M unit := modify (λ w, w <| w_rmda_ops_count ::= λ n, u64 (n + 1) |>).

(** ** Two-sided messages *)

Definition send_message_to_remote (messge_type size_gb : Z) : M Z :=
  p ← sess send_buf;
  m ← deref_opt p;
  set_sess (λ s, s <| send_buf := Some (m.1, m.2 <| msg_type := messge_type |>) |>);;
  set_sess (λ s, s <| send_buf := Some (m.1, m.2 <| msg_type := messge_type |>
                                                 <| msg_size_gb := size_gb |>) |>);;
  _ ← rdma_message_print messge_type;
  _ ← (q ← sess qp; deref q);
  sge ← sess send_sgl;
  p ← sess send_buf;
  m ← deref_opt p;
  ret ← call_int (K_ib_post_send_msg sge m.2);
  if negb (ret =? 0) then mret ret
  else count_op;; mret ret.

Definition handle_recv_wr (wc : ib_wc) : M Z :=
  if negb (wc_byte_len wc =? sizeof_message) then mret (-1)
  else
    st ← sess state;
    if state_lt st CONNECTED then mret (-1)
    else
      p ← sess recv_buf;
      m ← deref_opt p;
      _ ← rdma_message_print (msg_type m.2);
      match message_type_of_code (msg_type m.2) with
      | Some FREE_SIZE =>
          set_chunk_list (λ cl, cl <| remote_free_size_gb := u32 (msg_size_gb m.2) |>);;
          set_state FREE_MEM_RECV;;
          ret ← init_remote_chunk_list;     (* a failure is only printed *)
          wake_up;;
          mret 0
      | Some GOT_CHUNKS =>
          bind_remote_memory_chunks;;
          set_state RECEIVED_CHUNKS;;
          wake_up;;
          mret 0
      | Some GOT_SINGLE_CHUNK =>
          bind_remote_memory_chunks;;
          mret 0
      | Some EVICT => set_state RECV_EVICT;; mret 0
      | Some STOP => set_state RECV_STOP;; mret 0
      | _ => mret (-1)
      end.

Definition post_recv_wr : M Z :=
  _ ← (q ← sess qp; deref q);
  sge ← sess recv_sgl;
  call_int (K_ib_post_recv sge).

(** The session pointer of the callers is never NULL. *)
Definition octupos_requset_for_chunk (num_chunk : Z) : M Z :=
  if num_chunk =? 0 then mret 0
  else
    ret ← post_recv_wr;
    if negb (ret =? 0) then mret ret
    else
      count_op;;
      send_message_to_remote
        (if num_chunk =? 1 then message_type_code REQUEST_SINGLE_CHUNK
         else message_type_code REQUEST_CHUNKS) (i32 (num_chunk * CHUNK_SIZE_GB)).

(** ** Queues and buffers *)

Definition octopus_create_qp : M Z :=
  s ← sess id;
  ret ← call_int (K_rdma_create_qp (txdepth s) (txdepth s));
  (if ret =? 0 then set_sess (λ s, s <| qp := k_qp |>) else mret tt);;
  mret ret.

Definition octopus_create_rdma_queues : M Z :=
  _ ← (id ← sess cm_id; deref id);          (* cm_id->device *)
  p ← call_ptr K_ib_alloc_pd;
  set_sess (λ s, s <| pd := p |>);;
  if IS_ERR p then mret (PTR_ERR p)
  else
    depth ← sess txdepth;
    c ← call_ptr (K_ib_create_cq (i32 (depth * 2)));
    set_sess (λ s, s <| cq := c |>);;
    if IS_ERR c then mret (PTR_ERR c)
    else octopus_create_qp.

(** The [lkey] of a message segment. *)
Definition message_lkey (set : Z → M unit) : M unit :=
  _ ← (q ← sess qp; deref q);
  if negb (k_local_dma_lkey =? 0) then set k_local_dma_lkey
  else
    m ← sess mem;
    if bool_decide (m = Some DMA)
    then _ ← (p ← sess dma_mr; deref p); set k_mr_lkey
    else mret tt.

Definition octopus_setup_message_wr : M unit :=
  set_sess (λ s, s <| recv_sgl ::= λ g, g <| sge_addr := recv_dma_addr s |>
                                          <| sge_length := sizeof_message |> |>);;
  message_lkey (λ k, set_sess (λ s, s <| recv_sgl ::= λ g, g <| sge_lkey := k |> |>));;
  set_sess (λ s, s <| rq_wr_num_sge := 1 |>);;
  set_sess (λ s, s <| send_sgl ::= λ g, g <| sge_addr := send_dma_addr s |>
                                          <| sge_length := sizeof_message |> |>);;
  message_lkey (λ k, set_sess (λ s, s <| send_sgl ::= λ g, g <| sge_lkey := k |> |>));;
  set_sess (λ s, s <| sq_wr_opcode := IB_WR_SEND |> <| sq_wr_num_sge := 1 |>).

Definition buf_addr {A} (p : cptr A) : Z := match p with Some (a, _) => a | None => 0 end.

Definition octopus_setup_buffers (uninit : Z) : M Z :=
  rb ← kzalloc sizeof_message zero_message;
  set_sess (λ s, s <| recv_buf := rb |>);;
  sb ← kzalloc sizeof_message zero_message;
  set_sess (λ s, s <| send_buf := sb |>);;
  set_sess (λ s, s <| mem := Some DMA |>);;
  _ ← (p ← sess pd; deref p);               (* pd->device *)
  a ← call_int (K_ib_dma_map_single (buf_addr rb) sizeof_message);
  set_sess (λ s, s <| recv_dma_addr := u64 a |>);;
  a ← call_int (K_ib_dma_map_single (buf_addr sb) sizeof_message);
  set_sess (λ s, s <| send_dma_addr := u64 a |>);;
  mr ← call_ptr K_get_dma_mr;
  set_sess (λ s, s <| dma_mr := mr |>);;
  if IS_ERR mr then mret (PTR_ERR mr)       (* the error path deregisters nothing *)
  else
    octopus_setup_message_wr;;
    mret uninit.

(** ** Freeing *)

Definition octopus_free_queue (i : Z) : M bool :=
  q ← get_queue i;
  (match rmem_rdma_cmd_list q with
   | None => mret tt
   | Some l =>
       for_loop (Z.to_nat (rdma_queue_depth q)) 0 (λ j,
         c ← in_bounds (arr_get l.2 j);
         (if bool_decide (rdma_buf c ≠ KNull) then call (K_kfree (kptr_addr (rdma_buf c)))
          else mret tt);;
         mret true);;
       call (K_kfree l.1)
   end);;
  mret true.

Definition octopus_free_buffers : M unit :=
  cores ← gets w_online_cores;
  s ← sess id;
  (match recv_buf s with Some p => call (K_kfree p.1) | None => mret tt end);;
  (match send_buf s with Some p => call (K_kfree p.1) | None => mret tt end);;
  (match rmem_rdma_queue_list s with
   | Some p => for_loop (Z.to_nat (u32 cores)) 0 octopus_free_queue;; call (K_kfree p.1)
   | None => mret tt
   end);;
  match remote_chunk (remote_chunk_list s) with
  | Some p => call (K_kfree p.1)
  | None => mret tt
  end.

Definition octopus_free_rdma_structure : M unit :=
  s ← sess id;
  (if bool_decide (cm_id s ≠ KNull) then call (K_rdma_destroy_id (cm_id s)) else mret tt);;
  (if bool_decide (qp s ≠ KNull) then call (K_ib_destroy_qp (qp s)) else mret tt);;
  (if bool_decide (cq s ≠ KNull) then call (K_ib_destroy_cq (cq s)) else mret tt);;
  (if bool_decide (pd s ≠ KNull) then call (K_ib_dealloc_pd (pd s)) else mret tt).

Definition octopus_disconenct_and_collect_resource : P Z :=
  n ← lift (sess freed);
  if negb (n =? 0) then mret 0
  else
    yield;;                                   (* the test is not locked *)
    lift (set_sess (λ s, s <| freed ::= λ n, u8 (n + 1) |>));;
    s ← lift (sess id);
    ret ← (if negb (state_is (state s) CM_DISCONNECT) then
             ret ← lift (call_int (K_rdma_disconnect (cm_id s)));
             wait_event (λ st, state_is st CM_DISCONNECT);;
             mret ret
           else mret 0);
    lift octopus_free_buffers;;
    lift octopus_free_rdma_structure;;
    mret ret.

(** ** Event handlers *)

Definition octopus_rdma_cm_event_handler (uninit : Z) (event : rdma_cm_event) : P Z :=
  _ ← lift (rdma_cm_message_print (cm_event_code event));
  match event with
  | RDMA_CM_EVENT_ADDR_RESOLVED =>
      lift (set_state ADDR_RESOLVED);;
      lift (call_int (K_rdma_resolve_route 2000))
  | RDMA_CM_EVENT_ROUTE_RESOLVED =>
      lift (set_state ROUTE_RESOLVED);; lift wake_up;; mret uninit
  | RDMA_CM_EVENT_CONNECT_REQUEST => mret uninit
  | RDMA_CM_EVENT_ESTABLISHED =>
      lift (set_state CONNECTED);; lift wake_up;; mret uninit
  | RDMA_CM_EVENT_ADDR_ERROR | RDMA_CM_EVENT_ROUTE_ERROR | RDMA_CM_EVENT_CONNECT_ERROR
  | RDMA_CM_EVENT_UNREACHABLE | RDMA_CM_EVENT_REJECTED =>
      _ ← lift (rdma_cm_message_print (cm_event_code event));
      lift (set_state ERROR);; lift wake_up;; mret uninit
  | RDMA_CM_EVENT_DISCONNECTED =>
      n ← lift (sess freed);
      (if negb (n =? 0) then mret tt
       else
         yield;;
         s ← lift (sess id);
         _ ← lift (call_int (K_rdma_disconnect (cm_id s)));
         _ ← octopus_disconenct_and_collect_resource;
         ctrl ← lift (sess s_rmem_dev_ctrl);
         _ ← lift (octopus_free_block_devicce ctrl);
         mret tt);;
      mret uninit
  | RDMA_CM_EVENT_TIMEWAIT_EXIT =>
      lift (set_state CM_DISCONNECT);; lift wake_up;; mret uninit
  | RDMA_CM_EVENT_DEVICE_REMOVAL => mret (-1)
  | RDMA_CM_EVENT_CONNECT_RESPONSE | RDMA_CM_EVENT_MULTICAST_JOIN
  | RDMA_CM_EVENT_MULTICAST_ERROR | RDMA_CM_EVENT_ADDR_CHANGE => lift wake_up;; mret uninit
  end.

(** One completion of the polling loop; [false] is [goto err]. *)
Definition handle_wc (wc : ib_wc) : M bool :=
  (match wc_data wc with
   | Some m => set_sess (λ s, s <| recv_buf ::= fmap (λ p, (p.1, m)) |>)
   | None => mret tt
   end);;
  if negb (wc_status wc =? 0) then _ ← rdma_wc_status_name (wc_status wc); mret false
  else
    match wc_opcode wc with
    | IB_WC_RECV => ret ← handle_recv_wr wc; mret (ret =? 0)
    | IB_WC_SEND => mret true
    | IB_WC_RDMA_READ => ret ← rdma_read_done (wc_wr_id wc); mret (ret =? 0)
    | IB_WC_RDMA_WRITE => ret ← rdma_write_done (wc_wr_id wc); mret (ret =? 0)
    | IB_WC_OTHER => mret false
    end.

(** The polling loop on the completions in the queue. *)
Fixpoint poll_cq (wcs : list ib_wc) : M bool :=
  match wcs with
  | [] => mret true
  | wc :: wcs => ok ← handle_wc wc; if ok : bool then poll_cq wcs else mret false
  end.

Definition octopus_cq_event_handler (ev_cq : kptr) (wcs : list ib_wc) : P unit :=
  s ← lift (sess id);
  if bool_decide (cq s ≠ ev_cq) then lift (oops BugOn)
  else if state_is (state s) ERROR then mret tt
  else
    lift (modify (λ w, w <| w_cq_get_count ::= λ n, u64 (n + 1) |>));;
    ret ← lift (call_int (K_ib_req_notify_cq (cq s)));
    ok ← (if negb (ret =? 0) then mret false
          else
            lift (modify (λ w, w <| w_cq_notify_count ::= λ n, u64 (n + 1) |>));;
            lift (poll_cq wcs));
    if ok : bool then mret tt
    else
      lift (set_state ERROR);;
      _ ← octopus_disconenct_and_collect_resource;
      mret tt.

End Ops.

(** ** Lemmas *)

Definition name_call : kcall := K_kzalloc 32.

Lemma lift_bind_Ret {A B} (m : M A) (k : A → P B) w a w' :
  m w = Ret a w' → (lift m ≫= k) w = k a w'.
Proof. intros Hm. unfold mbind, P_bind, lift. by rewrite Hm. Qed.

Lemma P_bind_unfold {A B} (p : P A) (k : A → P B) w : (p ≫= k) w = susp_bind (p w) k.
Proof. reflexivity. Qed.

(** Undisturbed, the computation goes on after a [yield] in the same world. *)
Lemma calm_yield {A} (k : unit → P A) w : calm ((yield ≫= k) w) = calm (k tt w).
Proof. reflexivity. Qed.

(** [pstep] runs the first non-blocking step of a suspending computation. *)
Ltac pstep :=
  match goal with
  | |- context C [@mbind P P_bind ?A ?B ?k (@lift _ ?m) ?w] =>
      let r := eval hnf in (m w) in
      lazymatch r with
      | Ret ?a ?w1 => let g := context C [k a w1] in change g; cbv beta zeta
      end
  end.

(** *** What freeing gives back *)

Definition cmd_frees (c : rmem_rdma_command) : list kcall :=
  if bool_decide (rdma_buf c ≠ KNull) then [K_kfree (kptr_addr (rdma_buf c))] else [].

Definition queue_frees (q : rmem_rdma_queue) : list kcall :=
  match rmem_rdma_cmd_list q with
  | Some (b, cl) => concat (cmd_frees <$> cl) ++ [K_kfree b]
  | None => []
  end.

Definition ptr_frees {A} (p : cptr A) : list kcall :=
  match p with Some (a, _) => [K_kfree a] | None => [] end.

(** The buffers a session owns, as the calls that free them, in order. *)
Definition buffer_frees (s : rdma_session_context) : list kcall :=
  ptr_frees (recv_buf s) ++ ptr_frees (send_buf s) ++
  (match rmem_rdma_queue_list s with
   | Some (a, ql) => concat (queue_frees <$> ql) ++ [K_kfree a]
   | None => []
   end) ++
  ptr_frees (remote_chunk (remote_chunk_list s)).

Definition structure_frees (s : rdma_session_context) : list kcall :=
  (if bool_decide (cm_id s ≠ KNull) then [K_rdma_destroy_id (cm_id s)] else []) ++
  (if bool_decide (qp s ≠ KNull) then [K_ib_destroy_qp (qp s)] else []) ++
  (if bool_decide (cq s ≠ KNull) then [K_ib_destroy_cq (cq s)] else []) ++
  (if bool_decide (pd s ≠ KNull) then [K_ib_dealloc_pd (pd s)] else []).

Definition add_calls (cs : list kcall) (w : world) : world := w <| w_trace ::= (.++ cs) |>.

Lemma add_calls_nil w : add_calls [] w = w.
Proof. destruct w. unfold add_calls, setter. cbn. by rewrite app_nil_r. Qed.

Lemma add_calls_app cs cs' w : add_calls cs' (add_calls cs w) = add_calls (cs ++ cs') w.
Proof. unfold add_calls, setter. cbn. by rewrite <- app_assoc. Qed.

(** Every queue of the list is as long as its depth says. *)
Definition lists_match (s : rdma_session_context) : Prop :=
  match rmem_rdma_queue_list s with
  | Some (_, ql) => Forall (λ q, ∀ b cl, rmem_rdma_cmd_list q = Some (b, cl) →
                      Z.of_nat (length cl) = rdma_queue_depth q) ql
  | None => True
  end.

Lemma free_if (b : bool) c w :
  (if b then call c else mret tt) w = Ret tt (add_calls (if b then [c] else []) w).
Proof. destruct b; [done|]. by rewrite add_calls_nil. Qed.

(** A loop over a list whose every pass adds the calls of the element. *)
Lemma for_loop_calls {A} (l : list A) (f : A → list kcall) (body : Z → M bool) w0 : ∀ n i,
  (∀ j x cs, l !! j = Some x → body (Z.of_nat j) (add_calls cs w0) = Ret true (add_calls (cs ++ f x) w0)) →
  length l = (i + n)%nat →
  ∀ cs, for_loop n (Z.of_nat i) body (add_calls cs w0) =
        Ret tt (add_calls (cs ++ concat (f <$> drop i l)) w0).
Proof.
  induction n as [|n IH]; intros i Hb Hl cs.
  { rewrite drop_ge by lia. cbn. by rewrite app_nil_r. }
  destruct (lookup_lt_is_Some_2 l i) as [x Hx]; [lia|].
  erewrite for_loop_go by (by eapply Hb).
  replace (Z.of_nat i + 1) with (Z.of_nat (S i)) by lia. rewrite IH; [|done|lia].
  rewrite (drop_S _ _ _ Hx). cbn. by rewrite app_assoc.
Qed.

Lemma free_queue_run `{K : kernel} w i a ql q cs :
  queues w = Some (a, ql) → ql !! i = Some q →
  (∀ b cl, rmem_rdma_cmd_list q = Some (b, cl) → Z.of_nat (length cl) = rdma_queue_depth q) →
  octopus_free_queue (Z.of_nat i) (add_calls cs w) = Ret true (add_calls (cs ++ queue_frees q) w).
Proof.
  intros Hp Hq Hd. unfold octopus_free_queue, queue_frees.
  erewrite M_bind_step by (apply (get_queue_run (add_calls cs w) _ _ a ql Hp); by rewrite arr_get_lookup).
  destruct (rmem_rdma_cmd_list q) as [[b cl]|]; [|by rewrite app_nil_r].
  specialize (Hd _ _ eq_refl). rewrite <- Hd, Nat2Z.id. cbn [fst snd].
  erewrite (M_bind_step (mbind _ _)); [reflexivity|].
  erewrite M_bind_step.
  2:{ apply (for_loop_calls cl cmd_frees _ w (length cl) 0); [|done].
      intros j c cs' Hc. rewrite arr_get_lookup, Hc. mstep.
      erewrite M_bind_step by apply free_if. rewrite add_calls_app. unfold cmd_frees. done. }
  rewrite drop_0, app_assoc.
  change (call ?c ?v) with (Ret tt (add_calls [c] v)). by rewrite add_calls_app.
Qed.

Lemma free_ptr {A} (p : cptr A) w :
  (match p with Some p => call (K_kfree p.1) | None => mret tt end) w =
  Ret tt (add_calls (ptr_frees p) w).
Proof. destruct p as [[a x]|]; [done|]. by rewrite add_calls_nil. Qed.

Lemma free_buffers_run `{K : kernel} w :
  lists_match (w_sess w) →
  (∀ a ql, queues w = Some (a, ql) → Z.of_nat (length ql) = u32 (w_online_cores w)) →
  octopus_free_buffers w = Ret tt (add_calls (buffer_frees (w_sess w)) w).
Proof.
  intros Hm Hn. unfold octopus_free_buffers, buffer_frees. do 2 mstep. cbn [id].
  erewrite M_bind_step by apply free_ptr. erewrite M_bind_step by apply free_ptr.
  rewrite add_calls_app.
  set (cs := ptr_frees (recv_buf _) ++ ptr_frees (send_buf _)). rewrite app_assoc. fold cs.
  unfold lists_match in Hm. fold (queues w) in *. destruct (queues w) as [[a ql]|] eqn:Eq.
  - rewrite <- (Hn _ _ eq_refl), Nat2Z.id. cbn [fst].
    rewrite M_bind_unfold, (M_bind_unfold (for_loop _ _ _)).
    change 0 with (Z.of_nat 0) at 1.
    rewrite (for_loop_calls ql queue_frees octopus_free_queue w (length ql) 0); [|..|done].
    2:{ intros j q cs' Hq. eapply free_queue_run; [exact Eq|done|].
        by eapply (Forall_lookup_1 _ ql j q Hm). }
    change (call (K_kfree a) ?v) with (Ret tt (add_calls [K_kfree a] v)). cbv iota beta.
    rewrite drop_0, free_ptr, !add_calls_app. by rewrite !app_assoc.
  - mstep. rewrite free_ptr, add_calls_app. done.
Qed.

Lemma free_structure_run w :
  octopus_free_rdma_structure w = Ret tt (add_calls (structure_frees (w_sess w)) w).
Proof.
  unfold octopus_free_rdma_structure, structure_frees. mstep. cbn [id].
  rewrite M_bind_unfold, free_if, M_bind_unfold, free_if, M_bind_unfold, free_if, free_if.
  by rewrite !add_calls_app, !app_assoc.
Qed.

(** ** Theorems *)

(** The type of a received message, when it names an enumerator. *)
Definition rtype (m : message) : option message_type := message_type_of_code (msg_type m).

Lemma rtype_code m t : rtype m = Some t → msg_type m = message_type_code t.
Proof.
  unfold rtype, message_type_of_code. intros H. destruct (msg_type m) as [|p|p]; [done| |done].
  do 4 (try destruct p as [p|p|]; try done); by injection H as <-.
Qed.

Lemma handle_recv_start `{K : kernel} w wc am m an :
  wc_byte_len wc = sizeof_message → state_lt (state (w_sess w)) CONNECTED = false →
  recv_buf (w_sess w) = Some (am, m) → k_ptr (w_trace w) name_call = KPtr an →
  handle_recv_wr wc w =
  match rtype m with
  | Some FREE_SIZE =>
      (set_chunk_list (λ cl, cl <| remote_free_size_gb := u32 (msg_size_gb m) |>);;
       set_state FREE_MEM_RECV;; _ ← init_remote_chunk_list; wake_up;; mret 0) (add_trace name_call w)
  | Some GOT_CHUNKS =>
      (bind_remote_memory_chunks;; set_state RECEIVED_CHUNKS;; wake_up;; mret 0) (add_trace name_call w)
  | Some GOT_SINGLE_CHUNK => (bind_remote_memory_chunks;; mret 0) (add_trace name_call w)
  | Some EVICT => (set_state RECV_EVICT;; mret 0) (add_trace name_call w)
  | Some STOP => (set_state RECV_STOP;; mret 0) (add_trace name_call w)
  | _ => Ret (-1) (add_trace name_call w)
  end.
Proof.
  intros Hl Hs Hm Ha. unfold handle_recv_wr. rewrite Hl, Z.eqb_refl. cbn [negb].
  mstep. rewrite Hs. mstep. rewrite Hm. mstep. cbn [snd]. unfold rdma_message_print.
  destruct (name_buffer_run (message_text (msg_type m)) w an) as (b & Hb & _);
    [apply message_text_ok|done|]. rewrite (M_bind_step _ _ _ _ _ Hb). unfold rtype. by destruct (message_type_of_code (msg_type m)) as [[]|].
Qed.

(** The two messages of a handshake, with the state they lead to. *)
Definition woken (st : rdma_session_context_state) (cl : remote_mapping_chunk_list) (cs : list kcall)
    (w : world) : world :=
  w <| w_trace ::= (.++ cs) |> <| w_sess ::= λ s, s <| state := st |> <| remote_chunk_list := cl |> |>.

Lemma recv_free_size_run `{K : kernel} w wc am m an a :
  wc_byte_len wc = sizeof_message → state_lt (state (w_sess w)) CONNECTED = false →
  recv_buf (w_sess w) = Some (am, m) → k_ptr (w_trace w) name_call = KPtr an →
  rtype m = Some FREE_SIZE →
  let n := u32 (msg_size_gb m) in
  k_ptr (w_trace w ++ [name_call]) (K_kzalloc (u64 (sizeof_chunk * n))) = KPtr a →
  handle_recv_wr wc w = Ret 0 (woken FREE_MEM_RECV
    (mkChunkList (Some (a, replicate (Z.to_nat n) zero_chunk)) n n 0)
    [name_call; K_kzalloc (u64 (sizeof_chunk * n)); K_wake_up] w).
Proof.
  intros Hl Hs Hm Ha Ht n Hk. subst n. rewrite (handle_recv_start w wc am m an Hl Hs Hm Ha), Ht.
  do 2 mstep. rewrite M_bind_unfold, init_run.
  match goal with |- context [init_call ?v] => set (w0 := v) end.
  assert (init_size w0 = u32 (msg_size_gb m)) as Hn.
  { unfold init_size. change (remote_free_size_gb _) with (u32 (msg_size_gb m)).
    unfold CHUNK_SIZE_GB. by rewrite Z.div_1_r, u32_u32. }
  unfold init_world, init_call. rewrite Hn. change (w_trace w0) with (w_trace w ++ [name_call]).
  rewrite Hk. subst w0. cbn -[u64 u32 replicate setter mbind]. mstep. cbv [mret M_ret]. f_equal.
  unfold woken, with_chunks, setter. cbn -[u64 u32 replicate]. by rewrite <- !app_assoc.
Qed.

Lemma recv_chunks_run `{K : kernel} w wc am m an :
  wc_byte_len wc = sizeof_message → state_lt (state (w_sess w)) CONNECTED = false →
  recv_buf (w_sess w) = Some (am, m) → k_ptr (w_trace w) name_call = KPtr an →
  rtype m = Some GOT_CHUNKS → wf_message m → wf_chunks (remote_chunk_list (w_sess w)) →
  handle_recv_wr wc w = Ret 0 (woken RECEIVED_CHUNKS
    (append_chunks (received m) (remote_chunk_list (w_sess w))) [name_call; K_wake_up] w).
Proof.
  intros Hl Hs Hm Ha Ht Hwm Hwf. rewrite (handle_recv_start w wc am m an Hl Hs Hm Ha), Ht.
  pose proof Hwf as (_ & _ & a & l & Hr & _).
  rewrite M_bind_unfold, (bind_chunks_run _ a am m l) by done.
  do 2 mstep. cbv [mret M_ret]. f_equal.
  unfold woken, with_chunks, setter. cbn -[received append_chunks]. by rewrite <- app_assoc.
Qed.

(** C34. Receiving a two-sided message, on every branch: a completion of the
    wrong length or before the connection is refused with -1 and has no
    effect; FREE_SIZE creates the empty chunk table of the announced size,
    moves the session to FREE_MEM_RECV and wakes the connecting thread;
    GOT_CHUNKS appends the received chunks, moves to RECEIVED_CHUNKS and
    wakes; GOT_SINGLE_CHUNK appends them but neither changes the state nor
    wakes anybody; STOP and EVICT only record the state; every other type is
    refused with -1. *)
Theorem handle_recv_wr_spec `{K : kernel} w wc am m an :
  recv_buf (w_sess w) = Some (am, m) → k_ptr (w_trace w) name_call = KPtr an →
  let cl := remote_chunk_list (w_sess w) in
  (wc_byte_len wc ≠ sizeof_message → handle_recv_wr wc w = Ret (-1) w) ∧
  (wc_byte_len wc = sizeof_message →
   (state_lt (state (w_sess w)) CONNECTED = true → handle_recv_wr wc w = Ret (-1) w) ∧
   (state_lt (state (w_sess w)) CONNECTED = false →
    (rtype m = Some FREE_SIZE →
       ∀ n a, n = u32 (msg_size_gb m) →
       k_ptr (w_trace w ++ [name_call]) (K_kzalloc (u64 (sizeof_chunk * n))) = KPtr a →
       ∃ w', handle_recv_wr wc w = Ret 0 w' ∧ state (w_sess w') = FREE_MEM_RECV ∧
         remote_chunk_list (w_sess w') =
           mkChunkList (Some (a, replicate (Z.to_nat n) zero_chunk)) n n 0 ∧
         w_trace w' = w_trace w ++ [name_call; K_kzalloc (u64 (sizeof_chunk * n)); K_wake_up]) ∧
    (rtype m = Some GOT_CHUNKS → wf_message m → wf_chunks cl →
       ∃ w', handle_recv_wr wc w = Ret 0 w' ∧ state (w_sess w') = RECEIVED_CHUNKS ∧
         remote_chunk_list (w_sess w') = append_chunks (received m) cl ∧
         w_trace w' = w_trace w ++ [name_call; K_wake_up]) ∧
    (rtype m = Some GOT_SINGLE_CHUNK → wf_message m → wf_chunks cl →
       handle_recv_wr wc w =
         Ret 0 (with_chunks (add_trace name_call w) (append_chunks (received m) cl))) ∧
    (rtype m = Some STOP → ∃ w', handle_recv_wr wc w = Ret 0 w' ∧ state (w_sess w') = RECV_STOP) ∧
    (rtype m = Some EVICT → ∃ w', handle_recv_wr wc w = Ret 0 w' ∧ state (w_sess w') = RECV_EVICT) ∧
    (rtype m = None ∨ rtype m ∈ Some <$> [DONE; ACTIVITY; REQUEST_CHUNKS; REQUEST_SINGLE_CHUNK; QUERY] →
       handle_recv_wr wc w = Ret (-1) (add_trace name_call w)))).
Proof.
  intros Hm Ha cl. split.
  { intros Hl. unfold handle_recv_wr. by rewrite (proj2 (Z.eqb_neq _ _) Hl). }
  intros Hl. split.
  { intros Hs. unfold handle_recv_wr. rewrite Hl, Z.eqb_refl. cbn [negb]. mstep. by rewrite Hs. }
  intros Hs. split.
  { intros Ht n a -> Hk. eexists. split; [by eapply recv_free_size_run|]. done. }
  split.
  { intros Ht Hwm Hwf. eexists. split; [by eapply recv_chunks_run|]. done. }
  rewrite (handle_recv_start w wc am m an Hl Hs Hm Ha). split_and!; intros Ht; rewrite ?Ht.
  - intros Hwm Hwf. pose proof Hwf as (_ & _ & a & l & Hr & _).
    by rewrite M_bind_unfold, (bind_chunks_run _ a am m l) by done.
  - by eexists.
  - by eexists.
  - destruct Ht as [->|Ht]; [done|]. apply list_elem_of_fmap in Ht as (t & -> & Ht).
    rewrite !elem_of_cons in Ht.
    by destruct Ht as [->|[->|[->|[->|[->|Ht]]]]]; [..|apply not_elem_of_nil in Ht].
Qed.

(** The state a connection-manager event leads to, when it sets one. *)
Definition cm_next (e : rdma_cm_event) : option rdma_session_context_state :=
  match e with
  | RDMA_CM_EVENT_ADDR_RESOLVED => Some ADDR_RESOLVED
  | RDMA_CM_EVENT_ROUTE_RESOLVED => Some ROUTE_RESOLVED
  | RDMA_CM_EVENT_ESTABLISHED => Some CONNECTED
  | RDMA_CM_EVENT_ADDR_ERROR | RDMA_CM_EVENT_ROUTE_ERROR | RDMA_CM_EVENT_CONNECT_ERROR
  | RDMA_CM_EVENT_UNREACHABLE | RDMA_CM_EVENT_REJECTED => Some ERROR
  | RDMA_CM_EVENT_TIMEWAIT_EXIT => Some CM_DISCONNECT
  | _ => None
  end.

(** The events after which the waiting thread is woken. *)
Definition cm_wakes (e : rdma_cm_event) : bool :=
  match e with
  | RDMA_CM_EVENT_ADDR_RESOLVED | RDMA_CM_EVENT_CONNECT_REQUEST
  | RDMA_CM_EVENT_DEVICE_REMOVAL => false
  | _ => true
  end.

(** The connection-manager handler as a state machine: on every event but
    DISCONNECTED it ends at once, with the session in the state the event
    calls for and otherwise unchanged, and the waiting thread is woken on
    every such event except the resolution of the address (which goes on with
    the route), a connect request and the removal of the device; its return
    value is the route resolution's, -1 on device removal, and else a local
    that was never assigned. *)
Theorem cm_event_handler_spec `{K : kernel} w e uninit :
  (∀ tr, ∃ a, k_ptr tr name_call = KPtr a) → e ≠ RDMA_CM_EVENT_DISCONNECTED →
  ∃ r w', octopus_rdma_cm_event_handler uninit e w = Finished r w' ∧
    w_sess w' = (w_sess w) <| state := default (state (w_sess w)) (cm_next e) |> ∧
    w_dev w' = w_dev w ∧
    (last (w_trace w') = Some K_wake_up ↔ cm_wakes e = true) ∧
    (e = RDMA_CM_EVENT_ADDR_RESOLVED → ∃ tr, r = k_int tr (K_rdma_resolve_route 2000)) ∧
    (e = RDMA_CM_EVENT_DEVICE_REMOVAL → r = -1) ∧
    (e ≠ RDMA_CM_EVENT_ADDR_RESOLVED → e ≠ RDMA_CM_EVENT_DEVICE_REMOVAL → r = uninit).
Proof.
  intros Hk He. unfold octopus_rdma_cm_event_handler.
  assert (∀ v, ∃ b, rdma_cm_message_print (cm_event_code e) v = Ret b (add_trace name_call v)) as Hn.
  { intros v. destruct (Hk (w_trace v)) as [a Ha].
    destruct (name_buffer_run (cm_message_name (cm_event_code e)) v a) as (b & Hb & _);
      [apply cm_message_ok|done|by eexists]. }
  destruct (Hn w) as [b Hb]. rewrite (lift_bind_Ret _ _ _ _ _ Hb).
  destruct (Hn (add_trace name_call w)) as [b' Hb'].
  destruct e; try done; cbv beta iota; cbn in Hb'; rewrite ?(lift_bind_Ret _ _ _ _ _ Hb');
    (eexists _, _; split; [reflexivity|]; split; [by destruct w as [[]]|];
     split; [done|]; split; [cbn; rewrite ?last_snoc; try done|]; split; [by eauto|by split]).
Qed.

(** The session's lists have the lengths the freeing loops run over. *)
Definition tidy (w : world) : Prop :=
  lists_match (w_sess w) ∧
  ∀ a ql, queues w = Some (a, ql) → Z.of_nat (length ql) = u32 (w_online_cores w).

Lemma collect_tail `{K : kernel} (ret : Z) w :
  tidy w →
  (lift octopus_free_buffers;; lift octopus_free_rdma_structure;; mret ret) w =
  Finished ret (add_calls (buffer_frees (w_sess w) ++ structure_frees (w_sess w)) w).
Proof.
  intros [Hm Hn]. rewrite (lift_bind_Ret _ _ _ _ _ (free_buffers_run w Hm Hn)).
  rewrite (lift_bind_Ret _ _ _ _ _ (free_structure_run _)). by rewrite add_calls_app.
Qed.

(** Collecting the session's resources, where no other context runs between
    the test of [freed] and its increment: a second call does nothing; the
    first one marks the session as freed before it can wait, asks for the
    disconnection unless that is over, waits for it, and then frees exactly
    the session's buffers (message buffers, every command's buffer, every
    command list, the queue list, the chunk table) and RDMA structures
    (connection, queue pair, completion queue, protection domain), each once
    and in this order. *)
Theorem collect_resource_spec `{K : kernel} w :
  (freed (w_sess w) ≠ 0 → octopus_disconenct_and_collect_resource w = Finished 0 w) ∧
  (freed (w_sess w) = 0 → state (w_sess w) = CM_DISCONNECT → tidy w →
     ∃ w', calm (octopus_disconenct_and_collect_resource w) = Finished 0 w' ∧ freed (w_sess w') = 1 ∧
       w_trace w' = w_trace w ++ buffer_frees (w_sess w) ++ structure_frees (w_sess w)) ∧
  (freed (w_sess w) = 0 → state (w_sess w) ≠ CM_DISCONNECT →
     ∃ cond w1 k, calm (octopus_disconenct_and_collect_resource w) = Waiting cond w1 k ∧
       (∀ st, cond st = true ↔ st = CM_DISCONNECT) ∧ freed (w_sess w1) = 1 ∧
       w_trace w1 = w_trace w ++ [K_rdma_disconnect (cm_id (w_sess w))] ∧
       ∀ v, tidy v → ∃ v', k v = Finished (k_int (w_trace w) (K_rdma_disconnect (cm_id (w_sess w)))) v' ∧
         w_sess v' = w_sess v ∧
         w_trace v' = w_trace v ++ buffer_frees (w_sess v) ++ structure_frees (w_sess v)).
Proof.
  split_and!; intros Hf.
  - unfold octopus_disconenct_and_collect_resource. pstep. cbn [id].
    by destruct (Z.eqb_spec (freed (w_sess w)) 0).
  - intros Hs Hn. unfold octopus_disconenct_and_collect_resource. pstep. cbn [id].
    rewrite Hf. cbn [Z.eqb negb]. rewrite calm_yield. do 2 pstep. cbn [id].
    match goal with |- context [state ?x] => change (state x) with (state (w_sess w)) end.
    rewrite Hs. change (negb (state_is CM_DISCONNECT CM_DISCONNECT)) with false. cbv iota.
    eexists. split; [|split].
    + rewrite P_bind_unfold. cbn [susp_bind mret P_ret].
      rewrite (collect_tail 0 (w <| w_sess ::= λ s, s <| freed ::= λ n, u8 (n + 1) |> |>)) by exact Hn. reflexivity.
    + cbn. by rewrite Hf.
    + reflexivity.
  - intros Hs. unfold octopus_disconenct_and_collect_resource. pstep. cbn [id].
    rewrite Hf. cbn [Z.eqb negb]. rewrite calm_yield. do 2 pstep. cbn [id].
    assert (state_is (state (w_sess w)) CM_DISCONNECT = false) as Hi by by apply bool_decide_false.
    match goal with |- context [state ?x] => change (state x) with (state (w_sess w)) end.
    rewrite Hi. cbn [negb]. eexists _, _, _. split; [|split_and!].
    + rewrite P_bind_unfold. pstep. rewrite P_bind_unfold. unfold wait_event at 1.
      change (state (w_sess (setter _ _))) with (state (w_sess w)). rewrite Hi. cbn [susp_bind calm].
      change (state (w_sess (setter _ _))) with (state (w_sess w)). rewrite Hi. reflexivity.
    + intros st. apply bool_decide_eq_true.
    + cbn. by rewrite Hf.
    + reflexivity.
    + intros v Hv. eexists. split; [by apply collect_tail|]. split; reflexivity.
Qed.

(** A failed completion shuts the session down: the handler, undisturbed, re-arms the
    completion queue, sets the ERROR state, starts collecting resources and
    waits for the disconnection; the completions behind the failed one are
    not handled, and the command of the failed one stays taken with its
    request not ended (no command queue changes).  In the ERROR state the
    handler ignores every further completion. *)
Theorem failed_completion_spec `{K : kernel} w wc wcs an :
  let s := w_sess w in
  (state s = ERROR → octopus_cq_event_handler (cq s) (wc :: wcs) w = Finished tt w) ∧
  (state s ≠ ERROR → wc_status wc ≠ 0 → wc_data wc = None →
   k_int (w_trace w) (K_ib_req_notify_cq (cq s)) = 0 →
   k_ptr (w_trace w ++ [K_ib_req_notify_cq (cq s)]) name_call = KPtr an → freed s = 0 →
   ∃ cond w1 k, calm (octopus_cq_event_handler (cq s) (wc :: wcs) w) = Waiting cond w1 k ∧
     state (w_sess w1) = ERROR ∧ freed (w_sess w1) = 1 ∧ queues w1 = queues w ∧
     w_trace w1 = w_trace w ++ [K_ib_req_notify_cq (cq s); name_call; K_rdma_disconnect (cm_id s)]) ∧
  (∀ c, c ≠ cq s → octopus_cq_event_handler c (wc :: wcs) w = Crashed BugOn).
Proof.
  intros s. subst s. unfold octopus_cq_event_handler. split_and!.
  - intros He. pstep. cbn [id]. rewrite bool_decide_false by tauto. by rewrite He.
  - intros He Hst Hd Hn Ha Hf. pstep. cbn [id]. rewrite bool_decide_false by tauto.
    assert (state_is (state (w_sess w)) ERROR = false) as Hi by by apply bool_decide_false.
    rewrite Hi. do 2 pstep.
    change (k_int _ _) with (k_int (w_trace w) (K_ib_req_notify_cq (cq (w_sess w)))).
    rewrite Hn. cbn [Z.eqb negb].
    set (w2 := setter _ (setter _ w)).
    destruct (name_buffer_run (wc_status_text (wc_status wc)) (w2 <| w_cq_notify_count ::= λ n, u64 (n + 1) |>) an)
      as (b & Hb & _); [apply wc_status_ok|done|].
    assert (poll_cq (wc :: wcs) (w2 <| w_cq_notify_count ::= λ n, u64 (n + 1) |>) =
            Ret false (add_trace name_call (w2 <| w_cq_notify_count ::= λ n, u64 (n + 1) |>))) as Hp.
    { cbn [poll_cq]. unfold handle_wc. rewrite Hd. rewrite M_bind_unfold, M_bind_unfold.
      unfold mret at 1, M_ret at 1. cbv iota beta.
      rewrite (proj2 (Z.eqb_neq _ _) Hst). cbn [negb].
      rewrite M_bind_unfold. unfold rdma_wc_status_name. by rewrite Hb. }
    eexists _, _, _. split; [|split_and!].
    + rewrite P_bind_unfold. pstep. unfold lift at 1. rewrite Hp. cbn [susp_bind]. cbv beta iota.
      pstep. rewrite P_bind_unfold. unfold octopus_disconenct_and_collect_resource. pstep. cbn [id].
      match goal with |- context [negb (freed ?x =? 0)] => change (freed x) with (freed (w_sess w)) end.
      rewrite Hf. reflexivity.
    + reflexivity.
    + cbn. by rewrite Hf.
    + reflexivity.
    + unfold w2. cbn. by rewrite <- !app_assoc.
  - intros c Hc. pstep. cbn [id]. by rewrite bool_decide_true.
Qed.

(** ** Witnesses *)

(** The session of [demo_world] once connected. *)
Definition demo_session_world : world :=
  demo_world <| w_sess ::= λ s, s <| state := CONNECTED |> <| cq := KPtr 48 |> |>.

Definition recv_wc : ib_wc := mkWc 0 IB_WC_RECV sizeof_message None None.

Lemma handle_recv_wr_spec_witness :
  ∃ w', @handle_recv_wr kernel_ok recv_wc demo_session_world = Ret 0 w' ∧
    state (w_sess w') = RECEIVED_CHUNKS.
Proof.
  destruct (@handle_recv_wr_spec kernel_ok demo_session_world recv_wc 256 demo_message 4096
    eq_refl eq_refl) as [_ H].
  destruct (H eq_refl) as [_ H2]. destruct (H2 eq_refl) as (_ & H3 & _).
  destruct (H3 eq_refl demo_wf_message demo_wf_chunks) as (w' & H4 & H5 & _).
  exists w'. split; [exact H4|exact H5].
Defined.

Lemma cm_event_handler_spec_witness :
  ∃ r w', @octopus_rdma_cm_event_handler kernel_ok 0 RDMA_CM_EVENT_ESTABLISHED world0 = Finished r w' ∧
    state (w_sess w') = CONNECTED.
Proof.
  destruct (@cm_event_handler_spec kernel_ok world0 RDMA_CM_EVENT_ESTABLISHED 0) as (r & w' & Hr & Hs & _).
  - intros tr. eexists. reflexivity.
  - discriminate.
  - exists r, w'. split; [exact Hr|]. rewrite Hs. reflexivity.
Defined.

Lemma collect_resource_spec_witness :
  ∃ w', calm (@octopus_disconenct_and_collect_resource kernel_ok
          (demo_world <| w_sess ::= λ s, s <| state := CM_DISCONNECT |> |>)) = Finished 0 w' ∧
    w_trace w' = [K_kfree 256; K_kfree 512].
Proof.
  destruct (@collect_resource_spec kernel_ok
    (demo_world <| w_sess ::= λ s, s <| state := CM_DISCONNECT |> |>)) as (_ & H & _).
  destruct H as (w' & H1 & _ & H3).
  - reflexivity.
  - reflexivity.
  - split; [exact I|]. intros a ql Hq. discriminate Hq.
  - exists w'. split; [exact H1|]. rewrite H3. vm_compute. reflexivity.
Defined.

Definition flushed_wc : ib_wc := mkWc 5 IB_WC_RDMA_WRITE 0 (Some (0, 0)) None.

Lemma failed_completion_spec_witness :
  ∃ cond w1 k, calm (@octopus_cq_event_handler kernel_ok (KPtr 48) [flushed_wc] demo_session_world) =
    Waiting cond w1 k ∧ state (w_sess w1) = ERROR.
Proof.
  destruct (@failed_completion_spec kernel_ok demo_session_world flushed_wc [] 8192) as (_ & H & _).
  destruct H as (cond & w1 & k & H1 & H2 & _).
  - discriminate.
  - discriminate.
  - reflexivity.
  - reflexivity.
  - reflexivity.
  - reflexivity.
  - exists cond, w1, k. split; [exact H1|exact H2].
Defined.
