(* ===== verification/Connect.v ===== *)
(** * Connecting, and the driver as a concurrent system

    [octopus_RDMA_connect] with the functions it waits in
    ([rdma_resolve_ip_to_ib_device], [octopus_connect_remote_memory_server]),
    and the module's entry and exit points. *)

From S2P Require Import Prelude BitOps OctTypes Kernel Names ChunkList CmdQueue OneSided BlockIO BlockDev.
From S2P Require Import Session.

(** ** Operations *)

Definition EINTR : Z := 4.
Definition AF_INET : Z := 2.
(** [htons(9400)] and the four address bytes of "10.0.0.2" as a 32-bit word. *)
Definition server_port : Z := 47140.
Definition server_addr : Z := 0x0200000A.

Section Ops.
Context {K : kernel}.

Definition rdma_resolve_ip_to_ib_device : P Z :=
  s ← lift (sess id);
  ret ← lift (call_int (K_rdma_resolve_addr (addr s) (port s) 2000));
  if negb (ret =? 0) then mret ret
  else
    wait_event (λ st, state_ge st ROUTE_RESOLVED);;
    st ← lift (sess state);
    if negb (state_is st ROUTE_RESOLVED) then mret (- EINTR)
    else mret ret.

Definition octopus_connect_remote_memory_server : P Z :=
  ret ← lift (call_int (K_rdma_connect 1 1 10));
  if negb (ret =? 0) then mret ret
  else
    wait_event (λ st, state_ge st CONNECTED);;
    st ← lift (sess state);
    if state_is st ERROR then mret ret
    else mret ret.

(** Step 1) of [octopus_RDMA_connect]: the session's fields. *)
Definition connect_init : M unit :=
  id ← call_ptr K_rdma_create_id;
  set_sess (λ s, s <| cm_id := id |>);;
  set_sess (λ s, s <| state := IDLE |>);;
  set_sess (λ s, s <| txdepth := i32 (RDMA_READ_WRITE_QUEUE_DEPTH * k_num_online_cpus + 1) |>);;
  set_sess (λ s, s <| freed := 0 |>);;
  set_sess (λ s, s <| port := server_port |>);;
  ret ← call_int K_in4_pton;
  (if ret =? 0 then mret tt else set_sess (λ s, s <| addr := server_addr |>));;
  set_sess (λ s, s <| addr_type := AF_INET |>).

(** Steps 3) to 5a): queues, buffers, commands and the first receive; the
    results of the first two are printed and dropped. *)
Definition connect_setup (uninit : Z) : M Z :=
  _ ← octopus_create_rdma_queues;
  _ ← octopus_setup_buffers uninit;
  ret ← init_rdma_command_queue_list;
  if negb (ret =? 0) then mret ret
  else
    ret ← post_recv_wr;
    if negb (ret =? 0) then mret ret
    else count_op;; mret ret.

(** Step 6b): the first notification request. *)
Definition connect_notify : M Z :=
  c ← sess cq;
  _ ← deref c;
  ret ← call_int (K_ib_req_notify_cq c);
  if negb (ret =? 0) then mret ret
  else
    modify (λ w, w <| w_cq_notify_count ::= λ n, u64 (n + 1) |>);;
    mret ret.

(** Section 2: the block device. *)
Definition connect_disk : M Z :=
  set_sess (λ s, s <| s_rmem_dev_ctrl := true |>);;
  set_dev (λ d, d <| d_rdma_session := true |>);;
  rmem_init_disk_driver true.

Definition octopus_RDMA_connect (uninit : Z) : P Z :=
  lift connect_init;;
  ret ← rdma_resolve_ip_to_ib_device;
  if negb (ret =? 0) then mret ret
  else
  ret ← lift (connect_setup uninit);
  if negb (ret =? 0) then mret ret
  else
  ret ← octopus_connect_remote_memory_server;
  if negb (ret =? 0) then mret ret
  else
  ret ← lift connect_notify;
  if negb (ret =? 0) then mret ret
  else
  wait_event (λ st, state_is st FREE_MEM_RECV);;
  ret ← lift (octupos_requset_for_chunk (MAX_REMOTE_MEMORY_SIZE_GB / CHUNK_SIZE_GB));
  if negb (ret =? 0) then mret ret
  else
  wait_event (λ st, state_is st RECEIVED_CHUNKS);;
  lift connect_disk.

Definition octopus_rdma_client_init_module (uninit : Z) : P Z :=
  lift (modify (λ w, w <| w_online_cores := k_num_online_cpus |>));;
  octopus_RDMA_connect uninit.

Definition octopus_rdma_client_cleanup_module : P unit :=
  _ ← octopus_disconenct_and_collect_resource;
  _ ← lift (octopus_free_block_devicce true);
  mret tt.

End Ops.
