(* ===== verification/System.v ===== *)
(** * The driver as a concurrent system

    The thread that loads the module, connection-manager events, completion
    events, block requests and the unloading thread interleave at the points
    where the code waits, and between the unlocked tests of [freed] and what
    follows them ([sys_step]).  A waiting thread may go on without its
    condition: it waits interruptibly and ignores the result of the wait.

    The chunk table is well formed in every reachable system, by induction on
    the steps.  The connection's resources are given back at most once in the
    systems reached without another context between a test of [freed] and its
    increment ([calm_step]), however many paths try to; with one there they are
    given back twice ([race_schedule]). *)

From S2P Require Import Prelude BitOps OctTypes Kernel Names ChunkList CmdQueue OneSided BlockIO BlockDev.
From S2P Require Import Session Connect.

(** ** Steps *)

(** What can happen to the loaded module from outside. *)
Inductive event :=
| CmEvent (uninit : Z) (e : rdma_cm_event)
| CqEvent (cq : kptr) (wcs : list ib_wc)
| BlockRequest (driver_data : option Z) (rq : request)
| Unload.

(** The messages in the completions are those of the two ends: 32 entries. *)
Definition event_ok (ev : event) : Prop :=
  match ev with
  | CqEvent _ wcs => Forall (λ wc, ∀ m, wc_data wc = Some m → wf_message m) wcs
  | _ => True
  end.

Definition forget {A} (p : P A) : P unit := _ ← p; mret tt.

Definition handle_event `{K : kernel} (ev : event) : P unit :=
  match ev with
  | CmEvent u e => forget (octopus_rdma_cm_event_handler u e)
  | CqEvent c wcs => octopus_cq_event_handler c wcs
  | BlockRequest d rq => forget (lift (rmem_queue_rq d rq))
  | Unload => octopus_rdma_client_cleanup_module
  end.

(** A thread: over, or waiting with the rest of its work. *)
Inductive thread :=
| Over_thread
| Wait_thread (cond : rdma_session_context_state → bool) (k : world → susp unit).

Definition system : Type := world * list thread.

(** The stretch of a thread up to its next wait or yield or its end; a crash of
    the kernel has no successor. *)
Definition settle (s : susp unit) : option (world * thread) :=
  match s with
  | Finished _ w => Some (w, Over_thread)
  | Waiting c w k => Some (w, Wait_thread c k)
  | Crashed _ => None
  end.

(** The steps of the system, each a stretch [run] of one thread. *)
Inductive steps_by `{K : kernel} (run : susp unit → option (world * thread)) : system → system → Prop :=
| step_event w ts ev w' t :
    event_ok ev → run (handle_event ev w) = Some (w', t) →
    steps_by run (w, ts) (w', ts ++ [t])
| step_resume w ts i c k w' t :
    ts !! i = Some (Wait_thread c k) → run (k w) = Some (w', t) →
    steps_by run (w, ts) (w', <[i := t]> ts).

(** Every interleaving: any thread may run wherever another waits or yields. *)
Definition sys_step `{K : kernel} : system → system → Prop := steps_by settle.

(** No thread runs where another yields. *)
Definition settle_calm (s : susp unit) : option (world * thread) := settle (calm s).
Definition calm_step `{K : kernel} : system → system → Prop := steps_by settle_calm.

(** The module has been loaded: the loading thread has run its first
    stretch. *)
Definition loaded_by `{K : kernel} (run : susp unit → option (world * thread)) (uninit : Z) (st : system) : Prop :=
  ∃ w t, run (forget (octopus_rdma_client_init_module uninit) world0) = Some (w, t) ∧ st = (w, [t]).

Definition reachable `{K : kernel} (uninit : Z) (st : system) : Prop :=
  ∃ st0, loaded_by settle uninit st0 ∧ rtc sys_step st0 st.
Definition calm_reachable `{K : kernel} (uninit : Z) (st : system) : Prop :=
  ∃ st0, loaded_by settle_calm uninit st0 ∧ rtc calm_step st0 st.

(** The calm systems are some of those reached by arbitrary interleavings. *)
Lemma settle_calm_steps `{K : kernel} s w' t :
  settle_calm s = Some (w', t) →
  ∃ w1 t1, settle s = Some (w1, t1) ∧
    ∀ ts i, (i < length ts)%nat → rtc sys_step (w1, <[i := t1]> ts) (w', <[i := t]> ts).
Proof.
  unfold settle_calm. induction s as [a w|c w k IH|f]; cbn; intros Hs; [|destruct (c _)|done].
  - injection Hs as <- <-. by exists w, Over_thread.
  - destruct (IH w Hs) as (w1 & t1 & H1 & H2). exists w, (Wait_thread c k). split; [done|]. intros ts i Hi.
    eapply rtc_l; [eapply (step_resume settle); [by apply list_lookup_insert_eq|exact H1]|].
    rewrite list_insert_insert_eq. by apply H2.
  - injection Hs as <- <-. by exists w, (Wait_thread c k).
Qed.

Lemma calm_step_sys `{K : kernel} st st' : calm_step st st' → rtc sys_step st st'.
Proof.
  intros [w ts ev w' t Hok Hh|w ts i c k w' t Hi Hh]; destruct (settle_calm_steps _ _ _ Hh) as (w1 & t1 & H1 & H2).
  - eapply rtc_l; [by eapply (step_event settle)|]. specialize (H2 (ts ++ [t1]) (length ts)).
    rewrite !insert_app_r_alt, Nat.sub_diag in H2 by done. apply H2. rewrite length_app. cbn. lia.
  - eapply rtc_l; [by eapply (step_resume settle)|]. apply H2. by eapply lookup_lt_Some.
Qed.

Lemma calm_reachable_reachable `{K : kernel} u st : calm_reachable u st → reachable u st.
Proof.
  intros (st0 & (w & t & Hs & ->) & Hr). destruct (settle_calm_steps _ _ _ Hs) as (w1 & t1 & H1 & H2).
  exists (w1, [t1]). split; [by exists w1, t1|].
  trans (w, [t]); [apply (H2 [t1] 0%nat); cbn; lia|]. clear -Hr.
  induction Hr as [|st0 st1 st2 Hs _ IH]; [done|]. etrans; [by apply calm_step_sys|done].
Qed.

(** What is left of a thread keeps to [R]. *)
Definition thread_guar (R : relation world) (t : thread) : Prop :=
  match t with Wait_thread _ k => ∀ w, guar R w (k w) | Over_thread => True end.

Lemma settle_guar R w s w' t :
  guar R w s → settle s = Some (w', t) → R w w' ∧ thread_guar R t.
Proof. destruct s; cbn; intros Hg Ht; simplify_eq; [done|by destruct Hg]. Qed.

(** An invariant every stretch keeps holds in every reachable system, if it
    holds at some point of the first stretch. *)
Lemma reachable_ind_from `{K : kernel} (R : relation world) (I : world → Prop) w0 uninit st :
  PreOrder R → (∀ w w', R w w' → I w → I w') → I w0 →
  guar R w0 (octopus_rdma_client_init_module uninit world0) →
  (∀ ev, event_ok ev → gpres R (handle_event ev)) →
  reachable uninit st → I st.1 ∧ Forall (thread_guar R) st.2.
Proof.
  intros HR HI H0 Hinit Hev (st0 & (w & t & Hs & ->) & Hr).
  revert st Hr. apply (rtc_ind_r (λ st : system, I st.1 ∧ Forall (thread_guar R) st.2)).
  - apply (settle_guar R w0) in Hs as [HRw Ht].
    2:{ apply guar_bind; [exact Hinit|]. intros. apply gpres_ret. }
    split; [by eapply HI|]. by repeat constructor.
  - intros y z _ Hstep [Hi Hts]. destruct Hstep as [v ts ev w' t' Hok Hh|v ts i c k w' t' Hi' Hh].
    + apply (settle_guar R v) in Hh as [HRw Ht]; [|by apply Hev]. split; [by eapply HI|].
      apply Forall_app. split; [done|]. by repeat constructor.
    + pose proof (Forall_lookup_1 _ _ _ _ Hts Hi') as Hk. cbn in Hk.
      apply (settle_guar R v) in Hh as [HRw Ht]; [|by apply Hk]. split; [by eapply HI|].
      by apply Forall_insert.
Qed.

Lemma reachable_ind `{K : kernel} (R : relation world) (I : world → Prop) uninit st :
  PreOrder R → (∀ w w', R w w' → I w → I w') → I world0 →
  gpres R (octopus_rdma_client_init_module uninit) →
  (∀ ev, event_ok ev → gpres R (handle_event ev)) →
  reachable uninit st → I st.1 ∧ Forall (thread_guar R) st.2.
Proof. intros HR HI H0 Hinit. by apply (reachable_ind_from R I world0). Qed.

(** ** What most operations leave alone *)

(** The structures a connection consists of, and the calls that destroy
    them. *)
Inductive rdma_structure := Conn | Qp | Cq | Pd.

Definition is_destroy (r : rdma_structure) (c : kcall) : bool :=
  match r, c with
  | Conn, K_rdma_destroy_id _ | Qp, K_ib_destroy_qp _
  | Cq, K_ib_destroy_cq _ | Pd, K_ib_dealloc_pd _ => true
  | _, _ => false
  end.

Definition destroyed (r : rdma_structure) (w : world) : nat :=
  length (filter (λ c, is_destroy r c = true) (w_trace w)).

(** The parts of the world the invariants speak of. *)
Definition view (w : world) : Z * remote_mapping_chunk_list * cptr message * list nat :=
  (freed (w_sess w), remote_chunk_list (w_sess w), recv_buf (w_sess w),
   [destroyed Conn w; destroyed Qp w; destroyed Cq w; destroyed Pd w]).

Definition frame (w w' : world) : Prop := view w = view w'.

#[export] Instance frame_preorder : PreOrder frame.
Proof. split; [by intros w|]. intros w1 w2 w3. unfold frame. congruence. Qed.

Lemma destroyed_snoc r w c :
  destroyed r (w <| w_trace ::= (.++ [c]) |>) = (destroyed r w + if is_destroy r c then 1 else 0)%nat.
Proof.
  unfold destroyed. cbn. rewrite filter_app, length_app. rewrite filter_cons.
  destruct (is_destroy r c); [rewrite decide_True by done|rewrite decide_False by done]; cbn; lia.
Qed.

(** A call that destroys nothing. *)
Definition harmless (c : kcall) : bool :=
  negb (is_destroy Conn c || is_destroy Qp c || is_destroy Cq c || is_destroy Pd c).

Lemma frame_trace w c : harmless c = true → frame w (w <| w_trace ::= (.++ [c]) |>).
Proof.
  unfold harmless. rewrite negb_true_iff, !orb_false_iff. intros [[[H1 H2] H3] H4].
  unfold frame, view. rewrite !destroyed_snoc, H1, H2, H3, H4, !Nat.add_0_r. done.
Qed.

Lemma frame_call c : harmless c = true → pres frame (call c).
Proof. intros Hc w a w' [= _ <-]. by apply frame_trace. Qed.

Section Frame.
Context {K : kernel}.

Lemma frame_call_int c : harmless c = true → pres frame (call_int c).
Proof. intros Hc w a w' [= _ <-]. by apply frame_trace. Qed.

Lemma frame_call_ptr c : harmless c = true → pres frame (call_ptr c).
Proof. intros Hc w a w' [= _ <-]. by apply frame_trace. Qed.

End Frame.

Lemma frame_modify f : (∀ w, frame w (f w)) → pres frame (modify f).
Proof. intros Hf w a w' [= _ <-]. apply Hf. Qed.

#[export] Hint Resolve frame_call frame_call_int frame_call_ptr : pres.
#[export] Hint Extern 1 (harmless _ = true) => reflexivity : pres.
#[export] Hint Extern 1 (pres frame (set_sess _)) => apply frame_modify; intros ?; reflexivity : pres.
#[export] Hint Extern 1 (pres frame (set_dev _)) => apply frame_modify; intros ?; reflexivity : pres.
#[export] Hint Extern 1 (pres frame (modify _)) => apply frame_modify; intros ?; reflexivity : pres.

Section Operations.
Context {K : kernel}.

Lemma frame_kzalloc {A} n (x : A) : pres frame (kzalloc n x).
Proof. unfold kzalloc. pres_go. Qed.
Hint Resolve frame_kzalloc : pres.

Lemma frame_name s : pres frame (name_buffer s).
Proof. unfold name_buffer, strcpy. pres_go. Qed.
Hint Resolve frame_name : pres.

Lemma frame_get_queue qi : pres frame (get_queue qi).
Proof. unfold get_queue. pres_go. Qed.
Lemma frame_set_queue qi q : pres frame (set_queue qi q).
Proof. unfold set_queue. pres_go. Qed.
Hint Resolve frame_get_queue frame_set_queue : pres.

Lemma frame_get_cmd qi ci : pres frame (get_cmd qi ci).
Proof. unfold get_cmd. pres_go. Qed.
Lemma frame_upd_cmd qi ci f : pres frame (upd_cmd qi ci f).
Proof. unfold upd_cmd. pres_go. Qed.
Hint Resolve frame_get_cmd frame_upd_cmd : pres.

Lemma frame_get_free qi : pres frame (get_a_free_rdma_cmd_from_rdma_q qi).
Proof. unfold get_a_free_rdma_cmd_from_rdma_q. pres_go. Qed.
Lemma frame_free_cmd qi ci : pres frame (free_a_rdma_cmd_to_rdma_q qi ci).
Proof. unfold free_a_rdma_cmd_to_rdma_q. pres_go. Qed.
Hint Resolve frame_get_free frame_free_cmd : pres.

Lemma frame_post op rq qi c off len : pres frame (post_rdma op rq qi c off len).
Proof. unfold post_rdma. pres_go. Qed.
Lemma frame_write_done id : pres frame (rdma_write_done id).
Proof. unfold rdma_write_done. pres_go. Qed.
Lemma frame_read_done id : pres frame (rdma_read_done id).
Proof. unfold rdma_read_done. pres_go. Qed.
Hint Resolve frame_post frame_write_done frame_read_done : pres.

Lemma frame_queue_rq d rq : pres frame (rmem_queue_rq d rq).
Proof.
  unfold rmem_queue_rq, transfer_requet_to_rdma_message, get_chunk, post_rdma_write, post_rdma_read.
  pres_go.
Qed.

Lemma frame_init_queues : pres frame init_rdma_command_queue_list.
Proof.
  unfold init_rdma_command_queue_list, init_rdma_command_list, init_rdma_command. pres_go.
Qed.

Lemma frame_create_queues : pres frame octopus_create_rdma_queues.
Proof. unfold octopus_create_rdma_queues, octopus_create_qp. pres_go. Qed.

Lemma frame_message_wr : pres frame octopus_setup_message_wr.
Proof. unfold octopus_setup_message_wr, message_lkey. pres_go. Qed.

Lemma frame_post_recv : pres frame post_recv_wr.
Proof. unfold post_recv_wr. pres_go. Qed.
Hint Resolve frame_init_queues frame_create_queues frame_message_wr frame_post_recv : pres.

Lemma frame_request_chunk n : pres frame (octupos_requset_for_chunk n).
Proof. unfold octupos_requset_for_chunk, send_message_to_remote, count_op, rdma_message_print. pres_go. Qed.

Lemma frame_notify : pres frame connect_notify.
Proof. unfold connect_notify. pres_go. Qed.

Lemma frame_disk : pres frame connect_disk.
Proof.
  unfold connect_disk, rmem_init_disk_driver, RMEM_create_device, init_rmem_device_control,
    init_blk_mq_tag_set, init_blk_mq_queue, init_gendisk, set_disk. pres_go.
Qed.

Lemma frame_free_device c : pres frame (octopus_free_block_devicce c).
Proof. unfold octopus_free_block_devicce. pres_go. Qed.

Lemma frame_free_buffers : pres frame octopus_free_buffers.
Proof. unfold octopus_free_buffers, octopus_free_queue. pres_go. Qed.

End Operations.

#[export] Hint Resolve frame_kzalloc frame_name frame_get_queue frame_set_queue frame_queue_rq
  frame_write_done frame_read_done frame_init_queues frame_create_queues frame_message_wr
  frame_post_recv frame_request_chunk frame_notify frame_disk frame_free_device
  frame_free_buffers : pres.

(** ** The chunk table stays well formed *)

(** There is no table yet, or it is well formed; a received message has its 32
    entries. *)
Definition client_inv (w : world) : Prop :=
  let cl := remote_chunk_list (w_sess w) in
  (remote_chunk cl = None ∧ chunk_num cl = 0 ∧ chunk_ptr cl = 0 ∨ wf_chunks cl) ∧
  ∀ a m, recv_buf (w_sess w) = Some (a, m) → wf_message m.

Definition keeps (w w' : world) : Prop := client_inv w → client_inv w'.

#[export] Instance keeps_preorder : PreOrder keeps.
Proof. split; [by intros w Hw|]. intros w1 w2 w3 H1 H2 H. auto. Qed.

Lemma keeps_of_frame {A} (m : M A) : pres frame m → pres keeps m.
Proof.
  apply pres_weaken. unfold frame, view, keeps, client_inv. intros w w' [= _ H1 H2 _]. by rewrite H1, H2.
Qed.

Lemma keeps_call c : pres keeps (call c).
Proof. by intros w a w' [= _ <-] Hw. Qed.

Lemma keeps_modify f : (∀ w, keeps w (f w)) → pres keeps (modify f).
Proof. intros Hf w a w' [= _ <-]. apply Hf. Qed.

#[export] Hint Resolve keeps_of_frame keeps_call : pres.
#[export] Hint Extern 1 (pres keeps (set_sess _)) => apply keeps_modify; intros ? ?; assumption : pres.

Section Keeps.
Context {K : kernel}.

Lemma keeps_init_table : pres keeps init_remote_chunk_list.
Proof.
  intros w r w' Hr [_ Hm]. rewrite init_run in Hr. destruct (k_ptr _ _) as [|a|e].
  2:{ injection Hr as <- <-. split; [right; apply init_wf|done]. }
  all: case_decide as Hz; [|done]; injection Hr as <- <-; split; [left; by split_and!|done].
Qed.

Lemma keeps_bind : pres keeps bind_remote_memory_chunks.
Proof.
  intros w r w' Hr [Ht Hm].
  destruct (decide (chunk_num (remote_chunk_list (w_sess w)) <= chunk_ptr (remote_chunk_list (w_sess w)))) as [Hf|Hf].
  - unfold bind_remote_memory_chunks in Hr. rewrite <- (with_chunks_id w) in Hr.
    change (Z.to_nat MAX_CHUNKS) with (S 31) in Hr.
    erewrite M_bind_step in Hr by (by apply for_loop_break, bind_body_full).
    injection Hr as _ <-. split; [|done]. cbn. destruct Ht as [(H1 & H2 & H3)|(H1 & H2 & a & l & H3 & H4 & H5)].
    + left. by split_and!.
    + right. split; [cbn; lia|]. split; [cbn; lia|]. exists a, l. split_and!; [done|cbn; lia|done].
  - destruct Ht as [(H1 & H2 & H3)|Hwf]; [lia|]. pose proof Hwf as (_ & _ & a & l & Hl & _).
    destruct (recv_buf (w_sess w)) as [[am m]|] eqn:Em.
    + rewrite (bind_chunks_run w a am m l) in Hr by (done || by eapply Hm). injection Hr as _ <-.
      split; [right; apply append_wf; [done|apply received_mapped]|]. cbn. rewrite Em. done.
    + exfalso. unfold bind_remote_memory_chunks in Hr. change (Z.to_nat MAX_CHUNKS) with (S 31) in Hr.
      rewrite (M_bind_oops _ _ _ NullDeref) in Hr; [done|]. apply for_loop_oops. unfold bind_body.
      mstep. cbn [id]. destruct (Z.leb_spec (chunk_num (remote_chunk_list (w_sess w)))
        (chunk_ptr (remote_chunk_list (w_sess w)))); [lia|]. rewrite Em. done.
Qed.

Lemma keeps_setup_buffers u : pres keeps (octopus_setup_buffers u).
Proof.
  unfold octopus_setup_buffers.
  apply (pres_bind_post (λ rb, ∀ a m, rb = Some (a, m) → wf_message m)); [pres_go| |].
  { intros w rb w' Hr a m ->. unfold kzalloc in Hr. mrun.
    match goal with H : match ?p with _ => _ end = Some _ |- _ => destruct p; simplify_eq end. done. }
  intros rb Hrb. apply pres_bind; [|intros ?; pres_go].
  apply keeps_modify. intros w [Ht _]. split; [exact Ht|]. exact Hrb.
Qed.

Lemma keeps_recv wc : pres keeps (handle_recv_wr wc).
Proof.
  unfold handle_recv_wr, set_chunk_list, rdma_message_print, wake_up, set_state.
  pose proof keeps_init_table. pose proof keeps_bind. pres_go.
Qed.

Lemma keeps_poll wcs :
  Forall (λ wc, ∀ m, wc_data wc = Some m → wf_message m) wcs → pres keeps (poll_cq wcs).
Proof.
  induction 1 as [|wc wcs Hwc _ IH]; cbn [poll_cq]; [pres_go|].
  unfold handle_wc, rdma_wc_status_name. pose proof (keeps_recv wc).
  apply pres_bind; [|intros []; [done|pres_go]]. apply pres_bind; [|intros ?; pres_go].
  destruct (wc_data wc) as [m|]; [|pres_go].
  apply keeps_modify. intros w [Ht Hm]. split; [exact Ht|]. cbn.
  destruct (recv_buf (w_sess w)) as [[a m0]|]; [|done]. intros b m' [= <- <-]. by apply Hwc.
Qed.

Lemma keeps_collect : gpres keeps octopus_disconenct_and_collect_resource.
Proof.
  unfold octopus_disconenct_and_collect_resource, octopus_free_rdma_structure. pres_go.
Qed.

Lemma keeps_event ev : event_ok ev → gpres keeps (handle_event ev).
Proof.
  pose proof keeps_collect as Hc. unfold handle_event, forget. destruct ev as [u e|c wcs|d rq|]; intros Hev.
  - unfold octopus_rdma_cm_event_handler, rdma_cm_message_print, wake_up, set_state. pres_go.
  - pose proof (keeps_poll wcs Hev). unfold octopus_cq_event_handler, set_state. pres_go.
  - pres_go.
  - unfold octopus_rdma_client_cleanup_module. pres_go.
Qed.

Lemma keeps_init u : gpres keeps (octopus_rdma_client_init_module u).
Proof.
  pose proof (keeps_setup_buffers u).
  unfold octopus_rdma_client_init_module, octopus_RDMA_connect, connect_init, connect_setup,
    rdma_resolve_ip_to_ib_device, octopus_connect_remote_memory_server, count_op. pres_go.
Qed.

End Keeps.

(** ** The connection is given back once *)

(** One collection may still start while [freed] is 0. *)
Definition may_free (w : world) : nat := if decide (freed (w_sess w) = 0) then 1 else 0.

Section Once.
Context {K : kernel} (r : rdma_structure).

Definition potential (w : world) : nat := destroyed r w + may_free w.

(** [owes n w s]: the computation [s], started in [w] and undisturbed where it
    yields, destroys the structure at most [n] times more than it takes over
    from [may_free]. *)
Fixpoint owes {A} (n : nat) (w : world) (s : susp A) : Prop :=
  match s with
  | Finished _ w' => (potential w' <= potential w + n)%nat
  | Waiting c w' k =>
      if c (state (w_sess w')) then owes n w (k w')
      else ∃ n', (potential w' + n' <= potential w + n)%nat ∧ ∀ v, owes n' v (k v)
  | Crashed _ => True
  end.

Definition same (w w' : world) : Prop := potential w = potential w'.

#[export] Instance same_preorder : PreOrder same.
Proof. split; [by intros w|]. intros w1 w2 w3. unfold same. congruence. Qed.

Lemma frame_same w w' : frame w w' → same w w'.
Proof.
  unfold frame, same, potential, may_free, view. intros [= H1 _ _ H2 H3 H4 H5]. rewrite H1.
  destruct r; congruence.
Qed.

Lemma same_of_frame {A} (m : M A) : pres frame m → pres same m.
Proof. apply pres_weaken, frame_same. Qed.

Lemma guar_owes {A} n w v (s : susp A) :
  guar same v s → (potential v <= potential w + n)%nat → owes n w s.
Proof.
  revert n w v. induction s as [a u|c u k IH|f]; intros n w v Hg Hp; cbn in *; [|destruct Hg as [Hg1 Hg2]|done].
  - unfold same in Hg. lia.
  - unfold same in Hg1. destruct (c _); [eapply IH; [apply Hg2|lia]|].
    exists 0%nat. split; [lia|]. intros v'. eapply IH; [apply Hg2|lia].
Qed.

Lemma owes_weaken {A} n w v (s : susp A) :
  owes n v s → (potential v <= potential w)%nat → owes n w s.
Proof.
  induction s as [a u|c u k IH|f]; cbn; [lia| |done]. destruct (c _); [apply IH|].
  intros (n' & H1 & H2) Hp. exists n'. split; [lia|done].
Qed.

(** A debt behind code that leaves the potential alone. *)
Lemma owes_after {A B} n w (s : susp A) (k : A → P B) :
  guar same w s → (∀ a v, owes n v (k a v)) → owes n w (susp_bind s k).
Proof.
  revert w. induction s as [a u|c u f IH|f]; intros w Hg Hk; cbn in *; [|destruct Hg as [Hg1 Hg2]|done].
  - eapply owes_weaken; [apply Hk|]. unfold same in Hg. lia.
  - unfold same in Hg1. destruct (c _); [|exists n; split; [lia|]; intros v; by apply IH].
    eapply owes_weaken; [|apply Nat.eq_le_incl; symmetry; exact Hg1]. by apply IH.
Qed.

(** Code that leaves the potential alone behind a debt. *)
Lemma owes_before {A B} n w (s : susp A) (k : A → P B) :
  owes n w s → (∀ a, gpres same (k a)) → owes n w (susp_bind s k).
Proof.
  revert n w. induction s as [a u|c u f IH|f]; intros n w Hs Hk; cbn in *; [| |done].
  - eapply guar_owes; [apply Hk|done].
  - destruct (c _); [by apply IH|].
    destruct Hs as (n' & H1 & H2). exists n'. split; [done|]. intros v. by apply IH.
Qed.

Lemma same_modify f : (∀ w, same w (f w)) → pres same (modify f).
Proof. intros Hf w a w' [= _ <-]. apply Hf. Qed.

Hint Resolve same_of_frame : pres.
Hint Extern 1 (pres same (set_sess _)) => apply same_modify; intros ?; reflexivity : pres.
Hint Extern 1 (pres same (modify _)) => apply same_modify; intros ?; reflexivity : pres.

Lemma structure_frees_once s :
  (length (filter (λ c, is_destroy r c = true) (structure_frees s)) <= 1)%nat.
Proof.
  unfold structure_frees.
  destruct (bool_decide (cm_id s ≠ KNull)), (bool_decide (qp s ≠ KNull)),
    (bool_decide (cq s ≠ KNull)), (bool_decide (pd s ≠ KNull)), r; vm_compute; repeat constructor.
Qed.

Lemma collect_tail_owes (ret : Z) w :
  owes 1 w ((lift octopus_free_buffers;; lift octopus_free_rdma_structure;; mret ret) w).
Proof.
  rewrite P_bind_unfold. apply owes_after; [apply gpres_lift; pres_go|]. intros _ v.
  rewrite (lift_bind_Ret _ _ _ _ _ (free_structure_run v)). cbn.
  unfold potential, destroyed. cbn. rewrite filter_app, length_app.
  pose proof (structure_frees_once (w_sess v)).
  change (may_free (add_calls _ v)) with (may_free v). lia.
Qed.

Lemma collect_owes w : owes 0 w (octopus_disconenct_and_collect_resource w).
Proof.
  unfold octopus_disconenct_and_collect_resource. pstep. cbn [id].
  destruct (Z.eqb_spec (freed (w_sess w)) 0) as [Hf|]; cbn [negb]; [|cbn; lia].
  match goal with |- owes 0 w ((yield ≫= ?k) w) => change (owes 0 w (k tt w)); cbv beta end. do 2 pstep. cbn [id].
  set (w1 := setter _ w).
  assert (potential w1 + 1 <= potential w)%nat as Hp.
  { assert (may_free w1 = 0%nat) as H1 by (unfold may_free, w1; cbn; by rewrite Hf).
    assert (may_free w = 1%nat) as H2 by (unfold may_free; by rewrite Hf).
    unfold potential. rewrite H1, H2. change (destroyed r w1) with (destroyed r w). lia. }
  assert (∀ v k, owes 1 v k → (potential v + 1 <= potential w)%nat → owes 0 w (A := Z) k) as Hw.
  { intros v k. induction k as [a u|c u k IH|f]; cbn; intros Hk Hv; [lia| |done].
    destruct (c _); [by apply IH|]. destruct Hk as (n' & H1 & H2). exists n'. split; [lia|done]. }
  apply (Hw w1); [|done]. rewrite P_bind_unfold. apply owes_after; [|intros; apply collect_tail_owes].
  destruct (negb _).
  - assert (gpres same (ret ← lift (call_int (K_rdma_disconnect (cm_id (w_sess w1))));
      wait_event (λ st, state_is st CM_DISCONNECT);; mret ret)) as Hg by pres_go.
    apply Hg.
  - cbn. reflexivity.
Qed.

Lemma same_recv wc : pres same (handle_recv_wr wc).
Proof.
  unfold handle_recv_wr, init_remote_chunk_list, bind_remote_memory_chunks, bind_body, set_chunk,
    set_chunk_list, rdma_message_print, wake_up, set_state. pres_go.
Qed.

Lemma same_poll wcs : pres same (poll_cq wcs).
Proof.
  induction wcs as [|wc wcs IH]; cbn [poll_cq]; [pres_go|].
  pose proof (same_recv wc). unfold handle_wc, rdma_wc_status_name. pres_go.
Qed.

Lemma event_owes ev w : owes 0 w (handle_event ev w).
Proof.
  assert (∀ {A B} (p : P A) (k : A → P B) n v,
    gpres same p → (∀ a u, owes n u (k a u)) → owes n v ((p ≫= k) v)) as Hafter.
  { intros. rewrite P_bind_unfold. by apply owes_after. }
  assert (∀ {A B} (p : P A) (k : A → P B) n v,
    owes n v (p v) → (∀ a, gpres same (k a)) → owes n v ((p ≫= k) v)) as Hbefore.
  { intros. rewrite P_bind_unfold. by apply owes_before. }
  assert (∀ {A} (p : P A) v, gpres same p → owes 0 v (p v)) as Hsame.
  { intros A p v Hp. eapply guar_owes; [apply Hp|lia]. }
  unfold handle_event, forget. destruct ev as [u e|c wcs|d rq|].
  - unfold octopus_rdma_cm_event_handler, rdma_cm_message_print, wake_up, set_state.
    apply Hbefore; [|pres_go]. apply Hafter; [pres_go|]. intros b v.
    destruct e; try solve [apply Hsame; pres_go].
    apply Hafter; [pres_go|]. intros s v'. apply Hbefore; [|intros; pres_go].
    destruct (negb _); [apply Hsame; pres_go|]. do 3 (apply Hafter; [pres_go|]; intros ? ?).
    apply Hbefore; [apply collect_owes|]. intros; pres_go.
  - unfold octopus_cq_event_handler, set_state. apply Hafter; [pres_go|]. intros s v.
    destruct (bool_decide _); [apply Hsame; pres_go|].
    destruct (state_is _ _); [apply Hsame; pres_go|].
    do 2 (apply Hafter; [pres_go|]; intros ? ?).
    pose proof (same_poll wcs). apply Hafter; [pres_go|].
    intros ok v3. destruct ok; [apply Hsame; pres_go|].
    apply Hafter; [pres_go|]. intros ? ?. apply Hbefore; [apply collect_owes|]. intros; pres_go.
  - apply Hsame. pres_go.
  - unfold octopus_rdma_client_cleanup_module. apply Hbefore; [apply collect_owes|]. intros; pres_go.
Qed.

Lemma same_setup u : pres same (connect_setup u).
Proof. unfold connect_setup, octopus_setup_buffers, count_op. pres_go. Qed.

(** Loading starts from a session that was never freed. *)
Lemma init_owes u : owes 0 world0 (octopus_rdma_client_init_module u world0).
Proof.
  pose proof (same_setup u). unfold octopus_rdma_client_init_module, octopus_RDMA_connect. pstep.
  match goal with |- context [(_ ≫= _) ?v] => destruct (connect_init v) as [a w|f] eqn:E end.
  2:{ unfold mbind, P_bind, lift. by rewrite E. }
  rewrite (lift_bind_Ret _ _ _ _ _ E).
  assert (potential w <= potential world0)%nat as Hp.
  { assert (potential world0 = 1%nat) as -> by (unfold potential, destroyed; by destruct r).
    unfold connect_init in E. mrun.
    all: unfold potential, destroyed; destruct r; vm_compute; repeat constructor. }
  eapply owes_weaken; [|exact Hp]. apply (guar_owes 0 w w); [|lia].
  match goal with |- guar same ?v (?p ?v) => assert (gpres same p) as Hg; [|apply Hg] end.
  unfold rdma_resolve_ip_to_ib_device, octopus_connect_remote_memory_server. pres_go.
Qed.

(** The debts of the waiting threads, the structures destroyed and the
    collection that may still start add up to one. *)
Definition balanced (st : system) : Prop :=
  ∃ ns, Forall2 (λ t n, match t with Wait_thread _ k => ∀ w, owes n w (k w) | Over_thread => True end) st.2 ns ∧
    (potential st.1 + sum_list ns <= 1)%nat.

Lemma settle_owes n w s w' t :
  owes n w s → settle_calm s = Some (w', t) →
  ∃ n', (potential w' + n' <= potential w + n)%nat ∧
    match t with Wait_thread _ k => ∀ v, owes n' v (k v) | Over_thread => True end.
Proof.
  unfold settle_calm. induction s as [a u|c u k IH|f]; cbn; intros Ho Ht; [|destruct (c _)|done].
  - simplify_eq. exists 0%nat. split; [lia|done].
  - by eapply IH.
  - injection Ht as <- <-. destruct Ho as (n' & H1 & H2). by exists n'.
Qed.

Lemma balanced_step st st' : calm_step st st' → balanced st → balanced st'.
Proof.
  intros Hs (ns & Hns & Hsum).
  destruct Hs as [v ts ev w' t Hok Hh|v ts i c k w' t Hi Hh]; cbn [fst snd] in *.
  - destruct (settle_owes 0 v _ w' t (event_owes ev v) Hh) as (n' & H1 & H2).
    exists (ns ++ [n']). split; [apply Forall2_app; [done|]; by repeat constructor|].
    cbn. rewrite sum_list_with_app. cbn. lia.
  - destruct (Forall2_lookup_l _ _ _ _ _ Hns Hi) as (n & Hn & Hk). cbn in Hk.
    destruct (settle_owes n v _ w' t (Hk v) Hh) as (n' & H1 & H2).
    exists (<[i := n']> ns). split; [by apply Forall2_insert|].
    assert (sum_list ns = sum_list (take i ns) + (n + sum_list (drop (S i) ns)))%nat as Hsplit.
    { rewrite <- (take_drop_middle ns i n Hn) at 1. by rewrite sum_list_with_app. }
    assert (sum_list (<[i := n']> ns) = sum_list (take i ns) + (n' + sum_list (drop (S i) ns)))%nat as ->.
    { rewrite insert_take_drop by (by eapply lookup_lt_Some). by rewrite sum_list_with_app. }
    cbn [fst]. lia.
Qed.

Lemma balanced_loaded u st : loaded_by settle_calm u st → balanced st.
Proof.
  intros (w & t & Hs & ->).
  assert (owes 0 world0 (forget (octopus_rdma_client_init_module u) world0)) as Ho.
  { unfold forget. rewrite P_bind_unfold. apply owes_before; [apply init_owes|]. intros. apply gpres_ret. }
  destruct (settle_owes 0 world0 _ w t Ho Hs) as (n' & H1 & H2).
  exists [n']. split; [by repeat constructor|].
  assert (potential world0 = 1%nat) as Hp by (unfold potential, destroyed; by destruct r). cbn. lia.
Qed.

End Once.

(** ** Theorems *)

(** C6. In every reachable state of the driver, whatever the kernel answers
    and however events, requests, completions and the loading and unloading
    threads interleave, the chunk table is absent or well formed: its bound
    chunks are exactly the first [chunk_ptr] ones and [chunk_num] does not
    exceed the allocation. *)
Theorem chunk_table_invariant `{K : kernel} u st :
  reachable u st → client_inv st.1.
Proof.
  intros Hr. apply (reachable_ind keeps client_inv u st) in Hr as [Hi _]; [done|apply _|auto| | |].
  - split; [by left|done].
  - apply keeps_init.
  - apply keeps_event.
Qed.

(** ** Executing schedules *)

(** A step of a schedule: an event, or the thread to resume. *)
Definition choice : Type := event + nat.

Section Schedules.
Context `{K : kernel} (run : susp unit → option (world * thread)).

Definition take_step (c : choice) (st : system) : option system :=
  match c with
  | inl ev => '(w, t) ← run (handle_event ev st.1); Some (w, st.2 ++ [t])
  | inr i =>
      t ← st.2 !! i;
      match t with
      | Over_thread => None
      | Wait_thread _ k => '(w, t) ← run (k st.1); Some (w, <[i := t]> st.2)
      end
  end.

Fixpoint run_steps (cs : list choice) (st : system) : option system :=
  match cs with
  | [] => Some st
  | c :: cs => st ← take_step c st; run_steps cs st
  end.

Definition load (uninit : Z) : option system :=
  '(w, t) ← run (forget (octopus_rdma_client_init_module uninit) world0); Some (w, [t]).

Definition choice_ok (c : choice) : Prop := match c with inl ev => event_ok ev | inr _ => True end.

Lemma run_steps_sound cs : ∀ st st',
  Forall choice_ok cs → run_steps cs st = Some st' → rtc (steps_by run) st st'.
Proof.
  induction cs as [|c cs IH]; intros [w ts] st' Hok Hr; cbn in Hr; [by simplify_eq|].
  inversion_clear Hok as [|? ? Hc Hcs]. apply bind_Some in Hr as (st1 & H1 & H2).
  eapply rtc_l; [|by apply IH]. destruct c as [ev|i]; cbn in H1.
  - destruct (run _) as [[w' t]|] eqn:E; [|done]. cbn in H1. simplify_eq. by econstructor.
  - apply bind_Some in H1 as (t & Ht & H1). destruct t as [|c k]; [done|].
    destruct (run _) as [[w' t]|] eqn:E; [|done]. cbn in H1. simplify_eq. by econstructor.
Qed.

Lemma load_loaded u st : load u = Some st → loaded_by run u st.
Proof.
  unfold load, loaded_by. destruct (run _) as [[w t]|] eqn:E; [|done]. cbn. intros [= <-]. by exists w, t.
Qed.

End Schedules.

Lemma run_reachable `{K : kernel} u cs st st' :
  load settle u = Some st → Forall choice_ok cs → run_steps settle cs st = Some st' → reachable u st'.
Proof. intros Hl Hok Hr. exists st. split; [by apply load_loaded|by eapply run_steps_sound]. Qed.

Lemma run_calm_reachable `{K : kernel} u cs st st' :
  load settle_calm u = Some st → Forall choice_ok cs → run_steps settle_calm cs st = Some st' → calm_reachable u st'.
Proof. intros Hl Hok Hr. exists st. split; [by apply load_loaded|by eapply run_steps_sound]. Qed.

(** ** Concrete schedules *)

(** The messages of a server with four free chunks that sends two. *)
Definition free_size_message : message := mkMessage (replicate 32 0) (replicate 32 0) 4 4.
Definition recv_event (m : message) : event :=
  CqEvent (KPtr 36864) [mkWc 0 IB_WC_RECV sizeof_message None (Some m)].

Definition connect_schedule : list choice :=
  [inl (CmEvent 0 RDMA_CM_EVENT_ADDR_RESOLVED); inl (CmEvent 0 RDMA_CM_EVENT_ROUTE_RESOLVED); inr 0%nat;
   inl (CmEvent 0 RDMA_CM_EVENT_ESTABLISHED); inr 0%nat; inl (recv_event free_size_message); inr 0%nat;
   inl (recv_event demo_message); inr 0%nat].

(** A full life of the module: connect, receive, disconnect twice, unload. *)
Definition demo_schedule : list choice := connect_schedule ++
  [inl (CmEvent 0 RDMA_CM_EVENT_DISCONNECTED); inl (CmEvent 0 RDMA_CM_EVENT_DISCONNECTED);
   inl (CmEvent 0 RDMA_CM_EVENT_TIMEWAIT_EXIT); inr 6%nat; inl Unload].

(** The server disconnects while the module is unloaded: the event's handler
    (thread 6) and the unloading thread (7) have both found [freed] to be 0
    when they go on. *)
Definition race_schedule : list choice := connect_schedule ++
  [inl (CmEvent 0 RDMA_CM_EVENT_DISCONNECTED); inr 6%nat; inl Unload; inr 6%nat; inr 7%nat;
   inl (CmEvent 0 RDMA_CM_EVENT_TIMEWAIT_EXIT); inr 6%nat; inr 7%nat].

Definition demo_end : option system := st ← @load kernel_ok settle_calm 0; @run_steps kernel_ok settle_calm demo_schedule st.
Definition race_end : option system := st ← @load kernel_ok settle 0; @run_steps kernel_ok settle race_schedule st.

Example demo_end_result :
  (λ st : system, (destroyed Conn st.1, freed (w_sess st.1), dev_freed (w_dev st.1),
     chunk_ptr (remote_chunk_list (w_sess st.1)))) <$> demo_end = Some (1%nat, 1, 1, 2).
Proof. vm_compute. reflexivity. Qed.

(** Both threads count themselves in, and both destroy everything. *)
Lemma race_end_result :
  (λ st : system, (freed (w_sess st.1), (λ r, destroyed r st.1) <$> [Conn; Qp; Cq; Pd])) <$> race_end =
  Some (2, [2%nat; 2%nat; 2%nat; 2%nat]).
Proof. vm_compute. reflexivity. Qed.

Lemma connect_schedule_ok : Forall choice_ok connect_schedule.
Proof.
  unfold connect_schedule. repeat apply Forall_cons_2; try apply Forall_nil_2; try exact I.
  all: intros m Hm; injection Hm as <-; split; reflexivity.
Qed.

Lemma demo_schedule_ok : Forall choice_ok demo_schedule.
Proof. apply Forall_app_2; [apply connect_schedule_ok|]. repeat constructor. Qed.
Lemma race_schedule_ok : Forall choice_ok race_schedule.
Proof. apply Forall_app_2; [apply connect_schedule_ok|]. repeat constructor. Qed.

Lemma demo_calm st : demo_end = Some st → @calm_reachable kernel_ok 0 st.
Proof.
  unfold demo_end. destruct (@load kernel_ok settle_calm 0) as [st0|] eqn:E; [|discriminate]. intros H.
  exact (@run_calm_reachable kernel_ok 0 demo_schedule st0 st E demo_schedule_ok H).
Qed.

Lemma demo_reachable st : demo_end = Some st → @reachable kernel_ok 0 st.
Proof. intros H. by apply calm_reachable_reachable, demo_calm. Qed.

Lemma race_reachable st : race_end = Some st → @reachable kernel_ok 0 st.
Proof.
  unfold race_end. destruct (@load kernel_ok settle 0) as [st0|] eqn:E; [|discriminate]. intros H.
  exact (@run_reachable kernel_ok 0 race_schedule st0 st E race_schedule_ok H).
Qed.

(** C2. The connection's structures are given back at most once, as long as no
    other context runs between a test of [freed] and the increment that follows
    it: in every state reached that way, through any number of DISCONNECTED
    events, failed completions and unload requests, with any other interleaving,
    the connection, the queue pair, the completion queue and the protection
    domain have each been destroyed at most once.  The test and the increment
    are under no lock, and with another context between them the promise is
    broken: a state is reachable in which the handler of a DISCONNECTED event
    and the unloading thread have both destroyed all four. *)
Theorem structures_freed_once :
  (∀ (K : kernel) u st r, calm_reachable u st → (destroyed r st.1 <= 1)%nat) ∧
  (∃ st, @reachable kernel_ok 0 st ∧ ∀ r, destroyed r st.1 = 2%nat).
Proof.
  split.
  - intros K u st r (st0 & Hl & Hr). assert (balanced r st) as (ns & _ & Hsum).
    + revert st Hr. apply (rtc_ind_r (balanced r)); [by eapply balanced_loaded|].
      intros y z _ Hs Hb. by eapply balanced_step.
    + unfold potential in Hsum. lia.
  - pose proof race_end_result as Hr. destruct race_end as [st|] eqn:E; [|discriminate Hr].
    exists st. split; [by apply race_reachable|]. cbn in Hr. injection Hr as _ H1 H2 H3 H4. by intros [].
Qed.

(** ** Witnesses *)

Lemma chunk_table_invariant_witness : ∃ st, demo_end = Some st ∧ client_inv st.1.
Proof.
  destruct demo_end as [st|] eqn:E; [|vm_compute in E; discriminate E].
  exists st. split; [reflexivity|].
  exact (@chunk_table_invariant kernel_ok 0 st (demo_reachable st E)).
Defined.

Lemma structures_freed_once_witness : ∃ st, demo_end = Some st ∧ (destroyed Qp st.1 <= 1)%nat.
Proof.
  destruct demo_end as [st|] eqn:E; [|vm_compute in E; discriminate E].
  exists st. split; [reflexivity|].
  exact (proj1 structures_freed_once kernel_ok 0 st Qp (demo_calm st E)).
Defined.
