(* ===== verification/ClientQueues.v ===== *)
(** * The RDMA commands in every reachable state of the client

    [CmdQueue] and [OneSided] prove the queues correct one operation at a time,
    from a state in which they are in order.  This file shows that [System]
    never leaves such states ([client_queues]): through every interleaving of
    the loading and unloading threads, requests, completions and connection
    events, and whatever the kernel answers, there is no queue yet, or one for
    each core, with all of its commands, each naming itself in [wr_id] and
    taken exactly while it holds a request; and every work request that has
    been posted names the command it was posted with. *)

From S2P Require Import Prelude BitOps OctTypes Kernel Names ChunkList CmdQueue OneSided BlockIO BlockDev.
From S2P Require Import Session Connect System.

(** ** The invariant *)

Section Inv.
Context {K : kernel}.

(** The number of queues. *)
Definition cores : Z := u32 k_num_online_cpus.

(** A command is taken exactly while it holds a request. *)
Definition taken_ok (c : rmem_rdma_command) : Prop :=
  free_state c = 1 ∧ io_rq c = None ∨ free_state c = 0 ∧ is_Some (io_rq c).

Definition cmd_good (qi ci : Z) (c : rmem_rdma_command) : Prop := cmd_shape qi ci c ∧ taken_ok c.

Definition queue_good (qi : Z) (q : rmem_rdma_queue) : Prop :=
  queue_ok qi q ∧ rdma_queue_depth q = RMEM_QUEUE_DEPTH ∧
  ∀ b cl i c, rmem_rdma_cmd_list q = Some (b, cl) → cl !! i = Some c → cmd_good qi (Z.of_nat i) c.

Definition table_good (p : cptr (list rmem_rdma_queue)) : Prop :=
  ∀ a ql, p = Some (a, ql) → length ql = Z.to_nat cores ∧ ∀ i q, ql !! i = Some q → queue_good (Z.of_nat i) q.

(** A work request that was posted names a command of the table, asks for a
    completion and carries the command's own segment. *)
Definition post_good (c : kcall) : Prop :=
  match c with
  | K_ib_post_send_rdma wr _ =>
      wr_signaled wr = true ∧ wr_sg_own wr = true ∧ wr_num_sge wr = 1 ∧
      ∃ qi ci, wr_id wr = Some (qi, ci) ∧ 0 <= qi < cores ∧ 0 <= ci < RMEM_QUEUE_DEPTH
  | _ => True
  end.

Definition client_queues (w : world) : Prop :=
  w_online_cores w = k_num_online_cpus ∧ table_good (queues w) ∧ Forall post_good (w_trace w).

Definition qkeeps (w w' : world) : Prop := client_queues w → client_queues w'.

#[export] Instance qkeeps_preorder : PreOrder qkeeps.
Proof. split; [by intros w Hw|]. intros w1 w2 w3 H1 H2 H. auto. Qed.

Lemma qkeeps_modify f : (∀ w, qkeeps w (f w)) → pres qkeeps (modify f).
Proof. intros Hf w a w' [= _ <-]. apply Hf. Qed.

Lemma queues_snoc c w : post_good c → qkeeps w (w <| w_trace ::= (.++ [c]) |>).
Proof.
  intros Hc (H1 & H2 & H3). split; [exact H1|]. split; [exact H2|]. apply Forall_app. split; [exact H3|]. by repeat constructor.
Qed.

Lemma qkeeps_call c : post_good c → pres qkeeps (call c).
Proof. intros Hc w a w' [= _ <-]. by apply queues_snoc. Qed.
Lemma qkeeps_call_int c : post_good c → pres qkeeps (call_int c).
Proof. intros Hc w a w' [= _ <-]. by apply queues_snoc. Qed.
Lemma qkeeps_call_ptr c : post_good c → pres qkeeps (call_ptr c).
Proof. intros Hc w a w' [= _ <-]. by apply queues_snoc. Qed.

(** *** Looking into the table *)

Lemma get_queue_inv w qi q w' : get_queue qi w = Ret q w' →
  w' = w ∧ ∃ a ql, queues w = Some (a, ql) ∧ arr_get ql qi = Some q.
Proof.
  intros H. unfold get_queue in H. mrun. split; [done|]. eexists _, _. split; [|eassumption].
  unfold queues. by rewrite <- surjective_pairing.
Qed.



Lemma table_queues_ok w : table_good (queues w) → (∃ a ql, queues w = Some (a, ql)) → queues_ok w.
Proof. intros Ht (a & ql & Hp). exists a, ql. split; [done|]. intros i q Hq. by apply (Ht a ql Hp). Qed.

(** A command of the table: where it is and what it looks like. *)
Lemma queue_table_lookup w qi ci c : table_good (queues w) → lookup_cmd (queues w) qi ci = Some c →
  0 <= qi < cores ∧ 0 <= ci < RMEM_QUEUE_DEPTH ∧ cmd_good qi ci c.
Proof.
  intros Ht (a & ql & q & b & cl & Hp & Hq & Hl & Hc)%lookup_cmd_Some. destruct (Ht _ _ Hp) as [Hn Hall].
  pose proof (arr_get_Some _ _ _ Hq) as Hqi. pose proof (arr_get_Some _ _ _ Hc) as Hci.
  rewrite <- (Z2Nat.id qi), arr_get_lookup in Hq by lia. rewrite <- (Z2Nat.id ci), arr_get_lookup in Hc by lia.
  destruct (Hall _ _ Hq) as (((_ & b' & cl' & Hl' & Hlen) & _) & Hd & Hgood).
  rewrite Hl in Hl'. injection Hl' as <- <-.
  assert (0 <= cores) by apply u32_range.
  split; [lia|]. split; [rewrite <- Hd; lia|]. specialize (Hgood _ _ _ _ Hl Hc).
  rewrite !Z2Nat.id in Hgood by lia. exact Hgood.
Qed.

(** A change of one command that keeps what is known of it. *)
Lemma table_alter qi ci f w : table_good (queues w) → 0 <= qi → 0 <= ci →
  (∀ c, cmd_good qi ci c → cmd_good qi ci (f c)) → table_good (queues (alter_w qi ci f w)).
Proof.
  intros Ht Hqi Hci Hf. change (queues (alter_w qi ci f w)) with (alter_cmd qi ci f (queues w)).
  intros a ql' Hp. unfold alter_cmd in Hp. apply fmap_Some in Hp as ([a0 ql] & Hp & [= -> ->]).
  destruct (Ht _ _ Hp) as [Hn Hall]. split; [by rewrite length_alter|].
  intros i q Hi. destruct (decide (Z.to_nat qi = i)) as [<-|Hne].
  2:{ rewrite list_lookup_alter_ne in Hi by done. by apply Hall. }
  rewrite list_lookup_alter_eq in Hi. apply fmap_Some in Hi as (q0 & Hq0 & ->).
  destruct (Hall _ _ Hq0) as (((Hd & b & cl & Hl & Hlen) & Hs & Hsh) & Hdep & Hgood). rewrite Z2Nat.id in * by lia.
  destruct q0 as [p d cp ix s]. cbn in *. subst p.
  assert (∀ j c, alter f (Z.to_nat ci) cl !! j = Some c → cmd_good qi (Z.of_nat j) c) as Hcl.
  { intros j c Hj. destruct (decide (Z.to_nat ci = j)) as [<-|Hne].
    - rewrite list_lookup_alter_eq in Hj. apply fmap_Some in Hj as (c0 & Hc0 & ->).
      rewrite Z2Nat.id by lia. apply Hf. rewrite <- (Z2Nat.id ci) by lia. by eapply Hgood.
    - rewrite list_lookup_alter_ne in Hj by done. by eapply Hgood. }
  split; [|split; [done|]].
  - split; [split; [done|]; eexists _, _; split; [reflexivity|]; by rewrite length_alter|]. split; [done|].
    intros b' cl' j c [= <- <-] Hj. by apply Hcl.
  - intros b' cl' j c [= <- <-] Hj. by apply Hcl.
Qed.

End Inv.

#[export] Hint Resolve qkeeps_call qkeeps_call_int qkeeps_call_ptr : pres.
#[export] Hint Extern 1 (post_good _) => exact I : pres.
#[export] Hint Extern 2 (pres qkeeps (set_sess _)) => apply qkeeps_modify; intros ? ?; assumption : pres.
#[export] Hint Extern 2 (pres qkeeps (set_dev _)) => apply qkeeps_modify; intros ? ?; assumption : pres.
#[export] Hint Extern 2 (pres qkeeps (modify _)) => apply qkeeps_modify; intros ? ?; assumption : pres.

(** ** Taking and giving back *)

Section Commands.
Context {K : kernel}.

Lemma post_rdma_inv w op rq qi chunk off len r w' :
  table_good (queues w) → post_rdma op rq qi chunk off len w = Ret r w' →
  w' = w ∨ ∃ k c, first_free_at w qi k c ∧ cmd_shape qi (Z.of_nat k) c ∧
    w' = add_trace (post_call (prepared op rq chunk off len c)) (alter_w qi (Z.of_nat k) (prepared op rq chunk off len) w).
Proof.
  intros Ht H. destruct (decide (chunk_state chunk = MAPPED)) as [Hm|Hm].
  2: { left. unfold post_rdma in H. rewrite bool_decide_true in H by done. by injection H. }
  right. assert (∃ q, get_queue qi w = Ret q w) as [q Hq].
  { unfold post_rdma in H. rewrite bool_decide_false in H by tauto. apply M_bind_Ret in H as (ci & w1 & Hg & _).
    unfold get_a_free_rdma_cmd_from_rdma_q in Hg. apply M_bind_Ret in Hg as (q & w2 & Hq & _).
    pose proof Hq as [-> _]%get_queue_inv. by exists q. }
  apply get_queue_inv in Hq as (_ & a & ql & Hp & Hq).
  assert (queues_ok w) as Hok by (apply table_queues_ok; [done|by eexists _, _]).
  destruct (get_free_cases w qi a ql q Hok Hp Hq) as [(k & c & Hf & Hsh & Hg)|[_ Hg]].
  2: { unfold post_rdma in H. rewrite bool_decide_false, (M_bind_oops _ _ _ _ Hg) in H by tauto. done. }
  exists k, c. split; [done|]. split; [done|]. destruct (qp (w_sess w)) as [|aq|e] eqn:Hqp.
  2: { rewrite (post_rdma_run w op rq qi chunk off len k c aq Hf Hsh Hg Hqp Hm) in H. by injection H. }
  all: exfalso; unfold post_rdma in H; rewrite bool_decide_false in H by tauto; rewrite (M_bind_step _ _ _ _ _ Hg) in H;
    destruct Hf as (Hc & _ & _); rewrite !(upd_cmd_step _ _ _ _ _ _ _ Hc), (get_cmd_step _ _ _ _ _ _ Hc) in H;
    cbn -[mbind] in H; destruct Hsh as (_ & _ & Hown & _); rewrite Hown, (upd_cmd_step _ _ _ _ _ _ _ Hc) in H;
    apply M_bind_Ret in H as (x & v & Hd & _); apply M_bind_Ret in Hd as (p & v' & [= <- <-] & Hd);
    lazymatch type of Hd with deref _ ?u = _ => change (deref (qp (w_sess w)) u = Ret x v) in Hd end;
    rewrite Hqp in Hd; discriminate Hd.
Qed.

Lemma qkeeps_post op rq qi chunk off len : pres qkeeps (post_rdma op rq qi chunk off len).
Proof.
  intros w r w' H (Hn & Ht & Hp). destruct (post_rdma_inv _ _ _ _ _ _ _ _ _ Ht H) as [->|(k & c & Hf & Hsh & ->)]; [done|].
  destruct Hf as (Hc & _ & _). destruct (queue_table_lookup _ _ _ _ Ht Hc) as (Hqi & Hci & _).
  apply queues_snoc.
  - destruct Hsh as (H1 & H2 & H3 & H4 & _). cbn. rewrite H1, H2, H3, H4. split_and!; [done..|]. by exists qi, (Z.of_nat k).
  - split; [exact Hn|]. split; [|exact Hp]. apply table_alter; [done|lia|lia|]. intros d [Hd _]. split; [done|].
    right. split; [done|]. by eexists.
Qed.



Lemma qkeeps_get_queue qi : pres qkeeps (get_queue qi).
Proof. unfold get_queue. pres_go. Qed.
Lemma qkeeps_get_chunk i : pres qkeeps (get_chunk i).
Proof. unfold get_chunk. pres_go. Qed.
Hint Resolve qkeeps_post qkeeps_get_queue qkeeps_get_chunk : pres.


End Commands.

(** ** Initialisation *)

Section Init.
Context {K : kernel}.





(** Initialisation posts nothing and leaves the number of cores. *)
Definition quiet (w w' : world) : Prop :=
  w_online_cores w = w_online_cores w' ∧ (Forall post_good (w_trace w) → Forall post_good (w_trace w')).
#[local] Instance quiet_preorder : PreOrder quiet.
Proof. split; [by intros w|]. intros w1 w2 w3 [H1 H2] [H3 H4]. split; [congruence|auto]. Qed.



End Init.

(** ** Messages, events and the life of the module *)

Section Life.
Context {K : kernel}.

Lemma qkeeps_kzalloc {A} n (x : A) : pres qkeeps (kzalloc n x).
Proof. unfold kzalloc. pres_go. Qed.
Lemma qkeeps_name s : pres qkeeps (name_buffer s).
Proof. unfold name_buffer, strcpy. pres_go. Qed.
Hint Resolve qkeeps_kzalloc qkeeps_name : pres.









End Life.

(** ** Witness *)




