(* ===== verification/Server.v ===== *)
(** * The memory server

    The user-level daemon of [server/]: [rdma-common.c] and
    [infiniswap-daemon.c].  The server allocates chunks of 1 GB, hands them to
    clients as registered memory regions and takes them back.

    The state is the global [session] with the connections it points at; the
    verbs library, the allocator and [/proc/meminfo] are the parameter
    [verbs], which answers every call depending on all calls made so far.
    [die] ends the process ([Exit]); a dereference of NULL or an access
    outside an array is a fault. *)

From S2P Require Import Prelude BitOps OctTypes Kernel.

(** ** Constants *)

Definition MAX_CLIENT : Z := 1.
Definition EXTRA_CHUNK_NUM : Z := 2.
Definition MAX_FREE_MEM_GB : Z := 32.
Definition MAX_MR_SIZE_GB : Z := 32.
Definition ONE_MB : Z := 1048576.
Definition FREE_MEM_EVICT_THRESHOLD : Z := 8.
Definition FREE_MEM_EXPAND_THRESHOLD : Z := 16.
Definition CQ_QP_BUSY : Z := 1.
Definition CQ_QP_IDLE : Z := 0.
Definition CHUNK_MALLOCED : Z := 1.
Definition CHUNK_EMPTY : Z := 0.

(** ** State *)

Inductive server_state := S_WAIT | S_BIND | S_DONE.
Inductive conn_state := CONN_IDLE | CONN_CONNECTED | CONN_MAPPED | CONN_FAILED.

#[export] Instance conn_state_dec : EqDecision conn_state.
Proof. solve_decision. Defined.

(** A registered memory region: the fields the server reads. *)
Record ibv_mr := mkMr { mr_addr : Z; mr_rkey : Z }.

Record connection := mkConn {
  conn_index : Z;
  sess_chunk_map : list Z;
  mapped_chunk_size : Z;
  evict_sem : Z;
  stop_sem : Z;
  connected : Z;
  recv_msg : message;
  send_msg : message;
  cq_qp_state : Z;
  conn_server_state : server_state
}.
#[export] Instance connection_eta : Eta connection :=
  λ r, mkConn (conn_index r) (sess_chunk_map r) (mapped_chunk_size r) (evict_sem r) (stop_sem r)
    (connected r) (recv_msg r) (send_msg r) (cq_qp_state r) (conn_server_state r).

Record rdma_remote_mem := mkRemote {
  region_list : list (option Z);
  mr_list : list (option ibv_mr);
  size_gb : Z;
  mapped_size : Z;
  conn_map : list Z;
  malloc_map : list Z;
  conn_chunk_map : list Z
}.
#[export] Instance rdma_remote_mem_eta : Eta rdma_remote_mem :=
  λ r, mkRemote (region_list r) (mr_list r) (size_gb r) (mapped_size r) (conn_map r) (malloc_map r)
    (conn_chunk_map r).

(** The attributes of a queue pair and of a connection, as they are passed to
    [rdma_create_qp] and [rdma_accept]. *)
Inductive ibv_qp_type := IBV_QPT_RC | IBV_QPT_UC | IBV_QPT_UD.
Record ibv_qp_init_attr := mkQpAttr {
  qp_type : ibv_qp_type;
  max_send_wr : Z;
  max_recv_wr : Z;
  max_send_sge : Z;
  max_recv_sge : Z
}.
Record rdma_conn_param := mkConnParam {
  initiator_depth : Z;
  responder_resources : Z;
  rnr_retry_count : Z
}.

(** Calls of the daemon. *)
Inductive scall :=
| V_posix_memalign (alignment size : Z)
| V_free (a : option Z)
| V_ibv_reg_mr (a : option Z) (size : Z)
| V_ibv_dereg_mr (m : option ibv_mr)
| V_reg_message_mr
| V_dereg_message_mr
| V_ibv_post_send (conn : nat) (m : message)
| V_ibv_post_recv (conn : nat)
| V_ibv_alloc_pd
| V_ibv_create_comp_channel
| V_ibv_create_cq
| V_ibv_req_notify_cq
| V_pthread_create
| V_rdma_create_qp (a : ibv_qp_init_attr)
| V_rdma_accept (p : rdma_conn_param)
| V_rdma_destroy_qp
| V_rdma_destroy_id
| V_ibv_get_cq_event
| V_ibv_ack_cq_events
| V_rdma_create_event_channel
| V_rdma_create_id
| V_rdma_bind_addr
| V_rdma_listen (backlog : Z)
| V_rdma_ack_cm_event
| V_rdma_destroy_event_channel
| V_meminfo.

(** The global state: the [session], the connections allocated so far (an
    entry is [None] once freed), the shared context and the calls made. *)
Record server := mkServer {
  rdma_remote : rdma_remote_mem;
  conns : list (option nat);
  conns_state : list conn_state;
  conn_num : Z;
  conn_heap : list (option connection);
  s_ctx : option Z;        (* the verbs context *)
  running : Z;
  s_trace : list scall
}.
#[export] Instance server_eta : Eta server :=
  λ r, mkServer (rdma_remote r) (conns r) (conns_state r) (conn_num r) (conn_heap r) (s_ctx r)
    (running r) (s_trace r).

Class verbs := mkVerbs {
  v_int : list scall → scall → Z;                  (* integer results *)
  v_ptr : list scall → scall → option Z;           (* pointers, None is NULL *)
  v_mr : list scall → scall → option ibv_mr;       (* ibv_reg_mr *)
  v_meminfo : list scall → list Z;                 (* the bytes of the MemFree line *)
  v_garbage : connection                           (* contents of malloc'ed memory *)
}.

(** ** The monad *)

Inductive sres (A : Type) :=
| SRet (a : A) (s : server)
| Exit                      (* die *)
| SFault (f : fault).
Arguments SRet {A} a s.
Arguments Exit {A}.
Arguments SFault {A} f.

Definition S (A : Type) : Type := server → sres A.

#[export] Instance S_ret : MRet S := λ A a s, SRet a s.
#[export] Instance S_bind : MBind S := λ A B k m s,
  match m s with
  | SRet a s' => k a s'
  | Exit => Exit
  | SFault f => SFault f
  end.

Section Primitives.
Context {V : verbs}.

Definition sget {A} (f : server → A) : S A := λ s, SRet (f s) s.
Definition smod (f : server → server) : S unit := λ s, SRet tt (f s).
Definition die {A} : S A := λ _, Exit.
Definition sfault {A} (f : fault) : S A := λ _, SFault f.
Definition set_remote (f : rdma_remote_mem → rdma_remote_mem) : S unit :=
  smod (λ s, s <| rdma_remote ::= f |>).
Definition remote {A} (f : rdma_remote_mem → A) : S A := sget (λ s, f (rdma_remote s)).

Definition vcall (c : scall) : S unit := smod (λ s, s <| s_trace ::= (.++ [c]) |>).
Definition vcall_int (c : scall) : S Z := λ s, SRet (v_int (s_trace s) c) (s <| s_trace ::= (.++ [c]) |>).
Definition vcall_ptr (c : scall) : S (option Z) := λ s,
  SRet (v_ptr (s_trace s) c) (s <| s_trace ::= (.++ [c]) |>).
Definition vcall_mr (c : scall) : S (option ibv_mr) := λ s,
  SRet (v_mr (s_trace s) c) (s <| s_trace ::= (.++ [c]) |>).

(** [TEST_NZ(call)] and [TEST_Z(p = call)]. *)
Definition test_nz (c : scall) : S unit := r ← vcall_int c; if r =? 0 then mret tt else die.
Definition test_z (c : scall) : S Z := r ← vcall_ptr c; match r with Some a => mret a | None => die end.

(** Array accesses; a failure is a fault. *)
Definition sbounds {A} (p : option A) : S A :=
  match p with Some a => mret a | None => sfault OutOfBounds end.

(** The connection a pointer refers to; a freed one is a fault. *)
Definition get_conn (p : nat) : S connection :=
  h ← sget conn_heap;
  match h !! p with Some (Some c) => mret c | _ => sfault BadPtr end.
Definition upd_conn (p : nat) (f : connection → connection) : S unit :=
  c ← get_conn p; smod (λ s, s <| conn_heap ::= <[p := Some (f c)]> |>).

(** [for (i = i0; i < i0 + n; i++)], as in [Kernel.for_loop]. *)
Fixpoint sfor (n : nat) (i : Z) (body : Z → S bool) : S unit :=
  match n with
  | O => mret tt
  | Datatypes.S n => go ← body i; if go : bool then sfor n (i + 1) body else mret tt
  end.

(** ** Memory of the machine *)

(** The digits of the line, as in [get_free_mem]'s loop over its 60 bytes. *)
Fixpoint parse_digits (l : list Z) (res : Z) : Z :=
  match l with
  | [] => res
  | b :: l => if (48 <=? b) && (b <=? 57) then parse_digits l (res * 10 + (b - 48))
              else parse_digits l res
  end.

(** The line's bytes in the zeroed buffer of 60; 59 are read at most.  The
    result is a [long]: a number of kilobytes below 2^63. *)
Definition get_free_mem : S Z := λ s,
  let line := take 59 (v_meminfo (s_trace s)) in
  SRet (parse_digits (line ++ replicate (60 - length line) 0) 0) (s <| s_trace ::= (.++ [V_meminfo]) |>).

(** [posix_memalign] of a chunk into [region_list[i]], [memset] of it, and
    the mark in [malloc_map]; a failed allocation leaves the entry. *)
Definition alloc_chunk (i : Z) : S unit :=
  p ← vcall_ptr (V_posix_memalign ONE_GB ONE_GB);
  (match p with
   | Some a =>
       rl ← remote region_list;
       rl ← sbounds (arr_set rl i (Some a));
       set_remote (λ r, r <| region_list := rl |>)
   | None => mret tt
   end);;
  rl ← remote region_list;
  reg ← sbounds (arr_get rl i);
  (match reg with Some _ => mret tt | None => sfault NullDeref end);;   (* memset *)
  mm ← remote malloc_map;
  mm ← sbounds (arr_set mm i CHUNK_MALLOCED);
  set_remote (λ r, r <| malloc_map := mm |>).

(** How many of the free gigabytes are served. *)
Definition served_size (free_mem_g : Z) : Z :=
  let g :=
    if FREE_MEM_EXPAND_THRESHOLD <? free_mem_g
    then free_mem_g - (FREE_MEM_EVICT_THRESHOLD + FREE_MEM_EXPAND_THRESHOLD) / 2
    else if FREE_MEM_EVICT_THRESHOLD <? free_mem_g
    then free_mem_g - FREE_MEM_EVICT_THRESHOLD
    else 0 in
  if MAX_FREE_MEM_GB <? g then MAX_FREE_MEM_GB else g.

Definition rdma_session_init : S unit :=
  mem ← get_free_mem;
  let free_mem_g := i32 (mem / ONE_MB) in
  set_remote (λ r, r <| conn_map := replicate 32 (-1) |> <| conn_chunk_map := replicate 32 (-1) |>
                     <| malloc_map := replicate 32 CHUNK_EMPTY |>);;
  let free_mem_g := served_size free_mem_g in
  sfor (Z.to_nat free_mem_g) 0 (λ i, alloc_chunk i;; mret true);;
  set_remote (λ r, r <| size_gb := free_mem_g |> <| mapped_size := 0 |>);;
  smod (λ s, s <| conns := replicate (Z.to_nat MAX_CLIENT) None |>
               <| conns_state := replicate (Z.to_nat MAX_CLIENT) CONN_IDLE |> <| conn_num := 0 |>).

(** ** Messages *)

(** The busy wait for [connected] is endless when it is not set. *)
Definition send_message (p : nat) : S unit :=
  c ← get_conn p;
  if connected c =? 0 then sfault Spin
  else test_nz (V_ibv_post_send p (send_msg c)).

Definition post_receives (p : nat) : S unit :=
  _ ← get_conn p; test_nz (V_ibv_post_recv p).

Definition set_send (p : nat) (f : message → message) : S unit :=
  upd_conn p (λ c, c <| send_msg ::= f |>).

Definition zero_rkeys (p : nat) : S unit :=
  set_send p (λ m, m <| msg_rkey := replicate 32 0 |>).

(** Hands chunk [i] to the connection and enters it in the message. *)
Definition map_chunk (p : nat) (i : Z) : S unit :=
  c ← get_conn p;
  sm ← sbounds (arr_set (sess_chunk_map c) i i);
  upd_conn p (λ c, c <| sess_chunk_map := sm |>);;
  cm ← remote conn_map;
  cm ← sbounds (arr_set cm i (conn_index c));
  set_remote (λ r, r <| conn_map := cm |>);;
  rl ← remote region_list;
  reg ← sbounds (arr_get rl i);
  m ← vcall_mr (V_ibv_reg_mr reg ONE_GB);
  match m with
  | None => die
  | Some mr =>
      ml ← remote mr_list;
      ml ← sbounds (arr_set ml i (Some mr));
      set_remote (λ r, r <| mr_list := ml |>);;
      c ← get_conn p;
      b ← sbounds (arr_set (msg_buf (send_msg c)) i (htonll (mr_addr mr)));
      set_send p (λ m, m <| msg_buf := b |>);;
      k ← sbounds (arr_set (msg_rkey (send_msg c)) i (htonl (mr_rkey mr)));
      set_send p (λ m, m <| msg_rkey := k |>)
  end.

(** Chunk [i] is allocated and not handed out. *)
Definition chunk_available (i : Z) : S bool :=
  mm ← remote malloc_map;
  a ← sbounds (arr_get mm i);
  cm ← remote conn_map;
  o ← sbounds (arr_get cm i);
  mret ((a =? CHUNK_MALLOCED) && (o =? -1)).

Definition send_single_chunk_to_client (p : nat) (client_chunk_index : Z) : S unit :=
  set_send p (λ m, m <| msg_size_gb := client_chunk_index |>);;
  zero_rkeys p;;
  sfor (Z.to_nat MAX_FREE_MEM_GB) 0 (λ i,
    ok ← chunk_available i;
    if ok : bool then map_chunk p i;; mret false else mret true);;
  set_remote (λ r, r <| mapped_size ::= λ n, i32 (n + 1) |>);;
  upd_conn p (λ c, c <| mapped_chunk_size ::= λ n, i32 (n + 1) |>);;
  set_send p (λ m, m <| msg_type := message_type_code GOT_SINGLE_CHUNK |>);;
  send_message p.

(** The loop of [send_chunks_to_client] from chunk [i] on, with
    [sent_chunk_count] chunks to go. *)
Fixpoint send_chunks_loop (p : nat) (n : nat) (i sent_chunk_count : Z) : S unit :=
  match n with
  | O => mret tt
  | Datatypes.S n =>
      ok ← chunk_available i;
      if ok : bool then
        map_chunk p i;;
        let sent_chunk_count := i32 (sent_chunk_count - 1) in
        if sent_chunk_count =? 0 then mret tt
        else send_chunks_loop p n (i + 1) sent_chunk_count
      else send_chunks_loop p n (i + 1) sent_chunk_count
  end.

Definition send_chunks_to_client (p : nat) (size : Z) : S unit :=
  set_send p (λ m, m <| msg_size_gb := size |>);;
  zero_rkeys p;;
  send_chunks_loop p (Z.to_nat MAX_FREE_MEM_GB) 0 (Z.quot size CHUNK_SIZE_GB);;
  set_remote (λ r, r <| mapped_size ::= λ n, i32 (n + size) |>);;
  upd_conn p (λ c, c <| mapped_chunk_size ::= λ n, i32 (n + size) |>);;
  set_send p (λ m, m <| msg_type := message_type_code GOT_CHUNKS |>);;
  send_message p.

Definition send_free_mem_size (p : nat) : S unit :=
  set_send p (λ m, m <| msg_type := message_type_code FREE_SIZE |>);;
  r ← remote id;
  set_send p (λ m, m <| msg_size_gb := i32 (size_gb r - mapped_size r) |>);;
  send_message p.

Definition send_evict (p : nat) (n : Z) : S unit :=
  set_send p (λ m, m <| msg_type := message_type_code EVICT |>);;
  set_send p (λ m, m <| msg_size_gb := n |>);;
  zero_rkeys p;;
  send_message p.

Definition send_terminate (p : nat) : S unit :=
  set_send p (λ m, m <| msg_type := message_type_code DONE |>);;
  send_message p.

(** ** Returned chunks *)

(** One entry of a DONE message: the chunk is unregistered and freed. *)
Definition stop_chunk (p : nat) (i : Z) : S bool :=
  c ← get_conn p;
  k ← sbounds (arr_get (msg_rkey (recv_msg c)) i);
  if k =? 0 then mret true
  else
    index ← sbounds (arr_get (sess_chunk_map c) i);
    sm ← sbounds (arr_set (sess_chunk_map c) i (-1));
    upd_conn p (λ c, c <| sess_chunk_map := sm |>);;
    r ← remote id;
    mr ← sbounds (arr_get (mr_list r) index);
    vcall (V_ibv_dereg_mr mr);;
    reg ← sbounds (arr_get (region_list r) index);
    vcall (V_free reg);;
    cm ← sbounds (arr_set (conn_map r) index (-1));
    mm ← sbounds (arr_set (malloc_map r) index CHUNK_EMPTY);
    ccm ← sbounds (arr_set (conn_chunk_map r) index (-1));
    set_remote (λ r, r <| conn_map := cm |> <| malloc_map := mm |> <| conn_chunk_map := ccm |>);;
    mret true.

Definition set_conn_state (i : Z) (st : conn_state) : S unit :=
  l ← sget conns_state;
  l ← sbounds (arr_set l i st);
  smod (λ s, s <| conns_state := l |>).

Definition recv_done (p : nat) : S unit :=
  c ← get_conn p;
  let evict_g := msg_size_gb (recv_msg c) in
  sfor (Z.to_nat MAX_MR_SIZE_GB) 0 (stop_chunk p);;
  set_remote (λ r, r <| size_gb ::= λ n, i32 (n - evict_g) |> <| mapped_size ::= λ n, i32 (n - evict_g) |>);;
  upd_conn p (λ c, c <| mapped_chunk_size ::= λ n, i32 (n - evict_g) |>);;
  upd_conn p (λ c, c <| stop_sem ::= λ n, n + 1 |>);;
  c ← get_conn p;
  (if mapped_chunk_size c =? 0 then set_conn_state (conn_index c) CONN_CONNECTED else mret tt);;
  post_receives p.

(** ** Completions and connections *)

(** [status_ok]: [wc->status == IBV_WC_SUCCESS]; [recv]: the opcode is
    [IBV_WC_RECV]; [p]: the connection in [wr_id]. *)
Definition handle_cqe (status_ok recv : bool) (p : nat) : S unit :=
  if negb status_ok then die
  else if recv then
    c ← get_conn p;
    match message_type_of_code (msg_type (recv_msg c)) with
    | Some QUERY =>
        upd_conn p (λ c, c <| cq_qp_state := CQ_QP_BUSY |>);;
        send_free_mem_size p;;
        post_receives p
    | Some REQUEST_CHUNKS =>
        upd_conn p (λ c, c <| cq_qp_state := CQ_QP_BUSY |> <| conn_server_state := S_BIND |>);;
        send_chunks_to_client p (msg_size_gb (recv_msg c));;
        set_conn_state (conn_index c) CONN_MAPPED;;
        post_receives p
    | Some REQUEST_SINGLE_CHUNK =>
        upd_conn p (λ c, c <| cq_qp_state := CQ_QP_BUSY |> <| conn_server_state := S_BIND |>);;
        send_single_chunk_to_client p (msg_size_gb (recv_msg c));;
        set_conn_state (conn_index c) CONN_MAPPED;;
        post_receives p
    | Some ACTIVITY => upd_conn p (λ c, c <| evict_sem ::= λ n, n + 1 |>)
    | Some DONE =>
        upd_conn p (λ c, c <| cq_qp_state := CQ_QP_BUSY |>);;
        recv_done p
    | _ => die
    end
  else upd_conn p (λ c, c <| cq_qp_state := CQ_QP_IDLE |>).

(** [wcs] are the completions a poll finds; the thread runs as long as events
    come, and [evs] are the events of one run. *)
Record completion := mkCompletion { c_ok : bool; c_recv : bool; c_conn : nat; c_msg : option message }.

(** A completed receive has filled the connection's buffer. *)
Fixpoint handle_cqes (wcs : list completion) : S unit :=
  match wcs with
  | [] => mret tt
  | wc :: wcs =>
      (match c_msg wc with Some m => upd_conn (c_conn wc) (λ c, c <| recv_msg := m |>) | None => mret tt end);;
      handle_cqe (c_ok wc) (c_recv wc) (c_conn wc);;
      handle_cqes wcs
  end.

Fixpoint poll_cq (evs : list (list completion)) : S unit :=
  match evs with
  | [] => mret tt
  | wcs :: evs =>
      test_nz V_ibv_get_cq_event;;
      vcall V_ibv_ack_cq_events;;
      test_nz V_ibv_req_notify_cq;;
      handle_cqes wcs;;
      poll_cq evs
  end.

Definition build_params : rdma_conn_param := mkConnParam 1 1 7.

Definition build_qp_attr : ibv_qp_init_attr := mkQpAttr IBV_QPT_RC 10 100 1 1.

(** Registers the two message buffers of a connection. *)
Definition register_memory : S unit :=
  _ ← test_z V_reg_message_mr;
  _ ← test_z V_reg_message_mr;
  mret tt.

Definition build_context (ctx : Z) : S unit :=
  o ← sget s_ctx;
  match o with
  | Some c => if c =? ctx then mret tt else die
  | None =>
      smod (λ s, s <| s_ctx := Some ctx |>);;
      _ ← test_z V_ibv_alloc_pd;
      _ ← test_z V_ibv_create_comp_channel;
      _ ← test_z V_ibv_create_cq;
      test_nz V_ibv_req_notify_cq;;
      test_nz V_pthread_create
  end.

(** The search for an idle slot of the session. *)
Definition take_slot (p : nat) (i : Z) : S bool :=
  l ← sget conns_state;
  st ← sbounds (arr_get l i);
  if bool_decide (st = CONN_IDLE) then
    cs ← sget conns;
    cs ← sbounds (arr_set cs i (Some p));
    smod (λ s, s <| conns := cs |>);;
    set_conn_state i CONN_CONNECTED;;
    upd_conn p (λ c, c <| conn_index := i |>);;
    mret false
  else mret true.

(** The result is the new connection, [id->context]. *)
Definition build_connection (ctx : Z) : S nat :=
  build_context ctx;;
  test_nz (V_rdma_create_qp build_qp_attr);;
  p ← sget (λ s, length (conn_heap s));
  smod (λ s, s <| conn_heap ::= (.++ [Some v_garbage]) |>);;
  upd_conn p (λ c, c <| conn_server_state := S_WAIT |> <| connected := 0 |>
                     <| cq_qp_state := CQ_QP_BUSY |> <| stop_sem := 0 |> <| evict_sem := 0 |>
                     <| sess_chunk_map := replicate 32 (-1) |> <| mapped_chunk_size := 0 |>);;
  sfor (Z.to_nat MAX_CLIENT) 0 (take_slot p);;
  smod (λ s, s <| conn_num ::= λ n, n + 1 |>);;
  register_memory;;
  post_receives p;;
  mret p.

Definition unmap_chunk (sm : list Z) (i : Z) : S bool :=
  index ← sbounds (arr_get sm i);
  if index =? -1 then mret true
  else
    r ← remote id;
    cm ← sbounds (arr_set (conn_map r) index (-1));
    ccm ← sbounds (arr_set (conn_chunk_map r) index (-1));
    set_remote (λ r, r <| conn_map := cm |> <| conn_chunk_map := ccm |>);;
    mret true.

Definition destroy_connection (p : nat) : S unit :=
  c ← get_conn p;
  vcall V_rdma_destroy_qp;;
  vcall V_dereg_message_mr;;
  vcall V_dereg_message_mr;;
  (if 0 <? mapped_chunk_size c then
     sfor (Z.to_nat MAX_MR_SIZE_GB) 0 (unmap_chunk (sess_chunk_map c));;
     set_remote (λ r, r <| mapped_size ::= λ n, i32 (n - mapped_chunk_size c) |>)
   else mret tt);;
  cs ← sget conns;
  cs ← sbounds (arr_set cs (conn_index c) None);
  smod (λ s, s <| conns := cs |>);;
  set_conn_state (conn_index c) CONN_IDLE;;
  smod (λ s, s <| conn_num ::= λ n, n - 1 |>);;
  n ← sget conn_num;
  (if n =? 0 then smod (λ s, s <| running := 0 |>) else mret tt);;
  vcall V_rdma_destroy_id;;
  smod (λ s, s <| conn_heap ::= <[p := None]> |>).

Definition on_connect (p : nat) : S unit := upd_conn p (λ c, c <| connected := 1 |>).

(** The events of the daemon's connection manager; the listener's events carry
    the verbs context or the connection. *)
Inductive server_event :=
| ConnectRequest (ctx : Z)
| Established (p : nat)
| Disconnected (p : nat)
| OtherEvent.

Definition on_connect_request (ctx : Z) : S Z :=
  _ ← build_connection ctx; test_nz (V_rdma_accept build_params);; mret 0.

Definition rdma_connected (p : nat) : S Z := on_connect p;; send_free_mem_size p;; mret 0.

Definition on_disconnect (p : nat) : S Z := destroy_connection p;; mret 0.

Definition on_cm_event (e : server_event) : S Z :=
  match e with
  | ConnectRequest ctx => on_connect_request ctx
  | Established p => rdma_connected p
  | Disconnected p => on_disconnect p
  | OtherEvent => die
  end.

(** The loop of [main]: [events] are the events [rdma_get_cm_event] returns
    before it fails; a handler's result other than 0 ends the loop. *)
Fixpoint cm_loop (events : list server_event) : S unit :=
  match events with
  | [] => mret tt
  | e :: events =>
      vcall V_rdma_ack_cm_event;;
      r ← on_cm_event e;
      if r =? 0 then cm_loop events else mret tt
  end.

Definition main (argc : Z) (events : list server_event) : S Z :=
  if negb (argc =? 3) then die       (* usage *)
  else
    _ ← test_z V_rdma_create_event_channel;
    test_nz V_rdma_create_id;;
    test_nz V_rdma_bind_addr;;
    test_nz (V_rdma_listen 10);;
    smod (λ s, s <| running := 1 |>);;
    test_nz V_pthread_create;;
    cm_loop events;;
    vcall V_rdma_destroy_id;;
    vcall V_rdma_destroy_event_channel;;
    mret 0.

End Primitives.

(** ** Lemmas on the monad *)

Lemma S_bind_unfold {A B} (m : S A) (k : A → S B) s :
  (m ≫= k) s = match m s with SRet a s' => k a s' | Exit => Exit | SFault f => SFault f end.
Proof. reflexivity. Qed.

Lemma S_bind_step {A B} (m : S A) (k : A → S B) s a s1 :
  m s = SRet a s1 → (m ≫= k) s = k a s1.
Proof. rewrite S_bind_unfold. by intros ->. Qed.

(** [sstep] runs the first primitive of a computation in the goal. *)
Ltac sstep :=
  match goal with
  | |- context C [@mbind S S_bind ?A ?B ?k ?m ?s] =>
      let r := eval hnf in (m s) in
      lazymatch r with
      | SRet ?a ?s1 => let g := context C [k a s1] in change g; cbv beta zeta
      end
  end.

Lemma get_conn_run p c s :
  conn_heap s !! p = Some (Some c) → get_conn p s = SRet c s.
Proof. intros Hc. unfold get_conn. sstep. by rewrite Hc. Qed.

Lemma upd_conn_run p c f s :
  conn_heap s !! p = Some (Some c) →
  upd_conn p f s = SRet tt (s <| conn_heap ::= <[p := Some (f c)]> |>).
Proof. intros Hc. unfold upd_conn. by rewrite (S_bind_step _ _ _ _ _ (get_conn_run _ _ _ Hc)). Qed.

Lemma conn_heap_lookup p c s h :
  conn_heap s !! p = Some h → (<[p := c]> (conn_heap s)) !! p = Some c.
Proof. intros Hc. apply list_lookup_insert_eq. by eapply lookup_lt_Some. Qed.

(** ** Handing out chunks: the specification *)

(** The entry of a message for a chunk handed out or not, and the chunk a
    client makes of it. *)
Definition grant_key (o : option ibv_mr) : Z := match o with Some m => htonl (mr_rkey m) | None => 0 end.
Definition grant_chunk (m : ibv_mr) : remote_mapping_chunk := mkChunk (mr_rkey m) (mr_addr m) MAPPED.

(** Chunk [j] can be handed out. *)
Definition available (r : rdma_remote_mem) (j : nat) : bool :=
  bool_decide (malloc_map r !! j = Some CHUNK_MALLOCED ∧ conn_map r !! j = Some (-1)).

(** The arrays have their declared lengths, and an allocated chunk has its
    memory. *)
Definition wf_remote (r : rdma_remote_mem) : Prop :=
  length (region_list r) = 32%nat ∧ length (mr_list r) = 32%nat ∧ length (conn_map r) = 32%nat ∧
  length (malloc_map r) = 32%nat ∧ length (conn_chunk_map r) = 32%nat ∧
  ∀ j, malloc_map r !! j = Some CHUNK_MALLOCED → ∃ a, region_list r !! j = Some (Some a).

(** [s] is [s0] after the chunks of [G] have been handed to connection [p]. *)
Record granting (s0 : server) (p : nat) (c0 : connection) (G : list (option ibv_mr)) (s : server) : Prop := {
  g_len : length G = 32%nat;
  g_conn : ∃ c, conn_heap s !! p = Some (Some c) ∧ connected c = connected c0 ∧
    conn_index c = conn_index c0 ∧ mapped_chunk_size c = mapped_chunk_size c0 ∧
    length (sess_chunk_map c) = 32%nat ∧ length (msg_buf (send_msg c)) = 32%nat ∧
    msg_rkey (send_msg c) = grant_key <$> G ∧ msg_size_gb (send_msg c) = msg_size_gb (send_msg c0) ∧
    (∀ j m, G !! j = Some (Some m) → msg_buf (send_msg c) !! j = Some (htonll (mr_addr m)));
  g_same : malloc_map (rdma_remote s) = malloc_map (rdma_remote s0) ∧
    region_list (rdma_remote s) = region_list (rdma_remote s0) ∧
    size_gb (rdma_remote s) = size_gb (rdma_remote s0) ∧
    mapped_size (rdma_remote s) = mapped_size (rdma_remote s0);
  g_wf : wf_remote (rdma_remote s);
  g_map : ∀ j o, G !! j = Some o → conn_map (rdma_remote s) !! j =
    match o with Some _ => Some (conn_index c0) | None => conn_map (rdma_remote s0) !! j end;
  g_grant : ∀ j m, G !! j = Some (Some m) → available (rdma_remote s0) j = true ∧
    mr_list (rdma_remote s) !! j = Some (Some m) ∧
    region_list (rdma_remote s0) !! j = Some (Some (mr_addr m)) ∧ 0 < mr_rkey m < 2 ^ 32
}.

(** What the verbs library promises: registering a region of memory succeeds
    and gives the region's address and a 32-bit key, which is not zero. *)
Definition reg_ok `{V : verbs} : Prop :=
  ∀ tr a, ∃ k, 0 < k < 2 ^ 32 ∧ v_mr tr (V_ibv_reg_mr (Some a) ONE_GB) = Some (mkMr a k).

Lemma map_chunk_run `{V : verbs} s0 p c0 G s (i : nat) :
  reg_ok → granting s0 p c0 G s → G !! i = Some None → available (rdma_remote s0) i = true →
  ∃ m s', map_chunk p (Z.of_nat i) s = SRet tt s' ∧ granting s0 p c0 (<[i := Some m]> G) s'.
Proof.
  intros Hreg Hg HG Hav. destruct Hg as [Hlen (c & Hc & Hcon & Hidx & Hms & Hsm & Hbl & Hk & Hsz & Hb) (Hs1 & Hs2 & Hs3 & Hs4) Hwf Hmap Hgr].
  pose proof Hwf as (W1 & W2 & W3 & W4 & W5 & W6). apply bool_decide_eq_true in Hav as [Ha1 Ha2].
  assert (i < 32)%nat as Hi by (rewrite <- Hlen; by eapply lookup_lt_Some).
  destruct (W6 i) as [a Ha]; [by rewrite Hs1|].
  unfold map_chunk. rewrite (S_bind_step _ _ _ _ _ (get_conn_run _ _ _ Hc)).
  rewrite arr_set_Some, Nat2Z.id by lia. sstep.
  rewrite (S_bind_step _ _ _ _ _ (upd_conn_run _ _ _ _ Hc)). sstep.
  cbn -[mbind]. rewrite arr_set_Some, Nat2Z.id by lia. sstep. sstep. sstep. cbn -[mbind].
  rewrite arr_get_lookup, Ha. sstep. sstep. cbn -[mbind ONE_GB].
  match goal with |- context [v_mr ?tr ?cc] => destruct (Hreg tr a) as (k & Hkey & Hmr); rewrite Hmr end.
  sstep. cbn -[mbind ONE_GB]. rewrite arr_set_Some, Nat2Z.id by lia. sstep. sstep.
  set (c1 := c <| sess_chunk_map := _ |>).
  match goal with |- context [(get_conn p ≫= _) ?v] =>
    rewrite (S_bind_step _ _ _ _ _ (get_conn_run p c1 v (conn_heap_lookup p (Some c1) s _ Hc))) end.
  change (msg_buf (send_msg c1)) with (msg_buf (send_msg c)).
  change (msg_rkey (send_msg c1)) with (msg_rkey (send_msg c)).
  assert (length (msg_rkey (send_msg c)) = 32%nat) as Hkl by (by rewrite Hk, length_fmap).
  rewrite !arr_set_Some, Nat2Z.id by lia. sstep. unfold set_send.
  match goal with |- context [(upd_conn p _ ≫= _) ?v] =>
    rewrite (S_bind_step _ _ _ _ _ (upd_conn_run p c1 _ v (conn_heap_lookup p (Some c1) s _ Hc))) end.
  sstep. erewrite upd_conn_run by (cbn; rewrite list_insert_insert_eq; by apply (conn_heap_lookup p _ s _ Hc)).
  exists (mkMr a k). eexists. split; [reflexivity|].
  constructor; cbn; rewrite ?list_insert_insert_eq.
  - by rewrite length_insert.
  - eexists. split; [by apply (conn_heap_lookup p _ s _ Hc)|]. cbn. split_and!; try done.
    + by rewrite length_insert.
    + by rewrite length_insert.
    + by rewrite Hk, list_fmap_insert.
    + intros j m [(<- & [= <-] & _)|[Hne Hj]]%list_lookup_insert_Some; cbn.
      * apply list_lookup_insert_eq. lia.
      * rewrite list_lookup_insert_ne by done. by apply Hb.
  - done.
  - split_and!; cbn; rewrite ?length_insert; done.
  - intros j o [(<- & <- & _)|[Hne Hj]]%list_lookup_insert_Some; cbn.
    + rewrite Hidx. apply list_lookup_insert_eq. lia.
    + rewrite list_lookup_insert_ne by done. by apply Hmap.
  - intros j m [(<- & [= <-] & _)|[Hne Hj]]%list_lookup_insert_Some; cbn.
    + split; [by apply bool_decide_eq_true|]. split; [apply list_lookup_insert_eq; lia|].
      split; [by rewrite <- Hs2|done].
    + rewrite list_lookup_insert_ne by done. by apply Hgr.
Qed.

(** The chunks from [i] on that can be handed out, and those of a list that a
    request for [cnt] of them takes: the first [cnt], or all when [cnt] is not
    positive, since the loop stops only when its count hits zero. *)
Definition available_list (r : rdma_remote_mem) (i : nat) : list nat :=
  filter (λ j, available r j = true) (seq i (32 - i)).
Definition requested {A} (cnt : Z) (l : list A) : list A :=
  if cnt <? 1 then l else take (Z.to_nat cnt) l.

Definition granted (G : list (option ibv_mr)) (j : nat) : Prop := ∃ m, G !! j = Some (Some m).

Lemma available_list_cons r i :
  (i < 32)%nat → available_list r i =
  if available r i then i :: available_list r (Datatypes.S i) else available_list r (Datatypes.S i).
Proof.
  intros Hi. unfold available_list.
  replace (32 - i)%nat with (Datatypes.S (32 - Datatypes.S i)) by lia. cbn [seq].
  destruct (available r i) eqn:E; [by rewrite filter_cons_True|by rewrite filter_cons_False; rewrite ?E].
Qed.

Lemma available_list_ge r i j : j ∈ available_list r i → (i <= j)%nat.
Proof. intros [_ [? ?]%elem_of_seq]%list_elem_of_filter. lia. Qed.

Lemma available_list_length r i : (length (available_list r i) <= 32)%nat.
Proof.
  unfold available_list. etrans; [apply length_filter|]. rewrite length_seq. lia.
Qed.

Lemma requested_step {A} cnt (a : A) l :
  - 2 ^ 31 <= cnt < 2 ^ 31 → (length l <= 32)%nat →
  requested cnt (a :: l) =
  a :: (if i32 (cnt - 1) =? 0 then [] else requested (i32 (cnt - 1)) l).
Proof.
  intros Hc Hl. unfold requested. destruct (decide (cnt = - 2 ^ 31)) as [->|].
  { change (i32 _) with (2 ^ 31 - 1). by rewrite (take_ge l) by lia. }
  rewrite i32_id by lia.
  destruct (Z.ltb_spec cnt 1), (Z.eqb_spec (cnt - 1) 0), (Z.ltb_spec (cnt - 1) 1); try lia; try done.
  - by replace cnt with 1 by lia.
  - by replace (Z.to_nat cnt) with (Datatypes.S (Z.to_nat (cnt - 1))) by lia.
Qed.

Lemma chunk_available_run `{V : verbs} s (i : nat) :
  (i < length (malloc_map (rdma_remote s)))%nat → (i < length (conn_map (rdma_remote s)))%nat →
  chunk_available (Z.of_nat i) s = SRet (available (rdma_remote s) i) s.
Proof.
  intros W4 W3. unfold chunk_available, available. sstep.
  destruct (lookup_lt_is_Some_2 (malloc_map (rdma_remote s)) i) as [a Ha]; [lia|].
  destruct (lookup_lt_is_Some_2 (conn_map (rdma_remote s)) i) as [o Ho]; [lia|].
  rewrite arr_get_lookup, Ha. sstep. sstep. rewrite arr_get_lookup, Ho. sstep.
  cbv [mret S_ret]. f_equal.
  destruct (Z.eqb_spec a CHUNK_MALLOCED), (Z.eqb_spec o (-1)); cbn;
    [rewrite bool_decide_true|rewrite bool_decide_false..]; naive_solver.
Qed.

(** The loop of [send_chunks_to_client] hands out exactly the first chunks
    that are free, as many as requested. *)
Lemma send_chunks_loop_run `{V : verbs} s0 p c0 : ∀ (n i : nat) cnt G s,
  reg_ok → granting s0 p c0 G s → (i + n)%nat = 32%nat → - 2 ^ 31 <= cnt < 2 ^ 31 →
  (∀ j, (i <= j < 32)%nat → G !! j = Some None) →
  ∃ G' s', send_chunks_loop p n (Z.of_nat i) cnt s = SRet tt s' ∧ granting s0 p c0 G' s' ∧
    (∀ j, (j < i)%nat → G' !! j = G !! j) ∧
    (∀ j, (i <= j)%nat → granted G' j ↔ j ∈ requested cnt (available_list (rdma_remote s0) i)).
Proof.
  induction n as [|n IH]; intros i cnt G s Hreg Hg Hi Hcnt HG.
  { exists G, s. split; [done|]. split; [done|]. split; [done|]. intros j Hj.
    replace i with 32%nat by lia. unfold available_list. cbn.
    split; [|by unfold requested; destruct (cnt <? 1); rewrite ?take_nil; intros ?%not_elem_of_nil].
    intros [m Hm%lookup_lt_Some]. rewrite (g_len _ _ _ _ _ Hg) in Hm. lia. }
  assert (available (rdma_remote s) i = available (rdma_remote s0) i) as Hav.
  { unfold available. destruct (g_same _ _ _ _ _ Hg) as (-> & _).
    by rewrite (g_map _ _ _ _ _ Hg i None (HG i ltac:(lia))). }
  cbn [send_chunks_loop]. pose proof (g_wf _ _ _ _ _ Hg) as (_ & _ & W3 & W4 & _).
  rewrite (S_bind_step _ _ _ _ _ (chunk_available_run s i ltac:(lia) ltac:(lia))), Hav.
  rewrite available_list_cons by lia. replace (Z.of_nat i + 1) with (Z.of_nat (Datatypes.S i)) by lia.
  destruct (available (rdma_remote s0) i) eqn:Ha.
  - destruct (map_chunk_run s0 p c0 G s i Hreg Hg (HG i ltac:(lia)) Ha) as (m & s1 & Hm & Hg1).
    rewrite (S_bind_step _ _ _ _ _ Hm). cbv zeta.
    rewrite requested_step by (done || apply available_list_length).
    assert (i < length G)%nat as HiG by (rewrite (g_len _ _ _ _ _ Hg); lia).
    destruct (i32 (cnt - 1) =? 0) eqn:Hz.
    + exists (<[i := Some m]> G), s1. split; [done|]. split; [done|].
      split; [intros; by rewrite list_lookup_insert_ne by lia|].
      intros j Hj. rewrite list_elem_of_singleton. split.
      * intros [m' [(-> & _)|[Hne Hj']]%list_lookup_insert_Some]; [done|].
        assert (j < 32)%nat by (rewrite <- (g_len _ _ _ _ _ Hg); by eapply lookup_lt_Some).
        rewrite HG in Hj' by lia. congruence.
      * intros ->. exists m. by apply list_lookup_insert_eq.
    + destruct (IH (Datatypes.S i) (i32 (cnt - 1)) (<[i := Some m]> G) s1) as (G' & s' & Hr & Hg' & Hlo & Hhi);
        [done|done|lia|pose proof (i32_range (cnt - 1)); lia| |].
      { intros j Hj. rewrite list_lookup_insert_ne by lia. apply HG. lia. }
      exists G', s'. split; [done|]. split; [done|].
      split; [intros j Hj; rewrite Hlo by lia; by rewrite list_lookup_insert_ne by lia|].
      intros j Hj. rewrite elem_of_cons. destruct (decide (j = i)) as [->|].
      * split; [by left|]. intros _. exists m. rewrite Hlo by lia. by apply list_lookup_insert_eq.
      * rewrite Hhi by lia. naive_solver.
  - destruct (IH (Datatypes.S i) cnt G s) as (G' & s' & Hr & Hg' & Hlo & Hhi); [done..|lia|done| |].
    { intros j Hj. apply HG. lia. }
    exists G', s'. split; [done|]. split; [done|]. split; [intros j Hj; apply Hlo; lia|].
    intros j Hj. destruct (decide (j = i)) as [->|]; [|apply Hhi; lia].
    split.
    + intros [m Hm]. rewrite Hlo, HG in Hm by lia. congruence.
    + intros Hin. exfalso. enough (Datatypes.S i <= i)%nat by lia.
      apply (available_list_ge (rdma_remote s0)). unfold requested in Hin.
      destruct (cnt <? 1); [done|]. by apply elem_of_take in Hin as (k & Hk%list_elem_of_lookup_2 & _).
Qed.

(** The loop of [send_single_chunk_to_client] is the one of
    [send_chunks_to_client] for one chunk. *)
Lemma single_loop `{V : verbs} p : ∀ n i s,
  sfor n i (λ i, ok ← chunk_available i; if ok : bool then map_chunk p i;; mret false else mret true) s =
  send_chunks_loop p n i 1 s.
Proof.
  induction n as [|n IH]; intros i s; [done|]. cbn [sfor send_chunks_loop].
  rewrite !S_bind_unfold. destruct (chunk_available i s) as [ok s1| |f]; [|done..].
  destruct ok; [|cbn; apply IH]. rewrite !S_bind_unfold.
  destruct (map_chunk p i s1) as [[] s2| |f]; done.
Qed.

(** ** Theorems: handing out chunks *)

(** The connection's arrays have their declared lengths. *)
Definition wf_conn (c : connection) : Prop :=
  length (sess_chunk_map c) = 32%nat ∧ length (msg_buf (send_msg c)) = 32%nat.

Definition send_ok `{V : verbs} : Prop := ∀ tr p m, v_int tr (V_ibv_post_send p m) = 0.

(** The message [m] carries the regions of [G]: entry [j] holds the address and
    the key of [G]'s region [j] in network byte order, or the key 0. *)
Definition carries (m : message) (G : list (option ibv_mr)) : Prop :=
  length (msg_buf m) = 32%nat ∧ msg_rkey m = grant_key <$> G ∧
  ∀ j mr, G !! j = Some (Some mr) → msg_buf m !! j = Some (htonll (mr_addr mr)).

(** What a request for [cnt] chunks, answered by the message [m], does to the
    server's tables: [G] are the regions handed out. *)
Record handed_out (s : server) (p : nat) (c0 : connection) (cnt : Z) (G : list (option ibv_mr))
    (m : message) (s' : server) : Prop := {
  h_sent : last (s_trace s') = Some (V_ibv_post_send p m);
  h_carries : length G = 32%nat ∧ carries m G;
  h_which : ∀ j, granted G j ↔ j ∈ requested cnt (available_list (rdma_remote s) 0);
  h_region : ∀ j mr, G !! j = Some (Some mr) →
    region_list (rdma_remote s) !! j = Some (Some (mr_addr mr)) ∧ 0 < mr_rkey mr < 2 ^ 32 ∧
    mr_list (rdma_remote s') !! j = Some (Some mr) ∧
    conn_map (rdma_remote s') !! j = Some (conn_index c0);
  h_others : ∀ j, (j < 32)%nat → ¬ granted G j → conn_map (rdma_remote s') !! j = conn_map (rdma_remote s) !! j;
  h_alloc : malloc_map (rdma_remote s') = malloc_map (rdma_remote s) ∧
    region_list (rdma_remote s') = region_list (rdma_remote s) ∧
    size_gb (rdma_remote s') = size_gb (rdma_remote s);
  h_wf : wf_remote (rdma_remote s');
  h_conn : ∃ c', conn_heap s' !! p = Some (Some c') ∧ wf_conn c' ∧
    connected c' = connected c0 ∧ conn_index c' = conn_index c0
}.

(** The state in which the loop starts. *)
Definition cleared (p : nat) (c0 : connection) (size : Z) (s : server) : server :=
  s <| conn_heap := <[p := Some (c0 <| send_msg ::= λ m,
         m <| msg_size_gb := size |> <| msg_rkey := replicate 32 0 |> |>)]> (conn_heap s) |>.

Lemma cleared_granting p c0 size s :
  conn_heap s !! p = Some (Some c0) → wf_conn c0 → wf_remote (rdma_remote s) →
  granting s p (c0 <| send_msg ::= λ m, m <| msg_size_gb := size |> |>) (replicate 32 None)
    (cleared p c0 size s).
Proof.
  intros Hc [H1 H2] Hwf. constructor; cbn -[replicate]; [by rewrite length_replicate| |done|done| |].
  - eexists. split; [by apply (conn_heap_lookup p _ s _ Hc)|]. cbn -[replicate]. split_and!; try done.
    intros j m [? _]%lookup_replicate. done.
  - intros j o [-> _]%lookup_replicate. done.
  - intros j m [? _]%lookup_replicate. done.
Qed.

Lemma set_send_run p f c s :
  conn_heap s !! p = Some (Some c) →
  set_send p f s = SRet tt (s <| conn_heap ::= <[p := Some (c <| send_msg ::= f |>)]> |>).
Proof. apply upd_conn_run. Qed.

(** After the loop: the counters, the type of the message and the send. *)
Lemma reply_run `{V : verbs} s0 p c0 cnt n (t : message_type) G s :
  send_ok → granting s0 p c0 G s → connected c0 ≠ 0 →
  (∀ j, granted G j ↔ j ∈ requested cnt (available_list (rdma_remote s0) 0)) →
  ∃ m s', (set_remote (λ r, r <| mapped_size ::= λ k, i32 (k + n) |>);;
    upd_conn p (λ c, c <| mapped_chunk_size ::= λ k, i32 (k + n) |>);;
    set_send p (λ m, m <| msg_type := message_type_code t |>);;
    send_message p) s = SRet tt s' ∧
    handed_out s0 p c0 cnt G m s' ∧ msg_type m = message_type_code t ∧
    msg_size_gb m = msg_size_gb (send_msg c0) ∧
    mapped_size (rdma_remote s') = i32 (mapped_size (rdma_remote s0) + n).
Proof.
  intros Hsend Hg Hconn Hwhich.
  destruct Hg as [Hlen (c & Hc & Hcon & Hidx & Hms & Hsm & Hbl & Hk & Hsz & Hb) (Hs1 & Hs2 & Hs3 & Hs4) Hwf Hmap Hgr].
  sstep. erewrite S_bind_step by (apply upd_conn_run; exact Hc).
  erewrite S_bind_step by (apply set_send_run, (conn_heap_lookup p _ s _ Hc)).
  unfold send_message. erewrite S_bind_step by (apply get_conn_run; cbn;
    rewrite list_insert_insert_eq; apply (conn_heap_lookup p _ s _ Hc)).
  cbn -[test_nz Z.eqb]. rewrite Hcon. destruct (Z.eqb_spec (connected c0) 0); [done|].
  unfold test_nz. sstep. rewrite Hsend. cbn -[setter].
  match goal with |- context [V_ibv_post_send p ?m] => exists m end.
  eexists. split; [reflexivity|]. split; [|by cbn; rewrite Hs4].
  constructor.
  - apply last_snoc.
  - done.
  - exact Hwhich.
  - intros j mr Hj. destruct (Hgr _ _ Hj) as (_ & ? & ? & ?). specialize (Hmap _ _ Hj). done.
  - intros j Hj Hn. destruct (lookup_lt_is_Some_2 G j) as [[mr|] E]; [lia|by destruct Hn; exists mr|].
    exact (Hmap _ _ E).
  - done.
  - done.
  - eexists. split; [cbn; rewrite !list_insert_insert_eq; by apply (conn_heap_lookup p _ s _ Hc)|done].
Qed.

Lemma clear_run `{V : verbs} p c0 size s (k : S unit) :
  conn_heap s !! p = Some (Some c0) →
  (set_send p (λ m, m <| msg_size_gb := size |>);; zero_rkeys p;; k) s = k (cleared p c0 size s).
Proof.
  intros Hc. erewrite S_bind_step by by apply set_send_run.
  unfold zero_rkeys. erewrite S_bind_step by (apply set_send_run, (conn_heap_lookup p _ s _ Hc)).
  f_equal. unfold cleared, setter. cbn -[replicate]. by rewrite list_insert_insert_eq.
Qed.

(** Both requests, with their loop already in common. *)
Lemma hand_out_run `{V : verbs} p c0 size cnt n (t : message_type) s :
  reg_ok → send_ok → wf_remote (rdma_remote s) → conn_heap s !! p = Some (Some c0) → wf_conn c0 →
  connected c0 ≠ 0 → - 2 ^ 31 <= cnt < 2 ^ 31 →
  ∃ G m s', (set_send p (λ m, m <| msg_size_gb := size |>);; zero_rkeys p;;
    send_chunks_loop p (Z.to_nat MAX_FREE_MEM_GB) 0 cnt;;
    set_remote (λ r, r <| mapped_size ::= λ k, i32 (k + n) |>);;
    upd_conn p (λ c, c <| mapped_chunk_size ::= λ k, i32 (k + n) |>);;
    set_send p (λ m, m <| msg_type := message_type_code t |>);;
    send_message p) s = SRet tt s' ∧
    handed_out s p c0 cnt G m s' ∧ msg_type m = message_type_code t ∧ msg_size_gb m = size ∧
    mapped_size (rdma_remote s') = i32 (mapped_size (rdma_remote s) + n).
Proof.
  intros Hreg Hsend Hwf Hc Hwc Hconn Hcnt. rewrite (clear_run p c0) by done.
  pose proof (cleared_granting p c0 size s Hc Hwc Hwf) as Hg.
  destruct (send_chunks_loop_run s p _ 32 0 cnt _ _ Hreg Hg eq_refl Hcnt) as (G & s1 & Hrun & Hg1 & _ & Hwhich).
  { intros j Hj. apply lookup_replicate_2. lia. }
  erewrite S_bind_step by exact Hrun.
  destruct (reply_run s p _ cnt n t G s1 Hsend Hg1 Hconn) as (m & s' & Hr & Hh & Ht & Hs & Hm).
  { intros j. apply Hwhich. lia. }
  exists G, m, s'. split; [exact Hr|]. split; [|done]. destruct Hh. by constructor.
Qed.

(** C8. Answering a request for [size] chunks: the server posts one message
    of type GOT_CHUNKS that carries, in network byte order, the registered
    regions of exactly the first [size] chunks that are allocated and not yet
    handed out (all of them when [size] is not positive), records them as the
    connection's, and leaves all other chunks as they are; [mapped_size] grows
    by [size] even when fewer chunks were available. *)
Theorem send_chunks_spec `{V : verbs} p c0 size s :
  reg_ok → send_ok → wf_remote (rdma_remote s) → conn_heap s !! p = Some (Some c0) → wf_conn c0 →
  connected c0 ≠ 0 → - 2 ^ 31 <= size < 2 ^ 31 →
  ∃ G m s', send_chunks_to_client p size s = SRet tt s' ∧
    handed_out s p c0 size G m s' ∧
    msg_type m = message_type_code GOT_CHUNKS ∧ msg_size_gb m = size ∧
    mapped_size (rdma_remote s') = i32 (mapped_size (rdma_remote s) + size).
Proof.
  intros. unfold send_chunks_to_client. change CHUNK_SIZE_GB with 1. rewrite Z.quot_1_r.
  by apply hand_out_run.
Qed.

(** A request for a single chunk hands out the first chunk that is free,
    exactly as a request for one chunk does; the message is of type
    GOT_SINGLE_CHUNK and its size field echoes the client's chunk index. *)
Theorem send_single_chunk_spec `{V : verbs} p c0 index s :
  reg_ok → send_ok → wf_remote (rdma_remote s) → conn_heap s !! p = Some (Some c0) → wf_conn c0 →
  connected c0 ≠ 0 →
  ∃ G m s', send_single_chunk_to_client p index s = SRet tt s' ∧
    handed_out s p c0 1 G m s' ∧
    msg_type m = message_type_code GOT_SINGLE_CHUNK ∧ msg_size_gb m = index ∧
    mapped_size (rdma_remote s') = i32 (mapped_size (rdma_remote s) + 1).
Proof.
  intros Hreg Hsend Hwf Hc Hwc Hconn.
  destruct (hand_out_run p c0 index 1 1 GOT_SINGLE_CHUNK s) as (G & m & s' & Hr & H); [done..|].
  exists G, m, s'. split; [|exact H]. rewrite <- Hr. unfold send_single_chunk_to_client.
  rewrite !(clear_run p c0) by done. by rewrite !S_bind_unfold, single_loop.
Qed.

(** ** Theorems: starting the server *)

Definition alloc_ok `{V : verbs} : Prop :=
  ∀ tr, ∃ a, v_ptr tr (V_posix_memalign ONE_GB ONE_GB) = Some a.

(** The free memory the server sees next, in kilobytes and in gigabytes. *)
Definition free_kb `{V : verbs} (s : server) : Z :=
  let line := take 59 (v_meminfo (s_trace s)) in
  parse_digits (line ++ replicate (60 - length line) 0) 0.
Definition free_gb `{V : verbs} (s : server) : Z := i32 (free_kb s / ONE_MB).

Lemma get_free_mem_run `{V : verbs} s :
  get_free_mem s = SRet (free_kb s) (s <| s_trace ::= (.++ [V_meminfo]) |>).
Proof. reflexivity. Qed.

Lemma served_size_range g : - 2 ^ 31 <= g < 2 ^ 31 → 0 <= served_size g <= 32.
Proof.
  intros Hg. unfold served_size. change FREE_MEM_EXPAND_THRESHOLD with 16.
  change FREE_MEM_EVICT_THRESHOLD with 8. change MAX_FREE_MEM_GB with 32.
  change ((8 + 16) / 2) with 12.
  destruct (Z.ltb_spec 16 g), (Z.ltb_spec 8 g); case_match; lia.
Qed.

(** After the first [i] passes of the allocation loop. *)
Definition allocated (s1 : server) (i : nat) (s : server) : Prop :=
  conns s = conns s1 ∧ conns_state s = conns_state s1 ∧ conn_heap s = conn_heap s1 ∧
  mr_list (rdma_remote s) = mr_list (rdma_remote s1) ∧
  conn_map (rdma_remote s) = conn_map (rdma_remote s1) ∧
  conn_chunk_map (rdma_remote s) = conn_chunk_map (rdma_remote s1) ∧
  length (region_list (rdma_remote s)) = 32%nat ∧
  malloc_map (rdma_remote s) = replicate i CHUNK_MALLOCED ++ replicate (32 - i) CHUNK_EMPTY ∧
  ∀ j, (j < i)%nat → ∃ a, region_list (rdma_remote s) !! j = Some (Some a).

Lemma replicate_mark (i : nat) :
  (i < 32)%nat →
  <[i := CHUNK_MALLOCED]> (replicate i CHUNK_MALLOCED ++ replicate (32 - i) CHUNK_EMPTY) =
  replicate (Datatypes.S i) CHUNK_MALLOCED ++ replicate (32 - Datatypes.S i) CHUNK_EMPTY.
Proof.
  intros Hi. rewrite insert_app_r_alt by (rewrite length_replicate; lia).
  rewrite length_replicate, Nat.sub_diag, replicate_S_end, <- app_assoc.
  by replace (32 - i)%nat with (Datatypes.S (32 - Datatypes.S i)) by lia.
Qed.

(** The state after chunk [i] got the memory at [a]. *)
Definition with_chunk_at (i : nat) (a : Z) (s : server) : server :=
  s <| s_trace ::= (.++ [V_posix_memalign ONE_GB ONE_GB]) |>
    <| rdma_remote ::= λ r, r <| region_list := <[i := Some a]> (region_list r) |>
                              <| malloc_map := <[i := CHUNK_MALLOCED]> (malloc_map r) |> |>.

Lemma alloc_chunk_run `{V : verbs} (i : nat) s :
  alloc_ok → (i < length (region_list (rdma_remote s)))%nat → (i < length (malloc_map (rdma_remote s)))%nat →
  ∃ a, alloc_chunk (Z.of_nat i) s = SRet tt (with_chunk_at i a s).
Proof.
  intros Hal H1 H2. unfold alloc_chunk. sstep. destruct (Hal (s_trace s)) as [a ->]. exists a.
  erewrite S_bind_step.
  2: { sstep. cbn -[mbind ONE_GB]. rewrite arr_set_Some, Nat2Z.id by lia. sstep. reflexivity. }
  sstep.
  rewrite arr_get_lookup. cbn -[mbind ONE_GB]. rewrite list_lookup_insert_eq by lia. sstep. sstep. sstep.
  rewrite arr_set_Some, Nat2Z.id by (cbn; lia). sstep. reflexivity.
Qed.

Lemma alloc_allocated `{V : verbs} s1 (i : nat) s a :
  allocated s1 i s → (i < 32)%nat → allocated s1 (Datatypes.S i) (with_chunk_at i a s).
Proof.
  intros (H1 & H2 & H3 & H4 & H5 & H6 & H7 & H8 & H9) Hi.
  unfold allocated. cbn -[replicate Nat.sub]. split_and!; try done.
  - by rewrite length_insert.
  - rewrite H8. by apply replicate_mark.
  - intros j Hj. destruct (decide (j = i)) as [->|].
    + exists a. apply list_lookup_insert_eq. lia.
    + rewrite list_lookup_insert_ne by done. apply H9. lia.
Qed.

Lemma alloc_loop_run `{V : verbs} s1 : ∀ (n i : nat) s,
  alloc_ok → allocated s1 i s → (i + n <= 32)%nat →
  ∃ s', sfor n (Z.of_nat i) (λ i, alloc_chunk i;; mret true) s = SRet tt s' ∧ allocated s1 (i + n) s'.
Proof.
  induction n as [|n IH]; intros i s Hal Hs Hi.
  { exists s. by rewrite Nat.add_0_r. }
  pose proof Hs as (_ & _ & _ & _ & _ & _ & Hrl & Hmm & _).
  destruct (alloc_chunk_run i s Hal) as [a Ha]; [lia|rewrite Hmm, length_app, !length_replicate; lia|].
  pose proof (alloc_allocated s1 i s a Hs ltac:(lia)) as Hs2.
  cbn [sfor]. rewrite S_bind_unfold, (S_bind_step _ _ _ _ _ Ha). cbv [mret S_ret].
  replace (Z.of_nat i + 1) with (Z.of_nat (Datatypes.S i)) by lia.
  rewrite <- Nat.add_succ_comm. apply IH; [done|done|lia].
Qed.

(** The state in which the allocation loop starts. *)
Definition unallocated (s : server) : server :=
  s <| s_trace ::= (.++ [V_meminfo]) |>
    <| rdma_remote ::= λ r, r <| conn_map := replicate 32 (-1) |> <| conn_chunk_map := replicate 32 (-1) |>
                              <| malloc_map := replicate 32 CHUNK_EMPTY |> |>.

Lemma available_fresh r (n : nat) :
  (n <= 32)%nat → conn_map r = replicate 32 (-1) →
  malloc_map r = replicate n CHUNK_MALLOCED ++ replicate (32 - n) CHUNK_EMPTY →
  ∀ j, available r j = bool_decide (j < n)%nat.
Proof.
  intros Hn Hc Hm j. unfold available. apply bool_decide_ext. rewrite Hc, Hm. split.
  - intros [[Hl|[Hl Hr]]%lookup_app_Some _].
    + apply lookup_lt_Some in Hl. by rewrite length_replicate in Hl.
    + by apply lookup_replicate in Hr as [? _].
  - intros Hj. split.
    + rewrite lookup_app_l by (by rewrite length_replicate). by apply lookup_replicate_2.
    + apply lookup_replicate_2. lia.
Qed.

Lemma available_list_fresh r (n : nat) :
  (n <= 32)%nat → (∀ j, available r j = bool_decide (j < n)%nat) → available_list r 0 = seq 0 n.
Proof.
  intros Hn Hav. unfold available_list. replace (32 - 0)%nat with (n + (32 - n))%nat by lia.
  rewrite seq_app, filter_app, Nat.add_0_l.
  rewrite (filter_all _ (seq 0 n)), (filter_none _ (seq n _)), app_nil_r; [done| |];
    apply Forall_forall; intros j [Hlo Hhi]%elem_of_seq.
  - rewrite Hav, bool_decide_false by lia. done.
  - rewrite Hav. apply bool_decide_true. lia.
Qed.

Lemma session_init_run `{V : verbs} s :
  alloc_ok → length (region_list (rdma_remote s)) = 32%nat → length (mr_list (rdma_remote s)) = 32%nat →
  ∃ s', rdma_session_init s = SRet tt s' ∧ wf_remote (rdma_remote s') ∧
    let n := served_size (free_gb s) in
    size_gb (rdma_remote s') = n ∧ mapped_size (rdma_remote s') = 0 ∧
    available_list (rdma_remote s') 0 = seq 0 (Z.to_nat n) ∧
    conns s' = [None] ∧ conns_state s' = [CONN_IDLE] ∧ conn_num s' = 0 ∧ conn_heap s' = conn_heap s.
Proof.
  intros Hal Hrl Hml. pose proof (served_size_range (free_gb s) (i32_range _)) as Hn.
  destruct (alloc_loop_run (unallocated s) (Z.to_nat (served_size (free_gb s))) 0 (unallocated s))
    as (s1 & Hrun & Hs1); [done|unfold allocated; split_and!; try done; lia|lia|].
  assert (rdma_session_init s =
    (sfor (Z.to_nat (served_size (free_gb s))) 0 (λ i, alloc_chunk i;; mret true);;
     set_remote (λ r, r <| size_gb := served_size (free_gb s) |> <| mapped_size := 0 |>);;
     smod (λ s, s <| conns := replicate (Z.to_nat MAX_CLIENT) None |>
               <| conns_state := replicate (Z.to_nat MAX_CLIENT) CONN_IDLE |> <| conn_num := 0 |>))
    (unallocated s)) as -> by reflexivity.
  rewrite (S_bind_step _ _ _ _ _ Hrun). sstep. eexists. split; [reflexivity|].
  destruct Hs1 as (_ & _ & H3 & H4 & H5 & H6 & H7 & H8 & H9). rewrite Nat.add_0_l in *.
  split.
  - unfold wf_remote. cbn -[replicate Nat.sub]. rewrite H4, H5, H6, H7, H8. split_and!; try done.
    + rewrite length_app, !length_replicate. lia.
    + intros j [Hj|[_ [? _]%lookup_replicate]]%lookup_app_Some; [|done].
      apply H9. apply lookup_lt_Some in Hj. by rewrite length_replicate in Hj.
  - split_and!; try done. apply available_list_fresh; [lia|]. apply available_fresh; [lia|done|done].
Qed.

(** Starting the server: with memory for the chunks, the session comes up
    with [served_size] of the free gigabytes allocated, between 0 and 32, all
    of them ready to be handed out, no chunk mapped and the only client slot
    idle. *)
Theorem rdma_session_init_spec `{V : verbs} s :
  alloc_ok → length (region_list (rdma_remote s)) = 32%nat → length (mr_list (rdma_remote s)) = 32%nat →
  ∃ s', rdma_session_init s = SRet tt s' ∧ wf_remote (rdma_remote s') ∧
    let n := served_size (free_gb s) in
    0 <= n <= 32 ∧ size_gb (rdma_remote s') = n ∧ mapped_size (rdma_remote s') = 0 ∧
    available_list (rdma_remote s') 0 = seq 0 (Z.to_nat n) ∧
    conns s' = [None] ∧ conns_state s' = [CONN_IDLE] ∧ conn_num s' = 0.
Proof.
  intros Hal Hr Hm. pose proof (served_size_range (free_gb s) (i32_range _)).
  destruct (session_init_run s Hal Hr Hm) as (s' & ? & ? & ? & ? & ? & ? & ? & ? & _). eauto 12.
Qed.

(** ** Theorems: announcing the free size *)

Lemma send_free_run `{V : verbs} p c s :
  send_ok → conn_heap s !! p = Some (Some c) → connected c ≠ 0 →
  ∃ m s', send_free_mem_size p s = SRet tt s' ∧
    last (s_trace s') = Some (V_ibv_post_send p m) ∧ msg_type m = message_type_code FREE_SIZE ∧
    msg_size_gb m = i32 (size_gb (rdma_remote s) - mapped_size (rdma_remote s)) ∧
    msg_buf m = msg_buf (send_msg c) ∧ msg_rkey m = msg_rkey (send_msg c) ∧
    rdma_remote s' = rdma_remote s ∧
    conn_heap s' = <[p := Some (c <| send_msg := m |>)]> (conn_heap s).
Proof.
  intros Hsend Hc Hcon. unfold send_free_mem_size.
  erewrite S_bind_step by by apply set_send_run. sstep.
  erewrite S_bind_step by (apply set_send_run, (conn_heap_lookup p _ s _ Hc)).
  unfold send_message. erewrite S_bind_step by (apply get_conn_run; cbn;
    rewrite list_insert_insert_eq; apply (conn_heap_lookup p _ s _ Hc)).
  cbn -[test_nz Z.eqb]. destruct (Z.eqb_spec (connected c) 0); [done|].
  unfold test_nz. sstep. rewrite Hsend. cbn -[setter].
  match goal with |- context [V_ibv_post_send p ?m] => exists m end.
  eexists. split; [reflexivity|]. split; [apply last_snoc|]. split_and!; try done.
  cbn. by rewrite list_insert_insert_eq.
Qed.

(** The server counts what was asked for, not what it gave: when a client
    asks for more chunks than the [k] there are (all of them free), the server
    hands out all [k] and the next free size it announces is negative. *)
Theorem mapped_size_overcounts `{V : verbs} p c size s :
  reg_ok → send_ok → wf_remote (rdma_remote s) → conn_heap s !! p = Some (Some c) → wf_conn c →
  connected c ≠ 0 → mapped_size (rdma_remote s) = 0 →
  size_gb (rdma_remote s) = Z.of_nat (length (available_list (rdma_remote s) 0)) →
  size_gb (rdma_remote s) < size < 2 ^ 31 →
  ∃ G m s1 m' s2, send_chunks_to_client p size s = SRet tt s1 ∧ handed_out s p c size G m s1 ∧
    (∀ j, granted G j ↔ j ∈ available_list (rdma_remote s) 0) ∧
    send_free_mem_size p s1 = SRet tt s2 ∧ last (s_trace s2) = Some (V_ibv_post_send p m') ∧
    msg_type m' = message_type_code FREE_SIZE ∧
    msg_size_gb m' = size_gb (rdma_remote s) - size ∧ msg_size_gb m' < 0.
Proof.
  intros Hreg Hsend Hwf Hc Hwc Hcon H0 Hk Hsz.
  pose proof (available_list_length (rdma_remote s) 0) as Hlen.
  destruct (hand_out_run p c size size size GOT_CHUNKS s) as (G & m & s1 & Hr & Hh & _ & _ & Hm);
    [done..|lia|].
  destruct (h_conn _ _ _ _ _ _ _ Hh) as (c1 & Hc1 & _ & Hcon1 & _).
  destruct (send_free_run p c1 s1) as (m' & s2 & Hr2 & Hl & Ht & Hms & _); [done|done|by rewrite Hcon1|].
  exists G, m, s1, m', s2. split.
  { unfold send_chunks_to_client. change CHUNK_SIZE_GB with 1. by rewrite Z.quot_1_r. }
  split; [done|]. split.
  { intros j. rewrite (h_which _ _ _ _ _ _ _ Hh). unfold requested.
    destruct (Z.ltb_spec size 1); [done|]. by rewrite take_ge by lia. }
  destruct (h_alloc _ _ _ _ _ _ _ Hh) as (_ & _ & Hsg).
  rewrite Hsg, Hm, H0 in Hms. rewrite Z.add_0_l, (i32_id size), i32_id in Hms by lia.
  split_and!; try done. lia.
Qed.

(** ** Theorems: reading the free memory *)

(** The decimal digits of a number, as bytes. *)
Fixpoint dec_digits (fuel : nat) (n : Z) : list Z :=
  match fuel with
  | O => []
  | Datatypes.S fuel => (if n <? 10 then [] else dec_digits fuel (n / 10)) ++ [48 + n mod 10]
  end.

Definition no_digit (b : Z) : Prop := ¬ 48 <= b <= 57.

Lemma parse_app l k r : parse_digits (l ++ k) r = parse_digits k (parse_digits l r).
Proof.
  revert r. induction l as [|b l IH]; intros r; [done|]. cbn.
  destruct ((48 <=? b) && (b <=? 57)); apply IH.
Qed.

Lemma parse_no_digit l r : Forall no_digit l → parse_digits l r = r.
Proof.
  induction 1 as [|b l Hb _ IH]; [done|]. cbn. unfold no_digit in Hb.
  destruct (Z.leb_spec 48 b), (Z.leb_spec b 57); cbn; try apply IH. lia.
Qed.

Lemma parse_dec fuel : ∀ n, 0 <= n < 10 ^ Z.of_nat fuel → parse_digits (dec_digits fuel n) 0 = n.
Proof.
  induction fuel as [|fuel IH]; intros n Hn; [cbn in *; lia|].
  rewrite Nat2Z.inj_succ, Z.pow_succ_r in Hn by lia.
  cbn [dec_digits]. rewrite parse_app.
  assert (parse_digits (if n <? 10 then [] else dec_digits fuel (n / 10)) 0 = n / 10) as ->.
  { destruct (Z.ltb_spec n 10); [cbn; dlia|]. apply IH. dlia. }
  cbn. destruct (Z.leb_spec 48 (48 + n mod 10)), (Z.leb_spec (48 + n mod 10) 57); cbn; dlia.
Qed.

(** The server reads its free memory back exactly: whatever label and unit
    surround the decimal number in the line of [/proc/meminfo], as long as
    they contain no digit, the line fits the buffer and the number a [long]. *)
Theorem get_free_mem_reads `{V : verbs} s fuel n label unit :
  0 <= n < 10 ^ Z.of_nat fuel → n < 2 ^ 63 → Forall no_digit label → Forall no_digit unit →
  v_meminfo (s_trace s) = label ++ dec_digits fuel n ++ unit →
  (length (label ++ dec_digits fuel n ++ unit) <= 59)%nat →
  get_free_mem s = SRet n (s <| s_trace ::= (.++ [V_meminfo]) |>).
Proof.
  intros Hn _ Hl Hu Hv Hlen. rewrite get_free_mem_run. f_equal. unfold free_kb. rewrite Hv, take_ge by done.
  rewrite !parse_app, (parse_no_digit label), parse_dec, !parse_no_digit; try done.
  apply Forall_replicate. unfold no_digit. lia.
Qed.

(** ** Theorems: connections *)

Definition setup_ok `{V : verbs} : Prop :=
  (∀ tr c, v_int tr c = 0) ∧ ∀ tr c, c ≠ V_posix_memalign ONE_GB ONE_GB → ∃ a, v_ptr tr c = Some a.

(** A new connection before it looks for a slot. *)
Definition new_conn `{V : verbs} : connection :=
  v_garbage <| conn_server_state := S_WAIT |> <| connected := 0 |>
            <| cq_qp_state := CQ_QP_BUSY |> <| stop_sem := 0 |> <| evict_sem := 0 |>
            <| sess_chunk_map := replicate 32 (-1) |> <| mapped_chunk_size := 0 |>.

Lemma test_nz_run `{V : verbs} c s :
  setup_ok → test_nz c s = SRet tt (s <| s_trace ::= (.++ [c]) |>).
Proof. intros [Hi _]. unfold test_nz. sstep. by rewrite Hi. Qed.

Lemma test_z_run `{V : verbs} c s :
  setup_ok → c ≠ V_posix_memalign ONE_GB ONE_GB →
  ∃ a, test_z c s = SRet a (s <| s_trace ::= (.++ [c]) |>).
Proof.
  intros [_ Hp] Hc. unfold test_z. sstep. destruct (Hp (s_trace s) c Hc) as [a ->]. by exists a.
Qed.

Lemma register_memory_run `{V : verbs} s :
  setup_ok → register_memory s =
  SRet tt (s <| s_trace ::= (.++ [V_reg_message_mr]) |> <| s_trace ::= (.++ [V_reg_message_mr]) |>).
Proof.
  intros Hok. unfold register_memory.
  edestruct (test_z_run V_reg_message_mr) as [a1 Ha1]; [done|done|]. rewrite (S_bind_step _ _ _ _ _ Ha1).
  edestruct (test_z_run V_reg_message_mr) as [a2 Ha2]; [done|done|]. by rewrite (S_bind_step _ _ _ _ _ Ha2).
Qed.

(** What building a context leaves alone. *)
Definition same_session (s s' : server) : Prop :=
  rdma_remote s' = rdma_remote s ∧ conns s' = conns s ∧ conns_state s' = conns_state s ∧
  conn_num s' = conn_num s ∧ conn_heap s' = conn_heap s ∧ running s' = running s.

Lemma build_context_run `{V : verbs} ctx s :
  setup_ok → s_ctx s = None ∨ s_ctx s = Some ctx →
  ∃ s', build_context ctx s = SRet tt s' ∧ same_session s s' ∧ s_ctx s' = Some ctx.
Proof.
  intros Hok Hc. unfold build_context. sstep. destruct Hc as [-> |Hc]; [|rewrite Hc].
  - sstep.
    edestruct (test_z_run V_ibv_alloc_pd) as [a1 H1]; [done|done|]. rewrite (S_bind_step _ _ _ _ _ H1).
    edestruct (test_z_run V_ibv_create_comp_channel) as [a2 H2]; [done|done|]. rewrite (S_bind_step _ _ _ _ _ H2).
    edestruct (test_z_run V_ibv_create_cq) as [a3 H3]; [done|done|]. rewrite (S_bind_step _ _ _ _ _ H3).
    erewrite S_bind_step by by apply test_nz_run. rewrite test_nz_run by done.
    eexists. by split.
  - rewrite Z.eqb_refl. eexists. by split.
Qed.

Lemma snoc_lookup_r {A} (l : list A) x : (l ++ [x]) !! length l = Some x.
Proof. by apply list_lookup_middle. Qed.

Lemma snoc_insert {A} (l : list A) x y : <[length l := y]> (l ++ [x]) = l ++ [y].
Proof. by rewrite insert_app_r_alt, Nat.sub_diag by lia. Qed.

(** The slot search of a session with one slot. *)
Lemma take_slot_run `{V : verbs} p c s o st :
  conns s = [o] → conns_state s = [st] → conn_heap s !! p = Some (Some c) →
  sfor (Z.to_nat MAX_CLIENT) 0 (take_slot p) s =
  SRet tt (if bool_decide (st = CONN_IDLE)
           then s <| conns := [Some p] |> <| conns_state := [CONN_CONNECTED] |>
                  <| conn_heap ::= <[p := Some (c <| conn_index := 0 |>)]> |>
           else s).
Proof.
  intros Ho Hst Hc. change (Z.to_nat MAX_CLIENT) with 1%nat. cbn [sfor].
  rewrite S_bind_unfold. unfold take_slot. sstep. rewrite Hst.
  change (arr_get [st] 0) with (Some st). sstep.
  case_bool_decide; [|done]. sstep. rewrite Ho. change (arr_set [o] 0 (Some p)) with (Some [Some p]).
  sstep. sstep.
  erewrite S_bind_step.
  2: { unfold set_conn_state. sstep. cbn -[mbind]. rewrite Hst.
       change (arr_set [st] 0 CONN_CONNECTED) with (Some [CONN_CONNECTED]). sstep. reflexivity. }
  erewrite S_bind_step by (apply upd_conn_run; exact Hc). reflexivity.
Qed.

Lemma build_connection_run `{V : verbs} ctx s o st :
  setup_ok → s_ctx s = None ∨ s_ctx s = Some ctx → conns s = [o] → conns_state s = [st] →
  let p := length (conn_heap s) in
  let idle := bool_decide (st = CONN_IDLE) in
  ∃ s', build_connection ctx s = SRet p s' ∧ rdma_remote s' = rdma_remote s ∧
    conn_heap s' = conn_heap s ++ [Some (if idle then new_conn <| conn_index := 0 |> else new_conn)] ∧
    conns s' = [if idle then Some p else o] ∧
    conns_state s' = [if idle then CONN_CONNECTED else st] ∧ conn_num s' = conn_num s + 1 ∧
    s_ctx s' = Some ctx.
Proof.
  intros Hok Hctx Ho Hst. cbv zeta. unfold build_connection.
  destruct (build_context_run ctx s Hok Hctx) as (s1 & H1 & (Hr & Hco & Hcs & Hn & Hh & _) & Hctx1).
  rewrite (S_bind_step _ _ _ _ _ H1). erewrite S_bind_step by by apply test_nz_run.
  sstep. cbn -[mbind]. rewrite Hh. sstep.
  erewrite S_bind_step by (apply upd_conn_run; cbn; rewrite Hh; apply snoc_lookup_r).
  change (v_garbage <| _ := _ |>) with new_conn.
  erewrite S_bind_step.
  2: { eapply take_slot_run; [by rewrite <- Hco in Ho|by rewrite <- Hcs in Hst|].
       cbn. rewrite Hh, snoc_insert. apply snoc_lookup_r. }
  sstep.
  rewrite (S_bind_step _ _ _ _ _ (register_memory_run _ Hok)).
  unfold post_receives. erewrite S_bind_step.
  2: { erewrite S_bind_step.
       2: { apply (get_conn_run _ (if bool_decide (st = CONN_IDLE) then new_conn <| conn_index := 0 |> else new_conn)).
            cbn. case_bool_decide; cbn; rewrite Hh, !snoc_insert; apply snoc_lookup_r. }
       by apply test_nz_run. }
  eexists. split; [reflexivity|]. cbn. case_bool_decide; cbn; rewrite ?Hh, ?snoc_insert, ?Hn, ?Hco, ?Hcs; done.
Qed.

(** The session has one client slot: the first connection gets it, with
    index 0.  A second connection while it is taken is accepted all the same,
    but gets no slot: its index is whatever its memory held, and unless that
    happens to be 0 its disconnection writes outside the tables. *)
Theorem second_client_has_no_slot `{V : verbs} ctx s :
  setup_ok → s_ctx s = None → conns s = [None] → conns_state s = [CONN_IDLE] →
  ∃ s1, build_connection ctx s = SRet (length (conn_heap s)) s1 ∧
    conns s1 = [Some (length (conn_heap s))] ∧ conns_state s1 = [CONN_CONNECTED] ∧
    ∃ p s2, build_connection ctx s1 = SRet p s2 ∧ conns s2 = conns s1 ∧ conn_num s2 = conn_num s + 2 ∧
      conn_heap s2 !! p = Some (Some new_conn) ∧
      (conn_index v_garbage ≠ 0 → on_disconnect p s2 = SFault OutOfBounds).
Proof.
  intros Hok Hctx Hc Hst.
  destruct (build_connection_run ctx s None CONN_IDLE) as (s1 & H1 & _ & Hh1 & Hc1 & Hst1 & Hn1 & Hx1); [done|by left|done|done|].
  rewrite bool_decide_true in Hh1, Hc1, Hst1 by done.
  exists s1. split_and!; [done|done|done|].
  destruct (build_connection_run ctx s1 (Some (length (conn_heap s))) CONN_CONNECTED)
    as (s2 & H2 & _ & Hh2 & Hc2 & _ & Hn2 & _); [done|by right|done|done|].
  rewrite bool_decide_false in Hh2, Hc2 by done.
  exists (length (conn_heap s1)), s2. split_and!; [done|by rewrite Hc2, Hc1|lia|rewrite Hh2; apply snoc_lookup_r|].
  intros Hidx. unfold on_disconnect, destroy_connection.
  assert (get_conn (length (conn_heap s1)) s2 = SRet new_conn s2) as Hg.
  { apply get_conn_run. rewrite Hh2. apply snoc_lookup_r. }
  rewrite S_bind_unfold, (S_bind_step _ _ _ _ _ Hg). do 3 sstep.
  change (0 <? mapped_chunk_size new_conn) with false. cbv iota. sstep. sstep.
  change (conns (s2 <| _ ::= _ |> <| _ ::= _ |> <| _ ::= _ |>)) with (conns s2). rewrite Hc2.
  change (conn_index new_conn) with (conn_index v_garbage). unfold arr_set.
  rewrite decide_False by (cbn; lia). reflexivity.
Qed.

(** ** Disconnection *)

Definition with_maps (cm ccm : list Z) (s : server) : server :=
  s <| rdma_remote ::= λ r, r <| conn_map := cm |> <| conn_chunk_map := ccm |> |>.

(** The connection's table of chunks: empty entries and chunk numbers. *)
Definition valid_map (sm : list Z) : Prop := Forall (λ x, x = -1 ∨ 0 <= x < 32) sm.

Lemma unmap_loop_run `{V : verbs} sm : ∀ (n i : nat) s,
  length sm = (i + n)%nat → valid_map sm →
  length (conn_map (rdma_remote s)) = 32%nat → length (conn_chunk_map (rdma_remote s)) = 32%nat →
  ∃ cm ccm, sfor n (Z.of_nat i) (unmap_chunk sm) s = SRet tt (with_maps cm ccm s) ∧
    length cm = 32%nat ∧ length ccm = 32%nat ∧
    ∀ j, (j < 32)%nat → cm !! j = if bool_decide (Z.of_nat j ∈ drop i sm) then Some (-1)
                                  else conn_map (rdma_remote s) !! j.
Proof.
  induction n as [|n IH]; intros i s Hlen Hv Hc Hcc.
  { exists (conn_map (rdma_remote s)), (conn_chunk_map (rdma_remote s)). split_and!; try done.
    - cbn. destruct s as [[] ? ? ? ? ? ? ?]. reflexivity.
    - intros j Hj. rewrite drop_ge by lia. by rewrite bool_decide_false by apply not_elem_of_nil. }
  destruct (lookup_lt_is_Some_2 sm i) as [x Hx]; [lia|].
  cbn [sfor]. rewrite S_bind_unfold. unfold unmap_chunk at 1.
  rewrite arr_get_lookup, Hx. sstep.
  replace (Z.of_nat i + 1) with (Z.of_nat (Datatypes.S i)) by lia.
  destruct (Z.eqb_spec x (-1)) as [->|Hne].
  - cbv [mret S_ret]. destruct (IH (Datatypes.S i) s) as (cm & ccm & Hr & H1 & H2 & H3); [lia|done..|].
    exists cm, ccm. split_and!; try done. intros j Hj. rewrite H3 by done.
    rewrite (drop_S _ _ _ Hx). erewrite bool_decide_ext; [reflexivity|].
    rewrite elem_of_cons. split; [by right|]. intros [?|?]; [lia|done].
  - destruct (Forall_lookup_1 _ _ _ _ Hv Hx) as [?|Hr]; [done|].
    sstep. cbn [id]. rewrite !arr_set_Some by lia. do 3 sstep.
    cbv [mret S_ret].
    edestruct (IH (Datatypes.S i)) as (cm & ccm & Hrun & H1 & H2 & H3).
    5: { exists cm, ccm. rewrite Hrun. split_and!; [reflexivity|done|done|].
         intros j Hj. rewrite H3 by done. cbn. rewrite (drop_S _ _ _ Hx).
         destruct (decide (Z.of_nat j = x)) as [<-|Hjx].
         - rewrite (bool_decide_true (_ ∈ _ :: _)) by left. case_bool_decide; [done|].
           rewrite Nat2Z.id. apply list_lookup_insert_eq. lia.
         - rewrite list_lookup_insert_ne by lia. erewrite bool_decide_ext; [reflexivity|].
           rewrite elem_of_cons. naive_solver. }
    + lia.
    + done.
    + cbn. by rewrite length_insert.
    + cbn. by rewrite length_insert.
Qed.

(** A client that disconnects gives its chunks back: when it holds chunks,
    every chunk of its table becomes unmapped and no other chunk changes;
    its slot becomes idle, its connection is freed, what it was counted for
    is taken off [mapped_size], and the server stops watching its memory when
    it was the last one. *)
Theorem disconnect_releases_chunks `{V : verbs} p c s st :
  conn_heap s !! p = Some (Some c) → conns s = [Some p] → conns_state s = [st] → conn_index c = 0 →
  length (sess_chunk_map c) = 32%nat → valid_map (sess_chunk_map c) →
  length (conn_map (rdma_remote s)) = 32%nat → length (conn_chunk_map (rdma_remote s)) = 32%nat →
  0 < mapped_chunk_size c →
  ∃ s', on_disconnect p s = SRet 0 s' ∧
    conn_heap s' !! p = Some None ∧ conns s' = [None] ∧ conns_state s' = [CONN_IDLE] ∧
    conn_num s' = conn_num s - 1 ∧ (running s' = if conn_num s - 1 =? 0 then 0 else running s) ∧
    mapped_size (rdma_remote s') = i32 (mapped_size (rdma_remote s) - mapped_chunk_size c) ∧
    malloc_map (rdma_remote s') = malloc_map (rdma_remote s) ∧
    ∀ j, (j < 32)%nat → conn_map (rdma_remote s') !! j =
      if bool_decide (Z.of_nat j ∈ sess_chunk_map c) then Some (-1) else conn_map (rdma_remote s) !! j.
Proof.
  intros Hc Hs Hst Hidx Hlen Hv Hcm Hccm Hpos. unfold on_disconnect, destroy_connection.
  rewrite S_bind_unfold, (S_bind_step _ _ _ _ _ (get_conn_run _ _ _ Hc)). do 3 sstep.
  destruct (Z.ltb_spec 0 (mapped_chunk_size c)); [|lia].
  set (s1 := s <| _ ::= _ |> <| _ ::= _ |> <| _ ::= _ |>).
  destruct (unmap_loop_run (sess_chunk_map c) 32 0 s1) as (cm & ccm & Hr & H1 & H2 & H3); [done..|].
  erewrite S_bind_step.
  2: { erewrite S_bind_step by exact Hr. reflexivity. }
  sstep. cbn -[mbind i32]. rewrite Hs, Hidx. change (arr_set [Some p] 0 None) with (Some [@None nat]). sstep. sstep.
  erewrite S_bind_step.
  2: { unfold set_conn_state. sstep. cbn -[mbind i32]. rewrite Hst.
       change (arr_set [st] 0 CONN_IDLE) with (Some [CONN_IDLE]). sstep. reflexivity. }
  sstep. sstep. cbn -[mbind i32 Z.eqb].
  destruct (conn_num s - 1 =? 0); repeat sstep; (eexists; split; [reflexivity|]); cbn;
    (split; [by apply (conn_heap_lookup p _ s _ Hc)|]); split_and!; done.
Qed.

(** ** Witnesses *)

(** A verbs library and a machine on which everything succeeds: 24 GB are
    free, allocations and keys are numbered by the calls made before. *)
#[local] Instance verbs_ok : verbs := {|
  v_int := λ _ _, 0;
  v_ptr := λ tr _, Some (ONE_GB * Z.of_nat (Datatypes.S (length tr)));
  v_mr := λ tr c, match c with
                  | V_ibv_reg_mr (Some a) _ => Some (mkMr a (Z.of_nat (Nat.modulo (length tr) 1000) + 1))
                  | _ => None
                  end;
  v_meminfo := λ _, [77; 101; 109; 70; 114; 101; 101; 58; 32] ++ dec_digits 8 25165824 ++ [32; 107; 66; 10];
  v_garbage := mkConn 77 [] 5 0 0 9 zero_message zero_message 0 S_WAIT
|}.

Definition server0 : server :=
  mkServer (mkRemote (replicate 32 None) (replicate 32 None) 0 0 (replicate 32 0) (replicate 32 0) (replicate 32 0))
    [] [] 0 [] None 1 [].

(** The server after its start, after a client connected to it. *)
Definition run {A} (f : S A) (s : server) : server := match f s with SRet _ s' => s' | _ => s end.
Definition demo_started : server := run rdma_session_init server0.
Definition demo_connected : server := run (on_cm_event (Established 0)) (run (on_cm_event (ConnectRequest 5)) demo_started).

(** The connection of [demo_connected]. *)
Definition demo_conn : connection :=
  match conn_heap demo_connected !! 0%nat with Some (Some c) => c | _ => v_garbage end.

Lemma demo_connected_conn : conn_heap demo_connected !! 0%nat = Some (Some demo_conn).
Proof. vm_compute. reflexivity. Qed.

Lemma demo_connected_books :
  size_gb (rdma_remote demo_connected) = 12 ∧ mapped_size (rdma_remote demo_connected) = 0 ∧
  available_list (rdma_remote demo_connected) 0 = seq 0 12 ∧ connected demo_conn = 1 ∧
  conn_index demo_conn = 0 ∧ conns demo_connected = [Some 0%nat] ∧ conns_state demo_connected = [CONN_CONNECTED].
Proof. vm_compute. split_and!; reflexivity. Qed.

Lemma demo_wf_conn : wf_conn demo_conn.
Proof. split; vm_compute; reflexivity. Qed.

(** Well-formedness, decided. *)
Definition wf_remoteb (r : rdma_remote_mem) : bool :=
  bool_decide (length (region_list r) = 32%nat ∧ length (mr_list r) = 32%nat ∧ length (conn_map r) = 32%nat ∧
    length (malloc_map r) = 32%nat ∧ length (conn_chunk_map r) = 32%nat) &&
  forallb (λ p : Z * option Z, negb (p.1 =? CHUNK_MALLOCED) || match p.2 with Some _ => true | None => false end)
    (zip (malloc_map r) (region_list r)).

Lemma wf_remoteb_sound r : wf_remoteb r = true → wf_remote r.
Proof.
  intros [(H1 & H2 & H3 & H4 & H5)%bool_decide_eq_true Hf]%andb_true_iff. split_and!; try done.
  intros j Hj. destruct (lookup_lt_is_Some_2 (region_list r) j) as [o Ho].
  { rewrite H1, <- H4. by eapply lookup_lt_Some. }
  rewrite forallb_forall in Hf. specialize (Hf (CHUNK_MALLOCED, o)).
  destruct o as [a|]; [by exists a|]. discriminate Hf. apply list_elem_of_In, list_elem_of_lookup.
  exists j. apply lookup_zip_with_Some. eauto.
Qed.

Lemma verbs_ok_reg : reg_ok.
Proof.
  intros tr a. eexists. split; [|reflexivity].
  pose proof (Nat.mod_upper_bound (length tr) 1000 ltac:(lia)). lia.
Qed.

Lemma verbs_ok_send : send_ok.
Proof. by intros tr p m. Qed.

Lemma demo_wf_remote : wf_remote (rdma_remote demo_connected).
Proof. apply wf_remoteb_sound. vm_compute. reflexivity. Qed.

Lemma send_chunks_spec_witness :
  ∃ G m s', send_chunks_to_client 0 3 demo_connected = SRet tt s' ∧
    handed_out demo_connected 0 demo_conn 3 G m s' ∧ msg_size_gb m = 3.
Proof.
  destruct demo_connected_books as (_ & _ & _ & Hc & _).
  destruct (send_chunks_spec 0 demo_conn 3 demo_connected verbs_ok_reg verbs_ok_send demo_wf_remote
    demo_connected_conn demo_wf_conn) as (G & m & s' & H1 & H2 & _ & H3 & _); [lia|lia|].
  exists G, m, s'. split; [exact H1|]. split; [exact H2|exact H3].
Defined.

Lemma send_single_chunk_spec_witness :
  ∃ G m s', send_single_chunk_to_client 0 7 demo_connected = SRet tt s' ∧
    handed_out demo_connected 0 demo_conn 1 G m s' ∧ msg_size_gb m = 7.
Proof.
  destruct demo_connected_books as (_ & _ & _ & Hc & _).
  destruct (send_single_chunk_spec 0 demo_conn 7 demo_connected verbs_ok_reg verbs_ok_send demo_wf_remote
    demo_connected_conn demo_wf_conn) as (G & m & s' & H1 & H2 & _ & H3 & _); [lia|].
  exists G, m, s'. split; [exact H1|]. split; [exact H2|exact H3].
Defined.

Lemma rdma_session_init_spec_witness :
  ∃ s', rdma_session_init server0 = SRet tt s' ∧ size_gb (rdma_remote s') = 12.
Proof.
  destruct (rdma_session_init_spec server0) as (s' & H1 & _ & _ & H2 & _).
  - intros tr. by eexists.
  - reflexivity.
  - reflexivity.
  - exists s'. split; [exact H1|]. rewrite H2. vm_compute. reflexivity.
Defined.

Lemma mapped_size_overcounts_witness :
  ∃ s1 m' s2, send_chunks_to_client 0 32 demo_connected = SRet tt s1 ∧ send_free_mem_size 0 s1 = SRet tt s2 ∧
    last (s_trace s2) = Some (V_ibv_post_send 0 m') ∧ msg_size_gb m' = -20.
Proof.
  destruct demo_connected_books as (Hs & H0 & Ha & Hc & _).
  destruct (mapped_size_overcounts 0 demo_conn 32 demo_connected verbs_ok_reg verbs_ok_send demo_wf_remote
    demo_connected_conn demo_wf_conn) as (G & m & s1 & m' & s2 & H1 & _ & _ & H2 & H3 & _ & H4 & _).
  - lia.
  - exact H0.
  - rewrite Hs, Ha. reflexivity.
  - lia.
  - exists s1, m', s2. split; [exact H1|]. split; [exact H2|]. split; [exact H3|]. rewrite H4, Hs. reflexivity.
Defined.

Lemma get_free_mem_reads_witness :
  get_free_mem server0 = SRet 25165824 (server0 <| s_trace ::= (.++ [V_meminfo]) |>).
Proof.
  apply (get_free_mem_reads server0 8 25165824 [77; 101; 109; 70; 114; 101; 101; 58; 32] [32; 107; 66; 10]).
  - lia.
  - lia.
  - repeat constructor; unfold no_digit; lia.
  - repeat constructor; unfold no_digit; lia.
  - reflexivity.
  - vm_compute. lia.
Defined.

Lemma verbs_ok_setup : setup_ok.
Proof. split; [done|]. intros. by eexists. Qed.

Lemma second_client_has_no_slot_witness :
  ∃ s1 p s2, build_connection 5 demo_started = SRet 0%nat s1 ∧ build_connection 5 s1 = SRet p s2 ∧
    on_disconnect p s2 = SFault OutOfBounds.
Proof.
  destruct (second_client_has_no_slot 5 demo_started verbs_ok_setup) as (s1 & H1 & _ & _ & p & s2 & H2 & _ & _ & _ & H3).
  - vm_compute. reflexivity.
  - vm_compute. reflexivity.
  - vm_compute. reflexivity.
  - exists s1, p, s2. split; [exact H1|]. split; [exact H2|]. apply H3. cbn. lia.
Defined.

(** The client took three chunks. *)
Definition demo_mapped : server := run (send_chunks_to_client 0 3) demo_connected.
Definition demo_mapped_conn : connection :=
  match conn_heap demo_mapped !! 0%nat with Some (Some c) => c | _ => v_garbage end.

Lemma disconnect_releases_chunks_witness :
  ∃ s', on_disconnect 0 demo_mapped = SRet 0 s' ∧ conns_state s' = [CONN_IDLE] ∧ running s' = 0 ∧
    mapped_size (rdma_remote s') = 0.
Proof.
  destruct (disconnect_releases_chunks 0 demo_mapped_conn demo_mapped CONN_CONNECTED)
    as (s' & H1 & _ & _ & H2 & _ & H3 & H4 & _).
  - vm_compute. reflexivity.
  - vm_compute. reflexivity.
  - vm_compute. reflexivity.
  - vm_compute. reflexivity.
  - vm_compute. reflexivity.
  - unfold valid_map. apply (bool_decide_eq_true _). vm_compute. reflexivity.
  - vm_compute. reflexivity.
  - vm_compute. reflexivity.
  - vm_compute. reflexivity.
  - exists s'. split; [exact H1|]. split; [exact H2|]. rewrite H3, H4. split; vm_compute; reflexivity.
Defined.
