(* ===== verification/Evict.v ===== *)
(** * Eviction and expansion

    [evict_mem], [free_mem] and [send_stop] of the server's [rdma-common.c]:
    when the machine runs short of memory the server takes chunks back,
    first those no client uses, then the least active ones of its clients.

    The thread that runs this code waits on semaphores for the thread that
    handles completions.  A wait takes as argument the messages that arrive
    meanwhile: they are handled ([deliver]) before the semaphore is looked
    at, and a semaphore that is still zero then is a wait without end
    ([Spin]). *)

From Stdlib Require Import Sorted Floats.SpecFloat.
From S2P Require Import Prelude BitOps OctTypes Kernel Server.

(** A message that arrives on a connection. *)
Record arrival := mkArrival { a_conn : nat; a_msg : message }.

(** [struct chunk_activity]. *)
Record chunk_activity := mkActivity { activity : Z; chunk_index : Z }.

Section Ops.
Context {V : verbs}.

Fixpoint deliver (l : list arrival) : S unit :=
  match l with
  | [] => mret tt
  | a :: l =>
      upd_conn (a_conn a) (λ c, c <| recv_msg := a_msg a |>);;
      handle_cqe true true (a_conn a);;
      deliver l
  end.

Definition sem_wait_evict (p : nat) (l : list arrival) : S unit :=
  deliver l;;
  c ← get_conn p;
  if 0 <? evict_sem c then upd_conn p (λ c, c <| evict_sem ::= λ n, n - 1 |>) else sfault Spin.

Definition sem_wait_stop (p : nat) (l : list arrival) : S unit :=
  deliver l;;
  c ← get_conn p;
  if 0 <? stop_sem c then upd_conn p (λ c, c <| stop_sem ::= λ n, n - 1 |>) else sfault Spin.

Definition send_stop (p : nat) (n : Z) (l : list arrival) : S unit :=
  set_send p (λ m, m <| msg_type := message_type_code STOP |>);;
  set_send p (λ m, m <| msg_size_gb := n |>);;
  send_message p;;
  if negb (n =? 0) then sem_wait_stop p l else mret tt.

(** ** Chunks no client uses *)

(** Frees chunk [i]; the number freed before is [freed_g], and [true] says that
    [evict_g] has been reached. *)
Definition free_unmapped (i evict_g freed_g : Z) : S (bool * Z) :=
  rl ← remote region_list;
  reg ← sbounds (arr_get rl i);
  vcall (V_free reg);;
  mm ← remote malloc_map;
  mm ← sbounds (arr_set mm i CHUNK_EMPTY);
  set_remote (λ r, r <| malloc_map := mm |>);;
  mret (freed_g + 1 =? evict_g, freed_g + 1).

(** Frees chunk [i] if it is allocated and not handed out. *)
Definition evict_unmapped_chunk (i evict_g freed_g : Z) : S (bool * Z) :=
  ok ← chunk_available i;
  if ok : bool then free_unmapped i evict_g freed_g else mret (false, freed_g).

Fixpoint evict_unmapped_loop (n : nat) (i evict_g freed_g : Z) : S (bool * Z) :=
  match n with
  | O => mret (false, freed_g)
  | Datatypes.S n =>
      r ← evict_unmapped_chunk i evict_g freed_g;
      if (r.1 : bool) then mret r else evict_unmapped_loop n (i + 1) evict_g r.2
  end.

(** After the loop; the result is the number of gigabytes that are left to be
    taken from clients, [None] when the function returns here. *)
Definition unmapped_freed (evict_g : Z) (r : bool * Z) : S (option Z) :=
  if (r.1 : bool) then
    set_remote (λ m, m <| size_gb ::= λ n, i32 (n - evict_g) |>);; mret None
  else
    set_remote (λ m, m <| size_gb ::= λ n, i32 (n - r.2) |>);; mret (Some (evict_g - r.2)).

Definition evict_unmapped (evict_g : Z) : S (option Z) :=
  r ← evict_unmapped_loop (Z.to_nat MAX_FREE_MEM_GB) 0 evict_g 0; unmapped_freed evict_g r.

(** ** The clients to ask *)

(** The connection in slot [i]; NULL is a fault. *)
Definition slot_conn (i : Z) : S nat :=
  cs ← sget conns;
  o ← sbounds (arr_get cs i);
  match o with Some p => mret p | None => sfault NullDeref end.

(** All mapped connections; their [mapped_chunk_size] is read for a message. *)
Definition ask_mapped (send_list : list Z) : S (list Z) :=
  st ← sget conns_state;
  let ask := fix ask (n : nat) (i : Z) (sl : list Z) : S (list Z) :=
    match n with
    | O => mret sl
    | Datatypes.S n =>
        c ← sbounds (arr_get st i);
        if bool_decide (c = CONN_MAPPED) then
          sl ← sbounds (arr_set sl i 1);
          p ← slot_conn i;
          _ ← get_conn p;
          ask n (i + 1) sl
        else ask n (i + 1) sl
    end in
  ask (Z.to_nat MAX_CLIENT) 0 send_list.

(** The search for a selectable chunk from [r] on, around the array; without
    one the loop does not end. *)
Fixpoint probe (fuel : nat) (sel : list Z) (r : Z) : S Z :=
  match fuel with
  | O => sfault Spin
  | Datatypes.S fuel =>
      x ← sbounds (arr_get sel r);
      if negb (x =? 0) then probe fuel sel ((r + 1) mod MAX_FREE_MEM_GB) else mret r
  end.

(** [n] chunks at random, [rnd i] being the [i]-th result of [rand] from now;
    their connections are marked in [send_list]. *)
Fixpoint ask_random (n : nat) (rnd : nat → Z) (sel send_list : list Z) : S (list Z) :=
  match n with
  | O => mret send_list
  | Datatypes.S n =>
      r ← probe (Z.to_nat MAX_FREE_MEM_GB) sel (rnd 0%nat mod MAX_FREE_MEM_GB);
      sel ← sbounds (arr_set sel r 1);
      cm ← remote conn_map;
      c ← sbounds (arr_get cm r);
      sl ← sbounds (arr_set send_list c 1);
      ask_random n (λ i, rnd (Datatypes.S i)) sel sl
  end.

(** The number of chunks to evict and the connections to ask. *)
Definition choose_clients (evict_g : Z) (rnd : nat → Z) : S (Z * list Z) :=
  r ← remote id;
  let send_list := replicate (Z.to_nat MAX_CLIENT) (-1) in
  let sel := (λ c, if c =? -1 then -1 else 0) <$> conn_map r in
  if mapped_size r <? evict_g + EXTRA_CHUNK_NUM then
    sl ← ask_mapped send_list;
    mret (if mapped_size r <? evict_g then mapped_size r else evict_g, sl)
  else
    sl ← ask_random (Z.to_nat (evict_g + EXTRA_CHUNK_NUM)) rnd sel send_list;
    mret (evict_g, sl).

(** A loop over the slots whose entry of [send_list] is [v]. *)
Fixpoint for_slots {A} (sl : list Z) (i : Z) (v : Z) (a : A) (f : Z → nat → A → S A) : S A :=
  match sl with
  | [] => mret a
  | x :: sl => if x =? v then p ← slot_conn i; a ← f i p a; for_slots sl (i + 1) v a f
               else for_slots sl (i + 1) v a f
  end.

(** ** The activity of their chunks *)

(** The entries of one ACTIVITY message stored from position [n] on of the
    list; the C array has [k] entries, and a store outside it is a fault. *)
Fixpoint collect_entries (bufs : list Z) (m : Z) (n : Z) (l : list chunk_activity) : S (Z * list chunk_activity) :=
  match bufs with
  | [] => mret (n, l)
  | b :: bufs =>
      if negb (b =? 0) then
        l ← sbounds (arr_set l n (mkActivity (ntohll b) m));
        collect_entries bufs (m + 1) (n + 1) l
      else collect_entries bufs (m + 1) n l
  end.

Definition collect (wait : nat → list arrival) (i : Z) (p : nat) (a : Z * list chunk_activity) :
    S (Z * list chunk_activity) :=
  sem_wait_evict p (wait (Z.to_nat i));;
  set_send p (λ m, m <| msg_size_gb := 0 |>);;
  zero_rkeys p;;
  c ← get_conn p;
  r ← collect_entries (take (Z.to_nat MAX_MR_SIZE_GB) (msg_buf (recv_msg c))) 0 a.1 a.2;
  post_receives p;;
  mret r.

End Ops.

(** ** The least active chunks *)

(** The inner loop for position [n], comparing it with positions [m], [m+1],
    ..., [k - 1]; out-of-range accesses give [None]. *)
Fixpoint select_inner (fuel : nat) (n m : nat) (l : list chunk_activity) : option (list chunk_activity) :=
  match fuel with
  | O => Some l
  | Datatypes.S fuel =>
      a ← l !! n; b ← l !! m;
      if activity b <? activity a
      then select_inner fuel n (Datatypes.S m) (<[m := a]> (<[n := b]> l))
      else select_inner fuel n (Datatypes.S m) l
  end.

Section Mark.
Context {V : verbs}.

(** Chunk [ci] is entered in the STOP message of the connection it is handed
    to; the result is that connection's slot and the marked list. *)
Definition mark_chunk (ci : Z) (send_list : list Z) : S (Z * list Z) :=
  cm ← remote conn_map;
  conn_index ← sbounds (arr_get cm ci);
  x ← sbounds (arr_get send_list conn_index);
  sl ← (if x =? 1 then sbounds (arr_set send_list conn_index 2) else mret send_list);
  p ← slot_conn conn_index;
  c ← get_conn p;
  k ← sbounds (arr_set (msg_rkey (send_msg c)) ci 1);
  set_send p (λ m, m <| msg_rkey := k |>);;
  set_send p (λ m, m <| msg_size_gb ::= λ n, i32 (n + 1) |>);;
  mret (conn_index, sl).

(** The outer loop from position [n] on, for [j] chunks of a list of [k];
    [conn_index] is the variable of that name. *)
Fixpoint select_outer (j : nat) (n k : nat) (l : list chunk_activity) (conn_index : Z) (send_list : list Z) :
    S (Z * list Z) :=
  match j with
  | O => mret (conn_index, send_list)
  | Datatypes.S j =>
      l ← sbounds (select_inner (k - (n + 1)) n (n + 1) l);
      e ← sbounds (l !! n);
      r ← mark_chunk (chunk_index e) send_list;
      select_outer j (Datatypes.S n) k l r.1 r.2
  end.

(** The last loop; [wait] are the arrivals during the wait for a slot. *)
Fixpoint stop_clients (n : nat) (i conn_index : Z) (send_list : list Z) (wait : nat → list arrival) : S unit :=
  match n with
  | O => mret tt
  | Datatypes.S n =>
      x ← sbounds (arr_get send_list i);
      (if x =? 2 then
         p ← slot_conn i;
         q ← slot_conn conn_index;
         c ← get_conn q;
         send_stop p (msg_size_gb (send_msg c)) (wait (Z.to_nat i))
       else if x =? 1 then p ← slot_conn i; send_stop p 0 []
       else mret tt);;
      stop_clients n (i + 1) conn_index send_list wait
  end.

(** The rest of the eviction, when [left] is not [None].  [junk] is what the
    memory of [evict_list] holds, [uninit] what the variable [conn_index] holds
    before it is assigned. *)
Definition evict_clients (left : option Z) (rnd : nat → Z) (junk : nat → chunk_activity) (uninit : Z)
    (wait wait' : nat → list arrival) : S unit :=
  match left with
  | None => mret tt
  | Some evict_g =>
      c ← choose_clients evict_g rnd;
      let j := c.1 in
      k ← for_slots c.2 0 1 0 (λ _ p k, c ← get_conn p; mret (i32 (k + mapped_chunk_size c)));
      for_slots c.2 0 1 tt (λ _ p _, send_evict p j);;
      r ← for_slots c.2 0 1 (0, junk <$> seq 0 (Z.to_nat k)) (collect wait);
      m ← select_outer (Z.to_nat j) 0 (Z.to_nat k) r.2 uninit c.2;
      stop_clients (Z.to_nat MAX_CLIENT) 0 m.1 m.2 wait'
  end.

Definition evict_mem (stop_g : Z) (rnd : nat → Z) (junk : nat → chunk_activity) (uninit : Z)
    (wait wait' : nat → list arrival) : S unit :=
  left ← evict_unmapped stop_g; evict_clients left rnd junk uninit wait wait'.

End Mark.

(** ** Watching the free memory *)

(** C's conversions between [int], [float] (24 bits of precision) and [double]
    (53 bits), on IEEE 754 numbers. *)
Definition double_of_int (n : Z) : spec_float := binary_normalize 53 1024 n 0 false.
Definition float_of_int (n : Z) : spec_float := binary_normalize 24 128 n 0 false.
Definition round_to (prec emax : Z) (x : spec_float) : spec_float :=
  match x with S754_finite s m e => binary_normalize prec emax (cond_Zopp s (Zpos m)) e s | _ => x end.
Definition int_of (x : spec_float) : Z :=
  match x with
  | S754_finite s m e => cond_Zopp s (if 0 <=? e then Z.shiftl (Zpos m) e else Z.shiftr (Zpos m) (- e))
  | _ => 0
  end.

Definition CURR_FREE_MEM_WEIGHT : spec_float := SFdiv 53 1024 (double_of_int 7) (double_of_int 10).
Definition last_free_mem_weight : spec_float :=
  round_to 24 128 (SFsub 53 1024 (double_of_int 1) CURR_FREE_MEM_WEIGHT).

(** [(int)(CURR_FREE_MEM_WEIGHT * free_mem_g + last_free_mem_g * last_free_mem_weight)]:
    the first product is a [double], the second a [float]. *)
Definition filtered_free_mem (free_mem_g last_free_mem_g : Z) : Z :=
  int_of (SFadd 53 1024 (SFmul 53 1024 CURR_FREE_MEM_WEIGHT (double_of_int free_mem_g))
    (round_to 53 1024 (SFmul 24 128 (float_of_int last_free_mem_g) last_free_mem_weight))).

Definition MEM_EVICT_HIT_THRESHOLD : Z := 1.
Definition MEM_EXPAND_HIT_THRESHOLD : Z := 20.

(** The local variables of [free_mem] that live across iterations. *)
Record free_mem_vars := mkVars { last_free_mem_g : Z; evict_hit_count : Z; expand_hit_count : Z }.

(** What an eviction takes from outside: see [evict_mem]. *)
Record evict_env := mkEnv {
  e_rnd : nat → Z; e_junk : nat → chunk_activity; e_uninit : Z; e_wait : nat → list arrival; e_wait' : nat → list arrival
}.

Section FreeMem.
Context {V : verbs}.

(** Allocates empty chunks from [i] on until [j] of them are [expand_size_g]. *)
Fixpoint expand_loop (n : nat) (i j expand_size_g : Z) : S unit :=
  match n with
  | O => mret tt
  | Datatypes.S n =>
      mm ← remote malloc_map;
      x ← sbounds (arr_get mm i);
      if x =? CHUNK_EMPTY then
        alloc_chunk i;;
        if j + 1 =? expand_size_g then mret tt else expand_loop n (i + 1) (j + 1) expand_size_g
      else expand_loop n (i + 1) j expand_size_g
  end.

(** The size to expand by, and the expansion. *)
Definition expand_size (last size : Z) : Z :=
  let e := last - FREE_MEM_EXPAND_THRESHOLD in
  if MAX_FREE_MEM_GB <? e + size then MAX_FREE_MEM_GB - size else e.

Definition expand_mem (expand_size_g : Z) : S unit :=
  expand_loop (Z.to_nat MAX_FREE_MEM_GB) 0 0 expand_size_g;;
  set_remote (λ r, r <| size_gb ::= λ n, i32 (n + expand_size_g) |>).

(** One iteration of the loop of [free_mem]. *)
Definition free_mem_step (env : evict_env) (v : free_mem_vars) : S free_mem_vars :=
  mem ← get_free_mem;
  let f := filtered_free_mem (i32 (mem / ONE_MB)) (last_free_mem_g v) in
  if f <? FREE_MEM_EVICT_THRESHOLD then
    let hits := evict_hit_count v + 1 in
    if MEM_EVICT_HIT_THRESHOLD <=? hits then
      size ← remote size_gb;
      let stop_size_g := FREE_MEM_EVICT_THRESHOLD - f in
      let stop_size_g := if size <? stop_size_g then size else stop_size_g in
      (if 0 <? stop_size_g
       then evict_mem stop_size_g (e_rnd env) (e_junk env) (e_uninit env) (e_wait env) (e_wait' env)
       else mret tt);;
      mret (mkVars (f + stop_size_g) 0 0)
    else mret (mkVars f hits 0)
  else if FREE_MEM_EXPAND_THRESHOLD <? f then
    let hits := expand_hit_count v + 1 in
    if MEM_EXPAND_HIT_THRESHOLD <=? hits then
      size ← remote size_gb;
      let expand_size_g := expand_size f size in
      expand_mem expand_size_g;;
      mret (mkVars (f - expand_size_g) 0 0)
    else mret (mkVars f 0 hits)
  else mret (mkVars f (evict_hit_count v) (expand_hit_count v)).

(** [while (running)], at most [n] times; [env i] is what iteration [i] sees. *)
Fixpoint free_mem_loop (n : nat) (env : nat → evict_env) (v : free_mem_vars) : S unit :=
  match n with
  | O => mret tt
  | Datatypes.S n =>
      run ← sget running;
      if run =? 0 then mret tt
      else v ← free_mem_step (env 0%nat) v; free_mem_loop n (λ i, env (Datatypes.S i)) v
  end.

Definition free_mem (n : nat) (env : nat → evict_env) : S unit :=
  rdma_session_init;;
  mem ← get_free_mem;
  free_mem_loop n env (mkVars (i32 (mem / ONE_MB)) 0 0).

End FreeMem.

(** ** Selection: lemmas *)

Lemma insert_middle {A} (d t : list A) x y : <[length d := y]> (d ++ x :: t) = d ++ y :: t.
Proof. by rewrite insert_app_r_alt, Nat.sub_diag by lia. Qed.

Lemma swap_middle {A} (d u t : list A) x y :
  <[(length d + 1 + length u)%nat := x]> (<[length d := y]> (d ++ x :: u ++ y :: t)) = d ++ y :: u ++ x :: t.
Proof.
  rewrite insert_middle.
  replace (length d + 1 + length u)%nat with (length (d ++ y :: u)) by (rewrite length_app; cbn; lia).
  rewrite app_comm_cons, app_assoc, insert_middle. by rewrite <- app_assoc.
Qed.

Lemma select_inner_run : ∀ t (d u : list chunk_activity) x,
  (∀ z, z ∈ u → activity x <= activity z) →
  ∃ y t', select_inner (length t) (length d) (length d + 1 + length u) (d ++ x :: u ++ t) = Some (d ++ y :: t') ∧
    x :: u ++ t ≡ₚ y :: t' ∧ ∀ z, z ∈ t' → activity y <= activity z.
Proof.
  induction t as [|b t IH]; intros d u x' Hu.
  { exists x', u. rewrite app_nil_r. split; [done|]. split; [reflexivity|done]. }
  cbn [length select_inner].
  rewrite (list_lookup_middle d _ x' (length d)) by done. cbn.
  assert ((d ++ x' :: u ++ b :: t) !! (length d + 1 + length u)%nat = Some b) as ->.
  { rewrite app_comm_cons, app_assoc. apply list_lookup_middle. rewrite length_app. cbn. lia. }
  cbn. destruct (Z.ltb_spec (activity b) (activity x')).
  - rewrite swap_middle.
    destruct (IH d (u ++ [x']) b) as (y & t' & Hr & Hp & Hle).
    { intros z [Hz| ->%list_elem_of_singleton]%elem_of_app; [|lia]. specialize (Hu z Hz). lia. }
    exists y, t'. rewrite length_app, <- !app_assoc in Hr. cbn in Hr.
    replace (Datatypes.S (length d + 1 + length u)) with (length d + 1 + (length u + 1))%nat by lia.
    split; [exact Hr|]. split; [|done]. rewrite <- Hp, <- app_assoc. cbn.
    rewrite <- !Permutation_middle. constructor.
  - destruct (IH d (u ++ [b]) x') as (y & t' & Hr & Hp & Hle).
    { intros z [Hz| ->%list_elem_of_singleton]%elem_of_app; [by apply Hu|lia]. }
    exists y, t'. rewrite length_app, <- !app_assoc in Hr. cbn in Hr.
    replace (Datatypes.S (length d + 1 + length u)) with (length d + 1 + (length u + 1))%nat by lia.
    split; [exact Hr|]. split; [|done]. by rewrite <- Hp, <- app_assoc.
Qed.

(** The STOP message after the chunks of [l] are entered. *)
Definition mark1 (m : message) (e : chunk_activity) : message :=
  m <| msg_rkey ::= <[Z.to_nat (chunk_index e) := 1]> |> <| msg_size_gb ::= λ n, i32 (n + 1) |>.
Definition marked (m : message) (l : list chunk_activity) : message := foldl mark1 m l.

(** The server with another state of connection [p]. *)
Definition with_conn (p : nat) (c : connection) (s : server) : server :=
  s <| conn_heap := <[p := Some c]> (conn_heap s) |>.

(** [c] is the state of the connection [p], the only one of the session, and
    the chunks of [l] are handed to it. *)
Record owns (s : server) (p : nat) (c : connection) (l : list chunk_activity) : Prop := {
  o_slot : conns s = [Some p];
  o_conn : conn_heap s !! p = Some (Some c);
  o_keys : length (msg_rkey (send_msg c)) = 32%nat;
  o_map : ∀ e, e ∈ l → 0 <= chunk_index e < 32 ∧ arr_get (conn_map (rdma_remote s)) (chunk_index e) = Some 0
}.

Lemma with_conn_id s p c : conn_heap s !! p = Some (Some c) → with_conn p c s = s.
Proof. intros Hc. unfold with_conn. rewrite list_insert_id by done. by destruct s. Qed.

Lemma with_conn_twice s p c c' : with_conn p c' (with_conn p c s) = with_conn p c' s.
Proof. unfold with_conn, setter. cbn. by rewrite list_insert_insert_eq. Qed.

Lemma owns_with s p c c' l l' :
  owns s p c l → length (msg_rkey (send_msg c')) = 32%nat → (∀ e, e ∈ l' → e ∈ l) →
  owns (with_conn p c' s) p c' l'.
Proof.
  intros [H1 H2 H3 H4] Hk Hl. constructor; [done| |done|].
  - by apply (conn_heap_lookup p _ s _ H2).
  - intros e He. apply H4. by apply Hl.
Qed.

Lemma mark_chunk_run `{V : verbs} s p c l e x :
  owns s p c l → e ∈ l → x = 1 ∨ x = 2 →
  mark_chunk (chunk_index e) [x] s =
  SRet (0, [2]) (with_conn p (c <| send_msg := mark1 (send_msg c) e |>) s).
Proof.
  intros [H1 H2 H3 H4] He Hx. destruct (H4 e He) as [Hr Hm].
  unfold mark_chunk, slot_conn. sstep. rewrite Hm. sstep.
  change (arr_get [x] 0) with (Some x). sstep.
  erewrite (S_bind_step _ _ s [2] s).
  2: { destruct Hx as [-> | ->]; reflexivity. }
  erewrite (S_bind_step _ _ s p s).
  2: { sstep. by rewrite H1. }
  erewrite S_bind_step by by apply get_conn_run.
  rewrite arr_set_Some by lia. sstep.
  erewrite S_bind_step by by apply set_send_run.
  erewrite S_bind_step by (apply set_send_run, (conn_heap_lookup p _ s _ H2)).
  cbv [mret S_ret]. f_equal. unfold with_conn, setter. cbn. by rewrite list_insert_insert_eq.
Qed.

(** What the selection leaves: [chosen] are the [length chosen] least active
    entries of [t], in ascending order. *)
Definition least_active (t chosen : list chunk_activity) : Prop :=
  ∃ rest, t ≡ₚ chosen ++ rest ∧ StronglySorted (λ a b, activity a <= activity b) chosen ∧
    ∀ a b, a ∈ chosen → b ∈ rest → activity a <= activity b.

Lemma least_active_cons (x y : chunk_activity) t t' chosen :
  x :: t ≡ₚ y :: t' → (∀ z, z ∈ t' → activity y <= activity z) → least_active t' chosen →
  least_active (x :: t) (y :: chosen).
Proof.
  intros Hp Hy (rest & Hr & Hs & Hle). exists rest. split; [by rewrite Hp, Hr|]. split.
  - constructor; [done|]. apply Forall_forall. intros z Hz. apply Hy. rewrite Hr. set_solver.
  - intros a b [-> |Ha]%elem_of_cons Hb; [|by apply Hle]. apply Hy. rewrite Hr. set_solver.
Qed.

Lemma select_outer_run `{V : verbs} p : ∀ (j : nat) d t s c ci x,
  (j <= length t)%nat → owns s p c t → x = 1 ∨ x = 2 →
  ∃ chosen, select_outer j (length d) (length d + length t) (d ++ t) ci [x] s =
      SRet (if bool_decide (j = 0%nat) then (ci, [x]) else (0, [2]))
           (with_conn p (c <| send_msg := marked (send_msg c) chosen |>) s) ∧
    length chosen = j ∧ least_active t chosen.
Proof.
  induction j as [|j IH]; intros d t s c ci x Hj Ho Hx.
  { exists []. cbn. split.
    - rewrite with_conn_id; [done|]. rewrite (o_conn _ _ _ _ Ho). by destruct c.
    - split; [done|]. exists t. split; [done|]. split; [constructor|]. by intros ? ? ?%not_elem_of_nil. }
  destruct t as [|e t]; [cbn in Hj; lia|].
  destruct (select_inner_run t d [] e) as (y & t' & Hsel & Hp & Hle); [by intros ? ?%not_elem_of_nil|].
  cbn [app length] in Hsel, Hp. rewrite Nat.add_0_r in Hsel.
  cbn [select_outer length].
  replace (length d + Datatypes.S (length t) - (length d + 1))%nat with (length t) by lia.
  rewrite Hsel. sstep. rewrite (list_lookup_middle d t' y (length d)) by done. sstep.
  assert (y ∈ e :: t) as Hy by (rewrite Hp; left).
  erewrite S_bind_step by (by eapply mark_chunk_run). cbv beta. cbn [fst snd].
  set (c1 := c <| send_msg := mark1 (send_msg c) y |>).
  assert (owns (with_conn p c1 s) p c1 t') as Ho1.
  { eapply owns_with; [done| |].
    - cbn. rewrite length_insert. apply Ho.
    - intros z Hz. rewrite Hp. by right. }
  pose proof (Permutation_length Hp) as Hlen. cbn in Hlen, Hj.
  destruct (IH (d ++ [y]) t' (with_conn p c1 s) c1 0 2) as (chosen & Hr & Hl & Hla); [lia|done|by right|].
  exists (y :: chosen). rewrite length_app, <- app_assoc in Hr. cbn [length app] in Hr.
  rewrite with_conn_twice in Hr.
  replace (Datatypes.S (length d)) with (length d + 1)%nat by lia.
  replace (length d + Datatypes.S (length t))%nat with (length d + 1 + length t')%nat by lia.
  rewrite Hr. split; [|split; [cbn; lia|by eapply least_active_cons]].
  rewrite (bool_decide_false (Datatypes.S j = 0%nat)) by done. by case_bool_decide.
Qed.

Lemma marked_rkey l : ∀ m (i : nat),
  length (msg_rkey m) = 32%nat → (∀ e, e ∈ l → 0 <= chunk_index e < 32) →
  msg_rkey (marked m l) !! i = Some 1 ↔
  msg_rkey m !! i = Some 1 ∨ ∃ e, e ∈ l ∧ chunk_index e = Z.of_nat i.
Proof.
  induction l as [|e l IH]; intros m i Hm Hl; cbn.
  { split; [by left|]. intros [?|(e & ?%not_elem_of_nil & _)]; done. }
  rewrite IH; [|cbn; by rewrite length_insert|intros z Hz; apply Hl; by right]. cbn.
  assert (0 <= chunk_index e < 32) as He by (apply Hl; left).
  destruct (decide (i = Z.to_nat (chunk_index e))) as [->|Hne].
  - rewrite list_lookup_insert_eq by lia. split; [|by left].
    intros _. right. exists e. split; [left|lia].
  - rewrite list_lookup_insert_ne by done. split.
    + intros [?|(z & Hz & ?)]; [by left|]. right. exists z. by split; [right|].
    + intros [?|(z & [-> |Hz]%elem_of_cons & ?)]; [by left|lia|]. right. by exists z.
Qed.

Lemma marked_size l : ∀ m,
  0 <= msg_size_gb m → msg_size_gb m + Z.of_nat (length l) < 2 ^ 31 →
  msg_size_gb (marked m l) = msg_size_gb m + Z.of_nat (length l).
Proof.
  induction l as [|e l IH]; intros m H0 Hlt; cbn [length] in *; [cbn; lia|].
  cbn [marked foldl]. fold (marked (mark1 m e) l).
  assert (msg_size_gb (mark1 m e) = msg_size_gb m + 1) as Hs by (cbn; apply i32_id; lia).
  rewrite IH; rewrite Hs; lia.
Qed.

(** C14. Eviction asks a client for its least active chunks: given the reported
    activities [l] of the client's chunks and an empty STOP message, the
    partial selection sort enters in the message exactly [j] of the chunks, none of
    them more active than any chunk left out, and counts them in its size. *)
Theorem evict_selects_least_active `{V : verbs} p (j : nat) l s c uninit :
  (j <= length l)%nat → Z.of_nat (length l) < 2 ^ 31 → owns s p c l →
  msg_rkey (send_msg c) = replicate 32 0 → msg_size_gb (send_msg c) = 0 →
  ∃ r s' c' chosen, select_outer j 0 (length l) l uninit [1] s = SRet r s' ∧
    length chosen = j ∧ least_active l chosen ∧
    conn_heap s' !! p = Some (Some c') ∧ msg_size_gb (send_msg c') = Z.of_nat j ∧
    ∀ i, msg_rkey (send_msg c') !! i = Some 1 ↔ ∃ e, e ∈ chosen ∧ chunk_index e = Z.of_nat i.
Proof.
  intros Hj Hl Ho Hk Hs.
  destruct (select_outer_run p j [] l s c uninit 1) as (chosen & Hr & Hlen & Hla); [done|done|by left|].
  eexists _, _, _, chosen. split; [exact Hr|]. split; [done|]. split; [done|].
  split; [by apply (conn_heap_lookup p _ s _ (o_conn _ _ _ _ Ho))|]. cbn -[marked].
  split; [rewrite marked_size by lia; lia|]. intros i. rewrite marked_rkey; rewrite ?Hk; [|done|].
  - split; [|by right]. intros [[? _]%lookup_replicate|?]; done.
  - intros e He. destruct Hla as (rest & Hp & _). apply (o_map _ _ _ _ Ho). rewrite Hp. set_solver.
Qed.

(** ** Chunks no client uses *)

(** [s] after the chunks [F] have been freed, in that order. *)
Record freed (s0 : server) (F : list nat) (s : server) : Prop := {
  f_malloc : ∀ j, malloc_map (rdma_remote s) !! j =
    if bool_decide (j ∈ F) then Some CHUNK_EMPTY else malloc_map (rdma_remote s0) !! j;
  f_len : length (malloc_map (rdma_remote s)) = 32%nat;
  f_same : conn_map (rdma_remote s) = conn_map (rdma_remote s0) ∧
    region_list (rdma_remote s) = region_list (rdma_remote s0) ∧
    mapped_size (rdma_remote s) = mapped_size (rdma_remote s0) ∧
    size_gb (rdma_remote s) = size_gb (rdma_remote s0) ∧
    mr_list (rdma_remote s) = mr_list (rdma_remote s0) ∧
    conn_chunk_map (rdma_remote s) = conn_chunk_map (rdma_remote s0) ∧ conn_heap s = conn_heap s0;
  f_calls : s_trace s = s_trace s0 ++
    ((λ j, V_free (default None (region_list (rdma_remote s0) !! j))) <$> F);
  f_avail : ∀ j, j ∈ F → available (rdma_remote s0) j = true
}.

Lemma freed_nil s : wf_remote (rdma_remote s) → freed s [] s.
Proof.
  intros Hwf. constructor; try done; [apply Hwf|by rewrite app_nil_r|by intros ? ?%not_elem_of_nil].
Qed.

Lemma freed_available s0 F s j :
  freed s0 F s → available (rdma_remote s) j = available (rdma_remote s0) j && bool_decide (j ∉ F).
Proof.
  intros [Hm _ (Hc & _) _ _]. unfold available. rewrite Hm, Hc.
  destruct (decide (j ∈ F)).
  - rewrite !(bool_decide_true (j ∈ F)), (bool_decide_false (j ∉ F)), andb_false_r by (done || tauto).
    apply bool_decide_false. by intros [? _].
  - by rewrite (bool_decide_false (j ∈ F)), (bool_decide_true (j ∉ F)), andb_true_r by done.
Qed.

Lemma evict_chunk_run `{V : verbs} s0 F s (i : nat) evict_g :
  wf_remote (rdma_remote s0) → freed s0 F s → (∀ j, j ∈ F → (j < i)%nat) → (i < 32)%nat →
  let F' := if available (rdma_remote s0) i then F ++ [i] else F in
  ∃ s', evict_unmapped_chunk (Z.of_nat i) evict_g (Z.of_nat (length F)) s =
    SRet (available (rdma_remote s0) i && (Z.of_nat (length F') =? evict_g), Z.of_nat (length F')) s' ∧
    freed s0 F' s'.
Proof.
  intros (W1 & W2 & W3 & W4 & W5 & W6) Hf HF Hi F'.
  pose proof (freed_available _ _ _ i Hf) as Hav. rewrite bool_decide_true, andb_true_r in Hav
    by (intros ?%HF; lia).
  destruct Hf as [Hm Hlen (Hc & Hr & Hsame) Htr Hfa].
  unfold evict_unmapped_chunk.
  rewrite (S_bind_step _ _ _ _ _ (chunk_available_run s i ltac:(lia) ltac:(rewrite Hc; lia))), Hav.
  subst F'. destruct (available (rdma_remote s0) i) eqn:Ha; [|by exists s].
  pose proof Ha as [Ha1 _]%bool_decide_eq_true. destruct (W6 i Ha1) as [a Hreg]. unfold free_unmapped.
  sstep. rewrite arr_get_lookup, Hr, Hreg. sstep. sstep. sstep. cbn -[mbind].
  rewrite arr_set_Some, Nat2Z.id by lia. sstep. sstep.
  eexists. split; [rewrite length_app; cbn; repeat f_equal; lia|].
  assert (i ∉ F) as Hni by (intros ?%HF; lia).
  constructor; cbn.
  - intros j. destruct (decide (i = j)) as [<-|Hne].
    + rewrite bool_decide_true by set_solver. apply list_lookup_insert_eq. lia.
    + rewrite list_lookup_insert_ne, Hm by done. erewrite bool_decide_ext; [reflexivity|]. set_solver.
  - by rewrite length_insert.
  - done.
  - rewrite Htr, fmap_app, <- app_assoc. cbn. by rewrite Hreg.
  - intros j [?| ->%list_elem_of_singleton]%elem_of_app; [by apply Hfa|done].
Qed.

Lemma evict_loop_run `{V : verbs} s0 evict_g : ∀ (n i : nat) F s,
  wf_remote (rdma_remote s0) → freed s0 F s → (∀ j, j ∈ F → (j < i)%nat) → (i + n)%nat = 32%nat →
  Z.of_nat (length F) < evict_g →
  let F' := F ++ take (Z.to_nat evict_g - length F) (available_list (rdma_remote s0) i) in
  ∃ s', evict_unmapped_loop n (Z.of_nat i) evict_g (Z.of_nat (length F)) s =
    SRet (Z.of_nat (length F') =? evict_g, Z.of_nat (length F')) s' ∧ freed s0 F' s'.
Proof.
  induction n as [|n IH]; intros i F s Hwf Hf HF Hi Hlt.
  { exists s. replace i with 32%nat by lia. change (available_list _ 32) with (@nil nat).
    cbn zeta. rewrite take_nil, app_nil_r. split; [|done]. cbn [evict_unmapped_loop].
    by destruct (Z.eqb_spec (Z.of_nat (length F)) evict_g); [lia|]. }
  cbn [evict_unmapped_loop].
  destruct (evict_chunk_run s0 F s i evict_g Hwf Hf HF ltac:(lia)) as (s1 & Hr & Hf1).
  rewrite (S_bind_step _ _ _ _ _ Hr). cbn [fst snd].
  rewrite available_list_cons by lia.
  replace (Z.of_nat i + 1) with (Z.of_nat (Datatypes.S i)) by lia.
  destruct (available (rdma_remote s0) i) eqn:Ha; cbn [andb].
  - replace (Z.to_nat evict_g - length F)%nat with (Datatypes.S (Z.to_nat evict_g - length (F ++ [i])))
      by (rewrite length_app; cbn; lia).
    cbn [take]. set (r := take _ (available_list _ (Datatypes.S i))).
    replace (F ++ i :: r) with ((F ++ [i]) ++ r) by (by rewrite <- app_assoc). subst r.
    destruct (Z.eqb_spec (Z.of_nat (length (F ++ [i]))) evict_g) as [He|He].
    + exists s1. replace (Z.to_nat evict_g - length (F ++ [i]))%nat with 0%nat by lia.
      rewrite take_0, app_nil_r. split; [|done]. by rewrite He, Z.eqb_refl.
    + apply IH; [done|done| |lia|rewrite length_app in *; cbn in *; lia].
      intros j [?%HF| ->%list_elem_of_singleton]%elem_of_app; lia.
  - apply IH; [done|done| |lia|done]. intros j ?%HF. lia.
Qed.

(** The first part of an eviction of [evict_g] gigabytes: the server frees
    exactly the first [evict_g] chunks that are allocated and not handed
    out (each once, no other), marks them empty and takes them off its size;
    the function is done if there were enough, and otherwise the rest is to be
    taken from clients. *)
Theorem evict_unmapped_spec `{V : verbs} s evict_g :
  wf_remote (rdma_remote s) → 0 < evict_g →
  let F := take (Z.to_nat evict_g) (available_list (rdma_remote s) 0) in
  ∃ s', evict_unmapped evict_g s =
      SRet (if Z.of_nat (length F) =? evict_g then None else Some (evict_g - Z.of_nat (length F))) s' ∧
    s_trace s' = s_trace s ++
      ((λ j, V_free (default None (region_list (rdma_remote s) !! j))) <$> F) ∧
    size_gb (rdma_remote s') = i32 (size_gb (rdma_remote s) - Z.of_nat (length F)) ∧
    conn_map (rdma_remote s') = conn_map (rdma_remote s) ∧
    ∀ j, malloc_map (rdma_remote s') !! j =
      if bool_decide (j ∈ F) then Some CHUNK_EMPTY else malloc_map (rdma_remote s) !! j.
Proof.
  intros Hwf Hg F. destruct (evict_loop_run s evict_g 32 0 [] s) as (s1 & Hr & Hf1).
  { done. } { by apply freed_nil. }
  { by intros ? ?%not_elem_of_nil. } { done. } { cbn. lia. }
  cbn [app length] in Hr, Hf1. rewrite Nat.sub_0_r in Hr, Hf1. fold F in Hr, Hf1.
  destruct Hf1 as [Hm _ (Hc & _ & _ & Hsz & _) Htr _].
  unfold evict_unmapped. rewrite (S_bind_step _ _ _ _ _ Hr). unfold unmapped_freed. cbn [fst snd].
  destruct (Z.eqb_spec (Z.of_nat (length F)) evict_g) as [He|He]; sstep;
    (eexists; split; [reflexivity|]); cbn; rewrite Hsz, ?He; done.
Qed.

(** ** Expansion *)

(** The chunks of a [malloc_map] in state [v]. *)
Definition count (v : Z) (l : list Z) : nat := length (filter (λ x, x = v) l).

Lemma count_app v l k : count v (l ++ k) = (count v l + count v k)%nat.
Proof. unfold count. by rewrite filter_app, length_app. Qed.

Lemma count_cons v x l : count v (x :: l) = ((if decide (x = v) then 1 else 0) + count v l)%nat.
Proof. unfold count. rewrite filter_cons. by case_decide. Qed.

Lemma count_insert v l (i : nat) x y :
  l !! i = Some x →
  (count v (<[i := y]> l) + (if decide (x = v) then 1 else 0) =
   count v l + (if decide (y = v) then 1 else 0))%nat.
Proof.
  intros Hi. pose proof (lookup_lt_Some _ _ _ Hi).
  rewrite insert_take_drop by done. rewrite <- (take_drop_middle l i x Hi) at 3.
  rewrite !count_app, !count_cons. lia.
Qed.

(** The books of the server: the arrays are well formed, every chunk is
    allocated or empty, and [size_gb] counts the allocated ones. *)
Definition well_kept (r : rdma_remote_mem) : Prop :=
  wf_remote r ∧ Forall (λ x, x = CHUNK_MALLOCED ∨ x = CHUNK_EMPTY) (malloc_map r) ∧
  size_gb r = Z.of_nat (count CHUNK_MALLOCED (malloc_map r)).

Lemma count_total l :
  Forall (λ x, x = CHUNK_MALLOCED ∨ x = CHUNK_EMPTY) l →
  (count CHUNK_MALLOCED l + count CHUNK_EMPTY l)%nat = length l.
Proof.
  induction 1 as [|x l Hx _ IH]; [done|]. rewrite !count_cons. cbn [length].
  destruct Hx as [-> | ->]; [rewrite decide_True, decide_False by done|rewrite decide_False, decide_True by done]; lia.
Qed.

Lemma wf_chunk_at i a s : wf_remote (rdma_remote s) → (i < 32)%nat → wf_remote (rdma_remote (with_chunk_at i a s)).
Proof.
  intros (W1 & W2 & W3 & W4 & W5 & W6) Hi. unfold wf_remote. cbn. rewrite !length_insert.
  split_and!; try done. intros j Hj. destruct (decide (j = i)) as [->|].
  - exists a. apply list_lookup_insert_eq. lia.
  - rewrite list_lookup_insert_ne in Hj by done. rewrite list_lookup_insert_ne by done. by apply W6.
Qed.

(** [s'] is [s] with [k] more chunks. *)
Definition expanded (k : Z) (s s' : server) : Prop :=
  wf_remote (rdma_remote s') ∧
  Forall (λ x, x = CHUNK_MALLOCED ∨ x = CHUNK_EMPTY) (malloc_map (rdma_remote s')) ∧
  Z.of_nat (count CHUNK_MALLOCED (malloc_map (rdma_remote s'))) =
    Z.of_nat (count CHUNK_MALLOCED (malloc_map (rdma_remote s))) + k ∧
  conn_map (rdma_remote s') = conn_map (rdma_remote s) ∧ size_gb (rdma_remote s') = size_gb (rdma_remote s) ∧
  mapped_size (rdma_remote s') = mapped_size (rdma_remote s) ∧ conn_heap s' = conn_heap s.

Lemma expanded_trans k1 k2 s1 s2 s3 : expanded k1 s1 s2 → expanded k2 s2 s3 → expanded (k1 + k2) s1 s3.
Proof.
  intros (_ & _ & H1 & H2 & H3 & H4 & H5) (? & ? & ? & ? & ? & ? & ?). unfold expanded.
  split_and!; try done; try congruence. lia.
Qed.

Lemma expanded_chunk (i : nat) a s :
  wf_remote (rdma_remote s) → Forall (λ x, x = CHUNK_MALLOCED ∨ x = CHUNK_EMPTY) (malloc_map (rdma_remote s)) →
  malloc_map (rdma_remote s) !! i = Some CHUNK_EMPTY → expanded 1 s (with_chunk_at i a s).
Proof.
  intros Hwf HF Hi. pose proof Hwf as (_ & _ & _ & W4 & _). pose proof (lookup_lt_Some _ _ _ Hi).
  split_and!; [apply wf_chunk_at; [done|lia]| | |done..].
  - cbn. apply Forall_insert; [done|by left].
  - pose proof (count_insert CHUNK_MALLOCED _ i CHUNK_EMPTY CHUNK_MALLOCED Hi) as Hc.
    rewrite decide_False, decide_True in Hc by done. cbn -[count]. lia.
Qed.

Lemma expand_loop_run `{V : verbs} x : ∀ (n i : nat) j s,
  alloc_ok → wf_remote (rdma_remote s) →
  Forall (λ x, x = CHUNK_MALLOCED ∨ x = CHUNK_EMPTY) (malloc_map (rdma_remote s)) →
  (i + n)%nat = 32%nat →
  let empty := Z.of_nat (count CHUNK_EMPTY (drop i (malloc_map (rdma_remote s)))) in
  0 <= x - j <= empty → (x - j = 0 → empty = 0) →
  ∃ s', expand_loop n (Z.of_nat i) j x s = SRet tt s' ∧ expanded (x - j) s s'.
Proof.
  induction n as [|n IH]; intros i j s Hal Hwf HF Hi empty Hx H0.
  { exists s. split; [done|]. pose proof Hwf as (_ & _ & _ & W4 & _).
    subst empty. rewrite drop_ge in Hx by lia. cbn in Hx. unfold expanded. split_and!; try done. lia. }
  pose proof Hwf as (W1 & _ & _ & W4 & _).
  destruct (lookup_lt_is_Some_2 (malloc_map (rdma_remote s)) i) as [v Hv]; [lia|].
  cbn [expand_loop]. sstep. rewrite arr_get_lookup, Hv. sstep.
  replace (Z.of_nat i + 1) with (Z.of_nat (Datatypes.S i)) by lia.
  subst empty. rewrite (drop_S _ _ _ Hv), count_cons in Hx, H0.
  destruct (Z.eqb_spec v CHUNK_EMPTY) as [->|Hne].
  - destruct (alloc_chunk_run i s Hal ltac:(lia) ltac:(lia)) as [a Ha].
    rewrite (S_bind_step _ _ _ _ _ Ha). pose proof (expanded_chunk i a s Hwf HF Hv) as He.
    rewrite decide_True in Hx, H0 by done.
    destruct (Z.eqb_spec (j + 1) x) as [<-|Hj].
    { exists (with_chunk_at i a s). split; [done|]. by replace (j + 1 - j) with 1 by lia. }
    destruct (IH (Datatypes.S i) (j + 1) (with_chunk_at i a s)) as (s' & Hr & He').
    { done. } { by apply wf_chunk_at; [|lia]. } { apply He. } { lia. }
    { cbn -[count drop]. rewrite drop_insert_lt by lia. lia. } { lia. }
    exists s'. split; [done|]. replace (x - j) with (1 + (x - (j + 1))) by lia. by eapply expanded_trans.
  - rewrite decide_False in Hx, H0 by done. apply IH; [done|done|done|lia|lia|lia].
Qed.

Lemma expand_size_ok last size :
  FREE_MEM_EXPAND_THRESHOLD < last → 0 <= size <= 32 →
  0 <= expand_size last size <= 32 - size ∧ (expand_size last size = 0 → size = 32).
Proof.
  unfold expand_size. change FREE_MEM_EXPAND_THRESHOLD with 16. change MAX_FREE_MEM_GB with 32.
  intros. destruct (Z.ltb_spec 32 (last - 16 + size)); lia.
Qed.

Lemma expand_mem_run `{V : verbs} last s :
  alloc_ok → well_kept (rdma_remote s) → FREE_MEM_EXPAND_THRESHOLD < last →
  let e := expand_size last (size_gb (rdma_remote s)) in
  ∃ s', expand_mem e s = SRet tt s' ∧ well_kept (rdma_remote s') ∧
    size_gb (rdma_remote s') = size_gb (rdma_remote s) + e ∧
    conn_map (rdma_remote s') = conn_map (rdma_remote s) ∧ conn_heap s' = conn_heap s.
Proof.
  intros Hal (Hwf & HF & Hs) Hl e.
  pose proof Hwf as (_ & _ & _ & W4 & _). pose proof (count_total _ HF) as Ht. rewrite W4 in Ht.
  destruct (expand_size_ok last (size_gb (rdma_remote s)) Hl ltac:(lia)) as [He H0]. fold e in He, H0.
  destruct (expand_loop_run e 32 0 0 s Hal Hwf HF eq_refl) as (s1 & Hr & He1).
  { rewrite drop_0. lia. } { rewrite drop_0. lia. }
  rewrite Z.sub_0_r in He1. unfold expand_mem. erewrite S_bind_step by exact Hr.
  destruct He1 as (Hwf1 & HF1 & Hc & Hcm & Hsz & _ & Hh).
  eexists. split; [reflexivity|]. cbn -[count well_kept]. rewrite Hsz, i32_id by lia.
  split; [|done]. split; [exact Hwf1|]. split; [exact HF1|]. cbn -[count].
  rewrite i32_id by lia. lia.
Qed.

(** Watching the free memory: an iteration of the server's loop that sees
    enough memory never evicts: it keeps its books ([size_gb] counts the
    allocated chunks, at most 32) and gives no chunk away or back; below the
    expansion threshold and on the first 19 readings above it nothing changes,
    and the 20th adds chunks, up to the 32 there can be. *)
Theorem free_mem_step_expands `{V : verbs} env v s f :
  alloc_ok → well_kept (rdma_remote s) →
  f = filtered_free_mem (free_gb s) (last_free_mem_g v) → FREE_MEM_EVICT_THRESHOLD <= f →
  ∃ v' s', free_mem_step env v s = SRet v' s' ∧ well_kept (rdma_remote s') ∧
    conn_map (rdma_remote s') = conn_map (rdma_remote s) ∧ conn_heap s' = conn_heap s ∧
    (f <= FREE_MEM_EXPAND_THRESHOLD ∨ expand_hit_count v < 19 → rdma_remote s' = rdma_remote s) ∧
    (FREE_MEM_EXPAND_THRESHOLD < f → 19 <= expand_hit_count v →
       expand_hit_count v' = 0 ∧
       size_gb (rdma_remote s') = Z.min 32 (size_gb (rdma_remote s) + (f - FREE_MEM_EXPAND_THRESHOLD))).
Proof.
  intros Hal Hk Hf Hge. unfold free_mem_step. rewrite (S_bind_step _ _ _ _ _ (get_free_mem_run s)).
  cbv beta zeta. fold (free_gb s). rewrite <- Hf. clear Hf.
  destruct (Z.ltb_spec f FREE_MEM_EVICT_THRESHOLD); [lia|].
  set (s1 := s <| s_trace ::= _ |>).
  destruct (Z.ltb_spec FREE_MEM_EXPAND_THRESHOLD f) as [Hx|Hx].
  2: { eexists _, _. split; [reflexivity|]. split_and!; [exact Hk|done|done|done|lia]. }
  destruct (Z.leb_spec MEM_EXPAND_HIT_THRESHOLD (expand_hit_count v + 1)) as [Hh|Hh].
  2: { eexists _, _. split; [reflexivity|]. split_and!; [exact Hk|done|done|done|].
       change MEM_EXPAND_HIT_THRESHOLD with 20 in Hh. lia. }
  change MEM_EXPAND_HIT_THRESHOLD with 20 in Hh.
  rewrite (S_bind_step (remote size_gb) _ s1 _ _ eq_refl). cbv beta zeta.
  destruct (expand_mem_run f s1 Hal Hk Hx) as (s2 & Hr & Hk2 & Hs2 & Hc2 & Hh2).
  rewrite (S_bind_step _ _ _ _ _ Hr). eexists _, _. split; [reflexivity|].
  split_and!; [done|done|done|lia|]. intros _ _. split; [done|]. rewrite Hs2.
  change (size_gb (rdma_remote s1)) with (size_gb (rdma_remote s)).
  unfold expand_size. change FREE_MEM_EXPAND_THRESHOLD with 16. change MAX_FREE_MEM_GB with 32.
  destruct (Z.ltb_spec 32 (f - 16 + size_gb (rdma_remote s))); lia.
Qed.

(** ** Eviction and the books *)

(** The entries at [F] set to [x]. *)
Definition clear (x : Z) (F : list nat) (l : list Z) : list Z := foldr (λ j l, <[j := x]> l) l F.
#[global] Arguments clear : simpl never.

Lemma clear_cons x i F l : clear x (i :: F) l = <[i := x]> (clear x F l).
Proof. reflexivity. Qed.

Lemma clear_length x F l : length (clear x F l) = length l.
Proof. induction F as [|i F IH]; [done|]. by rewrite clear_cons, length_insert. Qed.

Lemma clear_lookup_ne x F l (j : nat) : j ∉ F → clear x F l !! j = l !! j.
Proof.
  induction F as [|i F IH]; [done|]. intros Hj. rewrite clear_cons, list_lookup_insert_ne by set_solver. apply IH. set_solver.
Qed.

Lemma clear_lookup x F l (j : nat) :
  (∀ i, i ∈ F → (i < length l)%nat) → clear x F l !! j = if bool_decide (j ∈ F) then Some x else l !! j.
Proof.
  intros HF. case_bool_decide as Hj; [|by apply clear_lookup_ne].
  induction F as [|i F IH]; [by apply not_elem_of_nil in Hj|]. rewrite clear_cons. destruct (decide (j = i)) as [->|Hne].
  - apply list_lookup_insert_eq. rewrite clear_length. apply HF. left.
  - rewrite list_lookup_insert_ne by done. apply IH; [|set_solver]. intros k Hk. apply HF. by right.
Qed.

Lemma count_cleared F : ∀ l,
  NoDup F → (∀ j, j ∈ F → l !! j = Some CHUNK_MALLOCED) →
  (count CHUNK_MALLOCED (clear CHUNK_EMPTY F l) + length F)%nat = count CHUNK_MALLOCED l.
Proof.
  induction F as [|i F IH]; intros l Hnd HF; [by rewrite Nat.add_0_r|]. inversion_clear Hnd as [|? ? Hni Hnd'].
  rewrite clear_cons. cbn [length].
  assert (clear CHUNK_EMPTY F l !! i = Some CHUNK_MALLOCED) as Hi.
  { rewrite clear_lookup_ne by done. apply HF. left. }
  pose proof (count_insert CHUNK_MALLOCED _ i _ CHUNK_EMPTY Hi) as Hc.
  rewrite decide_True, decide_False in Hc by done.
  specialize (IH l Hnd' ltac:(set_solver)). lia.
Qed.

(** Freeing keeps the books once the count is taken off. *)
Lemma freed_well_kept s0 F s k :
  well_kept (rdma_remote s0) → freed s0 F s → NoDup F → k = Z.of_nat (length F) →
  well_kept (rdma_remote (s <| rdma_remote ::= λ m, m <| size_gb ::= λ n, i32 (n - k) |> |>)).
Proof.
  intros ((W1 & W2 & W3 & W4 & W5 & W6) & HF & Hs) [Hm Hlen (Hc & Hr & _ & Hsz & Hml & Hccm & _) _ Hav] Hnd ->.
  assert (∀ j, j ∈ F → malloc_map (rdma_remote s0) !! j = Some CHUNK_MALLOCED) as Hmal.
  { intros j Hj%Hav. by apply bool_decide_eq_true in Hj as [? _]. }
  assert (malloc_map (rdma_remote s) = clear CHUNK_EMPTY F (malloc_map (rdma_remote s0))) as Heq.
  { apply list_eq. intros j. rewrite Hm, clear_lookup; [done|].
    intros i Hi%Hmal. by eapply lookup_lt_Some. }
  pose proof (count_cleared F _ Hnd Hmal) as Hcount. pose proof (count_total _ HF) as Ht.
  split; [|split].
  - unfold wf_remote. cbn. rewrite Hr, Hml, Hc, Hccm, Hlen. split_and!; try done.
    intros j. rewrite Hm. case_bool_decide; [done|]. apply W6.
  - cbn. apply Forall_lookup. intros j x. rewrite Hm. case_bool_decide; [intros [= <-]; by right|].
    intros Hx. by apply (Forall_lookup_1 _ _ _ _ HF Hx).
  - cbn -[count]. rewrite Hsz, Hs, i32_id, Heq by lia. lia.
Qed.

Lemma freed_clear s0 F s :
  freed s0 F s → malloc_map (rdma_remote s) = clear CHUNK_EMPTY F (malloc_map (rdma_remote s0)).
Proof.
  intros [Hm _ _ _ Hav]. apply list_eq. intros j. rewrite Hm, clear_lookup; [done|].
  intros i Hi%Hav. apply bool_decide_eq_true in Hi as [Hi _]. by eapply lookup_lt_Some.
Qed.

Lemma available_list_NoDup r i : NoDup (available_list r i).
Proof. apply NoDup_filter, NoDup_seq. Qed.

(** The calls that give the memory of the chunks [F] back, one for each. *)
Definition region_frees (r : rdma_remote_mem) (F : list nat) : list scall :=
  (λ j, V_free (default None (region_list r !! j))) <$> F.

(** Eviction within the chunks that are not handed out. *)
Lemma evict_mem_unmapped_run `{V : verbs} s g rnd junk uninit wait wait' :
  well_kept (rdma_remote s) → 0 < g → g <= Z.of_nat (length (available_list (rdma_remote s) 0)) →
  let F := take (Z.to_nat g) (available_list (rdma_remote s) 0) in
  ∃ s', evict_mem g rnd junk uninit wait wait' s = SRet tt s' ∧ well_kept (rdma_remote s') ∧
    s_trace s' = s_trace s ++ region_frees (rdma_remote s) F ∧
    malloc_map (rdma_remote s') = clear CHUNK_EMPTY F (malloc_map (rdma_remote s)) ∧
    size_gb (rdma_remote s') = size_gb (rdma_remote s) - g ∧
    conn_map (rdma_remote s') = conn_map (rdma_remote s) ∧ conn_heap s' = conn_heap s.
Proof.
  intros Hk H0 Hg. destruct (evict_loop_run s g 32 0 [] s) as (s1 & Hr & Hf1).
  { apply Hk. } { apply freed_nil, Hk. } { by intros ? ?%not_elem_of_nil. } { done. } { cbn. lia. }
  cbn [app length] in Hr, Hf1. rewrite Nat.sub_0_r in Hr, Hf1. intros F. fold F in Hr, Hf1.
  assert (Z.of_nat (length F) = g) as HlF by (unfold F; rewrite length_take; lia).
  rewrite HlF, Z.eqb_refl in Hr. unfold evict_mem, evict_unmapped.
  rewrite S_bind_unfold, (S_bind_step _ _ _ _ _ Hr). unfold unmapped_freed. cbn [fst snd].
  rewrite (S_bind_step (set_remote _) _ s1 tt _ eq_refl). cbv [mret S_ret].
  eexists. split; [reflexivity|].
  split. { eapply freed_well_kept; [done|done| |done]. 
    eapply sublist_NoDup; [apply available_list_NoDup|apply sublist_take]. }
  pose proof (count_total _ (proj1 (proj2 Hk))) as Ht. pose proof Hk as ((_ & _ & _ & W4 & _) & _ & Hs).
  pose proof (freed_clear _ _ _ Hf1) as Hcl.
  destruct Hf1 as [_ _ (Hc & _ & _ & Hsz & _ & _ & Hh) Htr _]. split_and!; [exact Htr|exact Hcl| |done|done].
  assert (size_gb (rdma_remote (s1 <| rdma_remote ::= λ m, m <| size_gb ::= λ n, i32 (n - g) |> |>)) =
    i32 (size_gb (rdma_remote s1) - g)) as -> by reflexivity.
  pose proof (available_list_length (rdma_remote s) 0). rewrite Hsz, i32_id by lia. done.
Qed.

(** C36. Running short of memory, while enough chunks are not handed out: an
    iteration that sees less than the eviction threshold gives back the memory
    of as many chunks as gigabytes are missing (of all there are, if fewer).
    They are the first ones that are allocated and not handed out: for each of
    them [free] is called once, on its region, and nothing else is freed; they
    and no others become empty, the size is less by their number, and no client
    loses a chunk. *)
Theorem free_mem_step_evicts `{V : verbs} env v s f g :
  well_kept (rdma_remote s) → 0 <= evict_hit_count v →
  f = filtered_free_mem (free_gb s) (last_free_mem_g v) → f < FREE_MEM_EVICT_THRESHOLD →
  g = Z.min (size_gb (rdma_remote s)) (FREE_MEM_EVICT_THRESHOLD - f) →
  g <= Z.of_nat (length (available_list (rdma_remote s) 0)) →
  let F := take (Z.to_nat g) (available_list (rdma_remote s) 0) in
  ∃ s', free_mem_step env v s = SRet (mkVars (f + g) 0 0) s' ∧ well_kept (rdma_remote s') ∧
    s_trace s' = s_trace s ++ V_meminfo :: region_frees (rdma_remote s) F ∧
    malloc_map (rdma_remote s') = clear CHUNK_EMPTY F (malloc_map (rdma_remote s)) ∧
    size_gb (rdma_remote s') = size_gb (rdma_remote s) - g ∧
    conn_map (rdma_remote s') = conn_map (rdma_remote s) ∧ conn_heap s' = conn_heap s.
Proof.
  intros Hk Hv Hf Hlt Hg Hav F. unfold free_mem_step. rewrite (S_bind_step _ _ _ _ _ (get_free_mem_run s)).
  cbv beta zeta. fold (free_gb s). rewrite <- Hf. clear Hf.
  destruct (Z.ltb_spec f FREE_MEM_EVICT_THRESHOLD); [|lia].
  change MEM_EVICT_HIT_THRESHOLD with 1. destruct (Z.leb_spec 1 (evict_hit_count v + 1)); [|lia].
  set (s1 := s <| s_trace ::= _ |>).
  rewrite (S_bind_step (remote size_gb) _ s1 _ _ eq_refl). cbv beta zeta.
  replace (if size_gb (rdma_remote s1) <? FREE_MEM_EVICT_THRESHOLD - f then size_gb (rdma_remote s1)
    else FREE_MEM_EVICT_THRESHOLD - f) with g.
  2: { change (size_gb (rdma_remote s1)) with (size_gb (rdma_remote s)).
       destruct (Z.ltb_spec (size_gb (rdma_remote s)) (FREE_MEM_EVICT_THRESHOLD - f)); lia. }
  assert (0 <= size_gb (rdma_remote s)) as Hpos by (destruct Hk as (_ & _ & ->); lia).
  destruct (Z.ltb_spec 0 g).
  - destruct (evict_mem_unmapped_run s1 g (e_rnd env) (e_junk env) (e_uninit env) (e_wait env) (e_wait' env))
      as (s2 & Hr & Hk2 & Htr & H2); [done|done|exact Hav|].
    rewrite (S_bind_step _ _ _ _ _ Hr). exists s2. split; [reflexivity|]. split; [exact Hk2|]. split; [|exact H2].
    rewrite Htr. change (s_trace s1) with (s_trace s ++ [V_meminfo]). rewrite <- app_assoc. reflexivity.
  - exists s1. split; [reflexivity|]. assert (g = 0) as Hg0 by lia. unfold F. rewrite Hg0.
    split; [exact Hk|]. split; [reflexivity|]. split; [reflexivity|]. split; [cbn; lia|]. split; reflexivity.
Qed.

(** The measured free memory is smoothed with weights 0.7 and 0.3 in
    mixed [double] and [float] arithmetic: for machines with less than 64 free
    gigabytes the result lies between the new and the old value, and a steady
    reading is a fixed point. *)
Theorem filtered_free_mem_between a b :
  0 <= a < 64 → 0 <= b < 64 →
  Z.min a b <= filtered_free_mem a b <= Z.max a b.
Proof.
  intros Ha Hb.
  assert (forallb (λ a, forallb (λ b, (Z.min a b <=? filtered_free_mem a b) &&
    (filtered_free_mem a b <=? Z.max a b)) (seqZ 0 64)) (seqZ 0 64) = true) as H by (vm_compute; reflexivity).
  rewrite forallb_forall in H. specialize (H a). rewrite forallb_forall in H.
  specialize (H ltac:(apply list_elem_of_In, elem_of_seqZ; lia) b ltac:(apply list_elem_of_In, elem_of_seqZ; lia)).
  lia.
Qed.

(** ** Witnesses *)

#[local] Existing Instance verbs_ok.

(** The connection of [demo_mapped] with an empty STOP message. *)
Definition demo_stop_conn : connection :=
  demo_mapped_conn <| send_msg ::= λ m, m <| msg_rkey := replicate 32 0 |> <| msg_size_gb := 0 |> |>.
Definition demo_stopping : server := with_conn 0 demo_stop_conn demo_mapped.
Definition demo_activity : list chunk_activity := [mkActivity 5 0; mkActivity 2 1; mkActivity 9 2].

Lemma demo_owns : owns demo_stopping 0 demo_stop_conn demo_activity.
Proof.
  constructor; [vm_compute; reflexivity..|].
  intros e [->|[->|[->|[]%not_elem_of_nil]%elem_of_cons]%elem_of_cons]%elem_of_cons;
    (split; [cbn; lia|vm_compute; reflexivity]).
Qed.

Lemma evict_selects_least_active_witness :
  ∃ r s' c' chosen, select_outer 2 0 3 demo_activity 0 [1] demo_stopping = SRet r s' ∧
    least_active demo_activity chosen ∧ conn_heap s' !! 0%nat = Some (Some c') ∧ msg_size_gb (send_msg c') = 2.
Proof.
  destruct (evict_selects_least_active 0 2 demo_activity demo_stopping demo_stop_conn 0)
    as (r & s' & c' & chosen & H1 & _ & H2 & H3 & H4 & _).
  - cbn. lia.
  - cbn. lia.
  - exact demo_owns.
  - vm_compute. reflexivity.
  - vm_compute. reflexivity.
  - exists r, s', c', chosen. split; [exact H1|]. split; [exact H2|]. split; [exact H3|exact H4].
Defined.

Lemma evict_unmapped_spec_witness :
  ∃ s', evict_unmapped 2 demo_connected = SRet None s' ∧ size_gb (rdma_remote s') = 10.
Proof.
  destruct (evict_unmapped_spec demo_connected 2 demo_wf_remote ltac:(lia)) as (s' & H1 & _ & H2 & _).
  exists s'. split; [exact H1|]. rewrite H2. vm_compute. reflexivity.
Defined.

Lemma demo_well_kept : well_kept (rdma_remote demo_connected).
Proof.
  split; [exact demo_wf_remote|]. split.
  - apply (bool_decide_eq_true _). vm_compute. reflexivity.
  - vm_compute. reflexivity.
Qed.

Definition demo_env : evict_env := mkEnv (λ _, 0) (λ _, mkActivity 0 0) 0 (λ _, []) (λ _, []).

Lemma free_mem_step_expands_witness :
  ∃ v' s', free_mem_step demo_env (mkVars 24 0 19) demo_connected = SRet v' s' ∧
    size_gb (rdma_remote s') = 20 ∧ well_kept (rdma_remote s').
Proof.
  destruct (free_mem_step_expands demo_env (mkVars 24 0 19) demo_connected 24)
    as (v' & s' & H1 & H2 & _ & _ & _ & H3).
  - intros tr. by eexists.
  - exact demo_well_kept.
  - vm_compute. reflexivity.
  - vm_compute. discriminate.
  - exists v', s'. split; [exact H1|]. split; [|exact H2].
    destruct (H3 eq_refl ltac:(cbn; lia)) as [_ ->]. vm_compute. reflexivity.
Defined.

(** The same machine with 4 GB left. *)
Definition verbs_low : verbs :=
  mkVerbs v_int v_ptr v_mr
    (λ _, [77; 101; 109; 70; 114; 101; 101; 58; 32] ++ dec_digits 8 4194304 ++ [32; 107; 66; 10]) v_garbage.

Lemma free_mem_step_evicts_witness :
  ∃ s', @free_mem_step verbs_low demo_env (mkVars 4 0 7) demo_connected = SRet (mkVars 8 0 0) s' ∧
    size_gb (rdma_remote s') = 8 ∧
    s_trace s' = s_trace demo_connected ++ V_meminfo :: region_frees (rdma_remote demo_connected) [0; 1; 2; 3]%nat.
Proof.
  destruct (@free_mem_step_evicts verbs_low demo_env (mkVars 4 0 7) demo_connected 4 4)
    as (s' & H1 & _ & H2 & _ & H3 & _).
  - exact demo_well_kept.
  - cbn. lia.
  - vm_compute. reflexivity.
  - reflexivity.
  - vm_compute. reflexivity.
  - vm_compute. discriminate.
  - exists s'. split; [exact H1|]. rewrite H2, H3. vm_compute. split; reflexivity.
Defined.

Lemma filtered_free_mem_between_witness : Z.min 20 10 <= filtered_free_mem 20 10 <= Z.max 20 10.
Proof. apply (filtered_free_mem_between 20 10); lia. Defined.

(** A whole eviction of 11 gigabytes: nine chunks are not handed out, and the
    client, which holds three, reports their activities, is told to stop the
    two least active ones and returns them. *)
Definition activity_message : message :=
  mkMessage (ntohll 5 :: ntohll 2 :: ntohll 9 :: replicate 29 0) (replicate 32 0) 0 (message_type_code ACTIVITY).
Definition done_message : message :=
  mkMessage (replicate 32 0) (1 :: 1 :: replicate 30 0) 2 (message_type_code DONE).

Definition demo_eviction : sres unit :=
  evict_mem 11 (λ _, 0) (λ _, mkActivity 0 0) 0 (λ _, [mkArrival 0 activity_message])
    (λ _, [mkArrival 0 done_message]) (run (set_conn_state 0 CONN_MAPPED) demo_mapped).

Example demo_eviction_result :
  match demo_eviction with
  | SRet _ s => (size_gb (rdma_remote s), mapped_size (rdma_remote s), take 4 (conn_map (rdma_remote s)),
                 take 4 (malloc_map (rdma_remote s)))
  | _ => (0, 0, [], [])
  end = (1, 1, [-1; -1; 0; -1], [0; 0; 1; 0]).
Proof. vm_compute. reflexivity. Qed.
