(* ===== verification/Ownership.v ===== *)
(** * Who owns a chunk

    The promise: a chunk that a connection holds is allocated, is recorded as
    that connection's, and is held by no other connection; in particular the
    server never frees or hands out again memory that a connected client can
    still reach.

    The thread of [free_mem] looks at a chunk's books and then frees it, under
    no lock; the threads that handle connection events and completions change
    the same books.  [server_reach] lets them run between any two chunks of an
    eviction, and, unless [calm], also between the test of a chunk and its
    freeing.  The promise holds in every calm state; where the poller hands a
    chunk out between the two it is broken ([race_freed]).  A handler, an
    expansion and the part of an eviction that asks clients are single steps.

    The invariant speaks about a part of the state only ([holding]); the
    operations that do not touch that part are preserved by the structure of
    their code ([spres_go]), and the others change it in one of six ways. *)

From S2P Require Import Prelude BitOps OctTypes Kernel Server Evict.

(** ** Preservation in the server's monad *)

Definition spres {A} (R : relation server) (m : S A) : Prop := ∀ s a s', m s = SRet a s' → R s s'.

Lemma S_bind_SRet {A B} (m : S A) (k : A → S B) s b s' :
  (m ≫= k) s = SRet b s' ↔ ∃ a s1, m s = SRet a s1 ∧ k a s1 = SRet b s'.
Proof.
  rewrite S_bind_unfold. destruct (m s) as [a s1| |f].
  - split; [eauto|]. by intros (? & ? & [= <- <-] & ?).
  - split; [done|]. by intros (? & ? & ? & ?).
  - split; [done|]. by intros (? & ? & ? & ?).
Qed.

(** [srun] takes apart every hypothesis that a computation returned. *)
Ltac sprim H := progress unfold remote, sget, set_remote, smod, mret, S_ret, sbounds, die, sfault,
  vcall, vcall_int, vcall_ptr, vcall_mr in H.
Ltac srun :=
  repeat match goal with
  | H : mbind _ _ _ = SRet _ _ |- _ =>
      let H1 := fresh "Hs" in apply S_bind_SRet in H as (? & ? & H1 & H)
  | H : SRet _ _ = SRet _ _ |- _ => injection H; clear H; intros; subst
  | H : Exit = SRet _ _ |- _ => discriminate H
  | H : SFault _ = SRet _ _ |- _ => discriminate H
  | H : _ = SRet _ _ |- _ => sprim H
  | H : (match ?x with _ => _ end) _ = SRet _ _ |- _ => let E := fresh "E" in destruct x eqn:E
  | H : (match ?x with _ => _ end) = SRet _ _ |- _ => let E := fresh "E" in destruct x eqn:E
  end.

Section Pres.
Context {R : relation server} `{!PreOrder R}.

Lemma spres_ret {A} (a : A) : spres R (mret a : S A).
Proof. intros s b s' [= _ <-]. reflexivity. Qed.

Lemma spres_die {A} : spres R (die : S A).
Proof. by intros s b s'. Qed.

Lemma spres_fault {A} f : spres R (sfault f : S A).
Proof. by intros s b s'. Qed.

Lemma spres_get {A} (f : server → A) : spres R (sget f).
Proof. intros s b s' [= _ <-]. reflexivity. Qed.

Lemma spres_remote {A} (f : rdma_remote_mem → A) : spres R (remote f).
Proof. apply spres_get. Qed.

Lemma spres_bind {A B} (m : S A) (k : A → S B) : spres R m → (∀ a, spres R (k a)) → spres R (m ≫= k).
Proof. intros Hm Hk s b s' (a & s1 & H1 & H2)%S_bind_SRet. etrans; [by eapply Hm|by eapply Hk]. Qed.

Lemma spres_bounds {A} (p : option A) : spres R (sbounds p).
Proof. destruct p; [apply spres_ret|apply spres_fault]. Qed.

Lemma spres_conn p : spres R (get_conn p).
Proof.
  unfold get_conn. apply spres_bind; [apply spres_get|]. intros h.
  repeat case_match; (apply spres_ret || apply spres_fault).
Qed.

Lemma spres_for n i body : (∀ j, spres R (body j)) → spres R (sfor n i body).
Proof.
  intros Hb. revert i. induction n as [|n IH]; intros i; [apply spres_ret|]. cbn [sfor].
  apply spres_bind; [done|]. intros [|]; [apply IH|apply spres_ret].
Qed.

Lemma spres_slot i : spres R (slot_conn i).
Proof.
  unfold slot_conn. apply spres_bind; [apply spres_get|]. intros cs.
  apply spres_bind; [apply spres_bounds|]. intros [p|]; [apply spres_ret|apply spres_fault].
Qed.

Lemma spres_for_slots {A} sl v (f : Z → nat → A → S A) :
  (∀ i p a, spres R (f i p a)) → ∀ i a, spres R (for_slots sl i v a f).
Proof.
  intros Hf. induction sl as [|x sl IH]; intros i a; cbn [for_slots]; [apply spres_ret|].
  destruct (x =? v); [|apply IH].
  apply spres_bind; [apply spres_slot|]. intros p. apply spres_bind; [apply Hf|]. intros b. apply IH.
Qed.

End Pres.

Lemma spres_weaken {A} (R R' : relation server) (m : S A) :
  (∀ s s', R s s' → R' s s') → spres R m → spres R' m.
Proof. intros HR Hm s a s' H. by eapply HR, Hm. Qed.

Create HintDb spres.
#[export] Hint Resolve spres_ret spres_die spres_fault spres_get spres_remote spres_bounds spres_conn spres_slot : spres.
#[export] Hint Extern 0 (PreOrder _) => apply _ : spres.

Ltac spres_go :=
  repeat first
    [ solve [auto with spres nocore]
    | apply spres_bind; [|intros ?]
    | apply spres_for; intros ?
    | apply spres_for_slots; intros ? ? ?
    | match goal with
      | |- spres _ (match ?x with _ => _ end) => destruct x
      end ].

(** ** The part of the state that says who holds what *)

(** What a connection knows: its index and its table of chunks. *)
Definition core (c : connection) : Z * list Z := (conn_index c, sess_chunk_map c).

Record holding := mkHolding {
  hd_region : list (option Z);
  hd_malloc : list Z;
  hd_conn : list Z;
  hd_sizes : nat * nat;                    (* of [mr_list] and [conn_chunk_map] *)
  hd_table : list (option (Z * list Z))    (* the connections, [None] once freed *)
}.

Definition holding_of (s : server) : holding :=
  let r := rdma_remote s in
  mkHolding (region_list r) (malloc_map r) (conn_map r) (length (mr_list r), length (conn_chunk_map r))
    ((λ o : option connection, core <$> o) <$> conn_heap s).

(** Connection [p] holds chunk [i]. *)
Definition holds (h : holding) (p i : nat) : Prop :=
  ∃ idx sm, hd_table h !! p = Some (Some (idx, sm)) ∧ sm !! i = Some (Z.of_nat i).

(** The table of one connection: entries are empty or chunks it holds, which
    are allocated and recorded as its own. *)
Definition table_ok (h : holding) (idx : Z) (sm : list Z) : Prop :=
  idx ≠ -1 ∧ length sm = 32%nat ∧
  ∀ i x, sm !! i = Some x → x = -1 ∨
    x = Z.of_nat i ∧ hd_conn h !! i = Some idx ∧ hd_malloc h !! i = Some CHUNK_MALLOCED.

Record consistent (h : holding) : Prop := {
  cs_len : length (hd_region h) = 32%nat ∧ length (hd_malloc h) = 32%nat ∧ length (hd_conn h) = 32%nat ∧
    hd_sizes h = (32, 32)%nat;
  cs_mem : ∀ j, hd_malloc h !! j = Some CHUNK_MALLOCED → ∃ a, hd_region h !! j = Some (Some a);
  cs_table : ∀ p idx sm, hd_table h !! p = Some (Some (idx, sm)) → table_ok h idx sm;
  cs_once : ∀ p q i, holds h p i → holds h q i → p = q
}.

(** A chunk that is recorded as nobody's is held by nobody. *)
Lemma unowned h p i : consistent h → hd_conn h !! i = Some (-1) → ¬ holds h p i.
Proof.
  intros [_ _ Ht _] Hi (idx & sm & Hp & Hsm). destruct (Ht _ _ _ Hp) as (Hn & _ & Hx).
  destruct (Hx _ _ Hsm) as [?|(_ & Hc & _)]; [lia|]. congruence.
Qed.

(** The six changes. *)
Definition grant (p i : nat) (idx : Z) (sm : list Z) (h : holding) : holding :=
  mkHolding (hd_region h) (hd_malloc h) (<[i := idx]> (hd_conn h)) (hd_sizes h)
    (<[p := Some (idx, <[i := Z.of_nat i]> sm)]> (hd_table h)).
Definition give_back (p i : nat) (idx : Z) (sm : list Z) (h : holding) : holding :=
  mkHolding (hd_region h) (<[i := CHUNK_EMPTY]> (hd_malloc h)) (<[i := -1]> (hd_conn h)) (hd_sizes h)
    (<[p := Some (idx, <[i := -1]> sm)]> (hd_table h)).
Definition drop_conn (p : nat) (cm : list Z) (h : holding) : holding :=
  mkHolding (hd_region h) (hd_malloc h) cm (hd_sizes h) (<[p := None]> (hd_table h)).
Definition add_memory (i : nat) (rl : list (option Z)) (h : holding) : holding :=
  mkHolding rl (<[i := CHUNK_MALLOCED]> (hd_malloc h)) (hd_conn h) (hd_sizes h) (hd_table h).
Definition free_memory (i : nat) (h : holding) : holding :=
  mkHolding (hd_region h) (<[i := CHUNK_EMPTY]> (hd_malloc h)) (hd_conn h) (hd_sizes h) (hd_table h).
Definition add_conn (idx : Z) (h : holding) : holding :=
  mkHolding (hd_region h) (hd_malloc h) (hd_conn h) (hd_sizes h)
    (hd_table h ++ [Some (idx, replicate 32 (-1))]).

Lemma grant_ok p i idx sm h :
  consistent h → hd_table h !! p = Some (Some (idx, sm)) → hd_conn h !! i = Some (-1) →
  hd_malloc h !! i = Some CHUNK_MALLOCED → consistent (grant p i idx sm h).
Proof.
  intros Hh Hp Hi Hm. pose proof (λ q, unowned h q i Hh Hi) as Hno.
  destruct Hh as [(L1 & L2 & L3 & L4) Hmem Ht Hone].
  pose proof (lookup_lt_Some _ _ _ Hi) as Hlt. pose proof (lookup_lt_Some _ _ _ Hp) as Hpl.
  destruct (Ht _ _ _ Hp) as (Hidx & Hlen & Hsm).
  assert (∀ q j, holds (grant p i idx sm h) q j → (q = p ∧ j = i) ∨ holds h q j) as Hcase.
  { intros q j (idx' & sm' & Hq & Hj). cbn in Hq.
    apply list_lookup_insert_Some in Hq as [(-> & [= <- <-] & _)|[Hne Hq]]; [|right; by exists idx', sm'].
    apply list_lookup_insert_Some in Hj as [(-> & _)|[_ Hj]]; [by left|right; by exists idx, sm]. }
  constructor; [cbn; by rewrite length_insert|done| |].
  - intros q idx' sm' Hq. cbn in Hq. unfold table_ok. cbn.
    apply list_lookup_insert_Some in Hq as [(-> & [= <- <-] & _)|[Hne Hq]].
    + split; [done|]. split; [by rewrite length_insert|].
      intros j x [(-> & <- & _)|[Hnj Hj]]%list_lookup_insert_Some.
      * right. split; [done|]. split; [apply list_lookup_insert_eq; lia|done].
      * rewrite list_lookup_insert_ne by done. by apply Hsm.
    + destruct (Ht _ _ _ Hq) as (? & ? & Hx). split; [done|]. split; [done|].
      intros j x Hj. destruct (Hx j x Hj) as [?|(-> & ? & ?)]; [by left|right].
      rewrite list_lookup_insert_ne; [done|]. intros ->. apply (Hno q). by exists idx', sm'.
  - intros q q' j [[-> ->]|H1]%Hcase [[-> Hj]|H2]%Hcase; [done|by destruct (Hno q')| |by eapply Hone].
    subst j. by destruct (Hno q).
Qed.

Lemma give_back_ok p i idx sm h :
  consistent h → hd_table h !! p = Some (Some (idx, sm)) → sm !! i = Some (Z.of_nat i) →
  consistent (give_back p i idx sm h).
Proof.
  intros [(L1 & L2 & L3 & L4) Hmem Ht Hone] Hp Hi.
  pose proof (lookup_lt_Some _ _ _ Hp) as Hpl. destruct (Ht _ _ _ Hp) as (Hidx & Hlen & Hsm).
  assert (i < 32)%nat as Hi32 by (rewrite <- Hlen; by eapply lookup_lt_Some).
  assert (∀ q j, holds (give_back p i idx sm h) q j → holds h q j) as Hsub.
  { intros q j (idx' & sm' & Hq & Hj). cbn in Hq.
    apply list_lookup_insert_Some in Hq as [(-> & [= <- <-] & _)|[Hne Hq]]; [|by exists idx', sm'].
    apply list_lookup_insert_Some in Hj as [(-> & ? & _)|[_ Hj]]; [lia|by exists idx, sm]. }
  constructor; [cbn; by rewrite !length_insert| | |].
  - cbn. intros j [(-> & ? & _)|[_ Hj]]%list_lookup_insert_Some; [done|by apply Hmem].
  - intros q idx' sm' Hq. cbn in Hq. unfold table_ok. cbn.
    apply list_lookup_insert_Some in Hq as [(-> & [= <- <-] & _)|[Hne Hq]].
    + split; [done|]. split; [by rewrite length_insert|].
      intros j x [(-> & <- & _)|[Hnj Hj]]%list_lookup_insert_Some; [by left|].
      rewrite !list_lookup_insert_ne by done. by apply Hsm.
    + destruct (Ht _ _ _ Hq) as (? & ? & Hx). split; [done|]. split; [done|].
      intros j x Hj. destruct (Hx j x Hj) as [?|(-> & ? & ?)]; [by left|right].
      rewrite !list_lookup_insert_ne; [done|..]; intros ->; apply Hne;
        apply (Hone p q j); [by exists idx, sm|by exists idx', sm'|by exists idx, sm|by exists idx', sm'].
  - intros q q' j H1%Hsub H2%Hsub. by eapply Hone.
Qed.

(** Entries of chunks that [p] holds may change when [p] goes. *)
Lemma drop_conn_ok p idx sm cm h :
  consistent h → hd_table h !! p = Some (Some (idx, sm)) → length cm = 32%nat →
  (∀ j, sm !! j ≠ Some (Z.of_nat j) → cm !! j = hd_conn h !! j) → consistent (drop_conn p cm h).
Proof.
  intros [(L1 & L2 & L3 & L4) Hmem Ht Hone] Hp Hlen Hcm.
  assert (∀ q j, holds (drop_conn p cm h) q j → q ≠ p ∧ holds h q j) as Hsub.
  { intros q j (idx' & sm' & Hq & Hj). cbn in Hq.
    apply list_lookup_insert_Some in Hq as [(_ & ? & _)|[Hne Hq]]; [done|].
    split; [done|by exists idx', sm']. }
  constructor; [done|done| |].
  - intros q idx' sm' Hq. cbn in Hq. unfold table_ok. cbn.
    apply list_lookup_insert_Some in Hq as [(_ & ? & _)|[Hne Hq]]; [done|].
    destruct (Ht _ _ _ Hq) as (? & ? & Hx). split; [done|]. split; [done|].
    intros j x Hj. destruct (Hx j x Hj) as [?|(-> & ? & ?)]; [by left|right].
    rewrite Hcm; [done|]. intros Hpj. apply Hne, (Hone p q j); [by exists idx, sm|by exists idx', sm'].
  - intros q q' j [_ H1]%Hsub [_ H2]%Hsub. by eapply Hone.
Qed.

Lemma add_memory_ok i rl h :
  consistent h → length rl = 32%nat → (∃ a, rl !! i = Some (Some a)) →
  (∀ j, j ≠ i → rl !! j = hd_region h !! j) → consistent (add_memory i rl h).
Proof.
  intros [(L1 & L2 & L3 & L4) Hmem Ht Hone] Hlen Hi Hrl.
  constructor; [cbn; by rewrite length_insert| | |done].
  - cbn. intros j [(-> & _)|[Hne Hj]]%list_lookup_insert_Some; [done|]. rewrite Hrl by done. by apply Hmem.
  - intros q idx sm Hq. destruct (Ht _ _ _ Hq) as (? & ? & Hx). split; [done|]. split; [done|].
    intros j x Hj. destruct (Hx j x Hj) as [?|(-> & ? & Hm)]; [by left|right]. cbn.
    split; [done|]. split; [done|]. destruct (decide (i = j)) as [->|].
    + apply list_lookup_insert_eq. by eapply lookup_lt_Some.
    + by rewrite list_lookup_insert_ne.
Qed.

Lemma free_memory_ok i h : consistent h → hd_conn h !! i = Some (-1) → consistent (free_memory i h).
Proof.
  intros Hh Hi. pose proof (λ q, unowned h q i Hh Hi) as Hno.
  destruct Hh as [(L1 & L2 & L3 & L4) Hmem Ht Hone].
  constructor; [cbn; by rewrite length_insert| | |done].
  - cbn. intros j [(-> & ? & _)|[_ Hj]]%list_lookup_insert_Some; [done|by apply Hmem].
  - intros q idx sm Hq. destruct (Ht _ _ _ Hq) as (? & ? & Hx). split; [done|]. split; [done|].
    intros j x Hj. destruct (Hx j x Hj) as [?|(-> & ? & Hm)]; [by left|right]. cbn.
    rewrite list_lookup_insert_ne; [done|]. intros ->. apply (Hno q). by exists idx, sm.
Qed.

Lemma add_conn_ok idx h : consistent h → idx ≠ -1 → consistent (add_conn idx h).
Proof.
  intros [(L1 & L2 & L3 & L4) Hmem Ht Hone] Hidx.
  assert (∀ q j, holds (add_conn idx h) q j → holds h q j) as Hsub.
  { intros q j (idx' & sm' & Hq & Hj). cbn -[replicate] in Hq. apply lookup_snoc_Some in Hq as [[_ Hq]|[_ Hq]].
    - by exists idx', sm'.
    - assert (sm' = replicate 32 (-1)) as -> by congruence. apply lookup_replicate in Hj as [? _]. lia. }
  constructor; [done|done| |].
  - intros q idx' sm' Hq. cbn -[replicate] in Hq.
    apply lookup_snoc_Some in Hq as [[_ Hq]|[_ Hq]]; [by apply (Ht q)|].
    assert (sm' = replicate 32 (-1)) as -> by congruence. assert (idx' = idx) as -> by congruence.
    split; [done|]. split; [by rewrite length_replicate|]. intros i x [-> _]%lookup_replicate. by left.
  - intros q q' j H1%Hsub H2%Hsub. by eapply Hone.
Qed.

(** ** Operations that leave the holding alone *)

Definition owned_ok (s : server) : Prop := consistent (holding_of s).
Definition hframe (s s' : server) : Prop := holding_of s = holding_of s'.
Definition keeps (s s' : server) : Prop := owned_ok s → owned_ok s'.

#[export] Instance hframe_preorder : PreOrder hframe.
Proof. split; [by intros s|]. intros s1 s2 s3 H1 H2. unfold hframe in *. congruence. Qed.
#[export] Instance keeps_preorder : PreOrder keeps.
Proof. split; [intros s H; exact H|]. intros s1 s2 s3 H1 H2 H. auto. Qed.

Lemma hframe_keeps s s' : hframe s s' → keeps s s'.
Proof. unfold hframe, keeps, owned_ok. by intros ->. Qed.

Section Frames.
Context {V : verbs}.

Lemma table_insert p c s :
  (λ o : option connection, core <$> o) <$> <[p := c]> (conn_heap s) =
  <[p := core <$> c]> (hd_table (holding_of s)).
Proof. apply list_fmap_insert. Qed.

Lemma table_lookup s p o :
  conn_heap s !! p = Some o → hd_table (holding_of s) !! p = Some (core <$> o).
Proof. intros Hp. cbn. by rewrite list_lookup_fmap, Hp. Qed.

Lemma get_conn_inv p s c s' : get_conn p s = SRet c s' → s' = s ∧ conn_heap s !! p = Some (Some c).
Proof. unfold get_conn. intros H. srun. done. Qed.

Lemma upd_conn_inv p f s a s' :
  upd_conn p f s = SRet a s' →
  ∃ c, conn_heap s !! p = Some (Some c) ∧ s' = s <| conn_heap ::= <[p := Some (f c)]> |>.
Proof.
  unfold upd_conn. intros H. srun. apply get_conn_inv in Hs as [-> Hc]. by exists x.
Qed.

Lemma hframe_upd p f : (∀ c, core (f c) = core c) → spres hframe (upd_conn p f).
Proof.
  intros Hf s a s' (c & Hc & ->)%upd_conn_inv. unfold hframe, holding_of. cbn.
  rewrite table_insert. cbn. rewrite Hf. f_equal.
  rewrite list_insert_id; [done|]. by rewrite list_lookup_fmap, Hc.
Qed.

Lemma hframe_send p f : spres hframe (set_send p f).
Proof. by apply hframe_upd. Qed.

Lemma hframe_smod f : (∀ s, holding_of (f s) = holding_of s) → spres hframe (smod f).
Proof. intros Hf s a s' [= _ <-]. unfold hframe. by rewrite Hf. Qed.

Lemma hframe_remote f :
  (∀ r, region_list (f r) = region_list r ∧ malloc_map (f r) = malloc_map r ∧ conn_map (f r) = conn_map r ∧
        length (mr_list (f r)) = length (mr_list r) ∧ length (conn_chunk_map (f r)) = length (conn_chunk_map r)) →
  spres hframe (set_remote f).
Proof.
  intros Hf. apply hframe_smod. intros s. unfold holding_of. cbn.
  by destruct (Hf (rdma_remote s)) as (-> & -> & -> & -> & ->).
Qed.

Lemma hframe_vcall c : spres hframe (vcall c).
Proof. by apply hframe_smod. Qed.

Lemma hframe_int c : spres hframe (vcall_int c).
Proof. by intros s a s' [= _ <-]. Qed.

Lemma hframe_ptr c : spres hframe (vcall_ptr c).
Proof. by intros s a s' [= _ <-]. Qed.

Lemma hframe_free_mem : spres hframe get_free_mem.
Proof. by intros s a s' [= _ <-]. Qed.

End Frames.

#[export] Hint Resolve hframe_send hframe_vcall hframe_int hframe_ptr hframe_free_mem : spres.
#[export] Hint Extern 1 (spres hframe (upd_conn _ _)) => apply hframe_upd; done : spres.
#[export] Hint Extern 1 (spres hframe (smod _)) => apply hframe_smod; done : spres.
#[export] Hint Extern 1 (spres hframe (set_remote _)) => apply hframe_remote; done : spres.

Section Ops.
Context {V : verbs}.

Lemma hframe_test_nz c : spres hframe (test_nz c).
Proof. unfold test_nz. spres_go. Qed.
Lemma hframe_test_z c : spres hframe (test_z c).
Proof. unfold test_z. spres_go. Qed.
Hint Resolve hframe_test_nz hframe_test_z : spres.

Lemma hframe_available i : spres hframe (chunk_available i).
Proof. unfold chunk_available. spres_go. Qed.
Lemma hframe_send_message p : spres hframe (send_message p).
Proof. unfold send_message. spres_go. Qed.
Lemma hframe_post_receives p : spres hframe (post_receives p).
Proof. unfold post_receives. spres_go. Qed.
Lemma hframe_zero_rkeys p : spres hframe (zero_rkeys p).
Proof. apply hframe_send. Qed.
Hint Resolve hframe_available hframe_send_message hframe_post_receives hframe_zero_rkeys : spres.

Lemma hframe_free_size p : spres hframe (send_free_mem_size p).
Proof. unfold send_free_mem_size. spres_go. Qed.
Lemma hframe_send_evict p n : spres hframe (send_evict p n).
Proof. unfold send_evict. spres_go. Qed.
Lemma hframe_conn_state i st : spres hframe (set_conn_state i st).
Proof. unfold set_conn_state. spres_go. Qed.
Lemma hframe_context ctx : spres hframe (build_context ctx).
Proof. unfold build_context. spres_go. Qed.
Lemma hframe_register : spres hframe register_memory.
Proof. unfold register_memory. spres_go. Qed.
Lemma hframe_on_connect p : spres hframe (on_connect p).
Proof. unfold on_connect. spres_go. Qed.
Hint Resolve hframe_free_size hframe_send_evict hframe_conn_state hframe_context hframe_register
  hframe_on_connect : spres.

Lemma hframe_ask_mapped sl : spres hframe (ask_mapped sl).
Proof.
  unfold ask_mapped. apply spres_bind; [auto with spres|]. intros st.
  generalize 0 as i. revert sl. induction (Z.to_nat MAX_CLIENT) as [|n IH]; intros sl i; [apply spres_ret|].
  apply spres_bind; [auto with spres|]. intros c. destruct (bool_decide (c = CONN_MAPPED)); [|apply IH].
  do 3 (apply spres_bind; [auto with spres|intros ?]). apply IH.
Qed.

Lemma hframe_probe fuel sel : ∀ r, spres hframe (probe fuel sel r).
Proof. induction fuel as [|fuel IH]; intros r; cbn [probe]; spres_go; apply IH. Qed.
Hint Resolve hframe_probe : spres.

Lemma hframe_ask_random n : ∀ rnd sel sl, spres hframe (ask_random n rnd sel sl).
Proof. induction n as [|n IH]; intros rnd sel sl; cbn [ask_random]; spres_go; apply IH. Qed.
Hint Resolve hframe_ask_mapped hframe_ask_random : spres.

Lemma hframe_choose g rnd : spres hframe (choose_clients g rnd).
Proof. unfold choose_clients. spres_go. Qed.

Lemma hframe_entries bufs : ∀ m n l, spres hframe (collect_entries bufs m n l).
Proof. induction bufs as [|b bufs IH]; intros m n l; cbn [collect_entries]; spres_go; apply IH. Qed.

Lemma hframe_mark ci sl : spres hframe (mark_chunk ci sl).
Proof. unfold mark_chunk. spres_go. Qed.
Hint Resolve hframe_choose hframe_entries hframe_mark : spres.

Lemma hframe_select j : ∀ n k l ci sl, spres hframe (select_outer j n k l ci sl).
Proof. induction j as [|j IH]; intros n k l ci sl; cbn [select_outer]; spres_go; apply IH. Qed.
Hint Resolve hframe_select : spres.

Lemma keeps_of {A} (m : S A) : spres hframe m → spres keeps m.
Proof. apply spres_weaken, hframe_keeps. Qed.

(** ** Operations that change it *)

Lemma available_inv i s b s' :
  chunk_available i s = SRet b s' →
  s' = s ∧ (b = true → arr_get (malloc_map (rdma_remote s)) i = Some CHUNK_MALLOCED ∧
                       arr_get (conn_map (rdma_remote s)) i = Some (-1)).
Proof.
  unfold chunk_available. intros H. srun. split; [done|].
  intros [Ha Ho]%andb_true_iff. apply Z.eqb_eq in Ha, Ho. by subst.
Qed.

Lemma arr_set_inv {A} (l : list A) i x l' :
  arr_set l i x = Some l' → l' = <[Z.to_nat i := x]> l ∧ 0 <= i < Z.of_nat (length l).
Proof. unfold arr_set. case_decide; [|done]. by intros [= <-]. Qed.

Lemma map_chunk_keeps p (i : nat) s a s' :
  map_chunk p (Z.of_nat i) s = SRet a s' → malloc_map (rdma_remote s) !! i = Some CHUNK_MALLOCED →
  conn_map (rdma_remote s) !! i = Some (-1) → keeps s s'.
Proof.
  unfold map_chunk. intros H Hm Hc Hok. srun.
  repeat match goal with
  | H : set_send _ _ _ = SRet _ _ |- _ => apply hframe_send in H
  | H : get_conn _ _ = SRet _ _ |- _ => apply get_conn_inv in H as [-> H]
  | H : upd_conn _ _ _ = SRet _ _ |- _ => apply upd_conn_inv in H as (c1 & Hc1 & ->)
  | H : arr_set _ _ _ = Some _ |- _ => apply arr_set_inv in H as [-> _]
  end.
  unfold owned_ok. rewrite <- H, <- Hs9. rewrite Nat2Z.id.
  assert (c1 = x) as -> by congruence. pose proof (table_lookup _ _ _ Hc1) as Ht.
  eapply eq_ind; [apply (grant_ok p i (conn_index x) (sess_chunk_map x) (holding_of s)); done|].
  unfold grant, holding_of. cbn. rewrite table_insert, length_insert. done.
Qed.

Lemma send_loop_keeps p : ∀ n (i : nat) cnt, spres keeps (send_chunks_loop p n (Z.of_nat i) cnt).
Proof.
  induction n as [|n IH]; intros i cnt; cbn [send_chunks_loop]; [apply spres_ret|].
  replace (Z.of_nat i + 1) with (Z.of_nat (Datatypes.S i)) by lia.
  intros s a s' (b & s1 & [-> Hb]%available_inv & H)%S_bind_SRet.
  destruct b; [|by eapply IH]. destruct Hb as [Hm Hc]; [done|]. rewrite arr_get_lookup in Hm, Hc.
  apply S_bind_SRet in H as (b & s2 & H1 & H). etrans; [by eapply map_chunk_keeps|].
  cbv zeta in H. destruct (i32 (cnt - 1) =? 0); [by eapply (spres_ret (R := keeps))|by eapply IH].
Qed.

Lemma single_loop_keeps p n (i : nat) :
  spres keeps (sfor n (Z.of_nat i) (λ i, ok ← chunk_available i; if ok : bool then map_chunk p i;; mret false else mret true)).
Proof. intros s a s'. rewrite single_loop. by apply send_loop_keeps. Qed.

Hint Resolve keeps_of : spres.
Hint Extern 2 (spres keeps _) => apply keeps_of; auto with spres nocore : spres.

Lemma send_loop_keeps0 p n cnt : spres keeps (send_chunks_loop p n 0 cnt).
Proof. apply (send_loop_keeps p n 0). Qed.
Hint Resolve send_loop_keeps0 : spres.

Lemma send_chunks_keeps p n : spres keeps (send_chunks_to_client p n).
Proof. unfold send_chunks_to_client. spres_go. Qed.

Lemma send_single_keeps p n : spres keeps (send_single_chunk_to_client p n).
Proof.
  unfold send_single_chunk_to_client. apply spres_bind; [spres_go|intros _].
  apply spres_bind; [spres_go|intros _]. apply spres_bind; [apply (single_loop_keeps p _ 0)|intros _]. spres_go.
Qed.

Lemma stop_chunk_keeps p i : spres keeps (stop_chunk p i).
Proof.
  unfold stop_chunk. intros s a s' H Hok. srun; [by apply get_conn_inv in Hs as [-> _]|].
  repeat match goal with
  | H : get_conn _ _ = SRet _ _ |- _ => apply get_conn_inv in H as [-> H]
  | H : upd_conn _ _ _ = SRet _ _ |- _ => apply upd_conn_inv in H as (c1 & Hc1 & ->)
  | H : arr_set _ _ _ = Some _ |- _ => apply arr_set_inv in H as [-> ?]
  end.
  assert (c1 = x) as -> by congruence. pose proof (table_lookup _ _ _ Hc1) as Ht.
  destruct (cs_table _ Hok _ _ _ Ht) as (_ & Hlen & Hsm).
  assert (∃ i' : nat, i = Z.of_nat i') as [i' ->].
  { exists (Z.to_nat i). lia. }
  rewrite arr_get_lookup in E6. destruct (Hsm _ _ E6) as [->|(-> & _)].
  { destruct H1. lia. }
  rewrite !Nat2Z.id. unfold owned_ok.
  eapply eq_ind; [apply (give_back_ok p i' (conn_index x) (sess_chunk_map x) (holding_of s)); done|].
  unfold give_back, holding_of. cbn. rewrite table_insert, !length_insert. done.
Qed.

Hint Resolve send_chunks_keeps send_single_keeps stop_chunk_keeps : spres.

Lemma recv_done_keeps p : spres keeps (recv_done p).
Proof. unfold recv_done. spres_go. Qed.
Hint Resolve recv_done_keeps : spres.

Lemma handle_cqe_keeps ok recv p : spres keeps (handle_cqe ok recv p).
Proof. unfold handle_cqe. spres_go. Qed.
Hint Resolve handle_cqe_keeps : spres.

Lemma deliver_keeps l : spres keeps (deliver l).
Proof. induction l as [|a l IH]; cbn [deliver]; spres_go. Qed.
Hint Resolve deliver_keeps : spres.

Lemma wait_evict_keeps p l : spres keeps (sem_wait_evict p l).
Proof. unfold sem_wait_evict. spres_go. Qed.
Lemma wait_stop_keeps p l : spres keeps (sem_wait_stop p l).
Proof. unfold sem_wait_stop. spres_go. Qed.
Hint Resolve wait_evict_keeps wait_stop_keeps : spres.

Lemma send_stop_keeps p n l : spres keeps (send_stop p n l).
Proof. unfold send_stop. spres_go. Qed.
Lemma collect_keeps wait i p a : spres keeps (collect wait i p a).
Proof. unfold collect. spres_go. Qed.
Hint Resolve send_stop_keeps collect_keeps : spres.

Lemma stop_clients_keeps n : ∀ i ci sl wait, spres keeps (stop_clients n i ci sl wait).
Proof. induction n as [|n IH]; intros i ci sl wait; cbn [stop_clients]; spres_go; apply IH. Qed.
Hint Resolve stop_clients_keeps : spres.

(** Memory: chunks that nobody holds are freed, empty ones are filled. *)
Lemma free_unmapped_keeps (i : nat) g f s a s' :
  free_unmapped (Z.of_nat i) g f s = SRet a s' → conn_map (rdma_remote s) !! i = Some (-1) → keeps s s'.
Proof.
  unfold free_unmapped. intros H Hc Hok. srun.
  repeat match goal with H : arr_set _ _ _ = Some _ |- _ => apply arr_set_inv in H as [-> ?] end.
  unfold owned_ok. eapply eq_ind; [eapply (free_memory_ok i); [exact Hok|exact Hc]|].
  unfold free_memory, holding_of. cbn. by rewrite Nat2Z.id.
Qed.

Lemma free_chunk_keeps (i : nat) g f : spres keeps (evict_unmapped_chunk (Z.of_nat i) g f).
Proof.
  unfold evict_unmapped_chunk. intros s a s' (b & s1 & [-> Hb]%available_inv & H)%S_bind_SRet.
  destruct b; [|by srun]. destruct Hb as [_ Hc]; [done|]. rewrite arr_get_lookup in Hc.
  by eapply free_unmapped_keeps.
Qed.

Lemma free_loop_keeps g : ∀ n (i : nat) f, spres keeps (evict_unmapped_loop n (Z.of_nat i) g f).
Proof.
  induction n as [|n IH]; intros i f; cbn [evict_unmapped_loop]; [apply spres_ret|].
  apply spres_bind; [apply free_chunk_keeps|]. intros [[] k]; cbn; [apply spres_ret|].
  replace (Z.of_nat i + 1) with (Z.of_nat (Datatypes.S i)) by lia. apply IH.
Qed.

Lemma free_loop_keeps0 g n f : spres keeps (evict_unmapped_loop n 0 g f).
Proof. apply (free_loop_keeps g n 0). Qed.
Hint Resolve free_loop_keeps0 : spres.

Lemma evict_unmapped_keeps g : spres keeps (evict_unmapped g).
Proof. unfold evict_unmapped, unmapped_freed. spres_go. Qed.
Hint Resolve evict_unmapped_keeps : spres.

Lemma evict_clients_keeps left rnd junk u wait wait' : spres keeps (evict_clients left rnd junk u wait wait').
Proof. unfold evict_clients. spres_go. Qed.
Hint Resolve evict_clients_keeps : spres.

Lemma evict_mem_keeps g rnd junk u wait wait' : spres keeps (evict_mem g rnd junk u wait wait').
Proof. unfold evict_mem. spres_go. Qed.

Lemma alloc_chunk_keeps i : spres keeps (alloc_chunk i).
Proof.
  unfold alloc_chunk. intros s a s' H Hok. pose proof (cs_len _ Hok) as (L1 & L2 & L3 & L4). cbn in L1, L2.
  srun;
  repeat match goal with H : arr_set _ _ _ = Some _ |- _ => apply arr_set_inv in H as [-> ?] end.
  - apply (add_memory_ok (Z.to_nat i) (<[Z.to_nat i := Some z0]> (region_list (rdma_remote s))) (holding_of s) Hok).
    + by rewrite length_insert.
    + exists z0. apply list_lookup_insert_eq. lia.
    + intros j Hj. by rewrite list_lookup_insert_ne.
  - apply (add_memory_ok (Z.to_nat i) (region_list (rdma_remote s)) (holding_of s) Hok); [done| |done].
    unfold arr_get in E0. case_decide; [|done]. by exists z.
Qed.
Hint Resolve evict_mem_keeps alloc_chunk_keeps : spres.

Lemma expand_loop_keeps n : ∀ i j e, spres keeps (expand_loop n i j e).
Proof. induction n as [|n IH]; intros i j e; cbn [expand_loop]; spres_go; apply IH. Qed.
Hint Resolve expand_loop_keeps : spres.

Lemma expand_mem_keeps e : spres keeps (expand_mem e).
Proof. unfold expand_mem. spres_go. Qed.
Hint Resolve expand_mem_keeps : spres.

Lemma free_mem_step_keeps env v : spres keeps (free_mem_step env v).
Proof.
  unfold free_mem_step. apply spres_bind; [auto with spres|]. intros mem. cbv zeta.
  generalize (filtered_free_mem (i32 (mem / ONE_MB)) (last_free_mem_g v)) as f. intros f.
  generalize (FREE_MEM_EVICT_THRESHOLD - f) as g. intros g. spres_go.
Qed.

(** ** Connections *)

Lemma unmap_inv sm i s b s' :
  unmap_chunk sm i s = SRet b s' →
  b = true ∧ (arr_get sm i = Some (-1) ∧ s' = s ∨ ∃ x, arr_get sm i = Some x ∧ x ≠ -1 ∧
    s' = with_maps (<[Z.to_nat x := -1]> (conn_map (rdma_remote s)))
                   (<[Z.to_nat x := -1]> (conn_chunk_map (rdma_remote s))) s).
Proof.
  unfold unmap_chunk. intros H. srun; split; try done.
  - left. apply Z.eqb_eq in E. by subst.
  - right. apply Z.eqb_neq in E. eexists. split; [reflexivity|]. split; [done|].
    repeat match goal with H : arr_set _ _ _ = Some _ |- _ => apply arr_set_inv in H as [-> ?] end.
    reflexivity.
Qed.

(** The loop of [destroy_connection] changes entries of held chunks only. *)
Lemma unmap_loop_inv sm : ∀ n (i : nat) s a s',
  sfor n (Z.of_nat i) (unmap_chunk sm) s = SRet a s' →
  (∀ j x, sm !! j = Some x → x = -1 ∨ x = Z.of_nat j) →
  ∃ cm ccm, s' = with_maps cm ccm s ∧ length cm = length (conn_map (rdma_remote s)) ∧
    length ccm = length (conn_chunk_map (rdma_remote s)) ∧
    ∀ j, sm !! j ≠ Some (Z.of_nat j) → cm !! j = conn_map (rdma_remote s) !! j.
Proof.
  induction n as [|n IH]; intros i s a s' H Hsm.
  { cbn in H. injection H as _ <-. exists (conn_map (rdma_remote s)), (conn_chunk_map (rdma_remote s)).
    split; [|done]. destruct s as [[] ? ? ? ? ? ? ?]. reflexivity. }
  cbn [sfor] in H. replace (Z.of_nat i + 1) with (Z.of_nat (Datatypes.S i)) in H by lia.
  apply S_bind_SRet in H as (b & s1 & [-> H1]%unmap_inv & H). rewrite arr_get_lookup in H1.
  destruct H1 as [[_ ->]|(x & Hx & Hne & ->)]; [by apply (IH (Datatypes.S i) _ a s' H)|].
  destruct (Hsm _ _ Hx) as [-> | ->]; [done|]. rewrite !Nat2Z.id in H.
  apply (IH (Datatypes.S i)) in H as (cm & ccm & -> & H1 & H2 & H3); [|done].
  cbn in H1, H2, H3. rewrite length_insert in H1, H2. exists cm, ccm. split; [reflexivity|]. split; [done|]. split; [done|].
  intros j Hj. rewrite H3 by done. rewrite list_lookup_insert_ne; [done|]. intros ->. done.
Qed.

(** [peel H] takes the first operation off a computation that returned and
    records that it leaves the holding alone. *)
Ltac peel H :=
  let F := fresh "F" in let X := fresh "X" in
  apply S_bind_SRet in H as (? & ? & F & H);
  lazymatch type of F with
  | ?m ?s = SRet _ _ => assert (spres hframe m) as X by spres_go; apply X in F; clear X
  end.

(** The part of a disconnection that unmaps the chunks. *)
Lemma release_inv (b : bool) sm n s a s' :
  (if b then sfor (Z.to_nat MAX_MR_SIZE_GB) 0 (unmap_chunk sm);;
             set_remote (λ r, r <| mapped_size ::= λ k, i32 (k - n) |>) else mret tt) s = SRet a s' →
  (∀ j x, sm !! j = Some x → x = -1 ∨ x = Z.of_nat j) →
  ∃ cm, let h := holding_of s in
    holding_of s' = mkHolding (hd_region h) (hd_malloc h) cm (hd_sizes h) (hd_table h) ∧
    length cm = length (hd_conn h) ∧ ∀ j, sm !! j ≠ Some (Z.of_nat j) → cm !! j = hd_conn h !! j.
Proof.
  intros H Hsm. destruct b.
  - apply S_bind_SRet in H as (u & s1 & H1 & [= _ <-]).
    apply (unmap_loop_inv sm _ 0) in H1 as (cm & ccm & -> & H2 & H3 & H4); [|done].
    exists cm. split; [|done]. unfold holding_of. cbn. by rewrite H3.
  - injection H as _ <-. by exists (hd_conn (holding_of s)).
Qed.

Lemma holding_drop p s :
  holding_of (s <| conn_heap ::= <[p := None]> |>) = drop_conn p (hd_conn (holding_of s)) (holding_of s).
Proof. unfold holding_of, drop_conn. cbn. by rewrite list_fmap_insert. Qed.

Lemma holding_upd p c s :
  holding_of (s <| conn_heap ::= <[p := Some c]> |>) =
  mkHolding (hd_region (holding_of s)) (hd_malloc (holding_of s)) (hd_conn (holding_of s)) (hd_sizes (holding_of s))
    (<[p := Some (core c)]> (hd_table (holding_of s))).
Proof. unfold holding_of. cbn. by rewrite list_fmap_insert. Qed.

Lemma destroy_keeps p : spres keeps (destroy_connection p).
Proof.
  unfold destroy_connection. intros s a s' H Hok.
  apply S_bind_SRet in H as (c & s0 & [-> Hc]%get_conn_inv & H).
  pose proof (table_lookup _ _ _ Hc) as Ht. destruct (cs_table _ Hok _ _ _ Ht) as (_ & _ & Hsm).
  do 3 peel H. apply S_bind_SRet in H as (u & s4 & Hrel & H).
  apply release_inv in Hrel as (cm & Hh & Hl & Hcm).
  2: { intros j y Hj. destruct (Hsm j y Hj) as [?|[? _]]; [by left|by right]. }
  do 8 peel H. injection H as _ <-.
  assert (holding_of s = holding_of x4) as E0 by (unfold hframe in *; congruence).
  rewrite <- E0 in Hh, Hl, Hcm. unfold owned_ok. destruct (cs_len _ Hok) as (_ & _ & L3 & _).
  eapply eq_ind; [apply (drop_conn_ok p (conn_index c) (sess_chunk_map c) cm (holding_of s)); (done || lia)|].
  rewrite holding_drop.
  assert (holding_of x20 = holding_of s4) as -> by (unfold hframe in *; congruence). by rewrite Hh.
Qed.

(** A new connection. *)
Definition garbage_ok : Prop := conn_index v_garbage ≠ -1.

Lemma take_slot_inv p s a s' c h :
  sfor (Z.to_nat MAX_CLIENT) 0 (take_slot p) s = SRet a s' → conn_heap s = h ++ [Some c] → p = length h →
  ∃ idx, (idx = 0 ∨ idx = conn_index c) ∧
    holding_of s' = holding_of (s <| conn_heap := h ++ [Some (c <| conn_index := idx |>)] |>).
Proof.
  change (Z.to_nat MAX_CLIENT) with 1%nat. cbn [sfor]. intros H Hh ->.
  apply S_bind_SRet in H as (b & s1 & H1 & H). assert (s' = s1) as -> by (destruct b; by injection H).
  clear H. unfold take_slot in H1. do 2 peel H1. destruct (bool_decide _).
  - do 4 peel H1. apply S_bind_SRet in H1 as (? & ? & (c' & Hc & ->)%upd_conn_inv & [= _ <-]).
    exists 0. split; [by left|]. assert (holding_of x10 = holding_of s) as E by (unfold hframe in *; congruence).
    pose proof (table_lookup _ _ _ Hc) as Ht. rewrite E in Ht. cbn in Ht.
    rewrite Hh, fmap_app in Ht. change (_ <$> [Some c]) with [Some (core c)] in Ht.
    rewrite list_lookup_middle in Ht by (by rewrite length_fmap).
    injection Ht as Hi Hs.
    rewrite holding_upd, E. unfold holding_of, core. cbn. rewrite Hh, !fmap_app. cbn.
    rewrite <- (length_fmap (λ o : option connection, core <$> o) h), snoc_insert. by rewrite Hs.
  - injection H1 as _ <-. exists (conn_index c). split; [by right|].
    assert (holding_of x2 = holding_of s) as -> by (unfold hframe in *; congruence).
    unfold holding_of. cbn. rewrite Hh, !fmap_app. by destruct c.
Qed.

Lemma build_keeps ctx : garbage_ok → spres keeps (build_connection ctx).
Proof.
  intros Hg. unfold build_connection. intros s a s' H Hok. do 2 peel H.
  apply S_bind_SRet in H as (p & s1 & [= <- <-] & H).
  apply S_bind_SRet in H as (? & s2 & [= _ <-] & H).
  apply S_bind_SRet in H as (? & s3 & (c & Hc & ->)%upd_conn_inv & H).
  apply S_bind_SRet in H as (? & s4 & Hslot & H).
  cbn in Hc. rewrite snoc_lookup_r in Hc. injection Hc as <-.
  eapply take_slot_inv in Hslot as (idx & Hidx & Hh); [|cbn; apply snoc_insert|done].
  do 3 peel H. injection H as _ <-. unfold owned_ok.
  eapply eq_ind; [apply (add_conn_ok idx (holding_of s) Hok); destruct Hidx as [-> | ->]; [done|exact Hg]|].
  assert (holding_of x11 = holding_of s4) as -> by (unfold hframe in *; congruence). rewrite Hh.
  assert (holding_of s = holding_of x2) as -> by (unfold hframe in *; congruence).
  unfold holding_of, add_conn. cbn -[replicate]. by rewrite !fmap_app.
Qed.

(** ** Every step of the server *)

Lemma cm_event_keeps e : garbage_ok → spres keeps (on_cm_event e).
Proof.
  intros Hg. pose proof build_keeps as Hb. pose proof destroy_keeps as Hd.
  unfold on_cm_event, on_connect_request, rdma_connected, on_disconnect. destruct e; spres_go.
Qed.

Lemma session_init_ok s s' a :
  rdma_session_init s = SRet a s' → conn_heap s = [] →
  length (region_list (rdma_remote s)) = 32%nat → length (mr_list (rdma_remote s)) = 32%nat → owned_ok s'.
Proof.
  intros H Hh H1 H2. unfold rdma_session_init in H.
  apply S_bind_SRet in H as (mem & s1 & [= _ <-] & H). apply S_bind_SRet in H as (? & s2 & [= _ <-] & H).
  assert (spres keeps (sfor (Z.to_nat (served_size (i32 (mem / ONE_MB)))) 0 (λ i, alloc_chunk i;; mret true))) as Hal.
  { spres_go. }
  apply S_bind_SRet in H as (? & s3 & Hl%Hal & H). do 1 peel H. injection H as _ <-.
  unfold owned_ok in *. eapply eq_ind.
  - apply Hl. unfold owned_ok, holding_of. constructor; cbn -[replicate]; rewrite ?Hh, ?length_replicate, ?H1, ?H2.
    + done.
    + intros j Hj. by apply (lookup_replicate 32 CHUNK_EMPTY CHUNK_MALLOCED j) in Hj as [? _].
    + by intros p idx sm.
    + intros p q i (? & ? & Hp & _). by cbn in Hp.
  - exact F.
Qed.

(** A step of the threads that handle events: one of the connection manager, an
    arriving message, a completion. *)
Inductive handler_step : server → server → Prop :=
| step_cm e s s' a : on_cm_event e s = SRet a s' → handler_step s s'
| step_message m s s' a : deliver [m] s = SRet a s' → handler_step s s'
| step_completion ok recv p s s' a : handle_cqe ok recv p s = SRet a s' → handler_step s s'.

Lemma handler_step_keeps s s' : garbage_ok → handler_step s s' → keeps s s'.
Proof.
  intros Hg [e ? ? ? H|m ? ? ? H|ok recv p ? ? ? H];
    [by eapply cm_event_keeps|by eapply deliver_keeps|by eapply handle_cqe_keeps].
Qed.

(** Where the thread of [free_mem] is: between two iterations; in the loop of an
    eviction of [g] gigabytes, about to test chunk [i] with [n] freed, or about
    to free chunk [i], which it has found to be available; behind that loop. *)
Inductive watcher :=
| Watching
| Testing (env : evict_env) (g : Z) (i : nat) (n : Z)
| Freeing (env : evict_env) (g : Z) (i : nat) (n : Z)
| Behind (env : evict_env) (g : Z) (r : bool * Z).

(** A whole iteration, or the parts of one that evicts. *)
Inductive watch_step : server * watcher → server * watcher → Prop :=
| watch_iteration env v s s' v' :
    free_mem_step env v s = SRet v' s' → watch_step (s, Watching) (s', Watching)
| watch_begin env v s mem s' f g :
    get_free_mem s = SRet mem s' → f = filtered_free_mem (i32 (mem / ONE_MB)) (last_free_mem_g v) →
    f < FREE_MEM_EVICT_THRESHOLD → MEM_EVICT_HIT_THRESHOLD <= evict_hit_count v + 1 → 0 < size_gb (rdma_remote s') →
    g = Z.min (size_gb (rdma_remote s')) (FREE_MEM_EVICT_THRESHOLD - f) →
    watch_step (s, Watching) (s', Testing env g 0 0)
| watch_test env g i n s b s' :
    (i < Z.to_nat MAX_FREE_MEM_GB)%nat → chunk_available (Z.of_nat i) s = SRet b s' →
    watch_step (s, Testing env g i n) (s', if b then Freeing env g i n else Testing env g (Datatypes.S i) n)
| watch_free env g i n s r s' :
    free_unmapped (Z.of_nat i) g n s = SRet r s' →
    watch_step (s, Freeing env g i n) (s', if r.1 : bool then Behind env g r else Testing env g (Datatypes.S i) r.2)
| watch_tested env g n s :
    watch_step (s, Testing env g (Z.to_nat MAX_FREE_MEM_GB) n) (s, Behind env g (false, n))
| watch_rest env g r s s' :
    (left ← unmapped_freed g r; evict_clients left (e_rnd env) (e_junk env) (e_uninit env) (e_wait env) (e_wait' env)) s
      = SRet tt s' → watch_step (s, Behind env g r) (s', Watching).

(** The chunk the thread has found to be available and not freed yet. *)
Definition found (w : watcher) : option nat := match w with Freeing _ _ i _ => Some i | _ => None end.

(** The states of a server whose memory was clean, and of its [free_mem] thread,
    from the start of that thread on.  In a [calm] one no handler has run
    between the test of a chunk and its freeing. *)
Inductive server_reach (calm : bool) : server → watcher → Prop :=
| reach_start s s' a :
    conn_heap s = [] → length (region_list (rdma_remote s)) = 32%nat → length (mr_list (rdma_remote s)) = 32%nat →
    rdma_session_init s = SRet a s' → server_reach calm s' Watching
| reach_handler s w s' :
    server_reach calm s w → (calm = true → found w = None) → handler_step s s' → server_reach calm s' w
| reach_watch s w s' w' :
    server_reach calm s w → watch_step (s, w) (s', w') → server_reach calm s' w'.

Lemma watch_loop env g : ∀ n i f s r s',
  evict_unmapped_loop n (Z.of_nat i) g f s = SRet r s' → (i + n)%nat = Z.to_nat MAX_FREE_MEM_GB →
  rtc watch_step (s, Testing env g i f) (s', Behind env g r).
Proof.
  induction n as [|n IH]; intros i f s r s' H Hi; cbn [evict_unmapped_loop] in H.
  { injection H as <- <-. replace i with (Z.to_nat MAX_FREE_MEM_GB) by lia. apply rtc_once, watch_tested. }
  apply S_bind_SRet in H as (q & s1 & H1 & H). unfold evict_unmapped_chunk in H1.
  apply S_bind_SRet in H1 as (b & s2 & Hb & H1). replace (Z.of_nat i + 1) with (Z.of_nat (Datatypes.S i)) in H by lia.
  eapply rtc_l; [eapply watch_test; [lia|exact Hb]|]. destruct b.
  - eapply rtc_l; [eapply watch_free; exact H1|]. destruct q as [[] k]; cbn [fst snd] in *.
    + by injection H as <- <-.
    + apply (IH (Datatypes.S i)); [done|lia].
  - injection H1 as <- <-. cbn [fst snd] in H. apply (IH (Datatypes.S i)); [done|lia].
Qed.

(** The eviction of an iteration, step by step, is the whole of it. *)
Lemma watch_eviction env v v' s s' mem s1 f :
  free_mem_step env v s = SRet v' s' →
  get_free_mem s = SRet mem s1 → f = filtered_free_mem (i32 (mem / ONE_MB)) (last_free_mem_g v) →
  f < FREE_MEM_EVICT_THRESHOLD → MEM_EVICT_HIT_THRESHOLD <= evict_hit_count v + 1 → 0 < size_gb (rdma_remote s1) →
  ∃ g, watch_step (s, Watching) (s1, Testing env g 0 0) ∧
    rtc watch_step (s1, Testing env g 0 0) (s', Watching).
Proof.
  intros H Hm -> Hf Hh Hs. eexists. split; [by eapply watch_begin|].
  unfold free_mem_step in H. rewrite (S_bind_step _ _ _ _ _ Hm) in H. cbv beta zeta in H.
  revert H Hf. generalize (filtered_free_mem (i32 (mem / ONE_MB)) (last_free_mem_g v)) as f. intros f H Hf.
  rewrite (proj2 (Z.ltb_lt _ _) Hf), (proj2 (Z.leb_le _ _) Hh), (S_bind_step (remote size_gb) _ s1 _ _ eq_refl) in H.
  cbv beta zeta in H. set (g := Z.min _ _).
  replace (if size_gb (rdma_remote s1) <? FREE_MEM_EVICT_THRESHOLD - f then size_gb (rdma_remote s1)
    else FREE_MEM_EVICT_THRESHOLD - f) with g in H.
  2: { destruct (Z.ltb_spec (size_gb (rdma_remote s1)) (FREE_MEM_EVICT_THRESHOLD - f)); lia. }
  rewrite (proj2 (Z.ltb_lt 0 g)) in H by lia. apply S_bind_SRet in H as ([] & s2 & H & [= _ <-]).
  unfold evict_mem, evict_unmapped in H. apply S_bind_SRet in H as (left & s3 & H3 & H).
  apply S_bind_SRet in H3 as (r & s4 & H4 & H3). etrans; [by apply (watch_loop env g 32 0 0)|].
  apply rtc_once. eapply watch_rest. by rewrite (S_bind_step _ _ _ _ _ H3).
Qed.

(** What the watcher keeps when its test still holds as it frees. *)
Definition test_holds (s : server) (w : watcher) : Prop :=
  ∀ i, found w = Some i → conn_map (rdma_remote s) !! i = Some (-1).

Lemma watch_step_keeps s w s' w' :
  watch_step (s, w) (s', w') → test_holds s w → owned_ok s → owned_ok s' ∧ test_holds s' w'.
Proof.
  intros Hw Ht Hok. inversion Hw; subst; (split; [|by intros i ?]) || idtac.
  - by eapply free_mem_step_keeps.
  - match goal with H : get_free_mem _ = _ |- _ => injection H as _ <-; exact Hok end.
  - match goal with H : chunk_available _ _ = _ |- _ => apply available_inv in H as [-> Hb] end.
    split; [done|]. destruct b; [|by intros j ?]. intros j [= <-]. destruct Hb as [_ Hc]; [done|].
    by rewrite arr_get_lookup in Hc.
  - split; [by eapply free_unmapped_keeps; [|apply (Ht i eq_refl)|]|]. by destruct (r.1).
  - done.
  - match goal with H : _ = SRet tt _ |- _ => revert H end.
    assert (spres keeps (left ← unmapped_freed g r;
      evict_clients left (e_rnd env) (e_junk env) (e_uninit env) (e_wait env) (e_wait' env))) as Hk.
    { unfold unmapped_freed. spres_go. }
    intros H. by eapply Hk.
Qed.

Lemma reach_owned s w : garbage_ok → server_reach true s w → owned_ok s ∧ test_holds s w.
Proof.
  intros Hg. induction 1 as [s s' a ? ? ? H|s w s' _ [IH _] Hn H|s w s' w' _ [IH1 IH2] H].
  - split; [by eapply session_init_ok|by intros i ?].
  - split; [by eapply handler_step_keeps|]. intros i Hi. by rewrite Hn in Hi.
  - by eapply watch_step_keeps.
Qed.

Lemma heap_table s p c :
  conn_heap s !! p = Some (Some c) → hd_table (holding_of s) !! p = Some (Some (conn_index c, sess_chunk_map c)).
Proof. intros H. cbn. by rewrite list_lookup_fmap, H. Qed.

(** What the promise says of entry [i] of the table of connection [p]. *)
Definition promised (s : server) (p : nat) (c : connection) (i : nat) (x : Z) : Prop :=
  x = -1 ∨
  x = Z.of_nat i ∧
  malloc_map (rdma_remote s) !! i = Some CHUNK_MALLOCED ∧
  (∃ a, region_list (rdma_remote s) !! i = Some (Some a)) ∧
  conn_map (rdma_remote s) !! i = Some (conn_index c) ∧
  (∀ q d, conn_heap s !! q = Some (Some d) → q ≠ p → sess_chunk_map d !! i = Some (-1)).

Lemma owned_promised s p c i x :
  owned_ok s → conn_heap s !! p = Some (Some c) → sess_chunk_map c !! i = Some x → promised s p c i x.
Proof.
  intros [(Hl & _) Hmem Ht Hone] Hp Hi. pose proof (heap_table _ _ _ Hp) as Hpt.
  destruct (Ht _ _ _ Hpt) as (_ & Hlen & Hx). destruct (Hx i x Hi) as [->|(-> & Hc & Hm)]; [by left|right].
  split_and!; [done..|by apply Hmem|done|].
  intros q d Hq Hne. apply heap_table in Hq. destruct (Ht _ _ _ Hq) as (_ & Hd & Hy).
  destruct (lookup_lt_is_Some_2 (sess_chunk_map d) i) as [y Hyi].
  { rewrite Hd, <- Hlen. by eapply lookup_lt_Some. }
  destruct (Hy i y Hyi) as [->|(-> & _)]; [done|]. destruct Hne. eapply Hone; by do 2 eexists.
Qed.

End Ops.

(** ** A server that runs short of memory *)

(** 24 GB are free when the server starts, 4 GB from then on. *)
Definition verbs_pressed : verbs :=
  mkVerbs (@v_int verbs_ok) (@v_ptr verbs_ok) (@v_mr verbs_ok)
    (λ tr, [77; 101; 109; 70; 114; 101; 101; 58; 32] ++
      dec_digits 8 (match tr with [] => 25165824 | _ => 4194304 end) ++ [32; 107; 66; 10]) (@v_garbage verbs_ok).

(** A client that asks for three chunks. *)
Definition request_message : message :=
  mkMessage (replicate 32 0) (replicate 32 0) 3 (message_type_code REQUEST_CHUNKS).

Definition returns {A} (r : sres A) : bool := match r with SRet _ _ => true | _ => false end.

Lemma run_SRet `{V : verbs} {A} (f : S A) s : returns (f s) = true → ∃ a, f s = SRet a (run f s).
Proof. unfold run. destruct (f s) as [a s'| |]; [by exists a|done..]. Qed.

(** The reachable states by evaluation. *)
Lemma reach_init `{V : verbs} calm : returns (rdma_session_init server0) = true →
  server_reach calm (run rdma_session_init server0) Watching.
Proof. intros [a H]%run_SRet. by eapply reach_start; [..|exact H]. Qed.
Lemma reach_cm `{V : verbs} calm e s w : server_reach calm s w → (calm = true → found w = None) →
  returns (on_cm_event e s) = true → server_reach calm (run (on_cm_event e) s) w.
Proof. intros Hs Hw [a H]%run_SRet. eapply reach_handler; [exact Hs|exact Hw|by econstructor]. Qed.
Lemma reach_deliver `{V : verbs} calm m s w : server_reach calm s w → (calm = true → found w = None) →
  returns (deliver [m] s) = true → server_reach calm (run (deliver [m]) s) w.
Proof. intros Hs Hw [a H]%run_SRet. eapply reach_handler; [exact Hs|exact Hw|by econstructor]. Qed.

(** The client connects; an iteration finds 4 GB free and chunk 0 available;
    the client asks for three chunks and gets 0, 1 and 2; the iteration goes
    on and frees chunk 0. *)
Section Race.
#[local] Existing Instance verbs_pressed.

Definition race_connected : server :=
  run (on_cm_event (Established 0)) (run (on_cm_event (ConnectRequest 5)) (run rdma_session_init server0)).
Definition race_read : server := race_connected <| s_trace ::= (.++ [V_meminfo]) |>.
Definition race_served : server := run (deliver [mkArrival 0 request_message]) race_read.
Definition race_freed : server := run (free_unmapped 0 4 0) race_served.
Definition race_conn : connection :=
  match conn_heap race_freed !! 0%nat with Some (Some c) => c | _ => v_garbage end.

Lemma race_connected_reach calm : server_reach calm race_connected Watching.
Proof.
  apply reach_cm; [|done|by vm_compute]. apply reach_cm; [|done|by vm_compute]. apply reach_init. by vm_compute.
Qed.

Lemma race_freed_reach : server_reach false race_freed (Testing demo_env 4 1 1).
Proof.
  assert (∃ r, free_unmapped 0 4 0 race_served = SRet (false, 1) r) as [r Hr] by (eexists; vm_compute; reflexivity).
  assert (race_freed = r) as -> by (unfold race_freed, run; by rewrite Hr).
  eapply (reach_watch _ race_served (Freeing demo_env 4 0 0)); [|by eapply (watch_free demo_env 4 0 0 _ (false, 1))].
  apply reach_deliver; [|discriminate|by vm_compute].
  eapply (reach_watch _ race_read (Testing demo_env 4 0 0)).
  - eapply reach_watch; [apply race_connected_reach|].
    eapply (watch_begin demo_env (mkVars 4 0 0) race_connected (free_kb race_connected) race_read 4);
      [apply get_free_mem_run|by vm_compute..].
  - eapply (watch_test demo_env 4 0 0 race_read true); [by apply Nat.ltb_lt|by vm_compute].
Qed.

(** The client's table has chunk 0 all the same. *)
Lemma race_freed_result :
  conn_heap race_freed !! 0%nat = Some (Some race_conn) ∧ sess_chunk_map race_conn !! 0%nat = Some 0 ∧
  malloc_map (rdma_remote race_freed) !! 0%nat = Some CHUNK_EMPTY ∧
  ∃ a, region_list (rdma_remote race_freed) !! 0%nat = Some (Some a) ∧ last (s_trace race_freed) = Some (V_free (Some a)).
Proof. split; [by vm_compute|]. split; [by vm_compute|]. split; [by vm_compute|]. by eexists; vm_compute. Qed.

End Race.

(** C5. As long as no handler runs between the test of a chunk by the
    [free_mem] thread and its freeing: in every state the server reaches,
    through any sequence of connection events, completions, arriving messages
    (well-formed or not), expansions and evictions, the handlers running between
    any two chunks of an eviction, each entry of a live connection's chunk
    table is empty or the index of its own slot, and then that chunk is
    allocated and has memory, [conn_map] records it as this connection's, and
    no other live connection has it.  ([garbage_ok]: the uninitialised index of
    a connection that found no slot is not the marker -1.)  The test is under no
    lock, and with a handler there the promise is broken: a state is reachable
    in which the last call has given the memory of a chunk back that is in the
    table of a live connection. *)
Theorem chunk_ownership_invariant :
  (∀ (V : verbs) s w p c i x,
     garbage_ok → server_reach true s w → conn_heap s !! p = Some (Some c) → sess_chunk_map c !! i = Some x →
     promised s p c i x) ∧
  (∃ s w c i a, @server_reach verbs_pressed false s w ∧
     conn_heap s !! 0%nat = Some (Some c) ∧ sess_chunk_map c !! i = Some (Z.of_nat i) ∧
     region_list (rdma_remote s) !! i = Some (Some a) ∧ last (s_trace s) = Some (V_free (Some a)) ∧
     malloc_map (rdma_remote s) !! i = Some CHUNK_EMPTY).
Proof.
  split.
  - intros V s w p c i x Hg [Hok _]%(reach_owned _ _ Hg). by apply owned_promised.
  - destruct race_freed_result as (H1 & H2 & H3 & a & H4 & H5).
    exists race_freed, (Testing demo_env 4 1 1), race_conn, 0%nat, a. split; [apply race_freed_reach|].
    exact (conj H1 (conj H2 (conj H4 (conj H5 H3)))).
Qed.

(** ** Witness *)

#[local] Existing Instance verbs_ok.

(** A client that connects, asks for three chunks and gets them, and an
    iteration of [free_mem] that enlarges the pool. *)
Definition demo_served : server := run (deliver [mkArrival 0 request_message]) demo_connected.
Definition demo_grown : server := run (free_mem_step demo_env (mkVars 24 0 19)) demo_served.
Definition demo_grown_conn : connection :=
  match conn_heap demo_grown !! 0%nat with Some (Some c) => c | _ => v_garbage end.

Lemma demo_grown_reach : server_reach true demo_grown Watching.
Proof.
  assert (returns (free_mem_step demo_env (mkVars 24 0 19) demo_served) = true) as Hr by by vm_compute.
  apply run_SRet in Hr as [v Hr]. eapply reach_watch; [|eapply watch_iteration, Hr].
  apply reach_deliver; [|done|by vm_compute]. apply reach_cm; [|done|by vm_compute].
  apply reach_cm; [|done|by vm_compute]. apply reach_init. by vm_compute.
Qed.

Lemma chunk_ownership_invariant_witness :
  sess_chunk_map demo_grown_conn !! 2%nat = Some 2 ∧
  malloc_map (rdma_remote demo_grown) !! 2%nat = Some CHUNK_MALLOCED.
Proof.
  assert (sess_chunk_map demo_grown_conn !! 2%nat = Some 2) as Hi by (vm_compute; reflexivity).
  split; [exact Hi|].
  destruct (proj1 chunk_ownership_invariant verbs_ok demo_grown Watching 0%nat demo_grown_conn 2%nat 2) as [H|(_ & H & _)].
  - vm_compute. discriminate.
  - exact demo_grown_reach.
  - vm_compute. reflexivity.
  - exact Hi.
  - discriminate H.
  - exact H.
Defined.
