(* ===== verification/EvictStall.v ===== *)
(** * Eviction from the kernel client

    [evict_mem] of the server waits for an ACTIVITY message of every client it
    asks.  The client of [C-Based-Octopus-Platform] never sends one: its
    handler for EVICT only changes its state.  This file proves both halves and
    puts them together: whatever happens to the client, every message it has
    posted is a request for chunks ([client_only_asks]), so with any messages of
    this client arriving during its wait the server's eviction does not return.

    The first half is an invariant of every reachable state of [System], by the
    structure of the driver's code ([pres_go]); the second one says which
    operations of the server leave the semaphores alone ([spres_go]). *)

From S2P Require Import Prelude BitOps OctTypes Kernel Names ChunkList CmdQueue OneSided BlockIO BlockDev.
From S2P Require Import Session Connect System Server Evict Ownership.

(** ** What the client sends *)

Definition request_type (t : Z) : Prop :=
  t = message_type_code REQUEST_CHUNKS ∨ t = message_type_code REQUEST_SINGLE_CHUNK.
Definition only_asks (c : kcall) : Prop :=
  match c with K_ib_post_send_msg _ m => request_type (msg_type m) | _ => True end.

Definition asking (w : world) : Prop := Forall only_asks (w_trace w).
Definition asks (w w' : world) : Prop := asking w → asking w'.

#[export] Instance asks_preorder : PreOrder asks.
Proof. split; [by intros w Hw|]. intros w1 w2 w3 H1 H2 H. auto. Qed.

Lemma asks_snoc c w : only_asks c → asks w (w <| w_trace ::= (.++ [c]) |>).
Proof. intros Hc Hw. apply Forall_app. split; [exact Hw|]. by repeat constructor. Qed.

Lemma asks_modify f : (∀ w, w_trace (f w) = w_trace w) → pres asks (modify f).
Proof. intros Hf w a w' [= _ <-]. unfold asks, asking. by rewrite Hf. Qed.

Lemma asks_call c : only_asks c → pres asks (call c).
Proof. intros Hc w a w' [= _ <-]. by apply asks_snoc. Qed.

Section Client.
Context {K : kernel}.

Lemma asks_call_int c : only_asks c → pres asks (call_int c).
Proof. intros Hc w a w' [= _ <-]. by apply asks_snoc. Qed.
Lemma asks_call_ptr c : only_asks c → pres asks (call_ptr c).
Proof. intros Hc w a w' [= _ <-]. by apply asks_snoc. Qed.

End Client.

#[export] Hint Resolve asks_call asks_call_int asks_call_ptr : pres.
#[export] Hint Extern 1 (only_asks _) => exact I : pres.
#[export] Hint Extern 1 (pres asks (modify _)) => apply asks_modify; reflexivity : pres.
#[export] Hint Extern 1 (pres asks (set_sess _)) => apply asks_modify; reflexivity : pres.
#[export] Hint Extern 1 (pres asks (set_dev _)) => apply asks_modify; reflexivity : pres.
#[export] Hint Extern 1 (pres asks (set_chunk_list _)) => apply asks_modify; reflexivity : pres.

Section Driver.
Context {K : kernel}.

Lemma asks_kzalloc {A} n (x : A) : pres asks (kzalloc n x).
Proof. unfold kzalloc. pres_go. Qed.
Hint Resolve asks_kzalloc : pres.

Lemma asks_name s : pres asks (name_buffer s).
Proof. unfold name_buffer, strcpy. pres_go. Qed.
Lemma asks_get_queue qi : pres asks (get_queue qi).
Proof. unfold get_queue. pres_go. Qed.
Lemma asks_set_queue qi q : pres asks (set_queue qi q).
Proof. unfold set_queue. pres_go. Qed.
Hint Resolve asks_name asks_get_queue asks_set_queue : pres.

Lemma asks_get_cmd qi ci : pres asks (get_cmd qi ci).
Proof. unfold get_cmd. pres_go. Qed.
Lemma asks_upd_cmd qi ci f : pres asks (upd_cmd qi ci f).
Proof. unfold upd_cmd. pres_go. Qed.
Hint Resolve asks_get_cmd asks_upd_cmd : pres.

Lemma asks_get_free qi : pres asks (get_a_free_rdma_cmd_from_rdma_q qi).
Proof. unfold get_a_free_rdma_cmd_from_rdma_q. pres_go. Qed.
Lemma asks_free_cmd qi ci : pres asks (free_a_rdma_cmd_to_rdma_q qi ci).
Proof. unfold free_a_rdma_cmd_to_rdma_q. pres_go. Qed.
Hint Resolve asks_get_free asks_free_cmd : pres.

Lemma asks_post op rq qi chunk off len : pres asks (post_rdma op rq qi chunk off len).
Proof. unfold post_rdma. pres_go. Qed.
Lemma asks_done id : pres asks (rdma_write_done id) ∧ pres asks (rdma_read_done id).
Proof. unfold rdma_write_done, rdma_read_done. split; pres_go. Qed.
Hint Resolve asks_post : pres.

Lemma asks_queue_rq d rq : pres asks (rmem_queue_rq d rq).
Proof. unfold rmem_queue_rq, transfer_requet_to_rdma_message, get_chunk, post_rdma_write, post_rdma_read. pres_go. Qed.

Lemma asks_init_queues : pres asks init_rdma_command_queue_list.
Proof. unfold init_rdma_command_queue_list, init_rdma_command_list, init_rdma_command. pres_go. Qed.

Lemma asks_init_table : pres asks init_remote_chunk_list.
Proof. unfold init_remote_chunk_list, set_chunk. pres_go. Qed.
Lemma asks_bind_table : pres asks bind_remote_memory_chunks.
Proof. unfold bind_remote_memory_chunks, bind_body, set_chunk. pres_go. Qed.
Hint Resolve asks_init_table asks_bind_table : pres.

Lemma asks_recv wc : pres asks (handle_recv_wr wc).
Proof. unfold handle_recv_wr, rdma_message_print, wake_up, set_state. pres_go. Qed.
Hint Resolve asks_recv : pres.

Lemma asks_poll wcs : pres asks (Session.poll_cq wcs).
Proof.
  induction wcs as [|wc wcs IH]; cbn [Session.poll_cq]; [pres_go|]. unfold handle_wc, rdma_wc_status_name.
  pose proof (λ id, proj1 (asks_done id)). pose proof (λ id, proj2 (asks_done id)). pres_go.
Qed.
Hint Resolve asks_poll : pres.

(** Between setting the type of the message and posting it, the buffer stays as
    it is. *)
Definition same_buffer (w w' : world) : Prop := send_buf (w_sess w') = send_buf (w_sess w).

#[local] Instance same_buffer_preorder : PreOrder same_buffer.
Proof. split; [by intros w|]. intros w1 w2 w3 H1 H2. unfold same_buffer in *. congruence. Qed.

Lemma same_buffer_print t : pres same_buffer (rdma_message_print t).
Proof.
  assert (∀ f, (∀ w, send_buf (w_sess (f w)) = send_buf (w_sess w)) → pres same_buffer (modify f)) as Hm.
  { intros f Hf w a w' [= _ <-]. apply Hf. }
  assert (∀ c, pres same_buffer (call c)) as Hc by (intros c; by apply Hm).
  assert (∀ c, pres same_buffer (call_ptr c)) as Hp by (by intros c w a w' [= _ <-]).
  unfold rdma_message_print, name_buffer, strcpy, kzalloc. pres_go.
Qed.

Lemma asks_print t : pres asks (rdma_message_print t).
Proof. unfold rdma_message_print. pres_go. Qed.

Lemma asks_send t n : request_type t → pres asks (send_message_to_remote t n).
Proof.
  intros Ht w a w' H. unfold send_message_to_remote, count_op in H. mrun.
  all: match goal with Hp : rdma_message_print _ _ = Ret _ ?v, E0 : send_buf (w_sess ?v) = Some ?m |- _ =>
    pose proof (same_buffer_print _ _ _ _ Hp) as Hb; apply asks_print in Hp; unfold same_buffer in Hb; cbn in Hb;
    rewrite E0 in Hb; injection Hb as -> end.
  all: intros Hw; match goal with Hp : asks _ _ |- _ => specialize (Hp Hw) end; unfold asking in *; cbn in *;
    apply Forall_app; (split; [done|]); apply Forall_singleton; exact Ht.
Qed.

Lemma asks_request n : pres asks (octupos_requset_for_chunk n).
Proof.
  assert (∀ z, pres asks (send_message_to_remote (if n =? 1 then message_type_code REQUEST_SINGLE_CHUNK
    else message_type_code REQUEST_CHUNKS) z)).
  { intros z. apply asks_send. destruct (n =? 1); [by right|by left]. }
  unfold octupos_requset_for_chunk, post_recv_wr, count_op. pres_go.
Qed.
Hint Resolve asks_request : pres.

Lemma asks_setup u : pres asks (connect_setup u).
Proof.
  pose proof asks_init_queues.
  unfold connect_setup, octopus_create_rdma_queues, octopus_create_qp, post_recv_wr, count_op, octopus_setup_buffers,
    octopus_setup_message_wr, message_lkey. pres_go.
Qed.
Hint Resolve asks_setup : pres.

Lemma asks_init u : gpres asks (octopus_rdma_client_init_module u).
Proof.
  unfold octopus_rdma_client_init_module, octopus_RDMA_connect, connect_init, rdma_resolve_ip_to_ib_device,
    octopus_connect_remote_memory_server, connect_notify, connect_disk, rmem_init_disk_driver, RMEM_create_device,
    init_rmem_device_control, init_blk_mq_tag_set, init_blk_mq_queue, init_gendisk, set_disk, count_op. pres_go.
Qed.

Lemma asks_collect : gpres asks octopus_disconenct_and_collect_resource.
Proof.
  unfold octopus_disconenct_and_collect_resource, octopus_free_rdma_structure, octopus_free_buffers, octopus_free_queue. pres_go.
Qed.

Lemma asks_event ev : gpres asks (handle_event ev).
Proof.
  pose proof asks_collect. unfold handle_event, forget. destruct ev as [u e|c wcs|d rq|].
  - unfold octopus_rdma_cm_event_handler, rdma_cm_message_print, wake_up, set_state. pres_go.
  - unfold octopus_cq_event_handler, set_state. pres_go.
  - pose proof (asks_queue_rq d rq). pres_go.
  - unfold octopus_rdma_client_cleanup_module, octopus_free_block_devicce. pres_go.
Qed.

End Driver.

(** In every reachable state, every message posted so far is a request for
    chunks. *)
Lemma reachable_asks `{K : kernel} u st : reachable u st → asking st.1.
Proof.
  intros Hr. apply (reachable_ind asks asking u st) in Hr as [Hi _]; [done|apply _|auto|constructor|apply asks_init|].
  intros ev _. apply asks_event.
Qed.

(** ** What the server's semaphores see *)

Definition sems (s : server) : list (option Z) := (λ o : option connection, evict_sem <$> o) <$> conn_heap s.
Definition sframe (s s' : server) : Prop := sems s' = sems s ∧ conns s' = conns s.

#[export] Instance sframe_preorder : PreOrder sframe.
Proof. split; [by intros s|]. intros s1 s2 s3 [H1 H2] [H3 H4]. split; congruence. Qed.

Section ServerFrames.
Context {V : verbs}.

Lemma sframe_upd p f : (∀ c, evict_sem (f c) = evict_sem c) → spres sframe (upd_conn p f).
Proof.
  intros Hf s a s' (c & Hc & ->)%upd_conn_inv. split; [|done]. unfold sems. cbn.
  rewrite list_fmap_insert. cbn. rewrite Hf, list_insert_id; [done|]. by rewrite list_lookup_fmap, Hc.
Qed.

Lemma sframe_smod f : (∀ s, conn_heap (f s) = conn_heap s ∧ conns (f s) = conns s) → spres sframe (smod f).
Proof. intros Hf s a s' [= _ <-]. destruct (Hf s) as [H1 H2]. split; [|done]. unfold sems. by rewrite H1. Qed.

Lemma sframe_vcall c : spres sframe (vcall c).
Proof. by apply sframe_smod. Qed.
Lemma sframe_int c : spres sframe (vcall_int c).
Proof. by intros s a s' [= _ <-]. Qed.
Lemma sframe_mr c : spres sframe (vcall_mr c).
Proof. by intros s a s' [= _ <-]. Qed.

End ServerFrames.

#[export] Hint Resolve sframe_vcall sframe_int sframe_mr : spres.
#[export] Hint Extern 1 (spres sframe (upd_conn _ _)) => apply sframe_upd; done : spres.
#[export] Hint Extern 1 (spres sframe (set_send _ _)) => apply sframe_upd; done : spres.
#[export] Hint Extern 1 (spres sframe (smod _)) => apply sframe_smod; done : spres.
#[export] Hint Extern 1 (spres sframe (set_remote _)) => apply sframe_smod; done : spres.

Section ServerOps.
Context {V : verbs}.

Lemma sframe_test_nz c : spres sframe (test_nz c).
Proof. unfold test_nz. spres_go. Qed.
Hint Resolve sframe_test_nz : spres.

Lemma sframe_send_message p : spres sframe (send_message p).
Proof. unfold send_message. spres_go. Qed.
Lemma sframe_post_receives p : spres sframe (post_receives p).
Proof. unfold post_receives. spres_go. Qed.
Lemma sframe_zero_rkeys p : spres sframe (zero_rkeys p).
Proof. unfold zero_rkeys. spres_go. Qed.
Lemma sframe_available i : spres sframe (chunk_available i).
Proof. unfold chunk_available. spres_go. Qed.
Lemma sframe_map_chunk p i : spres sframe (map_chunk p i).
Proof. unfold map_chunk. spres_go. Qed.
Lemma sframe_conn_state i st : spres sframe (set_conn_state i st).
Proof. unfold set_conn_state. spres_go. Qed.
Hint Resolve sframe_send_message sframe_post_receives sframe_zero_rkeys sframe_available sframe_map_chunk sframe_conn_state : spres.

Lemma sframe_loop p n : ∀ i cnt, spres sframe (send_chunks_loop p n i cnt).
Proof. induction n as [|n IH]; intros i cnt; cbn [send_chunks_loop]; spres_go; apply IH. Qed.
Hint Resolve sframe_loop : spres.

Lemma sframe_send_chunks p n : spres sframe (send_chunks_to_client p n).
Proof. unfold send_chunks_to_client. spres_go. Qed.
Lemma sframe_send_single p n : spres sframe (send_single_chunk_to_client p n).
Proof. unfold send_single_chunk_to_client. spres_go. Qed.
Lemma sframe_free_size p : spres sframe (send_free_mem_size p).
Proof. unfold send_free_mem_size. spres_go. Qed.
Lemma sframe_evict p n : spres sframe (send_evict p n).
Proof. unfold send_evict. spres_go. Qed.
Lemma sframe_recv_done p : spres sframe (recv_done p).
Proof. unfold recv_done, stop_chunk. spres_go. Qed.
Hint Resolve sframe_send_chunks sframe_send_single sframe_free_size sframe_evict sframe_recv_done : spres.

Lemma sframe_unmapped g : spres sframe (evict_unmapped g).
Proof.
  assert (∀ n i f, spres sframe (evict_unmapped_loop n i g f)).
  { induction n as [|n IH]; intros i f; cbn [evict_unmapped_loop]; unfold evict_unmapped_chunk, free_unmapped; spres_go; apply IH. }
  unfold evict_unmapped, unmapped_freed. spres_go.
Qed.

Lemma sframe_choose g rnd : spres sframe (choose_clients g rnd).
Proof.
  assert (∀ sl, spres sframe (ask_mapped sl)).
  { intros sl. unfold ask_mapped. apply spres_bind; [auto with spres|]. intros st.
    generalize 0 as i. revert sl. induction (Z.to_nat MAX_CLIENT) as [|n IH]; intros sl i; [apply spres_ret|].
    apply spres_bind; [auto with spres|]. intros c. destruct (bool_decide (c = CONN_MAPPED)); [|apply IH].
    do 3 (apply spres_bind; [auto with spres|intros ?]). apply IH. }
  assert (∀ fuel sel r, spres sframe (probe fuel sel r)).
  { induction fuel as [|fuel IH]; intros sel r; cbn [probe]; spres_go; apply IH. }
  assert (∀ n rnd sel sl, spres sframe (ask_random n rnd sel sl)).
  { induction n as [|n IH]; intros rnd' sel sl; cbn [ask_random]; spres_go; apply IH. }
  unfold choose_clients. spres_go.
Qed.

(** *** Messages that are not ACTIVITY *)

Definition no_activity (m : message) : Prop := msg_type m ≠ message_type_code ACTIVITY.

Lemma deliver_frame l : Forall (λ a, no_activity (a_msg a)) l → spres sframe (deliver l).
Proof.
  induction 1 as [|a l Ha _ IH]; cbn [deliver]; [apply spres_ret|].
  intros s x s' H. apply S_bind_SRet in H as ([] & s1 & H1 & H). apply S_bind_SRet in H as ([] & s2 & H2 & H).
  assert (sframe s s1) as F1 by (by eapply sframe_upd; [|exact H1]).
  etrans; [exact F1|]. etrans; [|by eapply IH]. clear H IH s'.
  apply upd_conn_inv in H1 as (c & Hc & ->). unfold handle_cqe in H2. cbn [negb] in H2.
  apply S_bind_SRet in H2 as (c' & s1 & [-> Hc']%get_conn_inv & H2).
  assert (recv_msg c' = a_msg a) as Hm.
  { cbn in Hc'. rewrite list_lookup_insert_eq in Hc' by (by eapply lookup_lt_Some). by injection Hc' as <-. }
  rewrite Hm in H2. destruct (message_type_of_code (msg_type (a_msg a))) as [[]|] eqn:Et; try done.
  all: try (match type of H2 with ?m _ = _ => let H := fresh in assert (spres sframe m) as H by spres_go; by eapply H end).
  destruct Ha. by apply rtype_code.
Qed.

(** ** The server's eviction *)

Lemma unmapped_states g : spres (λ s s', conns_state s' = conns_state s) (evict_unmapped g).
Proof.
  set (R := λ s s' : server, conns_state s' = conns_state s).
  assert (PreOrder R) by (split; [by intros s|intros s1 s2 s3 H1 H2; unfold R in *; congruence]).
  assert (∀ f, (∀ s, conns_state (f s) = conns_state s) → spres R (smod f)) as Hm by (intros f Hf s a s' [= _ <-]; apply Hf).
  assert (∀ c, spres R (vcall c)) by (intros c; by apply Hm).
  assert (∀ f, spres R (set_remote f)) by (intros f; by apply Hm).
  assert (∀ n i f, spres R (evict_unmapped_loop n i g f)).
  { induction n as [|n IH]; intros i f; cbn [evict_unmapped_loop]; unfold evict_unmapped_chunk, free_unmapped, chunk_available; spres_go; apply IH. }
  unfold evict_unmapped, unmapped_freed. spres_go.
Qed.

(** With one slot, a marked list is [1]. *)
Lemma arr_set_one (sl : list Z) i sl' : length sl = 1%nat → arr_set sl i 1 = Some sl' → sl' = [1].
Proof.
  intros Hl [-> Hi]%arr_set_inv. assert (Z.to_nat i = 0%nat) as -> by lia. destruct sl as [|x [|]]; done.
Qed.

Lemma ask_random_marks n : ∀ rnd sel sl s sl' s',
  ask_random n rnd sel sl s = SRet sl' s' → length sl = 1%nat → n ≠ 0%nat ∨ sl = [1] → sl' = [1].
Proof.
  induction n as [|n IH]; intros rnd sel sl s sl' s' H Hl Hn; cbn [ask_random] in H.
  { injection H as <- _. by destruct Hn. }
  repeat (apply S_bind_SRet in H as (? & ? & ? & H)).
  match goal with H : sbounds (arr_set sl _ 1) _ = SRet ?x _ |- _ =>
    unfold sbounds in H; destruct (arr_set sl _ 1) eqn:Ea; [injection H as <- _|done] end.
  apply arr_set_one in Ea as ->; [|done]. eapply IH; [exact H|done|by right].
Qed.

Lemma choose_marks g rnd s c s' :
  choose_clients g rnd s = SRet c s' → 0 < g → conns_state s = [CONN_MAPPED] → c.2 = [1].
Proof.
  unfold choose_clients. intros H Hg Hst. apply S_bind_SRet in H as (r & s1 & [= <- <-] & H). cbv zeta in H.
  destruct (mapped_size (rdma_remote s) <? g + EXTRA_CHUNK_NUM); apply S_bind_SRet in H as (sl & s2 & H1 & [= <- _]); cbn [snd].
  - unfold ask_mapped in H1. apply S_bind_SRet in H1 as (st & s3 & [= <- <-] & H1). rewrite Hst in H1.
    change (Z.to_nat MAX_CLIENT) with 1%nat in H1. repeat (apply S_bind_SRet in H1 as (? & ? & ? & H1)).
    srun; [by eapply arr_set_one; [|eassumption]|]. match goal with H : arr_get _ _ = Some _ |- _ => by injection H as <- end.
  - eapply ask_random_marks; [exact H1|done|]. left. unfold EXTRA_CHUNK_NUM. lia.
Qed.

Lemma wait_evict_stalls p l s x s' :
  sems s !! p = Some (Some 0) → Forall (λ a, no_activity (a_msg a)) l → sem_wait_evict p l s ≠ SRet x s'.
Proof.
  intros Hs Hl H. unfold sem_wait_evict in H. apply S_bind_SRet in H as ([] & s1 & H1 & H).
  apply S_bind_SRet in H as (c & s2 & [-> Hc]%get_conn_inv & H).
  apply deliver_frame in H1 as [Hse _]; [|done]. rewrite <- Hse in Hs. unfold sems in Hs. rewrite list_lookup_fmap, Hc in Hs.
  injection Hs as He. by rewrite He in H.
Qed.

Lemma evict_stalls stop_g rnd junk uninit wait wait' p s r s' :
  wf_remote (rdma_remote s) → Z.of_nat (length (available_list (rdma_remote s) 0)) < stop_g →
  conns s = [Some p] → conns_state s = [CONN_MAPPED] → sems s !! p = Some (Some 0) →
  Forall (λ a, no_activity (a_msg a)) (wait 0%nat) →
  evict_mem stop_g rnd junk uninit wait wait' s ≠ SRet r s'.
Proof.
  intros Hwf Hfew Hconns Hst Hsem Hl H. unfold evict_mem, evict_clients in H. apply S_bind_SRet in H as (left & s1 & H1 & H).
  pose proof (sframe_unmapped _ _ _ _ H1) as F1. pose proof (unmapped_states _ _ _ _ H1) as C1.
  destruct (evict_unmapped_spec s stop_g) as (s1' & Hu & _); [done|lia|]. rewrite Hu in H1. injection H1 as Hleft <-.
  rewrite length_take in Hleft. destruct (Z.eqb_spec (Z.of_nat (Nat.min (Z.to_nat stop_g) (length (available_list (rdma_remote s) 0)))) stop_g); [lia|].
  subst left. set (g := stop_g - _) in H. assert (0 < g) as Hg by (unfold g; lia). clearbody g.
  apply S_bind_SRet in H as (c & s2 & H2 & H). pose proof (sframe_choose _ _ _ _ _ H2) as F2.
  apply choose_marks in H2; [|done|by rewrite C1]. cbv zeta in H. rewrite H2 in H.
  apply S_bind_SRet in H as (k & s3 & H3 & H).
  assert (sframe s2 s3) as F3. { revert H3. apply spres_for_slots. intros i q a. spres_go. }
  apply S_bind_SRet in H as ([] & s4 & H4 & H).
  assert (sframe s3 s4) as F4. { revert H4. apply spres_for_slots. intros i q a. spres_go. }
  assert (sframe s s4) as [Hs4 Hc4] by (etrans; [exact F1|etrans; [exact F2|by etrans]]).
  apply S_bind_SRet in H as (res & s5 & H5 & _). cbn [for_slots Z.eqb Pos.eqb] in H5.
  apply S_bind_SRet in H5 as (q & s6 & H6 & H5). unfold slot_conn in H6. apply S_bind_SRet in H6 as (cs & s7 & [= <- <-] & H6).
  rewrite Hc4, Hconns in H6. cbn in H6. injection H6 as <- <-.
  apply S_bind_SRet in H5 as (a & s8 & H5 & _). unfold collect in H5. apply S_bind_SRet in H5 as ([] & s9 & H5 & _).
  eapply (wait_evict_stalls p (wait 0%nat)); [|exact Hl|exact H5]. by rewrite Hs4.
Qed.

End ServerOps.

(** ** The two together *)

(** The messages that arrive on connection [p] are ones the client has posted. *)
Definition sent_by (w : world) (p : nat) (a : arrival) : Prop :=
  a_conn a = p ∧ ∃ sge, K_ib_post_send_msg sge (a_msg a) ∈ w_trace w.

Lemma sent_no_activity w p a : asking w → sent_by w p a → no_activity (a_msg a).
Proof.
  intros Hw (_ & sge & Hin). unfold asking in Hw. rewrite Forall_forall in Hw. specialize (Hw _ Hin). cbn in Hw.
  unfold no_activity. by destruct Hw as [->| ->].
Qed.

(** The server asks a client of [C-Based-Octopus-Platform] for chunks and
    waits for the activities it never sends: in no reachable state of the
    client, whatever it has sent, does the eviction of more chunks than the
    server has to spare come to an end. *)
Theorem eviction_never_ends `{K : kernel} `{V : verbs} u st p s stop_g rnd junk uninit wait wait' r s' :
  reachable u st → wf_remote (rdma_remote s) → Z.of_nat (length (available_list (rdma_remote s) 0)) < stop_g →
  conns s = [Some p] → conns_state s = [CONN_MAPPED] → sems s !! p = Some (Some 0) →
  Forall (sent_by st.1 p) (wait 0%nat) →
  evict_mem stop_g rnd junk uninit wait wait' s ≠ SRet r s'.
Proof.
  intros Hr%reachable_asks Hwf Hfew Hc Hst Hsem Hw. apply (evict_stalls _ _ _ _ _ _ p); try done.
  eapply Forall_impl; [exact Hw|]. intros a. by apply sent_no_activity.
Qed.

(** 11 gigabytes are to go, nine chunks are not handed out, and the client,
    which has asked for chunks in the meantime, holds three. *)
Definition demo_pressed : server := run (set_conn_state 0 CONN_MAPPED) demo_mapped.

Definition posted (w : world) : list message :=
  omap (λ c, match c with K_ib_post_send_msg _ m => Some m | _ => None end) (w_trace w).

Lemma posted_sent w p : Forall (sent_by w p) (mkArrival p <$> posted w).
Proof.
  apply Forall_fmap, Forall_forall. intros m (c & Hc & Hm)%list_elem_of_omap. split; [done|].
  destruct c; try done. injection Hm as ->. by eexists.
Qed.

#[local] Existing Instance verbs_ok.

Lemma eviction_never_ends_witness : ∃ st, demo_end = Some st ∧ posted st.1 ≠ [] ∧
  ∀ r s', evict_mem 11 (λ _, 0) (λ _, mkActivity 0 0) 0 (λ _, mkArrival 0 <$> posted st.1) (λ _, []) demo_pressed ≠ SRet r s'.
Proof.
  destruct demo_end as [st|] eqn:E; [|vm_compute in E; discriminate E].
  exists st. split; [reflexivity|]. split.
  { intros Hp. assert (Some (posted st.1) = posted ∘ fst <$> demo_end) as H by (rewrite E; reflexivity).
    rewrite Hp in H. vm_compute in H. discriminate H. }
  intros r s'. apply (@eviction_never_ends kernel_ok verbs_ok 0 st 0 demo_pressed 11).
  - exact (demo_reachable st E).
  - apply wf_remoteb_sound. vm_compute. reflexivity.
  - vm_compute. reflexivity.
  - reflexivity.
  - reflexivity.
  - vm_compute. reflexivity.
  - apply posted_sent.
Defined.

(** When the client is quiet it is the wait that never ends. *)
Example quiet_client_waits :
  evict_mem 11 (λ _, 0) (λ _, mkActivity 0 0) 0 (λ _, []) (λ _, []) demo_pressed = SFault Spin.
Proof. vm_compute. reflexivity. Qed.
