(* ===== verification/EvictRun.v ===== *)
(** * An eviction that runs to its end

    [evict_mem] of the server with a client that answers both of its messages:
    it reports the activities of its chunks and returns as many as it is asked
    for.  [EvictStall] has the other half, clients that never answer.

    [single s p c] is the invariant of a session with one client: the books of
    the server ([Evict.well_kept]), the chunk table of the connection [c] and
    the counters of both agree.  Every phase of [evict_mem] has a lemma that
    says from which such state to which it goes; [eviction_completes] is their
    composition, and [pressed_step_completes] the iteration of [free_mem] that
    starts it. *)

From S2P Require Import Prelude BitOps OctTypes Kernel Names ChunkList CmdQueue OneSided BlockIO BlockDev.
From S2P Require Import Session Connect System Server Evict Ownership EvictStall.

(** ** Counting *)

Lemma filter_ext_in {A} (P Q : A → Prop) `{!∀ x, Decision (P x)} `{!∀ x, Decision (Q x)} (l : list A) :
  (∀ x, x ∈ l → P x ↔ Q x) → filter P l = filter Q l.
Proof.
  induction l as [|x l IH]; intros Hpq; [done|]. pose proof (Hpq x (list_elem_of_here _ _)) as Hx.
  rewrite !filter_cons, IH by (intros y Hy; apply Hpq; by right). repeat case_decide; tauto.
Qed.

Lemma filter_disjoint_length {A} (P Q R : A → Prop)
    `{!∀ x, Decision (P x)} `{!∀ x, Decision (Q x)} `{!∀ x, Decision (R x)} (l : list A) :
  (∀ x, x ∈ l → P x ↔ Q x ∨ R x) → (∀ x, x ∈ l → Q x → ¬ R x) →
  length (filter P l) = (length (filter Q l) + length (filter R l))%nat.
Proof.
  induction l as [|x l IH]; intros Hp Hd; [done|].
  assert (length (filter P l) = (length (filter Q l) + length (filter R l))%nat) as IHl.
  { apply IH; intros y Hy; [apply Hp|apply Hd]; by right. }
  specialize (Hp x (list_elem_of_here _ _)). specialize (Hd x (list_elem_of_here _ _)).
  rewrite !filter_cons. repeat case_decide; cbn [length]; tauto || lia.
Qed.

Lemma count_seq v l : ∀ i, count v l = length (filter (λ j, l !! (j - i)%nat = Some v) (seq i (length l))).
Proof.
  induction l as [|x l IH]; intros i; [done|]. rewrite count_cons. cbn [length seq].
  rewrite filter_cons, Nat.sub_diag. cbn [lookup list_lookup].
  assert (filter (λ j, (x :: l) !! (j - i)%nat = Some v) (seq (Datatypes.S i) (length l)) =
          filter (λ j, l !! (j - Datatypes.S i)%nat = Some v) (seq (Datatypes.S i) (length l))) as ->.
  { apply filter_ext_in. intros j [Hj _]%elem_of_seq.
    by replace (j - i)%nat with (Datatypes.S (j - Datatypes.S i)) by lia. }
  rewrite IH with (i := Datatypes.S i). repeat case_decide; cbn [length]; congruence || lia.
Qed.

(** ** The session with one client *)

(** The chunks in a connection's table. *)
Definition holds (c : connection) (i : nat) : Prop := sess_chunk_map c !! i = Some (Z.of_nat i).
#[export] Instance holds_dec c i : Decision (holds c i).
Proof. unfold holds. apply _. Defined.
Definition held_list (c : connection) : list nat := filter (holds c) (seq 0 32).
#[global] Arguments held_list : simpl never.

Record single (s : server) (p : nat) (c : connection) : Prop := {
  k_books : well_kept (rdma_remote s);
  k_slot : conns s = [Some p];
  k_conn : conn_heap s !! p = Some (Some c);
  k_up : connected c ≠ 0;
  k_index : conn_index c = 0;
  k_sems : 0 <= evict_sem c ∧ 0 <= stop_sem c;
  k_table : length (sess_chunk_map c) = 32%nat;
  k_chunks : ∀ i, (i < 32)%nat →
    conn_map (rdma_remote s) !! i = Some (-1) ∧ sess_chunk_map c !! i = Some (-1) ∨
    conn_map (rdma_remote s) !! i = Some 0 ∧ holds c i ∧ malloc_map (rdma_remote s) !! i = Some CHUNK_MALLOCED;
  k_mapped : mapped_chunk_size c = Z.of_nat (length (held_list c)) ∧
    mapped_size (rdma_remote s) = mapped_chunk_size c
}.

Lemma held_list_length c : (length (held_list c) <= 32)%nat.
Proof. unfold held_list. etrans; [apply length_filter|]. by rewrite length_seq. Qed.

Lemma elem_of_held c i : i ∈ held_list c ↔ (i < 32)%nat ∧ holds c i.
Proof. unfold held_list. rewrite list_elem_of_filter, elem_of_seq. split; intros [? ?]; (split; [|done || lia]); lia || done. Qed.

Lemma single_conn_map s p c i :
  single s p c → (i < 32)%nat → conn_map (rdma_remote s) !! i = Some 0 ↔ holds c i.
Proof.
  intros Hs Hi. unfold holds. destruct (k_chunks _ _ _ Hs i Hi) as [[Hm Ht]|(Hm & Ht & _)]; rewrite Hm; [rewrite Ht|].
  - split; intros [=]. lia.
  - by split.
Qed.

(** Every allocated chunk is either free to hand out or held by the client. *)
Lemma single_size s p c :
  single s p c →
  size_gb (rdma_remote s) =
  Z.of_nat (length (available_list (rdma_remote s) 0)) + Z.of_nat (length (held_list c)).
Proof.
  intros Hs. destruct (k_books _ _ _ Hs) as ((_ & _ & _ & W4 & _) & _ & ->).
  rewrite (count_seq _ _ 0), W4. rewrite <- Nat2Z.inj_add. f_equal. unfold available_list, held_list.
  apply filter_disjoint_length; intros i [_ Hi]%elem_of_seq; rewrite ?Nat.sub_0_r; unfold available;
    rewrite bool_decide_eq_true; destruct (k_chunks _ _ _ Hs i Hi) as [[Hm Ht]|(Hm & Ht & ?)]; rewrite Hm.
  - unfold holds. rewrite Ht. split; [intros ?; by left|]. intros [[? _]|[=]]; [done|lia].
  - split; [by right|done].
  - intros _. unfold holds. rewrite Ht. intros [=]. lia.
  - by intros [_ [=]].
Qed.

(** ** The report *)

(** The entries of an ACTIVITY message, [m] being the index of the first. *)
Fixpoint reported (bufs : list Z) (m : Z) : list chunk_activity :=
  match bufs with
  | [] => []
  | b :: bufs => if b =? 0 then reported bufs (m + 1) else mkActivity (ntohll b) m :: reported bufs (m + 1)
  end.

Lemma collect_entries_run s : ∀ bufs m done junk,
  length junk = length (reported bufs m) →
  collect_entries bufs m (Z.of_nat (length done)) (done ++ junk) s =
  SRet (Z.of_nat (length done + length junk), done ++ reported bufs m) s.
Proof.
  induction bufs as [|b bufs IH]; intros m done junk Hl; cbn [reported collect_entries] in *.
  { destruct junk; [|done]. by rewrite Nat.add_0_r. }
  destruct (b =? 0); cbn [negb]; [by apply IH|].
  destruct junk as [|x junk]; [done|]. cbn in Hl.
  rewrite arr_set_Some by (rewrite length_app; cbn; lia). sstep. rewrite Nat2Z.id, insert_middle.
  specialize (IH (m + 1) (done ++ [mkActivity (ntohll b) m]) junk ltac:(lia)).
  rewrite length_app, <- !app_assoc in IH. cbn [length app] in IH.
  replace (Z.of_nat (length done) + 1) with (Z.of_nat (length done + 1)) by lia. rewrite IH.
  do 2 f_equal. cbn [length]. f_equal. lia.
Qed.

Lemma reported_elem bufs : ∀ (m : nat) e,
  e ∈ reported bufs (Z.of_nat m) →
  ∃ i b, bufs !! i = Some b ∧ b ≠ 0 ∧ chunk_index e = Z.of_nat (m + i) ∧ activity e = ntohll b.
Proof.
  induction bufs as [|b bufs IH]; intros m e; cbn [reported]; [by intros ?%not_elem_of_nil|].
  replace (Z.of_nat m + 1) with (Z.of_nat (Datatypes.S m)) by lia.
  assert (e ∈ reported bufs (Z.of_nat (Datatypes.S m)) →
    ∃ i b', (b :: bufs) !! i = Some b' ∧ b' ≠ 0 ∧ chunk_index e = Z.of_nat (m + i) ∧ activity e = ntohll b') as Ht.
  { intros (i & b' & ? & ? & -> & ->)%IH. exists (Datatypes.S i), b'. split_and!; try done. lia. }
  destruct (Z.eqb_spec b 0); [done|]. intros [-> |He]%elem_of_cons; [|by apply Ht].
  exists 0%nat, b. cbn. split_and!; try done. lia.
Qed.

Lemma reported_length bufs : ∀ m, (count 0 bufs + length (reported bufs m))%nat = length bufs.
Proof.
  induction bufs as [|b bufs IH]; intros m; [done|]. rewrite count_cons. cbn [reported length].
  specialize (IH (m + 1)). destruct (Z.eqb_spec b 0); case_decide; cbn [length]; lia || done.
Qed.

(** A report of the chunks of a connection: an activity for each chunk it has,
    nothing for the others. *)
Definition reports (m : message) (c : connection) : Prop :=
  msg_type m = message_type_code ACTIVITY ∧ length (msg_buf m) = 32%nat ∧
  ∀ i, (i < 32)%nat → msg_buf m !! i = Some 0 ↔ ¬ holds c i.

Lemma reports_length m c : reports m c → length (reported (msg_buf m) 0) = length (held_list c).
Proof.
  intros (_ & Hl & Hh). pose proof (reported_length (msg_buf m) 0) as Hr. rewrite (count_seq _ _ 0), Hl in Hr.
  assert (length (filter (λ _ : nat, True) (seq 0 32)) =
    (length (filter (λ j, msg_buf m !! (j - 0)%nat = Some 0%Z) (seq 0 32)) + length (held_list c))%nat) as Hf.
  { apply filter_disjoint_length; intros i [_ Hi]%elem_of_seq; rewrite Nat.sub_0_r, Hh by lia; [|by intros ? ?].
    destruct (decide (holds c i)); tauto. }
  rewrite filter_all in Hf by (by apply Forall_forall). rewrite length_seq in Hf. lia.
Qed.

(** Every reported chunk is one the connection has. *)
Lemma reports_holds m c e :
  reports m c → e ∈ reported (msg_buf m) 0 → ∃ i, chunk_index e = Z.of_nat i ∧ (i < 32)%nat ∧ holds c i.
Proof.
  intros (_ & Hl & Hh) (i & b & Hb & Hne & Hi & _)%(reported_elem _ 0). exists i. split; [done|].
  assert (i < 32)%nat as Hi32 by (rewrite <- Hl; by eapply lookup_lt_Some). split; [done|].
  apply dec_stable. rewrite <- Hh by done. rewrite Hb. congruence.
Qed.

(** ** Steps that touch one connection

    [at_conn p c tr s] is [s] with [c] as the state of connection [p] and the
    calls [tr] made so far: the phases between the two changes of the books
    only move between such states. *)

Definition at_conn (p : nat) (c : connection) (tr : list scall) (s : server) : server :=
  s <| conn_heap ::= <[p := Some c]> |> <| s_trace := tr |>.

Lemma at_conn_id p c s : conn_heap s !! p = Some (Some c) → at_conn p c (s_trace s) s = s.
Proof. intros Hc. destruct s. unfold at_conn, setter. cbn in *. by rewrite list_insert_id. Qed.

Lemma at_conn_twice p c c' tr tr' s : at_conn p c' tr' (at_conn p c tr s) = at_conn p c' tr' s.
Proof. unfold at_conn, setter. cbn. by rewrite list_insert_insert_eq. Qed.

(** What a phase may change in the state of the connection. *)
Definition same_core (c c' : connection) : Prop :=
  connected c' = connected c ∧ conn_index c' = conn_index c ∧ evict_sem c' = evict_sem c ∧
  stop_sem c' = stop_sem c ∧ sess_chunk_map c' = sess_chunk_map c ∧ mapped_chunk_size c' = mapped_chunk_size c.

Lemma held_list_ext c c' : sess_chunk_map c' = sess_chunk_map c → held_list c' = held_list c.
Proof. intros E. apply filter_ext_in. intros i _. unfold holds. by rewrite E. Qed.

Lemma at_conn_single s p c c' tr : single s p c → same_core c c' → single (at_conn p c' tr s) p c'.
Proof.
  intros [H1 H2 H3 H4 H5 H6 H7 H8 H9] (E1 & E2 & E3 & E4 & E5 & E6).
  constructor; unfold holds in *; rewrite ?E1, ?E2, ?E3, ?E4, ?E5, ?E6, ?(held_list_ext _ _ E5); try done.
  cbn. apply list_lookup_insert_eq. by eapply lookup_lt_Some.
Qed.

Section Run.
Context {V : verbs} (int_ok : ∀ tr c, v_int tr c = 0).
Variables (p : nat) (s : server).
Hypothesis Hp : (p < length (conn_heap s))%nat.
Implicit Types (c : connection) (tr : list scall).

Lemma at_lookup c tr : conn_heap (at_conn p c tr s) !! p = Some (Some c).
Proof using Hp. cbn. by apply list_lookup_insert_eq. Qed.

Lemma at_get c tr : get_conn p (at_conn p c tr s) = SRet c (at_conn p c tr s).
Proof using Hp. apply get_conn_run, at_lookup. Qed.

Lemma at_upd f c tr : upd_conn p f (at_conn p c tr s) = SRet tt (at_conn p (f c) tr s).
Proof using Hp.
  rewrite (upd_conn_run p c) by apply at_lookup. f_equal. unfold at_conn, setter. cbn. by rewrite list_insert_insert_eq.
Qed.

Lemma at_set f c tr : set_send p f (at_conn p c tr s) = SRet tt (at_conn p (c <| send_msg ::= f |>) tr s).
Proof using Hp. apply at_upd. Qed.

Lemma at_vcall cl c tr : vcall cl (at_conn p c tr s) = SRet tt (at_conn p c (tr ++ [cl]) s).
Proof. reflexivity. Qed.

Lemma at_test cl c tr : test_nz cl (at_conn p c tr s) = SRet tt (at_conn p c (tr ++ [cl]) s).
Proof using int_ok. unfold test_nz. sstep. by rewrite int_ok. Qed.

Lemma at_slot c tr : conns s = [Some p] → slot_conn 0 (at_conn p c tr s) = SRet p (at_conn p c tr s).
Proof. intros Hc. unfold slot_conn. sstep. cbn. by rewrite Hc. Qed.

(** [astep] runs the first operation of a computation from such a state. *)
Ltac astep := first
  [ rewrite (S_bind_step _ _ _ _ _ (at_get _ _)) | rewrite (S_bind_step _ _ _ _ _ (at_set _ _ _))
  | rewrite (S_bind_step _ _ _ _ _ (at_upd _ _ _)) | rewrite (S_bind_step _ _ _ _ _ (at_test _ _ _)) ]; cbv beta.

Lemma at_send_message c tr :
  connected c ≠ 0 →
  send_message p (at_conn p c tr s) = SRet tt (at_conn p c (tr ++ [V_ibv_post_send p (send_msg c)]) s).
Proof using int_ok Hp.
  intros Hc. unfold send_message. astep. destruct (Z.eqb_spec (connected c) 0); [done|]. apply at_test.
Qed.

Lemma at_post_receives c tr :
  post_receives p (at_conn p c tr s) = SRet tt (at_conn p c (tr ++ [V_ibv_post_recv p]) s).
Proof using int_ok Hp. unfold post_receives. astep. apply at_test. Qed.

(** The two messages to the client. *)
Lemma at_send_evict n c tr :
  connected c ≠ 0 →
  ∃ c' tr', send_evict p n (at_conn p c tr s) = SRet tt (at_conn p c' tr' s) ∧ same_core c c'.
Proof using int_ok Hp.
  intros Hc. unfold send_evict, zero_rkeys. do 3 astep. rewrite at_send_message by done.
  eexists _, _. split; [reflexivity|]. by split_and!.
Qed.

(** One ACTIVITY message arrives during the wait for it. *)
Lemma at_activity m c tr :
  msg_type m = message_type_code ACTIVITY →
  deliver [mkArrival p m] (at_conn p c tr s) =
  SRet tt (at_conn p (c <| recv_msg := m |> <| evict_sem ::= λ n, n + 1 |>) tr s).
Proof using Hp.
  intros Hm. cbn [deliver a_conn a_msg]. astep. unfold handle_cqe. cbn [negb].
  rewrite S_bind_unfold, (S_bind_step _ _ _ _ _ (at_get _ _)). cbv beta.
  change (recv_msg (c <| recv_msg := m |>)) with m. rewrite Hm. cbn -[at_conn upd_conn]. by rewrite at_upd.
Qed.

Lemma at_wait_evict m c tr :
  msg_type m = message_type_code ACTIVITY → 0 <= evict_sem c →
  sem_wait_evict p [mkArrival p m] (at_conn p c tr s) = SRet tt (at_conn p (c <| recv_msg := m |>) tr s).
Proof using Hp.
  intros Hm Hs. unfold sem_wait_evict. rewrite (S_bind_step _ _ _ _ _ (at_activity _ _ _ Hm)). astep.
  match goal with |- context [0 <? ?x] => change x with (evict_sem c + 1) end. destruct (Z.ltb_spec 0 (evict_sem c + 1)); [|lia].
  rewrite at_upd. do 2 f_equal. destruct c. cbv [setter connection_eta]. cbn. f_equal. lia.
Qed.

Lemma at_collect m c tr wait :
  reports m c → 0 <= evict_sem c → wait 0%nat = [mkArrival p m] →
  ∃ c' tr', (∀ junk, length junk = length (held_list c) →
      collect wait 0 p (0, junk) (at_conn p c tr s) =
      SRet (Z.of_nat (length (held_list c)), reported (msg_buf m) 0) (at_conn p c' tr' s)) ∧
    same_core c c' ∧ msg_rkey (send_msg c') = replicate 32 0 ∧ msg_size_gb (send_msg c') = 0.
Proof using int_ok Hp.
  intros Hm Hs Hw. pose proof Hm as (Ht & Hl & _). eexists _, _. split.
  { intros junk Hj. unfold collect, zero_rkeys. change (Z.to_nat 0) with 0%nat. cbn [fst snd]. rewrite Hw.
    rewrite (S_bind_step _ _ _ _ _ (at_wait_evict m c tr Ht Hs)). do 3 astep.
    match goal with |- context [take _ (msg_buf ?r)] => change r with m end.
    rewrite take_ge by (change (Z.to_nat MAX_MR_SIZE_GB) with 32%nat; lia).
    rewrite <- (reports_length m c Hm) in Hj. pose proof (collect_entries_run (at_conn p (c <| recv_msg := m |>
      <| send_msg ::= λ m, m <| msg_size_gb := 0 |> |> <| send_msg ::= λ m, m <| msg_rkey := replicate 32 0 |> |>) tr s)
      (msg_buf m) 0 [] junk Hj) as Hr. cbn [app length] in Hr.
    rewrite (S_bind_step _ _ _ _ _ Hr), (S_bind_step _ _ _ _ _ (at_post_receives _ _)), Hj, (reports_length m c Hm).
    reflexivity. }
  by split_and!.
Qed.

End Run.


(** ** Chunks come back *)

(** The chunks a DONE message names. *)
Definition names (m : message) (i : nat) : Prop := msg_rkey m !! i ≠ Some 0.
#[export] Instance names_dec m i : Decision (names m i).
Proof. unfold names. apply _. Defined.
Definition named_list (m : message) : list nat := filter (names m) (seq 0 32).

(** A DONE message that returns [n] of the chunks of [c]. *)
Definition gives_back (n : nat) (m : message) (c : connection) : Prop :=
  msg_type m = message_type_code DONE ∧ length (msg_rkey m) = 32%nat ∧ msg_size_gb m = Z.of_nat n ∧
  length (named_list m) = n ∧ ∀ i, (i < 32)%nat → names m i → holds c i.

Lemma elem_of_named m i : i ∈ named_list m ↔ names m i ∧ (i < 32)%nat.
Proof. unfold named_list. rewrite list_elem_of_filter, elem_of_seq. split; intros [? ?]; (split; [done|lia]). Qed.

Lemma named_held n m c : gives_back n m c → named_list m ⊆ held_list c.
Proof. intros (_ & _ & _ & _ & Hh) i [? ?]%elem_of_named. apply elem_of_held. auto. Qed.

Lemma filter_not_named m c : filter (λ i, i ∉ named_list m) (held_list c) = filter (λ i, ¬ names m i) (held_list c).
Proof. apply filter_ext_in. intros i [? _]%elem_of_held. rewrite elem_of_named. tauto. Qed.

(** The books and the table of the connection after the chunks [D] are back. *)
Definition give (D : list nat) (r : rdma_remote_mem) : rdma_remote_mem :=
  r <| conn_map ::= clear (-1) D |> <| malloc_map ::= clear CHUNK_EMPTY D |> <| conn_chunk_map ::= clear (-1) D |>.
Definition gave (p : nat) (c : connection) (D : list nat) (tr : list scall) (s : server) : server :=
  at_conn p (c <| sess_chunk_map ::= clear (-1) D |>) tr (s <| rdma_remote ::= give D |>).

Lemma gave_nil p c s : conn_heap s !! p = Some (Some c) → gave p c [] (s_trace s) s = s.
Proof.
  intros Hc. destruct s as [[] ? ? ? ? ? ? ?], c. unfold gave, at_conn, setter, give. cbn in *. by rewrite list_insert_id.
Qed.

Lemma at_remote p c tr s f :
  set_remote f (at_conn p c tr s) = SRet tt (at_conn p c tr (s <| rdma_remote ::= f |>)).
Proof. reflexivity. Qed.

Lemma at_state p c tr s st x :
  conns_state s = [st] →
  set_conn_state 0 x (at_conn p c tr s) = SRet tt (at_conn p c tr (s <| conns_state := [x] |>)).
Proof. intros Hst. unfold set_conn_state. sstep. cbn -[mbind]. rewrite Hst. reflexivity. Qed.

(** [at_step] runs the first operation of a computation from an [at_conn]
    state. *)
Ltac at_step :=
  erewrite S_bind_step by
    (first [apply at_get | apply at_set | apply at_upd | apply at_vcall | apply at_test]; assumption);
  cbv beta.

Section Return.
Context {V : verbs} (int_ok : ∀ tr c, v_int tr c = 0).
Variables (p : nat) (s : server) (c : connection).
Hypothesis Hp : (p < length (conn_heap s))%nat.
Hypothesis Hwf : wf_remote (rdma_remote s).
Hypothesis Htable : length (sess_chunk_map c) = 32%nat.
Hypothesis Hkeys : length (msg_rkey (recv_msg c)) = 32%nat.
Hypothesis Hheld : ∀ i, (i < 32)%nat → names (recv_msg c) i → holds c i.

Lemma stop_chunk_run (i : nat) D tr :
  (i < 32)%nat → i ∉ D →
  ∃ tr', stop_chunk p (Z.of_nat i) (gave p c D tr s) =
      SRet true (gave p c (if decide (names (recv_msg c) i) then i :: D else D) (tr ++ tr') s).
Proof using Hp Hwf Htable Hkeys Hheld.
  intros Hi HD. destruct Hwf as (W1 & W2 & W3 & W4 & W5 & _). unfold stop_chunk, gave. at_step.
  destruct (lookup_lt_is_Some_2 (msg_rkey (recv_msg c)) i) as [k Hk]; [lia|].
  match goal with |- context [msg_rkey (recv_msg ?x)] => change (recv_msg x) with (recv_msg c) end.
  rewrite (arr_get_lookup (msg_rkey _)), Hk. sstep.
  destruct (decide (names (recv_msg c) i)) as [Hn|Hn]; unfold names in Hn; rewrite Hk in Hn.
  2: { apply dec_stable in Hn as [= ->]. exists []. by rewrite app_nil_r. }
  destruct (Z.eqb_spec k 0) as [->|Hne]; [done|].
  assert (holds c i) as Hh by (apply Hheld; [done|]; unfold names; rewrite Hk; congruence).
  match goal with |- context [sess_chunk_map ?x] => change (sess_chunk_map x) with (clear (-1) D (sess_chunk_map c)) end.
  rewrite (arr_get_lookup (clear _ _ _)), clear_lookup_ne, Hh by done. sstep.
  rewrite arr_set_Some by (rewrite clear_length; lia). rewrite Nat2Z.id. sstep. at_step. sstep.
  destruct (lookup_lt_is_Some_2 (mr_list (rdma_remote s)) i) as [mr Hmr]; [lia|].
  destruct (lookup_lt_is_Some_2 (region_list (rdma_remote s)) i) as [reg Hreg]; [lia|].
  match goal with |- context [mr_list (id ?r)] => change (id r) with (give D (rdma_remote s)) end.
  change (mr_list (give _ _)) with (mr_list (rdma_remote s)).
  change (region_list (give _ _)) with (region_list (rdma_remote s)).
  change (conn_map (give _ _)) with (clear (-1) D (conn_map (rdma_remote s))).
  change (malloc_map (give _ _)) with (clear CHUNK_EMPTY D (malloc_map (rdma_remote s))).
  change (conn_chunk_map (give _ _)) with (clear (-1) D (conn_chunk_map (rdma_remote s))).
  rewrite !arr_get_lookup, Hmr, Hreg. sstep. at_step. sstep. at_step.
  rewrite !arr_set_Some by (rewrite clear_length; lia). do 3 sstep. rewrite (S_bind_step _ _ _ _ _ (at_remote _ _ _ _ _)), Nat2Z.id, <- app_assoc.
  exists [V_ibv_dereg_mr mr; V_free reg]. reflexivity.
Qed.

Lemma stop_loop_run : ∀ (n i : nat) D tr,
  (i + n)%nat = 32%nat → (∀ j, j ∈ D → (j < i)%nat) →
  ∃ D' tr', sfor n (Z.of_nat i) (stop_chunk p) (gave p c D tr s) = SRet tt (gave p c D' (tr ++ tr') s) ∧
    D' ≡ₚ D ++ filter (names (recv_msg c)) (seq i n).
Proof using Hp Hwf Htable Hkeys Hheld.
  induction n as [|n IH]; intros i D tr Hi HD.
  { exists D, []. by rewrite !app_nil_r. }
  destruct (stop_chunk_run i D tr) as (tr1 & H1); [lia|by intros ?%HD; lia|].
  cbn [sfor seq]. rewrite (S_bind_step _ _ _ _ _ H1). rewrite filter_cons.
  replace (Z.of_nat i + 1) with (Z.of_nat (Datatypes.S i)) by lia.
  case_decide as Hn.
  - destruct (IH (Datatypes.S i) (i :: D) (tr ++ tr1)) as (D' & tr' & H2 & HP); [lia| |].
    { intros j [-> |Hj%HD]%elem_of_cons; lia. }
    exists D', (tr1 ++ tr'). rewrite app_assoc. split; [exact H2|]. rewrite HP. cbn. by rewrite Permutation_middle.
  - destruct (IH (Datatypes.S i) D (tr ++ tr1)) as (D' & tr' & H2 & HP); [lia|intros j Hj%HD; lia|].
    exists D', (tr1 ++ tr'). rewrite app_assoc. by split.
Qed.

End Return.

(** The books with [k] gigabytes fewer, of which the client had all. *)
Definition take_off (k : Z) (r : rdma_remote_mem) : rdma_remote_mem :=
  r <| size_gb ::= λ n, i32 (n - k) |> <| mapped_size ::= λ n, i32 (n - k) |>.

Lemma NoDup_seq_filter (P : nat → Prop) `{!∀ x, Decision (P x)} i n : NoDup (filter P (seq i n)).
Proof. apply NoDup_filter, NoDup_seq. Qed.

Lemma split_length (D l : list nat) :
  NoDup D → NoDup l → D ⊆ l → length l = (length D + length (filter (λ i, i ∉ D) l))%nat.
Proof.
  intros HD Hl Hsub. assert (D ≡ₚ filter (λ i, i ∈ D) l) as HP.
  { apply NoDup_Permutation; [done|by apply NoDup_filter|]. intros i. rewrite list_elem_of_filter. naive_solver. }
  rewrite (Permutation_length HP) at 1.
  assert (length (filter (λ _ : nat, True) l) = length l) as <- by (rewrite filter_all by (by apply Forall_forall); done).
  apply filter_disjoint_length; intros i _; destruct (decide (i ∈ D)); tauto.
Qed.

Lemma held_list_clear c c' D :
  length (sess_chunk_map c) = 32%nat → D ⊆ held_list c →
  sess_chunk_map c' = clear (-1) D (sess_chunk_map c) → held_list c' = filter (λ i, i ∉ D) (held_list c).
Proof.
  intros Hl HD E. unfold held_list at 2. rewrite list_filter_filter. apply filter_ext_in. intros i [_ Hi]%elem_of_seq.
  unfold holds. rewrite E, clear_lookup.
  - case_bool_decide; [|tauto]. split; [intros [=]; lia|tauto].
  - intros j Hj%HD%elem_of_held. lia.
Qed.

Lemma single_give s p c s' c' D :
  single s p c → NoDup D → D ⊆ held_list c →
  rdma_remote s' = take_off (Z.of_nat (length D)) (give D (rdma_remote s)) → conns s' = conns s →
  conn_heap s' !! p = Some (Some c') → connected c' = connected c → conn_index c' = conn_index c →
  evict_sem c' = evict_sem c → stop_sem c' = stop_sem c → sess_chunk_map c' = clear (-1) D (sess_chunk_map c) →
  mapped_chunk_size c' = i32 (mapped_chunk_size c - Z.of_nat (length D)) →
  single s' p c' ∧ size_gb (rdma_remote s') = size_gb (rdma_remote s) - Z.of_nat (length D).
Proof.
  intros Hs HnD HD Hr Hc Hh E1 E2 E3 E4 E5 E6. pose proof (single_size _ _ _ Hs) as Hsz.
  destruct Hs as [((W1 & W2 & W3 & W4 & W5 & W6) & HF & Hk) K2 K3 K4 K5 K6 K7 K8 [K9 K10]].
  pose proof (held_list_clear _ _ _ K7 HD E5) as Hhl.
  pose proof (split_length D (held_list c) HnD (NoDup_seq_filter _ _ _) HD) as Hlen. rewrite <- Hhl in Hlen.
  pose proof (held_list_length c) as H32. pose proof (count_total _ HF) as Ht.
  assert (∀ i, i ∈ D → (i < 32)%nat ∧ malloc_map (rdma_remote s) !! i = Some CHUNK_MALLOCED) as HDm.
  { intros i [Hi Hhi]%HD%elem_of_held. split; [done|]. destruct (K8 i Hi) as [[_ Hm]|(_ & _ & Hm)]; [|done].
    unfold holds in Hhi. rewrite Hm in Hhi. injection Hhi. lia. }
  pose proof (count_cleared D _ HnD (λ i Hi, proj2 (HDm i Hi))) as Hcl.
  assert (∀ (l : list Z) i, length l = 32%nat → clear (-1) D l !! i = if bool_decide (i ∈ D) then Some (-1) else l !! i) as Hlk.
  { intros l i Hl. apply clear_lookup. intros j [Hj _]%HDm. lia. }
  assert (∀ i, malloc_map (give D (rdma_remote s)) !! i =
    if bool_decide (i ∈ D) then Some CHUNK_EMPTY else malloc_map (rdma_remote s) !! i) as Hml.
  { intros i. apply clear_lookup. intros j [Hj _]%HDm. lia. }
  assert (size_gb (rdma_remote s') = size_gb (rdma_remote s) - Z.of_nat (length D)) as Hsz'.
  { rewrite Hr. cbn -[count]. apply i32_id. lia. }
  split; [|exact Hsz']. constructor; rewrite ?E1, ?E2, ?E3, ?E4, ?Hc; try assumption.
  - split; [|split].
    + rewrite Hr. unfold wf_remote. cbn. rewrite !clear_length. split_and!; try done.
      intros j. rewrite Hml. case_bool_decide; [done|]. apply W6.
    + rewrite Hr. apply Forall_lookup. intros i x. change (malloc_map _) with (malloc_map (give D (rdma_remote s))).
      rewrite Hml. case_bool_decide; [intros [= <-]; by right|].
      intros Hx. by apply (Forall_lookup_1 _ _ _ _ HF Hx).
    + rewrite Hsz', Hr. change (malloc_map _) with (clear CHUNK_EMPTY D (malloc_map (rdma_remote s))). lia.
  - by rewrite E5, clear_length.
  - intros i Hi. unfold holds. rewrite E5, Hr.
    change (conn_map _) with (clear (-1) D (conn_map (rdma_remote s))).
    change (malloc_map _) with (malloc_map (give D (rdma_remote s))). rewrite Hml, !Hlk by done.
    case_bool_decide; [by left|]. by apply K8.
  - rewrite E6, K9, i32_id by lia. split; [lia|].
    rewrite Hr, <- K9, <- K10. apply i32_id. lia.
Qed.

(** The chunks [D] of the client are back. *)
Record returned (s : server) (c : connection) (D : list nat) (s' : server) (c' : connection) : Prop := {
  rt_size : size_gb (rdma_remote s') = size_gb (rdma_remote s) - Z.of_nat (length D);
  rt_held : held_list c' = filter (λ i, i ∉ D) (held_list c);
  rt_malloc : malloc_map (rdma_remote s') = clear CHUNK_EMPTY D (malloc_map (rdma_remote s));
  rt_conn : conn_map (rdma_remote s') = clear (-1) D (conn_map (rdma_remote s));
  rt_calls : s_trace s `prefix_of` s_trace s';
  rt_state : conns_state s' = if mapped_chunk_size c' =? 0 then [CONN_CONNECTED] else conns_state s
}.

Section Done.
Context {V : verbs} (int_ok : ∀ tr c, v_int tr c = 0).

Lemma recv_done_run p n s c st :
  single s p c → conns_state s = [st] → gives_back n (recv_msg c) c →
  ∃ D s' c', recv_done p s = SRet tt s' ∧ D ≡ₚ named_list (recv_msg c) ∧
    conn_heap s' !! p = Some (Some c') ∧ stop_sem c' = stop_sem c + 1 ∧
    single (at_conn p (c' <| stop_sem := stop_sem c |>) (s_trace s') s') p (c' <| stop_sem := stop_sem c |>) ∧
    returned s c D s' c'.
Proof using int_ok.
  intros Hs Hst Hg. pose proof Hg as (_ & Hl & Hn & Hnl & Hh). pose proof (k_conn _ _ _ Hs) as Hc.
  assert (p < length (conn_heap s))%nat as Hp by (by eapply lookup_lt_Some).
  destruct (stop_loop_run p s c Hp (proj1 (k_books _ _ _ Hs)) (k_table _ _ _ Hs) Hl Hh 32 0 [] (s_trace s)) as
    (D & tr' & Hloop & HP); [done|by intros ? ?%not_elem_of_nil|]. cbn [app] in HP. fold (named_list (recv_msg c)) in HP.
  rewrite gave_nil in Hloop by done. assert (length D = n) as HDn by (by rewrite HP).
  unfold recv_done. rewrite (S_bind_step _ _ _ _ _ (get_conn_run _ _ _ Hc)), (S_bind_step _ _ _ _ _ Hloop), Hn, <- HDn.
  unfold gave. rewrite (S_bind_step _ _ _ _ _ (at_remote _ _ _ _ _)). cbv beta. do 3 at_step.
  set (c' := c <| sess_chunk_map ::= clear (-1) D |> <| mapped_chunk_size ::= λ k, i32 (k - Z.of_nat (length D)) |>
    <| stop_sem ::= λ k, k + 1 |>).
  set (s2 := s <| rdma_remote ::= give D |> <| rdma_remote ::= _ |>).
  pose (s3 := if mapped_chunk_size c' =? 0 then s2 <| conns_state := [CONN_CONNECTED] |> else s2).
  assert (∀ tr, (if mapped_chunk_size c' =? 0 then set_conn_state (conn_index c') CONN_CONNECTED else mret tt)
    (at_conn p c' tr s2) = SRet tt (at_conn p c' tr s3)) as Hstate.
  { intros tr. unfold s3. destruct (mapped_chunk_size c' =? 0); [|done].
    change (conn_index c') with (conn_index c). rewrite (k_index _ _ _ Hs). by apply (at_state p c' tr s2 st). }
  rewrite (S_bind_step _ _ _ _ _ (Hstate _)). 
  assert (conn_heap s3 = conn_heap s ∧ rdma_remote s3 = rdma_remote s2 ∧ conns s3 = conns s) as (Hh3 & Hr3 & Hc3).
  { unfold s3. by destruct (mapped_chunk_size c' =? 0). }
  rewrite at_post_receives by (done || by rewrite Hh3).
  assert (D ⊆ held_list c) as HD by (rewrite HP; by eapply named_held).
  assert (NoDup D) as HnD by (rewrite HP; apply NoDup_seq_filter).
  eexists D, _, c'. split; [reflexivity|]. split; [done|].
  destruct (single_give s p c (at_conn p (c' <| stop_sem := stop_sem c |>)
    ((s_trace s ++ tr') ++ [V_ibv_post_recv p]) s3) (c' <| stop_sem := stop_sem c |>) D)
    as [H1 H2]; try done.
  { cbn. apply list_lookup_insert_eq. by rewrite Hh3. }
  split; [cbn; apply list_lookup_insert_eq; by rewrite Hh3|]. split; [done|]. rewrite at_conn_twice.
  split; [exact H1|].
  constructor.
  - exact H2.
  - apply (held_list_clear c c' D); [apply (k_table _ _ _ Hs)|exact HD|reflexivity].
  - change (rdma_remote (at_conn _ _ _ s3)) with (rdma_remote s3). by rewrite Hr3.
  - change (rdma_remote (at_conn _ _ _ s3)) with (rdma_remote s3). by rewrite Hr3.
  - cbn. rewrite <- app_assoc. by apply prefix_app_r.
  - change (conns_state (at_conn _ _ _ s3)) with (conns_state s3). unfold s3. by destruct (mapped_chunk_size c' =? 0).
Qed.

(** What the STOP message looks like. *)
Definition stop_message (n : Z) (m : message) : message :=
  m <| msg_type := message_type_code STOP |> <| msg_size_gb := n |>.

(** The STOP message goes out and the DONE message that answers it comes in. *)
Lemma send_stop_run p n s c st m :
  single s p c → conns_state s = [st] → (0 < n)%nat → gives_back n m c →
  ∃ D s' c', send_stop p (Z.of_nat n) [mkArrival p m] s = SRet tt s' ∧ D ≡ₚ named_list m ∧
    single s' p c' ∧ returned s c D s' c' ∧
    V_ibv_post_send p (stop_message (Z.of_nat n) (send_msg c)) ∈ s_trace s'.
Proof using int_ok.
  intros Hs Hst Hn Hg. pose proof (k_conn _ _ _ Hs) as Hc.
  assert (p < length (conn_heap s))%nat as Hp by (by eapply lookup_lt_Some).
  pose proof Hg as (Hmt & _).
  set (tr1 := s_trace s ++ [V_ibv_post_send p (stop_message (Z.of_nat n) (send_msg c))]).
  set (c1 := c <| send_msg ::= stop_message (Z.of_nat n) |> <| recv_msg := m |> <| cq_qp_state := CQ_QP_BUSY |>).
  destruct (recv_done_run p n (at_conn p c1 tr1 s) c1 st) as (D & s' & c' & Hr & HP & Hc' & Hsem & Hs' & Hret).
  { by apply (at_conn_single s p c). } { exact Hst. } { exact Hg. }
  assert (deliver [mkArrival p m] (at_conn p (c <| send_msg ::= stop_message (Z.of_nat n) |>) tr1 s) = SRet tt s') as Hd.
  { cbn [deliver a_conn a_msg]. at_step. unfold handle_cqe. cbn [negb]. rewrite S_bind_unfold. at_step.
    match goal with |- context [msg_type (recv_msg ?x)] => change (recv_msg x) with m end.
    rewrite Hmt. cbn -[at_conn upd_conn recv_done mbind setter]. at_step.
    match goal with |- context [recv_done p ?x] => change x with (at_conn p c1 tr1 s) end. by rewrite Hr. }
  exists D, (at_conn p (c' <| stop_sem := stop_sem c |>) (s_trace s') s'), (c' <| stop_sem := stop_sem c |>).
  split; [|split; [exact HP|split; [exact Hs'|split]]].
  - unfold send_stop. rewrite <- (at_conn_id p c s Hc) at 1. do 2 at_step.
    erewrite S_bind_step by (apply at_send_message; [assumption..|exact (k_up _ _ _ Hs)]).
    destruct (Z.eqb_spec (Z.of_nat n) 0); [lia|]. cbn [negb]. unfold sem_wait_stop.
    rewrite (S_bind_step _ _ _ _ _ Hd), (S_bind_step _ _ _ _ _ (get_conn_run _ _ _ Hc')), Hsem.
    change (stop_sem c1) with (stop_sem c). pose proof (k_sems _ _ _ Hs) as [_ H0].
    destruct (Z.ltb_spec 0 (stop_sem c + 1)); [|lia]. rewrite (upd_conn_run p c') by done. f_equal.
    unfold at_conn, setter. cbn. rewrite Hsem. change (stop_sem c1) with (stop_sem c).
    rewrite Z.add_simpl_r. by destruct s'.
  - destruct Hret as [E1 E2 E3 E4 E5 E6]. constructor; try assumption.
    etrans; [|exact E5]. by apply prefix_app_r.
  - destruct Hret as [_ _ _ _ [tr' Htr] _]. change (s_trace (at_conn _ _ ?t _)) with t.
    rewrite Htr. change (s_trace (at_conn _ _ ?t _)) with t. unfold tr1. set_solver.
Qed.

End Done.

(** ** The chunks nobody uses *)


Section Choose.
Context {V : verbs}.

Lemma unmapped_run s p c g st :
  single s p c → conns_state s = [st] →
  let n := Z.of_nat (length (available_list (rdma_remote s) 0)) in n < g →
  ∃ s1, evict_unmapped g s = SRet (Some (g - n)) s1 ∧ single s1 p c ∧ conns_state s1 = [st] ∧
    size_gb (rdma_remote s1) = Z.of_nat (length (held_list c)).
Proof.
  intros Hs Hst n Hg. pose proof (k_books _ _ _ Hs) as Hk. pose proof (single_size _ _ _ Hs) as Hsz.
  destruct (evict_loop_run s g 32 0 [] s) as (s1 & Hr & Hf1).
  { apply Hk. } { apply freed_nil, Hk. } { by intros ? ?%not_elem_of_nil. } { done. } { cbn. lia. }
  cbn [app length] in Hr, Hf1. rewrite Nat.sub_0_r, take_ge in Hr, Hf1 by lia.
  destruct (Z.eqb_spec (Z.of_nat (length (available_list (rdma_remote s) 0))) g); [lia|]. fold n in Hr.
  set (s2 := s1 <| rdma_remote ::= λ m, m <| size_gb ::= λ k, i32 (k - n) |> |>).
  assert (evict_unmapped g s = SRet (Some (g - n)) s2) as Hu.
  { unfold evict_unmapped. rewrite (S_bind_step _ _ _ _ _ Hr). reflexivity. }
  assert (well_kept (rdma_remote s2)) as Hk2.
  { eapply freed_well_kept; [exact Hk|exact Hf1|apply available_list_NoDup|done]. }
  pose proof (sframe_unmapped _ _ _ _ Hu) as [_ Hc2]. pose proof (unmapped_states _ _ _ _ Hu) as Hst2. cbv beta in Hst2.
  destruct Hf1 as [Hm _ (F1 & _ & F3 & F4 & _ & _ & F7) _ _].
  exists s2. split; [exact Hu|]. split; [|split; [by rewrite Hst2|]].
  - destruct Hs as [K1 K2 K3 K4 K5 K6 K7 K8 K9].
    constructor; [done|by rewrite Hc2|by rewrite <- K3, <- F7|done..| |].
    + intros i Hi. change (conn_map (rdma_remote s2)) with (conn_map (rdma_remote s1)).
      change (malloc_map (rdma_remote s2)) with (malloc_map (rdma_remote s1)). rewrite F1, Hm.
      destruct (K8 i Hi) as [?|(Hci & Hh & Hmi)]; [by left|right]. rewrite bool_decide_false; [done|].
      intros [Hav _]%list_elem_of_filter. apply bool_decide_eq_true in Hav as [_ Hav]. by rewrite Hci in Hav.
    + change (mapped_size (rdma_remote s2)) with (mapped_size (rdma_remote s1)). by rewrite F3.
  - change (size_gb (rdma_remote s2)) with (i32 (size_gb (rdma_remote s1) - n)). rewrite F4, Hsz.
    pose proof (held_list_length c). rewrite i32_id; unfold n; lia.
Qed.

(** ** The chunks to ask for *)

Lemma probe_run sel s : ∀ fuel r d,
  length sel = 32%nat → 0 <= r < 32 → (d < fuel)%nat → arr_get sel ((r + Z.of_nat d) mod 32) = Some 0 →
  ∃ r', probe fuel sel r s = SRet r' s ∧ 0 <= r' < 32 ∧ arr_get sel r' = Some 0.
Proof.
  induction fuel as [|fuel IH]; intros r d Hl Hr Hd Hz; [lia|]. cbn [probe].
  destruct (arr_get_is_Some sel r ltac:(lia)) as [x Hx]. rewrite Hx. sstep.
  destruct (Z.eqb_spec x 0) as [->|Hne]; cbn [negb]; [by exists r|].
  destruct d as [|d]; [rewrite Z.add_0_r, Z.mod_small in Hz by lia; congruence|].
  apply (IH _ d); [done| |lia|].
  - change MAX_FREE_MEM_GB with 32. apply Z.mod_pos_bound. lia.
  - change MAX_FREE_MEM_GB with 32. rewrite Zplus_mod_idemp_l. rewrite <- Hz. do 2 f_equal. lia.
Qed.

Lemma count_pos v l : (0 < count v l)%nat → ∃ i, l !! i = Some v.
Proof.
  unfold count. destruct (filter (λ x, x = v) l) as [|x t] eqn:E; cbn; [lia|]. intros _.
  assert (x ∈ filter (λ x, x = v) l) as [-> Hx]%list_elem_of_filter by (rewrite E; left).
  by apply list_elem_of_lookup in Hx.
Qed.

Lemma ask_random_run s : ∀ n rnd sel sl,
  (∀ i, 0 <= rnd i) → length sel = 32%nat → length sl = 1%nat → (n <= count 0 sel)%nat →
  (∀ r, arr_get sel r = Some 0 → arr_get (conn_map (rdma_remote s)) r = Some 0) →
  ∃ sl', ask_random n rnd sel sl s = SRet sl' s.
Proof.
  induction n as [|n IH]; intros rnd sel sl Hrnd Hl Hsl Hn Hm; [by eexists|]. cbn [ask_random].
  destruct (count_pos 0 sel) as [i Hi]; [lia|]. assert (i < 32)%nat as Hi32 by (rewrite <- Hl; by eapply lookup_lt_Some).
  set (r0 := rnd 0%nat mod MAX_FREE_MEM_GB). change MAX_FREE_MEM_GB with 32 in r0.
  assert (0 <= r0 < 32) as Hr0 by (apply Z.mod_pos_bound; lia).
  destruct (probe_run sel s (Z.to_nat MAX_FREE_MEM_GB) r0 (Z.to_nat ((Z.of_nat i - r0) mod 32))) as (r & Hr & Hr32 & Hz).
  { done. } { done. }
  { pose proof (Z.mod_pos_bound (Z.of_nat i - r0) 32). change (Z.to_nat MAX_FREE_MEM_GB) with 32%nat. lia. }
  { pose proof (Z.mod_pos_bound (Z.of_nat i - r0) 32). rewrite Z2Nat.id, Zplus_mod_idemp_r by lia.
    replace (r0 + (Z.of_nat i - r0)) with (Z.of_nat i) by lia. rewrite Z.mod_small, arr_get_lookup by lia. done. }
  rewrite (S_bind_step _ _ _ _ _ Hr). rewrite arr_set_Some by lia. do 2 sstep. rewrite (Hm r Hz). sstep.
  rewrite arr_set_Some by (cbn; lia). sstep.
  assert (sel !! Z.to_nat r = Some 0) as Hz' by (rewrite <- Hz, <- arr_get_lookup, Z2Nat.id by lia; done).
  pose proof (count_insert 0 sel (Z.to_nat r) 0 1 Hz') as Hc. rewrite decide_True, decide_False in Hc by done.
  apply IH; [done|by rewrite length_insert|by rewrite length_insert|lia|].
  intros r1 Hr1. apply Hm. unfold arr_get in *. case_decide; [|done].
  destruct (decide (Z.to_nat r1 = Z.to_nat r)) as [E|]; [|by rewrite list_lookup_insert_ne in Hr1].
  rewrite E, list_lookup_insert_eq in Hr1 by lia. discriminate.
Qed.

Lemma ask_mapped_run s p c :
  single s p c → conns_state s = [CONN_MAPPED] → ask_mapped (replicate (Z.to_nat MAX_CLIENT) (-1)) s = SRet [1] s.
Proof.
  intros Hs Hst. unfold ask_mapped. sstep. rewrite Hst. change (Z.to_nat MAX_CLIENT) with 1%nat.
  cbn -[mbind arr_get arr_set bool_decide slot_conn get_conn sbounds].
  change (arr_get [CONN_MAPPED] 0) with (Some CONN_MAPPED). sstep. rewrite bool_decide_true by done.
  change (arr_set [-1] 0 1) with (Some [1]). sstep.
  assert (slot_conn 0 s = SRet p s) as Hp by (unfold slot_conn; sstep; by rewrite (k_slot _ _ _ Hs)).
  by rewrite (S_bind_step _ _ _ _ _ Hp), (S_bind_step _ _ _ _ _ (get_conn_run _ _ _ (k_conn _ _ _ Hs))).
Qed.

(** Enough of the client's chunks can be selected at random. *)
Lemma ask_random_held s p c n rnd :
  single s p c → (∀ i, 0 <= rnd i) → (n <= length (held_list c))%nat →
  ∃ sl, ask_random n rnd ((λ c, if c =? -1 then -1 else 0) <$> conn_map (rdma_remote s)) [-1] s = SRet sl s.
Proof.
  intros Hs Hrnd Hn. destruct (k_books _ _ _ Hs) as ((_ & _ & W3 & _) & _).
  apply ask_random_run; [done|by rewrite length_fmap|done| |].
  - rewrite (count_seq _ _ 0), length_fmap, W3.
    assert (filter (λ j, ((λ c, if c =? -1 then -1 else 0) <$> conn_map (rdma_remote s)) !! (j - 0)%nat = Some 0)
      (seq 0 32) = held_list c) as ->; [|lia].
    apply filter_ext_in. intros i [_ Hi]%elem_of_seq. rewrite Nat.sub_0_r, list_lookup_fmap. unfold holds.
    destruct (k_chunks _ _ _ Hs i Hi) as [[-> ->]|(-> & Hh & _)]; cbn; [split; intros [=]; lia|]. by unfold holds in Hh.
  - intros r. unfold arr_get. case_decide; [|done]. rewrite list_lookup_fmap.
    destruct (conn_map (rdma_remote s) !! Z.to_nat r) as [x|] eqn:E; cbn; [|done].
    destruct (Z.eqb_spec x (-1)); [done|]. intros _.
    destruct (k_chunks _ _ _ Hs (Z.to_nat r)) as [[Hc _]|(Hc & _)]; [rewrite <- W3; by eapply lookup_lt_Some| |]; congruence.
Qed.

Lemma choose_run s p c g rnd :
  single s p c → conns_state s = [CONN_MAPPED] → 0 < g → (∀ i, 0 <= rnd i) →
  choose_clients g rnd s = SRet (Z.min (Z.of_nat (length (held_list c))) g, [1]) s.
Proof.
  intros Hs Hst Hg Hrnd. pose proof (k_mapped _ _ _ Hs) as [Hmc Hm].
  assert (∃ x, choose_clients g rnd s = SRet x s ∧ x.1 = Z.min (Z.of_nat (length (held_list c))) g) as ([j sl] & Hc & Hx).
  { unfold choose_clients. sstep. change (mapped_size (id _)) with (mapped_size (rdma_remote s)). rewrite Hm, Hmc.
    destruct (Z.ltb_spec (Z.of_nat (length (held_list c))) (g + EXTRA_CHUNK_NUM)) as [Hlt|Hge].
    - rewrite (S_bind_step _ _ _ _ _ (ask_mapped_run _ _ _ Hs Hst)). eexists. split; [reflexivity|]. cbn [fst].
      destruct (Z.ltb_spec (Z.of_nat (length (held_list c))) g); lia.
    - destruct (ask_random_held s p c (Z.to_nat (g + EXTRA_CHUNK_NUM)) rnd Hs Hrnd ltac:(lia)) as [sl Ha].
      rewrite (S_bind_step _ _ _ _ _ Ha). eexists. split; [reflexivity|]. cbn [fst]. unfold EXTRA_CHUNK_NUM in Hge. lia. }
  pose proof (choose_marks _ _ _ _ _ Hc Hg Hst) as Hsl. cbn [fst snd] in Hsl, Hx.
  rewrite Hc, Hsl, Hx. reflexivity.
Qed.

End Choose.

(** ** The whole eviction *)

Lemma for_one {A} s p i v (a b : A) f s' :
  slot_conn i s = SRet p s → f i p a s = SRet b s' → for_slots [v] i v a f s = SRet b s'.
Proof.
  intros Hp Hf. cbn [for_slots]. rewrite Z.eqb_refl, (S_bind_step _ _ _ _ _ Hp), (S_bind_step _ _ _ _ _ Hf). reflexivity.
Qed.

Section Whole.
Context {V : verbs} (int_ok : ∀ tr c, v_int tr c = 0).

Lemma single_slot s p c : single s p c → slot_conn 0 s = SRet p s.
Proof. intros Hs. unfold slot_conn. sstep. by rewrite (k_slot _ _ _ Hs). Qed.

(** Asking and collecting: the counting loop, the EVICT messages and the
    reports, from a state with one client to one with the same books. *)
Lemma ask_phase s p c j wait act :
  single s p c → wait 0%nat = [mkArrival p act] → reports act c →
  let k := Z.of_nat (length (held_list c)) in
  ∃ s1 s2 c2,
    for_slots [1] 0 1 0 (λ _ p k, c ← get_conn p; mret (i32 (k + mapped_chunk_size c))) s = SRet k s ∧
    for_slots [1] 0 1 tt (λ _ p _, send_evict p j) s = SRet tt s1 ∧
    (∀ junk, length junk = length (held_list c) →
      for_slots [1] 0 1 (0, junk) (collect wait) s1 = SRet (k, reported (msg_buf act) 0) s2) ∧
    single s2 p c2 ∧ conns_state s2 = conns_state s ∧ rdma_remote s2 = rdma_remote s ∧
    sess_chunk_map c2 = sess_chunk_map c ∧ msg_rkey (send_msg c2) = replicate 32 0 ∧ msg_size_gb (send_msg c2) = 0.
Proof using int_ok.
  intros Hs Hw Hr k. pose proof (k_conn _ _ _ Hs) as Hc.
  assert (p < length (conn_heap s))%nat as Hp by (by eapply lookup_lt_Some).
  pose proof (held_list_length c). pose proof (k_mapped _ _ _ Hs) as [Hm _].
  destruct (at_send_evict int_ok p s Hp j c (s_trace s) (k_up _ _ _ Hs)) as (c1 & tr1 & H1 & Hc1).
  pose proof (at_conn_single _ _ _ _ tr1 Hs Hc1) as Hs1. rewrite at_conn_id in H1 by done.
  destruct Hc1 as (_ & _ & _ & _ & Ht1 & _).
  assert (reports act c1) as Hr1 by (unfold reports, holds in *; by rewrite Ht1).
  destruct (at_collect int_ok p s Hp act c1 tr1 wait Hr1 (proj1 (k_sems _ _ _ Hs1)) Hw) as (c2 & tr2 & H2 & Hc2 & Hk & Hz).
  rewrite (held_list_ext _ _ Ht1) in H2.
  exists (at_conn p c1 tr1 s), (at_conn p c2 tr2 s), c2. split.
  { eapply for_one; [by eapply single_slot|]. rewrite (S_bind_step _ _ _ _ _ (get_conn_run _ _ _ Hc)).
    rewrite Hm, Z.add_0_l, i32_id by lia. reflexivity. }
  split; [eapply for_one; [by eapply single_slot|exact H1]|].
  split; [intros junk Hj; eapply for_one; [apply at_slot, (k_slot _ _ _ Hs)|by apply H2]|].
  split; [rewrite <- (at_conn_twice p c1 c2 tr1); by apply (at_conn_single _ _ c1)|].
  destruct Hc2 as (_ & _ & _ & _ & -> & _). by split_and!.
Qed.

(** Selecting [n] of the reported chunks for the STOP message. *)
Lemma select_phase s p c act n uninit :
  single s p c → reports act c → (0 < n <= length (held_list c))%nat →
  msg_rkey (send_msg c) = replicate 32 0 → msg_size_gb (send_msg c) = 0 →
  ∃ chosen s' c', select_outer n 0 (length (held_list c)) (reported (msg_buf act) 0) uninit [1] s = SRet (0, [2]) s' ∧
    length chosen = n ∧ least_active (reported (msg_buf act) 0) chosen ∧
    single s' p c' ∧ conns_state s' = conns_state s ∧ rdma_remote s' = rdma_remote s ∧
    sess_chunk_map c' = sess_chunk_map c ∧ msg_size_gb (send_msg c') = Z.of_nat n ∧
    ∀ i, msg_rkey (send_msg c') !! i = Some 1 ↔ ∃ e, e ∈ chosen ∧ chunk_index e = Z.of_nat i.
Proof.
  intros Hs Hr Hn Hk Hz. pose proof (held_list_length c). pose proof (k_conn _ _ _ Hs) as Hc.
  assert (∀ e, e ∈ reported (msg_buf act) 0 → 0 <= chunk_index e < 32 ∧
    arr_get (conn_map (rdma_remote s)) (chunk_index e) = Some 0) as Hin.
  { intros e (i & -> & Hi & Hh)%(reports_holds _ c); [|done]. split; [lia|]. rewrite arr_get_lookup.
    by apply (single_conn_map s p c). }
  assert (owns s p c (reported (msg_buf act) 0)) as Ho.
  { constructor; [apply (k_slot _ _ _ Hs)|done|by rewrite Hk|exact Hin]. }
  destruct (select_outer_run p n [] (reported (msg_buf act) 0) s c uninit 1) as (chosen & Hrun & Hlen & Hla);
    [rewrite (reports_length _ _ Hr); lia|done|by left|].
  cbn [app length] in Hrun. rewrite Nat.add_0_l, (reports_length _ _ Hr), bool_decide_false in Hrun by lia.
  set (c' := c <| send_msg := marked (send_msg c) chosen |>) in *.
  exists chosen, (with_conn p c' s), c'. split; [exact Hrun|]. split; [done|]. split; [done|].
  split; [by apply (at_conn_single s p c c' (s_trace s))|].
  split; [done|]. split; [done|]. split; [done|].
  change (send_msg c') with (marked (send_msg c) chosen). split; [rewrite marked_size by lia; lia|].
  intros i. rewrite marked_rkey; rewrite ?Hk; [|done|].
  - split; [|by right]. intros [[? _]%lookup_replicate|?]; done.
  - intros e He. destruct Hla as (rest & HP & _). apply Hin. rewrite HP. set_solver.
Qed.

(** What a whole eviction of [n] of the client's chunks leaves. *)
Record evicted (p : nat) (c : connection) (act back : message) (n : nat) (s' : server) (c' : connection) : Prop := {
  ev_single : single s' p c';
  ev_size : size_gb (rdma_remote s') = Z.of_nat (length (held_list c'));
  ev_held : held_list c' = filter (λ i, ¬ names back i) (held_list c);
  ev_state : conns_state s' = [if decide (held_list c' = []) then CONN_CONNECTED else CONN_MAPPED];
  ev_stop : ∃ stop chosen, V_ibv_post_send p stop ∈ s_trace s' ∧ msg_type stop = message_type_code STOP ∧
    msg_size_gb stop = Z.of_nat n ∧ length chosen = n ∧ least_active (reported (msg_buf act) 0) chosen ∧
    ∀ i, msg_rkey stop !! i = Some 1 ↔ ∃ e, e ∈ chosen ∧ chunk_index e = Z.of_nat i
}.

Lemma evict_mem_run s p c g n rnd junk uninit wait wait' act back :
  (∀ i, 0 <= rnd i) → single s p c → conns_state s = [CONN_MAPPED] →
  let free := Z.of_nat (length (available_list (rdma_remote s) 0)) in
  free < g → n = Z.to_nat (Z.min (Z.of_nat (length (held_list c))) (g - free)) → (0 < n)%nat →
  wait 0%nat = [mkArrival p act] → reports act c → wait' 0%nat = [mkArrival p back] → gives_back n back c →
  ∃ s' c', evict_mem g rnd junk uninit wait wait' s = SRet tt s' ∧ evicted p c act back n s' c'.
Proof using int_ok.
  intros Hrnd Hs Hst free Hg Hn Hpos Hw Hr Hw' Hb. unfold evict_mem, evict_clients.
  destruct (unmapped_run s p c g _ Hs Hst Hg) as (s1 & H1 & Hs1 & Hst1 & Hsz1). fold free in H1.
  rewrite (S_bind_step _ _ _ _ _ H1).
  rewrite (S_bind_step _ _ _ _ _ (choose_run s1 p c (g - free) rnd Hs1 Hst1 ltac:(lia) Hrnd)). cbn [fst snd]. cbv zeta.
  replace (Z.min _ _) with (Z.of_nat n) by lia.
  destruct (ask_phase s1 p c (Z.of_nat n) wait act Hs1 Hw Hr) as (s2 & s3 & c3 & A1 & A2 & A3 & Hs3 & Hst3 & Hr3 & Ht3 & Hk3 & Hz3).
  rewrite (S_bind_step _ _ _ _ _ A1), (S_bind_step _ _ _ _ _ A2).
  erewrite S_bind_step by (apply A3; rewrite length_fmap, length_seq; lia). cbn [snd].
  assert (held_list c3 = held_list c) as Hh3 by (by apply held_list_ext).
  assert (reports act c3) as Hra by (unfold reports, holds in *; by rewrite Ht3).
  destruct (select_phase s3 p c3 act n uninit Hs3 Hra) as
    (chosen & s4 & c4 & B1 & Hlen & Hla & Hs4 & Hst4 & Hr4 & Ht4 & Hz4 & Hk4); [rewrite Hh3; lia|done..|].
  rewrite Hh3 in B1. rewrite !Nat2Z.id, (S_bind_step _ _ _ _ _ B1). cbn [fst snd].
  assert (gives_back n back c4) as Hg4 by (unfold gives_back, holds in *; by rewrite Ht4, Ht3).
  assert (conns_state s4 = [CONN_MAPPED]) as Hst4' by congruence.
  destruct (send_stop_run int_ok p n s4 c4 _ back Hs4 Hst4' Hpos Hg4) as (D & s5 & c5 & D1 & HP & Hs5 & [E1 E2 _ _ _ E6] & Hin).
  exists s5, c5. assert (held_list c4 = held_list c) as Hh4 by (rewrite <- Hh3; by apply held_list_ext).
  rewrite Hh4 in E2. split.
  - change (Z.to_nat MAX_CLIENT) with 1%nat. cbn [stop_clients]. change (arr_get [2] 0) with (Some 2). sstep.
    cbn [Z.eqb Pos.eqb]. rewrite S_bind_unfold.
    rewrite !(S_bind_step _ _ _ _ _ (single_slot _ _ _ Hs4)), (S_bind_step _ _ _ _ _ (get_conn_run _ _ _ (k_conn _ _ _ Hs4))).
    rewrite Hz4. change (Z.to_nat 0) with 0%nat. rewrite Hw', D1. reflexivity.
  - assert (held_list c5 = filter (λ i, ¬ names back i) (held_list c)) as Hh5.
    { rewrite E2, <- filter_not_named. apply filter_ext_in. intros i _. by rewrite HP. }
    assert (NoDup D) as HnD by (rewrite HP; apply NoDup_seq_filter).
    assert (D ⊆ held_list c) as HD by (rewrite HP; by eapply named_held).
    pose proof (split_length D (held_list c) HnD (NoDup_seq_filter _ _ _) HD) as Hsp. rewrite <- E2 in Hsp.
    constructor; [exact Hs5| |exact Hh5| |].
    + rewrite E1, Hr4, Hr3, Hsz1. lia.
    + rewrite E6, Hst4', (proj1 (k_mapped _ _ _ Hs5)).
      destruct (held_list c5) as [|i l]; [by rewrite decide_True|by rewrite decide_False].
    + exists (stop_message (Z.of_nat n) (send_msg c4)), chosen. by split_and!.
Qed.

(** C13. A client that answers: an iteration of the watching loop that sees less
    memory than the eviction threshold, with fewer chunks to spare than it needs,
    goes through the whole eviction.  It frees what is not handed out, asks the
    client to stop the least active of the chunks it reports, as many as are
    missing, and takes back what the client returns.  Books, chunk table and
    counters agree again, the server is smaller by exactly the gigabytes it
    needed, and every chunk left is the client's. *)
Theorem pressed_iteration_completes env v s p c act back f g n :
  single s p c → conns_state s = [CONN_MAPPED] → 0 <= evict_hit_count v →
  f = filtered_free_mem (free_gb s) (last_free_mem_g v) → f < FREE_MEM_EVICT_THRESHOLD →
  g = Z.min (size_gb (rdma_remote s)) (FREE_MEM_EVICT_THRESHOLD - f) →
  g = Z.of_nat (length (available_list (rdma_remote s) 0)) + Z.of_nat n → (0 < n)%nat →
  (∀ i, 0 <= e_rnd env i) → e_wait env 0%nat = [mkArrival p act] → reports act c →
  e_wait' env 0%nat = [mkArrival p back] → gives_back n back c →
  ∃ s' c', free_mem_step env v s = SRet (mkVars (f + g) 0 0) s' ∧ evicted p c act back n s' c' ∧
    size_gb (rdma_remote s') = size_gb (rdma_remote s) - g.
Proof using int_ok.
  intros Hs Hst Hv Hf Hlt Hg Hgn Hn Hrnd Hw Hr Hw' Hb. unfold free_mem_step.
  rewrite (S_bind_step _ _ _ _ _ (get_free_mem_run s)). cbv beta zeta. fold (free_gb s). rewrite <- Hf. clear Hf.
  destruct (Z.ltb_spec f FREE_MEM_EVICT_THRESHOLD); [|lia].
  change MEM_EVICT_HIT_THRESHOLD with 1. destruct (Z.leb_spec 1 (evict_hit_count v + 1)); [|lia].
  set (s1 := s <| s_trace ::= _ |>).
  rewrite (S_bind_step (remote size_gb) _ s1 _ _ eq_refl). cbv beta zeta.
  change (size_gb (rdma_remote s1)) with (size_gb (rdma_remote s)).
  replace (if size_gb (rdma_remote s) <? FREE_MEM_EVICT_THRESHOLD - f then size_gb (rdma_remote s)
    else FREE_MEM_EVICT_THRESHOLD - f) with g by (destruct (Z.ltb_spec (size_gb (rdma_remote s)) (FREE_MEM_EVICT_THRESHOLD - f)); lia).
  destruct (Z.ltb_spec 0 g); [|lia].
  assert (single s1 p c) as Hs1.
  { rewrite <- (at_conn_id p c s1) by apply (k_conn _ _ _ Hs). unfold s1.
    by apply (at_conn_single s p c c _ Hs). }
  pose proof (single_size _ _ _ Hs) as Hsz.
  destruct (evict_mem_run s1 p c g n (e_rnd env) (e_junk env) (e_uninit env) (e_wait env) (e_wait' env) act back)
    as (s2 & c2 & He & Hev); try done.
  { change (rdma_remote s1) with (rdma_remote s). lia. }
  { change (rdma_remote s1) with (rdma_remote s). lia. }
  exists s2, c2. rewrite (S_bind_step _ _ _ _ _ He). split; [reflexivity|]. split; [exact Hev|].
  rewrite (ev_size _ _ _ _ _ _ _ Hev), (ev_held _ _ _ _ _ _ _ Hev).
  pose proof (split_length (named_list back) (held_list c) (NoDup_seq_filter _ _ _) (NoDup_seq_filter _ _ _)
    (named_held n back c Hb)) as Hsp.
  rewrite filter_not_named in Hsp. destruct Hb as (_ & _ & _ & Hnl & _). lia.
Qed.

End Whole.

(** ** Witness *)

(** The client holds eight chunks, four are free, and 2 GB of memory are left:
    six gigabytes have to go, two of them from the client. *)
Definition verbs_lower : verbs :=
  mkVerbs (λ _ _, 0) (@v_ptr verbs_ok) (@v_mr verbs_ok)
    (λ _, [77; 101; 109; 70; 114; 101; 101; 58; 32] ++ dec_digits 8 2097152 ++ [32; 107; 66; 10]) (@v_garbage verbs_ok).

Definition demo_eight : server :=
  run (set_conn_state 0 CONN_MAPPED) (run (@send_chunks_to_client verbs_ok 0 8) demo_connected).
Definition demo_eight_conn : connection :=
  match conn_heap demo_eight !! 0%nat with Some (Some c) => c | _ => @v_garbage verbs_ok end.

Definition demo_report : message :=
  mkMessage ((ntohll <$> [5; 2; 9; 7; 3; 8; 6; 4]) ++ replicate 24 0) (replicate 32 0) 0 (message_type_code ACTIVITY).
Definition demo_back : message :=
  mkMessage (replicate 32 0) ([0; 1; 0; 0; 1] ++ replicate 27 0) 2 (message_type_code DONE).
Definition demo_pressing : evict_env :=
  mkEnv (λ _, 0) (λ _, mkActivity 0 0) 0 (λ _, [mkArrival 0 demo_report]) (λ _, [mkArrival 0 demo_back]).

(** The conditions on the 32 chunks, decided. *)
Section Decide.
Implicit Types (cm sm mm ks : list Z).

Definition chunks_okb cm sm mm : bool := bool_decide (Forall (λ i,
  cm !! i = Some (-1) ∧ sm !! i = Some (-1) ∨
  cm !! i = Some 0 ∧ sm !! i = Some (Z.of_nat i) ∧ mm !! i = Some CHUNK_MALLOCED) (seq 0 32)).
Definition reportsb ks sm : bool :=
  bool_decide (Forall (λ i, ks !! i = Some 0 ↔ ¬ sm !! i = Some (Z.of_nat i)) (seq 0 32)).
Definition namesb ks sm : bool :=
  bool_decide (Forall (λ i, ks !! i ≠ Some 0 → sm !! i = Some (Z.of_nat i)) (seq 0 32)).

Lemma below32 (P : nat → Prop) : Forall P (seq 0 32) → ∀ i, (i < 32)%nat → P i.
Proof. intros HF i Hi. rewrite Forall_forall in HF. apply HF, elem_of_seq. lia. Qed.

Lemma reports_decide m c :
  msg_type m = message_type_code ACTIVITY → length (msg_buf m) = 32%nat →
  reportsb (msg_buf m) (sess_chunk_map c) = true → reports m c.
Proof. intros Ht Hl Hb%bool_decide_eq_true. split; [done|]. split; [done|]. exact (below32 _ Hb). Qed.

Lemma gives_back_decide n m c :
  msg_type m = message_type_code DONE → length (msg_rkey m) = 32%nat → msg_size_gb m = Z.of_nat n →
  length (named_list m) = n → namesb (msg_rkey m) (sess_chunk_map c) = true → gives_back n m c.
Proof. intros H1 H2 H3 H4 Hb%bool_decide_eq_true. do 4 (split; [done|]). exact (below32 _ Hb). Qed.

Lemma chunks_decide s c :
  chunks_okb (conn_map (rdma_remote s)) (sess_chunk_map c) (malloc_map (rdma_remote s)) = true →
  ∀ i, (i < 32)%nat →
    conn_map (rdma_remote s) !! i = Some (-1) ∧ sess_chunk_map c !! i = Some (-1) ∨
    conn_map (rdma_remote s) !! i = Some 0 ∧ holds c i ∧ malloc_map (rdma_remote s) !! i = Some CHUNK_MALLOCED.
Proof. intros Hb%bool_decide_eq_true. exact (below32 _ Hb). Qed.

End Decide.

Lemma demo_single : single demo_eight 0 demo_eight_conn.
Proof.
  constructor; [|vm_compute; reflexivity|vm_compute; reflexivity| |vm_compute; reflexivity| |vm_compute; reflexivity| |].
  - split; [apply wf_remoteb_sound; vm_compute; reflexivity|]. split; [|vm_compute; reflexivity].
    apply (bool_decide_eq_true _). vm_compute. reflexivity.
  - vm_compute. discriminate.
  - vm_compute. split; discriminate.
  - apply chunks_decide. vm_compute. reflexivity.
  - split; vm_compute; reflexivity.
Qed.

Lemma pressed_iteration_completes_witness :
  ∃ s' c', @free_mem_step verbs_lower demo_pressing (mkVars 2 0 0) demo_eight = SRet (mkVars 8 0 0) s' ∧
    single s' 0 c' ∧ size_gb (rdma_remote s') = 6 ∧ held_list c' = [0; 2; 3; 5; 6; 7]%nat.
Proof.
  destruct (@pressed_iteration_completes verbs_lower (λ _ _, eq_refl) demo_pressing (mkVars 2 0 0) demo_eight 0
    demo_eight_conn demo_report demo_back 2 6 2) as (s' & c' & H1 & H2 & H3).
  - exact demo_single.
  - vm_compute. reflexivity.
  - cbn. lia.
  - vm_compute. reflexivity.
  - vm_compute. reflexivity.
  - vm_compute. reflexivity.
  - vm_compute. reflexivity.
  - lia.
  - intros i. cbn. lia.
  - reflexivity.
  - apply reports_decide; vm_compute; reflexivity.
  - reflexivity.
  - apply gives_back_decide; vm_compute; reflexivity.
  - exists s', c'. split; [exact H1|]. split; [exact (ev_single _ _ _ _ _ _ _ H2)|].
    rewrite H3, (ev_held _ _ _ _ _ _ _ H2). split; vm_compute; reflexivity.
Defined.
