(* ===== verification/Protocol.v ===== *)
(** * Client and server together

    The client's driver ([rdma_client.c], [register_disk.c]) and the server
    ([rdma-common.c]) meet in two messages: the announcement of the free size
    and the message with the chunks.  [chunk_message m rs] is the contract of
    the second one: the message [m] hands out the memory regions [rs].  The
    server's lemmas establish it and the client's are proved against it, so
    that the last theorem follows a block request from the client's disk into
    a region of the server's memory. *)

From S2P Require Import Prelude BitOps OctTypes Kernel Names ChunkList CmdQueue OneSided BlockIO BlockDev.
From S2P Require Import Session Server.

(** ** The contract of a chunk message *)

(** A registered chunk: an address range of 64 bits and a key that is not 0. *)
Definition region_ok (r : ibv_mr) : Prop :=
  0 <= mr_addr r ∧ mr_addr r + ONE_GB <= 2 ^ 64 ∧ 0 < mr_rkey r < 2 ^ 32.

Class chunk_message (m : message) (rs : list ibv_mr) : Prop := mkChunkMessage {
  cm_wf : wf_message m;
  cm_type : rtype m = Some GOT_CHUNKS;
  cm_received : received m = grant_chunk <$> rs;
  cm_regions : Forall region_ok rs
}.

(** *** The server keeps it *)

Lemma ntohl_htonl k : 0 <= k < 2 ^ 32 → ntohl (htonl k) = k.
Proof. intros Hk. unfold htonl. rewrite ntohl_involutive. by apply u32_id. Qed.

Lemma htonl_zero k : 0 <= k < 2 ^ 32 → htonl k = 0 → k = 0.
Proof. intros Hk H0. by rewrite <- (ntohl_htonl k), H0. Qed.

Lemma ntohll_htonll a : 0 <= a < 2 ^ 64 → ntohll (htonll a) = a.
Proof. intros Ha. rewrite htonll_ntohll by done. by apply ntohll_involutive. Qed.

Lemma entry_grant r : region_ok r → entry (htonll (mr_addr r), htonl (mr_rkey r)) = Some (grant_chunk r).
Proof.
  intros (H1 & H2 & H3). unfold entry. cbn [fst snd].
  destruct (Z.eqb_spec (htonl (mr_rkey r)) 0) as [E|_].
  { apply htonl_zero in E; lia. }
  rewrite ntohl_htonl, ntohll_htonll by (unfold ONE_GB in *; lia). done.
Qed.

(** Decoding a message that carries [G] gives the regions of [G], in order. *)
Lemma received_grants : ∀ (G : list (option ibv_mr)) buf,
  length buf = length G →
  (∀ j r, G !! j = Some (Some r) → buf !! j = Some (htonll (mr_addr r)) ∧ region_ok r) →
  omap entry (zip buf (grant_key <$> G)) = grant_chunk <$> omap id G.
Proof.
  induction G as [|o G IH]; intros buf Hlen HG; [by destruct buf|].
  destruct buf as [|b buf]; [done|]. cbn.
  assert (omap entry (zip buf (grant_key <$> G)) = grant_chunk <$> omap id G) as IH'.
  { apply IH; [by injection Hlen|]. intros j r Hj. apply (HG (Datatypes.S j) r Hj). }
  destruct o as [r|]; cbn; [|done].
  destruct (HG 0%nat r eq_refl) as [[= ->] Hr]. rewrite entry_grant by done. cbn. by rewrite IH'.
Qed.

(** The memory of the server lies in the 64-bit address space. *)
Definition addresses_ok (r : rdma_remote_mem) : Prop :=
  ∀ (j : nat) a, region_list r !! j = Some (Some a) → 0 <= a ∧ a + ONE_GB <= 2 ^ 64.

Lemma handed_out_message s p c cnt G m s' :
  handed_out s p c cnt G m s' → addresses_ok (rdma_remote s) → msg_type m = message_type_code GOT_CHUNKS →
  chunk_message m (omap id G).
Proof.
  intros Hh Ha Ht. destruct (h_carries _ _ _ _ _ _ _ Hh) as (HG & Hb & Hk & Hbuf).
  assert (∀ (j : nat) r, G !! j = Some (Some r) → region_ok r) as Hr.
  { intros j r Hj. destruct (h_region _ _ _ _ _ _ _ Hh j r Hj) as (H1 & H2 & _).
    destruct (Ha j _ H1). by split; [|split]. }
  constructor.
  - split; [done|]. by rewrite Hk, length_fmap.
  - unfold rtype. by rewrite Ht.
  - unfold received. rewrite Hk. apply received_grants; [lia|]. intros j r Hj. split; eauto.
  - apply Forall_forall. intros r Hin. apply list_elem_of_omap in Hin as (o & Ho & Hor). cbn in Hor. subst o.
    apply list_elem_of_lookup in Ho as [j Hj]. eauto.
Qed.

(** *** What it gives the client *)

Section Client.
Context {K : kernel}.

(** The table a chunk message leads to when there is room for all of it. *)
Lemma append_fits m rs cl a l :
  chunk_message m rs → wf_chunks cl → remote_chunk cl = Some (a, l) → chunk_ptr cl = 0 →
  Z.of_nat (length rs) <= chunk_num cl →
  ∃ l', remote_chunk (append_chunks (received m) cl) = Some (a, l') ∧
    chunk_ptr (append_chunks (received m) cl) = Z.of_nat (length rs) ∧
    ∀ j r, rs !! j = Some r → l' !! j = Some (grant_chunk r).
Proof.
  intros Hm (Hp & Hn & a' & l1 & Hr & Hl & _) Hcl H0 Hfit.
  rewrite Hcl in Hr. injection Hr as <- <-.
  assert (∃ l', remote_chunk (append_chunks (received m) cl) = Some (a, l')) as [l' Hl'].
  { unfold append_chunks, fill_chunks. rewrite Hcl. by eexists. }
  exists l'. split; [done|]. rewrite (cm_received (chunk_message := Hm)) in *. split.
  - unfold append_chunks, fill_chunks. rewrite Hcl. cbn. rewrite length_take, length_fmap, H0. lia.
  - intros j r Hj. pose proof (lookup_lt_Some _ _ _ Hj).
    destruct (append_lookup (grant_chunk <$> rs) cl a l j (grant_chunk r)) as (l2 & Hl2 & Hc);
      [done|lia|by rewrite list_lookup_fmap, Hj|lia|].
    rewrite Hl2 in Hl'. simplify_eq. by rewrite H0 in Hc.
Qed.

(** A client that received the message posts a request for chunk [j] into the
    [j]-th region, with that region's key. *)
Lemma client_posts_inside m rs w wc am an a l qi aq rq r :
  chunk_message m rs → wc_byte_len wc = sizeof_message → state_lt (state (w_sess w)) CONNECTED = false →
  recv_buf (w_sess w) = Some (am, m) → k_ptr (w_trace w) name_call = KPtr an →
  wf_chunks (remote_chunk_list (w_sess w)) → remote_chunk (remote_chunk_list (w_sess w)) = Some (a, l) →
  chunk_ptr (remote_chunk_list (w_sess w)) = 0 →
  Z.of_nat (length rs) <= chunk_num (remote_chunk_list (w_sess w)) →
  queues_ok w → has_queue w qi → qp (w_sess w) = KPtr aq → ¬ no_free w qi →
  on_device rq → in_one_chunk rq → arr_get rs (rq_chunk rq) = Some r →
  ∃ w1 wr sge w2, handle_recv_wr wc w = Ret 0 w1 ∧ state (w_sess w1) = RECEIVED_CHUNKS ∧
    posted_as w1 qi rq wr sge w2 ∧ wr_opcode wr = op_of rq ∧
    wr_rkey wr = mr_rkey r ∧ sge_length sge = rq_bytes rq ∧
    wr_remote_addr wr = mr_addr r + rq_offset rq ∧
    wr_remote_addr wr + sge_length sge <= mr_addr r + ONE_GB.
Proof.
  intros Hm Hwc Hst Hrecv Hname Hwf Hcl H0 Hfit Hq Hhas Hqp Hfree Hon Hin Hr.
  pose proof (recv_chunks_run w wc am m an Hwc Hst Hrecv Hname (cm_type (chunk_message := Hm))
    (cm_wf (chunk_message := Hm)) Hwf) as Hrun.
  destruct (append_fits m rs _ a l Hm Hwf Hcl H0 Hfit) as (l' & Hl' & _ & Hnth).
  set (w1 := woken _ _ _ w) in Hrun.
  assert (arr_get l' (rq_chunk rq) = Some (grant_chunk r)) as Hget.
  { unfold arr_get in *. case_decide; [|done]. by apply Hnth. }
  assert (region_ok r) as (Ha1 & Ha2 & _).
  { unfold arr_get in Hr. case_decide; [|done].
    exact (Forall_lookup_1 _ _ _ _ (cm_regions (chunk_message := Hm)) Hr). }
  destruct (transfer_inside w1 qi rq a l' (grant_chunk r) aq) as (wr & sge & w2 & Hp & H1 & H2 & H3 & H4 & H5 & H6);
    [done..|].
  exists w1, wr, sge, w2. split_and!; try done.
  pose proof (Z.div_mod (rq_start rq) ONE_GB ltac:(done)). unfold rq_offset, rq_chunk in *.
  cbn [grant_chunk remote_addr] in *. lia.
Qed.

End Client.

(** ** The handshake *)

Lemma omap_count (P : nat → bool) : ∀ (G : list (option ibv_mr)) i,
  (∀ j, (j < length G)%nat → granted G j ↔ P (i + j)%nat = true) →
  length (omap id G) = length (filter (λ j, P j = true) (seq i (length G))).
Proof.
  induction G as [|o G IH]; intros i HP; [done|]. cbn [length seq].
  assert (length (omap id G) = length (filter (λ j, P j = true) (seq (Datatypes.S i) (length G)))) as IH'.
  { apply IH. intros j Hj. rewrite Nat.add_succ_comm, <- HP by (cbn; lia). done. }
  specialize (HP 0%nat ltac:(cbn; lia)). rewrite Nat.add_0_r in HP.
  destruct o as [r|].
  - change (omap id (Some r :: G)) with (r :: omap id G).
    rewrite filter_cons_True; [cbn [length]; by rewrite IH'|]. apply HP. by exists r.
  - rewrite filter_cons_False; [done|]. intros [r Hr]%HP. discriminate.
Qed.

Lemma requested_available cnt (l : list nat) j : j ∈ requested cnt l → j ∈ l.
Proof. unfold requested. case_match; [done|]. intros (i & Hi & _)%elem_of_take. by eapply list_elem_of_lookup_2. Qed.

(** As many chunks are handed out as were asked for, if there are so many. *)
Lemma granted_length s p c cnt G m s' :
  handed_out s p c cnt G m s' → length (omap id G) = length (requested cnt (available_list (rdma_remote s) 0)).
Proof.
  intros Hh. destruct (h_carries _ _ _ _ _ _ _ Hh) as [HG _].
  set (av := available_list (rdma_remote s) 0).
  rewrite (omap_count (λ j, bool_decide (j ∈ requested cnt av)) G 0).
  2:{ intros j Hj. rewrite (h_which _ _ _ _ _ _ _ Hh), bool_decide_eq_true. done. }
  assert (NoDup av) as Hav by apply NoDup_filter, NoDup_seq.
  apply Permutation_length, NoDup_Permutation.
  - apply NoDup_filter, NoDup_seq.
  - unfold requested. case_match; [done|]. eapply sublist_NoDup; [exact Hav|]. apply sublist_take.
  - intros j. rewrite list_elem_of_filter, bool_decide_eq_true, HG. split; [by intros [? _]|]. intros Hj. split; [done|].
    apply requested_available, list_elem_of_filter in Hj as [_ Hj]. done.
Qed.

(** [m] arrives in the client's receive buffer. *)
Definition delivered (am : Z) (m : message) (w : world) : world :=
  w <| w_sess ::= λ s, s <| recv_buf := Some (am, m) |> |>.

Definition alloc_succeeds `{K : kernel} : Prop := ∀ tr n, ∃ a, k_ptr tr (K_kzalloc n) = KPtr a.

(** The client's table after the announcement of [n] chunks. *)
Lemma announced_wf a n :
  0 <= n < 2 ^ 32 → wf_chunks (mkChunkList (Some (a, replicate (Z.to_nat n) zero_chunk)) n n 0).
Proof.
  intros Hn. split; [cbn; lia|]. split; [cbn; lia|]. eexists _, _. split; [reflexivity|]. cbn.
  rewrite length_replicate. split; [lia|]. intros i x [-> _]%lookup_replicate. split; [done|cbn; lia].
Qed.

Lemma append_length new cl a l a' l' :
  wf_chunks cl → remote_chunk cl = Some (a, l) → remote_chunk (append_chunks new cl) = Some (a', l') →
  length l' = length l.
Proof.
  intros (Hp & Hn & a1 & l1 & Hr & Hl & _) Hc. rewrite Hc in Hr. injection Hr as <- <-.
  unfold append_chunks, fill_chunks. rewrite Hc. cbn. intros [= _ <-].
  rewrite !length_app, length_drop, !length_take. lia.
Qed.

(** The server before the handshake: connected to the client, its tables and
    counters in order. *)
Record server_ready `{V : verbs} (s : server) (p : nat) (c : connection) : Prop := {
  sr_verbs : reg_ok ∧ send_ok;
  sr_wf : wf_remote (rdma_remote s);
  sr_addr : addresses_ok (rdma_remote s);
  sr_conn : conn_heap s !! p = Some (Some c) ∧ wf_conn c ∧ connected c ≠ 0;
  sr_free : size_gb (rdma_remote s) - mapped_size (rdma_remote s) =
            Z.of_nat (length (available_list (rdma_remote s) 0))
}.

(** The client before the handshake: connected, with its commands set up. *)
Record client_ready (w : world) (aq : Z) : Prop := {
  cr_state : state_lt (state (w_sess w)) CONNECTED = false;
  cr_qp : qp (w_sess w) = KPtr aq;
  cr_queues : queues_ok w
}.

(** A region the server knows as memory it allocated, registered and handed to
    the connection with index [i]. *)
Definition server_owns (s : server) (i : Z) (r : ibv_mr) : Prop :=
  ∃ j : nat, malloc_map (rdma_remote s) !! j = Some CHUNK_MALLOCED ∧
    region_list (rdma_remote s) !! j = Some (Some (mr_addr r)) ∧
    mr_list (rdma_remote s) !! j = Some (Some r) ∧ conn_map (rdma_remote s) !! j = Some i.

(** The server's half: announcement and chunks. *)
Lemma server_handshake `{V : verbs} s p c k :
  server_ready s p c → 1 <= k <= 32 →
  let n := length (available_list (rdma_remote s) 0) in
  ∃ m1 s1 m2 s2 rs,
    send_free_mem_size p s = SRet tt s1 ∧ last (s_trace s1) = Some (V_ibv_post_send p m1) ∧
    rtype m1 = Some FREE_SIZE ∧ msg_size_gb m1 = Z.of_nat n ∧
    send_chunks_to_client p k s1 = SRet tt s2 ∧ last (s_trace s2) = Some (V_ibv_post_send p m2) ∧
    chunk_message m2 rs ∧ length rs = Nat.min (Z.to_nat k) n ∧
    ∀ r, r ∈ rs → server_owns s2 (conn_index c) r.
Proof.
  intros [[Hreg Hsend] Hwf Ha (Hc & Hwc & Hcon) Hbooks] Hk. cbv zeta.
  pose proof (available_list_length (rdma_remote s) 0) as Hn.
  destruct (send_free_run p c s Hsend Hc Hcon) as (m1 & s1 & Hr1 & Hl1 & Ht1 & Hs1 & Hb1 & Hk1 & Hrem & Hh1).
  assert (conn_heap s1 !! p = Some (Some (c <| send_msg := m1 |>))) as Hc1.
  { rewrite Hh1. by apply (conn_heap_lookup p _ s _ Hc). }
  assert (wf_conn (c <| send_msg := m1 |>)) as Hwc1.
  { destruct Hwc. split; [done|]. cbn. by rewrite Hb1. }
  destruct (hand_out_run p _ k k k GOT_CHUNKS s1 Hreg Hsend ltac:(by rewrite Hrem) Hc1 Hwc1 Hcon ltac:(lia))
    as (G & m2 & s2 & Hr2 & Hh & Ht2 & _).
  exists m1, s1, m2, s2, (omap id G).
  assert (rtype m1 = Some FREE_SIZE) by (unfold rtype; by rewrite Ht1).
  rewrite Hbooks, i32_id in Hs1 by lia.
  split; [exact Hr1|]. split; [exact Hl1|]. split; [done|]. split; [exact Hs1|].
  split; [unfold send_chunks_to_client; change CHUNK_SIZE_GB with 1; by rewrite Z.quot_1_r|]. split_and!.
  - apply (h_sent _ _ _ _ _ _ _ Hh).
  - eapply handed_out_message; [done|by rewrite Hrem|done].
  - rewrite (granted_length _ _ _ _ _ _ _ Hh), Hrem. unfold requested.
    destruct (Z.ltb_spec k 1); [lia|]. apply length_take.
  - intros r Hin. apply list_elem_of_omap in Hin as (o & Ho & Hor). cbn in Hor. subst o.
    apply list_elem_of_lookup in Ho as [j Hj]. exists j.
    destruct (h_region _ _ _ _ _ _ _ Hh j r Hj) as (H1 & _ & H2 & H3).
    destruct (h_alloc _ _ _ _ _ _ _ Hh) as (Hm & Hrl & _). rewrite Hm, Hrl. split_and!; try done.
    assert (j ∈ requested k (available_list (rdma_remote s1) 0)) as Hreq%requested_available
      by (apply (h_which _ _ _ _ _ _ _ Hh); by exists r).
    apply list_elem_of_filter in Hreq as [[Hmal _]%bool_decide_eq_true _]. done.
Qed.

(** The client's half: with the table the announcement left, the chunk message
    fills it, and requests go to the regions or fault outside the table. *)
Lemma client_handshake `{K : kernel} w aq wc am m1 m2 rs n :
  alloc_succeeds → client_ready w aq → wc_byte_len wc = sizeof_message →
  rtype m1 = Some FREE_SIZE → msg_size_gb m1 = Z.of_nat n → Z.of_nat n < 2 ^ 32 →
  chunk_message m2 rs → length rs = n →
  ∃ w1 w2, handle_recv_wr wc (delivered am m1 w) = Ret 0 w1 ∧
    handle_recv_wr wc (delivered am m2 w1) = Ret 0 w2 ∧ state (w_sess w2) = RECEIVED_CHUNKS ∧
    ∀ qi rq, has_queue w qi → ¬ no_free w qi → on_device rq → in_one_chunk rq →
      match arr_get rs (rq_chunk rq) with
      | Some r => ∃ wr sge w3, posted_as w2 qi rq wr sge w3 ∧ wr_opcode wr = op_of rq ∧
          wr_rkey wr = mr_rkey r ∧ sge_length sge = rq_bytes rq ∧
          wr_remote_addr wr = mr_addr r + rq_offset rq ∧
          wr_remote_addr wr + sge_length sge <= mr_addr r + ONE_GB
      | None => transfer_requet_to_rdma_message qi rq w2 = Oops OutOfBounds
      end.
Proof.
  intros Hal [Hst Hqp Hq] Hwc Ht1 Hs1 Hn Hm Hlen.
  destruct (Hal (w_trace w) 32) as [an Han]. 
  destruct (Hal (w_trace w ++ [name_call]) (u64 (sizeof_chunk * u32 (msg_size_gb m1)))) as [a Ha].
  assert (u32 (msg_size_gb m1) = Z.of_nat n) as Hu by (rewrite Hs1; apply u32_id; lia).
  pose proof (recv_free_size_run (delivered am m1 w) wc am m1 an a Hwc Hst eq_refl Han Ht1 Ha) as H1.
  rewrite Hu in H1. set (w1 := woken _ _ _ _) in H1.
  destruct (Hal (w_trace w1) 32) as [an2 Han2].
  set (cl := mkChunkList (Some (a, replicate (Z.to_nat (Z.of_nat n)) zero_chunk)) (Z.of_nat n) (Z.of_nat n) 0).
  assert (wf_chunks cl) as Hwf by (apply announced_wf; lia).
  pose proof (recv_chunks_run (delivered am m2 w1) wc am m2 an2 Hwc eq_refl eq_refl Han2
    (cm_type (chunk_message := Hm)) (cm_wf (chunk_message := Hm)) Hwf) as H2.
  set (w2 := woken _ _ _ (delivered _ _ _)) in H2.
  exists w1, w2. split_and!; [done|done|done|].
  intros qi rq Hhas Hfree Hon Hin. destruct (arr_get rs (rq_chunk rq)) as [r|] eqn:Hr.
  - destruct (client_posts_inside m2 rs (delivered am m2 w1) wc am an2 a _ qi aq rq r Hm Hwc eq_refl eq_refl
      Han2 Hwf eq_refl eq_refl) as (w2' & wr & sge & w3 & H2' & _ & Hp);
      [cbn; lia|done..|].
    rewrite H2 in H2'. injection H2' as <-. eauto.
  - assert (∃ l', remote_chunk (remote_chunk_list (w_sess w2)) = Some (a, l') ∧ length l' = n) as (l' & Hl' & Hll).
    { destruct (append_fits m2 rs cl a _ Hm Hwf eq_refl eq_refl ltac:(cbn; lia)) as (l' & Hl' & _).
      exists l'. split; [done|]. rewrite (append_length _ _ _ _ _ _ Hwf eq_refl Hl'), length_replicate. lia. }
    rewrite (transfer_step w2 qi rq (rq_chunk rq) (rq_offset rq) (rq_bytes rq) a l'); [|done|done| |done].
    + assert (arr_get l' (rq_chunk rq) = None) as ->; [|done].
      unfold arr_get in *. case_decide; [|done]. apply lookup_ge_None in Hr. apply lookup_ge_None. lia.
    + rewrite translate_ok by done. unfold translate_spec. by rewrite decide_True.
Qed.

(** C1. From the client's disk to the server's memory: after the server has
    announced its free size and answered the client's request for all 32
    chunks, every block request that lies in one chunk and finds a free command
    is posted as a work request of its direction that lies, at the request's
    offset, inside a region that the server allocated, registered under the
    request's key and recorded as this client's, the [i]-th chunk of the disk
    using the [i]-th region of the message; and a request beyond the announced
    chunks makes the driver read outside its table. *)
Theorem remote_memory_end_to_end `{K : kernel} `{V : verbs} s p c w aq wc am :
  server_ready s p c → alloc_succeeds → client_ready w aq → wc_byte_len wc = sizeof_message →
  let n := length (available_list (rdma_remote s) 0) in
  ∃ m1 s1 m2 s2 w1 w2 rs,
    send_free_mem_size p s = SRet tt s1 ∧ last (s_trace s1) = Some (V_ibv_post_send p m1) ∧
    handle_recv_wr wc (delivered am m1 w) = Ret 0 w1 ∧
    send_chunks_to_client p MAX_REMOTE_MEMORY_SIZE_GB s1 = SRet tt s2 ∧
    last (s_trace s2) = Some (V_ibv_post_send p m2) ∧
    handle_recv_wr wc (delivered am m2 w1) = Ret 0 w2 ∧ state (w_sess w2) = RECEIVED_CHUNKS ∧
    length rs = n ∧
    ∀ qi rq, has_queue w qi → ¬ no_free w qi → on_device rq → in_one_chunk rq →
      (rq_chunk rq < Z.of_nat n →
        ∃ r wr sge w3, arr_get rs (rq_chunk rq) = Some r ∧ server_owns s2 (conn_index c) r ∧
          posted_as w2 qi rq wr sge w3 ∧ wr_opcode wr = op_of rq ∧
          wr_rkey wr = mr_rkey r ∧ sge_length sge = rq_bytes rq ∧
          wr_remote_addr wr = mr_addr r + rq_offset rq ∧
          wr_remote_addr wr + sge_length sge <= mr_addr r + ONE_GB) ∧
      (Z.of_nat n <= rq_chunk rq → transfer_requet_to_rdma_message qi rq w2 = Oops OutOfBounds).
Proof.
  intros Hs Hal Hc Hwc n.
  destruct (server_handshake s p c 32 Hs ltac:(lia)) as (m1 & s1 & m2 & s2 & rs & H1 & H2 & H3 & H4 & H5 & H6 & H7 & H8 & H9).
  pose proof (available_list_length (rdma_remote s) 0) as Hn. fold n in H4, H8, Hn.
  rewrite Nat.min_r in H8 by lia.
  destruct (client_handshake w aq wc am m1 m2 rs n Hal Hc Hwc H3 H4 ltac:(lia) H7 H8)
    as (w1 & w2 & Hw1 & Hw2 & Hst & Hrq).
  exists m1, s1, m2, s2, w1, w2, rs. split_and!; try done.
  intros qi rq Hq Hf Hon Hin. specialize (Hrq qi rq Hq Hf Hon Hin).
  assert (0 <= rq_chunk rq) as H0.
  { destruct Hon as (Hp & _). unfold rq_chunk, rq_start. apply Z.div_pos; [|done]. unfold RMEM_LOGICAL_SECT_SIZE. lia. }
  split; intros Hlt.
  - destruct (arr_get_is_Some rs (rq_chunk rq)) as [r Hr]; [lia|]. rewrite Hr in Hrq.
    destruct Hrq as (wr & sge & w3 & Hp). exists r, wr, sge, w3. split; [done|]. split; [|done].
    apply H9. unfold arr_get in Hr. case_decide; [|done]. by eapply list_elem_of_lookup_2.
  - destruct (arr_get rs (rq_chunk rq)) eqn:Hr; [|done]. apply arr_get_Some in Hr. lia.
Qed.

(** A negative free size (which the server announces after it counted more
    chunks than it had) makes the client ask for a table of almost 2^32
    entries, 96 GB; when that allocation fails the client dereferences NULL. *)
Theorem negative_free_size_faults `{K : kernel} w wc am m an :
  wc_byte_len wc = sizeof_message → state_lt (state (w_sess w)) CONNECTED = false → k_ptr (w_trace w) name_call = KPtr an →
  rtype m = Some FREE_SIZE → - 2 ^ 16 <= msg_size_gb m < 0 →
  (∀ tr n, 90 * ONE_GB <= n → k_ptr tr (K_kzalloc n) = KNull) →
  handle_recv_wr wc (delivered am m w) = Oops NullDeref.
Proof.
  intros Hl Hs Ha Ht Hneg Hbig.
  rewrite (handle_recv_start (delivered am m w) wc am m an Hl Hs eq_refl Ha), Ht. do 2 mstep.
  rewrite M_bind_unfold, init_run.
  match goal with |- context [init_call ?v] => set (w0 := v) end.
  assert (init_size w0 = msg_size_gb m + 2 ^ 32) as Hn.
  { unfold init_size. change (remote_free_size_gb _) with (u32 (msg_size_gb m)).
    unfold CHUNK_SIZE_GB. rewrite Z.div_1_r, u32_u32. unfold u32.
    rewrite <- (Z.mod_add _ 1) by lia. apply Z.mod_small. lia. }
  unfold init_call. rewrite Hn, Hbig.
  - rewrite decide_False by lia. done.
  - unfold sizeof_chunk, ONE_GB. rewrite u64_id by lia. lia.
Qed.

(** ** Witnesses *)

#[local] Existing Instance verbs_ok.

(** The addresses, decided. *)
Definition addresses_okb (r : rdma_remote_mem) : bool :=
  forallb (λ o, match o with Some a => (0 <=? a) && (a + ONE_GB <=? 2 ^ 64) | None => true end) (region_list r).

Lemma addresses_okb_sound r : addresses_okb r = true → addresses_ok r.
Proof.
  unfold addresses_okb, addresses_ok. intros H j a Hj. rewrite forallb_forall in H.
  specialize (H (Some a) (proj1 (list_elem_of_In _ _) (list_elem_of_lookup_2 _ _ _ Hj))).
  cbn beta iota in H. apply andb_true_iff in H as [H1 H2]. lia.
Qed.

Lemma demo_addresses : addresses_ok (rdma_remote demo_connected).
Proof. apply addresses_okb_sound. vm_compute. reflexivity. Qed.

Lemma demo_server_ready : server_ready demo_connected 0 demo_conn.
Proof.
  constructor.
  - split; [exact verbs_ok_reg|exact verbs_ok_send].
  - exact demo_wf_remote.
  - exact demo_addresses.
  - split; [exact demo_connected_conn|]. split; [exact demo_wf_conn|].
    destruct demo_connected_books as (_ & _ & _ & -> & _). done.
  - destruct demo_connected_books as (-> & -> & -> & _). reflexivity.
Qed.

Definition demo_client : world := demo_post_world <| w_sess ::= λ s, s <| state := CONNECTED |> |>.

Lemma demo_client_ready : client_ready demo_client 32.
Proof. split; [reflexivity|reflexivity|exact demo_queues_ok]. Qed.

Lemma remote_memory_end_to_end_witness :
  ∃ s2 w2 r wr sge w3, server_owns s2 0 r ∧
    @posted_as kernel_ok w2 0 (demo_io_rq 8 4096 1) wr sge w3 ∧
    wr_rkey wr = mr_rkey r ∧ wr_remote_addr wr = mr_addr r + 4096.
Proof.
  destruct (@remote_memory_end_to_end kernel_ok verbs_ok demo_connected 0 demo_conn demo_client 32 recv_wc 256)
    as (m1 & s1 & m2 & s2 & w1 & w2 & rs & _ & _ & _ & _ & _ & _ & _ & _ & H).
  - exact demo_server_ready.
  - intros tr n. by eexists.
  - exact demo_client_ready.
  - reflexivity.
  - destruct (H 0 (demo_io_rq 8 4096 1) demo_has_queue demo_io_free) as [H1 _].
    + repeat split; vm_compute; congruence.
    + vm_compute. congruence.
    + destruct H1 as (r & wr & sge & w3 & _ & H2 & H3 & _ & H4 & _ & H5 & _).
      { destruct demo_connected_books as (_ & _ & -> & _). vm_compute. reflexivity. }
      exists s2, w2, r, wr, sge, w3. split; [|split; [exact H3|split; [exact H4|exact H5]]].
      destruct demo_connected_books as (_ & _ & _ & _ & Hi & _). rewrite Hi in H2. exact H2.
Defined.

(** A kernel whose allocator refuses 64 GB and more. *)
Definition kernel_small : kernel := {|
  k_int := @k_int kernel_ok;
  k_ptr := λ tr c, match c with
                   | K_kzalloc n => if 64 * ONE_GB <=? n then KNull else @k_ptr kernel_ok tr c
                   | _ => @k_ptr kernel_ok tr c
                   end;
  k_qp := KPtr 64; k_local_dma_lkey := 7; k_mr_lkey := 8; k_num_online_cpus := 2;
  k_sizeof_cmd := 120; k_sizeof_queue := 40
|}.

Definition negative_message : message := mkMessage (replicate 32 0) (replicate 32 0) (-20) (message_type_code FREE_SIZE).

Lemma negative_free_size_faults_witness :
  @handle_recv_wr kernel_small recv_wc (delivered 256 negative_message demo_client) = Oops NullDeref.
Proof.
  apply (@negative_free_size_faults kernel_small demo_client recv_wc 256 negative_message 4096).
  - reflexivity.
  - reflexivity.
  - reflexivity.
  - reflexivity.
  - cbn. lia.
  - intros tr n Hn. unfold k_ptr, kernel_small. unfold ONE_GB in *.
    by destruct (Z.leb_spec (64 * (1024 * 1024 * 1024)) n); [|lia].
Defined.
