(* ===== verification/Prog.v ===== *)
(** * Programs over any state

    The parts of the repository outside the Octopus driver (the older kernel
    client, the older block device, the user-level RDMA programs) each have
    their own state and make their own calls.  This file holds what their
    models share.

    [prog S C A] is a computation on the data [S] of a program that records
    the calls it makes (of type [C]); it returns, ends the process
    ([Exited], from [die] or [return] in [main]) or faults.  [wprog S C A]
    may also wait for a condition on the data.  The results of calls come
    from an environment that sees all earlier calls, as in [Kernel].

    [sched_step] interleaves such computations at their waits, and
    [sched_ind] is the rule for invariants of all interleavings. *)

From S2P Require Import Prelude OctTypes Kernel.

(** ** Computations *)

Record pstate (S C : Type) := mkPstate {
  p_data : S;
  p_calls : list C          (* oldest first *)
}.
Arguments mkPstate {S C} _ _.
Arguments p_data {S C} _.
Arguments p_calls {S C} _.

Inductive outcome (S C A : Type) :=
| Done (a : A) (w : pstate S C)
| Exited (code : Z) (w : pstate S C)
| Fault (f : fault).
Arguments Done {S C A} a w.
Arguments Exited {S C A} code w.
Arguments Fault {S C A} f.

Definition prog (S C A : Type) : Type := pstate S C → outcome S C A.

#[export] Instance prog_ret {S C} : MRet (prog S C) := λ A a w, Done a w.
#[export] Instance prog_bind {S C} : MBind (prog S C) := λ A B k m w,
  match m w with
  | Done a w' => k a w'
  | Exited c w' => Exited c w'
  | Fault f => Fault f
  end.

Inductive wsusp (S C A : Type) :=
| WDone (a : A) (w : pstate S C)
| WWait (cond : S → bool) (w : pstate S C) (k : pstate S C → wsusp S C A)
| WExited (code : Z) (w : pstate S C)
| WFault (f : fault).
Arguments WDone {S C A} a w.
Arguments WWait {S C A} cond w k.
Arguments WExited {S C A} code w.
Arguments WFault {S C A} f.

Definition wprog (S C A : Type) : Type := pstate S C → wsusp S C A.

Fixpoint wsusp_bind {S C A B} (s : wsusp S C A) (k : A → wprog S C B) : wsusp S C B :=
  match s with
  | WDone a w => k a w
  | WWait c w r => WWait c w (λ w', wsusp_bind (r w') k)
  | WExited c w => WExited c w
  | WFault f => WFault f
  end.

#[export] Instance wprog_ret {S C} : MRet (wprog S C) := λ A a w, WDone a w.
#[export] Instance wprog_bind {S C} : MBind (wprog S C) := λ A B k m w, wsusp_bind (m w) k.

Definition wlift {S C A} (m : prog S C A) : wprog S C A := λ w,
  match m w with
  | Done a w' => WDone a w'
  | Exited c w' => WExited c w'
  | Fault f => WFault f
  end.

(** ** Primitives *)

Section Primitives.
Context {S C : Type}.

Definition data {A} (f : S → A) : prog S C A := λ w, Done (f (p_data w)) w.
Definition update (f : S → S) : prog S C unit := λ w, Done tt (mkPstate (f (p_data w)) (p_calls w)).
Definition exit {A} (code : Z) : prog S C A := λ w, Exited code w.
Definition crash {A} (f : fault) : prog S C A := λ _, Fault f.

(** A call without a result, and one whose result the environment gives. *)
Definition tell (c : C) : prog S C unit := λ w, Done tt (mkPstate (p_data w) (p_calls w ++ [c])).
Definition ask {A} (env : list C → C → A) (c : C) : prog S C A := λ w,
  Done (env (p_calls w) c) (mkPstate (p_data w) (p_calls w ++ [c])).

Definition nonnull {A} (p : option A) : prog S C A :=
  match p with Some a => mret a | None => crash NullDeref end.
Definition inside {A} (p : option A) : prog S C A :=
  match p with Some a => mret a | None => crash OutOfBounds end.
Definition valid (p : kptr) : prog S C Z :=
  match p with KPtr a => mret a | KNull => crash NullDeref | KErr _ => crash BadPtr end.

(** [for (i = i0; i < i0 + n; i++) body]; [break] is [false]. *)
Fixpoint pfor (n : nat) (i : Z) (body : Z → prog S C bool) : prog S C unit :=
  match n with
  | O => mret tt
  | Datatypes.S n => go ← body i; if go : bool then pfor n (i + 1) body else mret tt
  end.

Definition wait (cond : S → bool) : wprog S C unit := λ w,
  if cond (p_data w) then WDone tt w else WWait cond w (WDone tt).

End Primitives.

(** ** Lemmas *)

Section Lemmas.
Context {S C : Type}.
Implicit Types w : pstate S C.

Lemma prog_bind_unfold {A B} (m : prog S C A) (k : A → prog S C B) w :
  (m ≫= k) w = match m w with
               | Done a w' => k a w' | Exited c w' => Exited c w' | Fault f => Fault f
               end.
Proof. reflexivity. Qed.

Lemma prog_bind_step {A B} (m : prog S C A) (k : A → prog S C B) w a w' :
  m w = Done a w' → (m ≫= k) w = k a w'.
Proof. rewrite prog_bind_unfold. by intros ->. Qed.

Lemma prog_bind_fault {A B} (m : prog S C A) (k : A → prog S C B) w f :
  m w = Fault f → (m ≫= k) w = Fault f.
Proof. rewrite prog_bind_unfold. by intros ->. Qed.

Lemma prog_bind_exited {A B} (m : prog S C A) (k : A → prog S C B) w c w' :
  m w = Exited c w' → (m ≫= k) w = Exited c w'.
Proof. rewrite prog_bind_unfold. by intros ->. Qed.

Lemma prog_bind_Done {A B} (m : prog S C A) (k : A → prog S C B) w b w' :
  (m ≫= k) w = Done b w' ↔ ∃ a w1, m w = Done a w1 ∧ k a w1 = Done b w'.
Proof.
  rewrite prog_bind_unfold. destruct (m w) as [a w1| |].
  - split; [eauto|]. by intros (? & ? & [= <- <-] & ?).
  - split; [done|]. by intros (? & ? & ? & ?).
  - split; [done|]. by intros (? & ? & ? & ?).
Qed.

Lemma wlift_step {A B} (m : prog S C A) (k : A → wprog S C B) w a w' :
  m w = Done a w' → (wlift m ≫= k) w = k a w'.
Proof. intros Hm. unfold mbind, wprog_bind, wlift. by rewrite Hm. Qed.

Lemma wlift_fault {A B} (m : prog S C A) (k : A → wprog S C B) w f :
  m w = Fault f → (wlift m ≫= k) w = WFault f.
Proof. intros Hm. unfold mbind, wprog_bind, wlift. by rewrite Hm. Qed.

Lemma wprog_bind_unfold {A B} (p : wprog S C A) (k : A → wprog S C B) w :
  (p ≫= k) w = wsusp_bind (p w) k.
Proof. reflexivity. Qed.

Lemma pfor_go n i (body : Z → prog S C bool) w w' :
  body i w = Done true w' → pfor (Datatypes.S n) i body w = pfor n (i + 1) body w'.
Proof. intros Hb. cbn [pfor]. by rewrite (prog_bind_step _ _ _ _ _ Hb). Qed.

Lemma pfor_break n i (body : Z → prog S C bool) w w' :
  body i w = Done false w' → pfor (Datatypes.S n) i body w = Done tt w'.
Proof. intros Hb. cbn [pfor]. by rewrite (prog_bind_step _ _ _ _ _ Hb). Qed.

Lemma pfor_fault n i (body : Z → prog S C bool) w f :
  body i w = Fault f → pfor (Datatypes.S n) i body w = Fault f.
Proof. intros Hb. cbn [pfor]. by apply prog_bind_fault. Qed.

End Lemmas.

(** *** Total correctness: the computation returns, and [Q] holds *)

Section Runs.
Context {S C : Type}.
Implicit Types w : pstate S C.

Definition runs {A} (m : prog S C A) w (Q : A → pstate S C → Prop) : Prop := ∃ a w', m w = Done a w' ∧ Q a w'.

Lemma runs_done {A} (m : prog S C A) w a w' (Q : A → pstate S C → Prop) : m w = Done a w' → Q a w' → runs m w Q.
Proof. by exists a, w'. Qed.

Lemma runs_bind {A B} (m : prog S C A) (k : A → prog S C B) w Q :
  runs m w (λ a w', runs (k a) w' Q) → runs (m ≫= k) w Q.
Proof.
  intros (a & w' & Hm & b & w'' & Hk & HQ). exists b, w''. by rewrite (prog_bind_step _ _ _ _ _ Hm).
Qed.

Lemma runs_mono {A} (m : prog S C A) w (Q Q' : A → pstate S C → Prop) :
  (∀ a w', Q a w' → Q' a w') → runs m w Q → runs m w Q'.
Proof. intros HQ (a & w' & Hm & H). exists a, w'. auto. Qed.

Lemma runs_wlift {A B} (m : prog S C A) (k : A → wprog S C B) w Q (P : wsusp S C B → Prop) :
  runs m w Q → (∀ a w', Q a w' → P (k a w')) → P ((wlift m ≫= k) w).
Proof. intros (a & w' & Hm & H) HP. rewrite (wlift_step _ _ _ _ _ Hm). auto. Qed.

Lemma wlift_step2 {A B D} (m : prog S C A) (k : A → wprog S C B) (l : B → wprog S C D) w a w' :
  m w = Done a w' → ((wlift m ≫= k) ≫= l) w = (k a ≫= l) w'.
Proof. intros Hm. by rewrite wprog_bind_unfold, (wlift_step _ _ _ _ _ Hm). Qed.

(** The same for computations that need not wait any more. *)
Definition wruns {A} (p : wprog S C A) w (Q : A → pstate S C → Prop) : Prop := ∃ a w', p w = WDone a w' ∧ Q a w'.

Lemma wruns_lift {A B} (m : prog S C A) (k : A → wprog S C B) w Q :
  runs m w (λ a w', wruns (k a) w' Q) → wruns (wlift m ≫= k) w Q.
Proof.
  intros (a & w' & Hm & b & w'' & Hk & HQ). exists b, w''. by rewrite (wlift_step _ _ _ _ _ Hm).
Qed.

Lemma wruns_ret {A} (a : A) w (Q : A → pstate S C → Prop) : Q a w → wruns (mret a) w Q.
Proof. by exists a, w. Qed.

End Runs.

(** [gstep] runs the first primitive of the computation in the goal. *)
Ltac gstep :=
  match goal with
  | |- context G [@mbind (prog ?S ?C) prog_bind ?A ?B ?k ?m ?w] =>
      let r := eval hnf in (m w) in
      lazymatch r with
      | Done ?a ?w1 => let g := context G [k a w1] in change g; cbv beta zeta
      | Exited ?c ?w1 => let g := context G [@Exited S C B c w1] in change g
      | Fault ?f => let g := context G [@Fault S C B f] in change g
      end
  | |- context G [@mbind (wprog ?S ?C) wprog_bind ?A ?B ?k (@wlift ?S ?C _ ?m) ?w] =>
      let r := eval hnf in (m w) in
      lazymatch r with
      | Done ?a ?w1 => let g := context G [k a w1] in change g; cbv beta zeta
      end
  end.

(** [grun] takes apart every hypothesis that a computation returned. *)
Ltac gprim H :=
  progress unfold data, update, mret, prog_ret, exit, crash, tell, ask, nonnull, inside, valid in H.
Ltac grun :=
  repeat match goal with
  | H : mbind _ _ _ = Done _ _ |- _ =>
      let H1 := fresh "Hs" in apply prog_bind_Done in H as (? & ? & H1 & H)
  | H : Done _ _ = Done _ _ |- _ => injection H; clear H; intros; subst
  | H : Exited _ _ = Done _ _ |- _ => discriminate H
  | H : Fault _ = Done _ _ |- _ => discriminate H
  | H : _ = Done _ _ |- _ => gprim H
  | H : (match ?x with _ => _ end) _ = Done _ _ |- _ => let E := fresh "E" in destruct x eqn:E
  | H : (match ?x with _ => _ end) = Done _ _ |- _ => let E := fresh "E" in destruct x eqn:E
  end.

(** ** Preservation *)

Section Pres.
Context {S C : Type}.

Definition ppres {A} (R : relation (pstate S C)) (m : prog S C A) : Prop :=
  ∀ w a w', m w = Done a w' → R w w'.

Fixpoint wguar {A} (R : relation (pstate S C)) (w0 : pstate S C) (s : wsusp S C A) : Prop :=
  match s with
  | WDone _ w => R w0 w
  | WWait _ w k => R w0 w ∧ ∀ w', wguar R w' (k w')
  | WExited _ _ | WFault _ => True
  end.

Definition wpres {A} (R : relation (pstate S C)) (p : wprog S C A) : Prop := ∀ w, wguar R w (p w).

Context {R : relation (pstate S C)} `{!PreOrder R}.

Lemma ppres_ret {A} (a : A) : ppres R (mret a).
Proof. intros w b w' [= _ <-]. reflexivity. Qed.

Lemma ppres_data {A} (f : S → A) : ppres R (data f).
Proof. intros w b w' [= _ <-]. reflexivity. Qed.

Lemma ppres_exit {A} c : ppres R (exit c : prog S C A).
Proof. by intros w b w'. Qed.

Lemma ppres_crash {A} f : ppres R (crash f : prog S C A).
Proof. by intros w b w'. Qed.

Lemma ppres_nonnull {A} (p : option A) : ppres R (nonnull p).
Proof. destruct p; [apply ppres_ret|apply ppres_crash]. Qed.

Lemma ppres_inside {A} (p : option A) : ppres R (inside p).
Proof. destruct p; [apply ppres_ret|apply ppres_crash]. Qed.

Lemma ppres_valid p : ppres R (valid p).
Proof. destruct p; [apply ppres_crash|apply ppres_ret|apply ppres_crash]. Qed.

Lemma ppres_bind {A B} (m : prog S C A) (k : A → prog S C B) :
  ppres R m → (∀ a, ppres R (k a)) → ppres R (m ≫= k).
Proof. intros Hm Hk w b w' (a & w1 & H1 & H2)%prog_bind_Done. etrans; [by eapply Hm|by eapply Hk]. Qed.

Lemma ppres_pfor n i (body : Z → prog S C bool) : (∀ j, ppres R (body j)) → ppres R (pfor n i body).
Proof.
  intros Hb. revert i. induction n as [|n IH]; intros i; [apply ppres_ret|]. cbn [pfor].
  apply ppres_bind; [done|]. intros [|]; [apply IH|apply ppres_ret].
Qed.

Lemma wguar_trans {A} w v (t : wsusp S C A) : R w v → wguar R v t → wguar R w t.
Proof. intros HR. destruct t; cbn; [|intros [? ?]; split|..]; try done; by etrans. Qed.

Lemma wguar_bind {A B} (s : wsusp S C A) (k : A → wprog S C B) :
  (∀ a, wpres R (k a)) → ∀ w, wguar R w s → wguar R w (wsusp_bind s k).
Proof.
  intros Hk. induction s as [a v|c v r IH|c v|f]; intros w Hg; cbn in *; [|split|done|done].
  - by eapply wguar_trans; [|apply Hk].
  - by destruct Hg.
  - intros w'. by apply IH, Hg.
Qed.

Lemma wpres_bind {A B} (p : wprog S C A) (k : A → wprog S C B) :
  wpres R p → (∀ a, wpres R (k a)) → wpres R (p ≫= k).
Proof. intros Hp Hk w. by apply wguar_bind. Qed.

Lemma wpres_ret {A} (a : A) : wpres R (mret a).
Proof. intros w. cbn. reflexivity. Qed.

Lemma wpres_lift {A} (m : prog S C A) : ppres R m → wpres R (wlift m).
Proof. intros Hm w. unfold wlift. destruct (m w) eqn:E; [|done..]. by eapply Hm. Qed.

Lemma wpres_wait c : wpres R (wait c).
Proof. intros w. unfold wait. case_match; cbn; [|split]; reflexivity. Qed.

End Pres.

Lemma ppres_weaken {S C A} (R R' : relation (pstate S C)) (m : prog S C A) :
  (∀ w w', R w w' → R' w w') → ppres R m → ppres R' m.
Proof. intros HR Hm w a w' H. eapply HR, Hm, H. Qed.

(** [ppres_go] proves preservation along the structure of a computation. *)
Create HintDb ppres.
#[export] Hint Resolve ppres_ret ppres_data ppres_exit ppres_crash ppres_nonnull ppres_inside ppres_valid
  wpres_ret wpres_wait : ppres.
#[export] Hint Extern 0 (PreOrder _) => apply _ : ppres.

Ltac ppres_go :=
  repeat first
    [ solve [auto with ppres nocore]
    | apply ppres_bind; [|intros ?]
    | apply ppres_pfor; intros ?
    | apply wpres_bind; [|intros ?]
    | apply wpres_lift
    | match goal with
      | |- ppres _ (match ?x with _ => _ end) => destruct x
      | |- wpres _ (match ?x with _ => _ end) => destruct x
      end ].

(** ** Interleavings *)

Section Sched.
Context {S C E : Type} (handle : E → wprog S C unit) (event_ok : pstate S C → E → Prop).

(** A thread: over, or waiting with the rest of its work. *)
Inductive pthread :=
| PThread_over
| PThread_wait (cond : S → bool) (k : pstate S C → wsusp S C unit).

Definition psettle (s : wsusp S C unit) : option (pstate S C * pthread) :=
  match s with
  | WDone _ w => Some (w, PThread_over)
  | WWait c w k => Some (w, PThread_wait c k)
  | WExited _ _ | WFault _ => None
  end.

(** An event starts a thread that runs up to its first wait; a waiting thread
    may go on at any time, its condition being ignored after an
    interruption. *)
Inductive sched_step : pstate S C * list pthread → pstate S C * list pthread → Prop :=
| sched_event w ts e w' t :
    event_ok w e → psettle (handle e w) = Some (w', t) →
    sched_step (w, ts) (w', ts ++ [t])
| sched_resume w ts i c k w' t :
    ts !! i = Some (PThread_wait c k) → psettle (k w) = Some (w', t) →
    sched_step (w, ts) (w', <[i := t]> ts).

Definition pthread_guar (R : relation (pstate S C)) (t : pthread) : Prop :=
  match t with PThread_wait _ k => ∀ w, wguar R w (k w) | PThread_over => True end.

Lemma psettle_guar R w s w' t :
  wguar R w s → psettle s = Some (w', t) → R w w' ∧ pthread_guar R t.
Proof. destruct s; cbn; intros Hg Ht; simplify_eq; [done|by destruct Hg]. Qed.

Lemma sched_ind (R : relation (pstate S C)) (I : pstate S C → Prop) w0 st :
  (∀ w w', R w w' → I w → I w') → (∀ w e, event_ok w e → wguar R w (handle e w)) →
  I w0 → rtc sched_step (w0, []) st → I st.1.
Proof.
  intros HI Hev H0 Hr.
  enough (I st.1 ∧ Forall (pthread_guar R) st.2) by tauto.
  revert st Hr. apply (rtc_ind_r (λ st : pstate S C * list pthread, I st.1 ∧ Forall (pthread_guar R) st.2)).
  { by split. }
  intros y z _ Hstep [Hi Hts]. destruct Hstep as [v ts e w' t Hok Hh|v ts i c k w' t Hi' Hh].
  - apply (psettle_guar R v) in Hh as [HRw Ht]; [|by apply Hev]. split; [by eapply HI|].
    apply Forall_app. split; [done|]. by repeat constructor.
  - pose proof (Forall_lookup_1 _ _ _ _ Hts Hi') as Hk. cbn in Hk.
    apply (psettle_guar R v) in Hh as [HRw Ht]; [|by apply Hk]. split; [by eapply HI|].
    by apply Forall_insert.
Qed.

(** A given schedule, executed: an event starts its thread, [Resume i] lets
    thread [i] go on once its condition holds. *)
Inductive action := Event (e : E) | Resume (i : nat).

Definition play_one (st : pstate S C * list pthread) (a : action) : option (pstate S C * list pthread) :=
  match a with
  | Event e => '(w', t) ← psettle (handle e st.1); Some (w', st.2 ++ [t])
  | Resume i =>
      match st.2 !! i with
      | Some (PThread_wait c k) =>
          if c (p_data st.1) then '(w', t) ← psettle (k st.1); Some (w', <[i := t]> st.2) else None
      | _ => None
      end
  end.

Fixpoint play (script : list action) (st : pstate S C * list pthread) : option (pstate S C * list pthread) :=
  match script with
  | [] => Some st
  | a :: script => st ← play_one st a; play script st
  end.

Lemma play_event e script w ts w' t :
  psettle (handle e w) = Some (w', t) → play (Event e :: script) (w, ts) = play script (w', ts ++ [t]).
Proof. intros H. cbn. by rewrite H. Qed.

Lemma play_resume i script w ts c k w' t :
  ts !! i = Some (PThread_wait c k) → c (p_data w) = true → psettle (k w) = Some (w', t) →
  play (Resume i :: script) (w, ts) = play script (w', <[i := t]> ts).
Proof. intros H1 H2 H3. cbn. by rewrite H1, H2, H3. Qed.

(** What a schedule reaches, some interleaving reaches. *)
Lemma play_reach script st st' :
  Forall (λ a, match a with Event e => ∀ w, event_ok w e | Resume _ => True end) script →
  play script st = Some st' → rtc sched_step st st'.
Proof.
  intros Hok. revert st. induction Hok as [|a script Ha _ IH]; intros st H; cbn in H; [by simplify_eq|].
  destruct (play_one st a) as [st1|] eqn:E1; [|done]. eapply rtc_l; [|by apply IH].
  destruct st as [w ts], a as [e|i]; cbn in E1.
  - destruct (psettle (handle e w)) as [[w' t]|] eqn:Es; [|done]. simplify_eq/=. by eapply sched_event.
  - destruct (ts !! i) as [[|c k]|] eqn:Ei; [done| |done]. destruct (c (p_data w)); [|done].
    destruct (psettle (k w)) as [[w' t]|] eqn:Es; [|done]. simplify_eq/=. by eapply sched_resume.
Qed.

End Sched.
