(* ===== verification/OldClient.v ===== *)
(** * The older kernel client

    [Kernel_Level_RDMA_connection/client/rdma_client.c] and [rdma_client.h]:
    the kernel module the Octopus client grew out of.  It connects to the same
    memory server, asks for eight chunks, records them in its chunk table and
    waits to be unloaded; it has no block device.

    Unlike the later client it allocates its session, so the model keeps the
    pointer [rdma_session_global] with what it points at: nothing, a live
    session, or one that has been freed, whose use is a fault.  The buffers
    come from [kmalloc] and hold whatever was in memory ([kmalloc_junk]).
    [DEBUG_RDMA_CLIENT] is defined in the header, so the checks and calls it
    guards are part of the code. *)

From Stdlib Require Import Ascii String.
From S2P Require Import Prelude BitOps OctTypes Kernel Prog Names ChunkList.

(** ** Data *)

Inductive rdma_session_context_state :=
| IDLE | CONNECT_REQUEST | ADDR_RESOLVED | ROUTE_RESOLVED | CONNECTED
| FREE_MEM_RECV | AFTER_FREE_MEM | RDMA_BUF_ADV | WAIT_OPS | RECV_STOP
| RECV_EVICT | RDMA_WRITE_RUNNING | RDMA_READ_RUNNING | SEND_DONE | RDMA_DONE
| RDMA_READ_ADV | RDMA_WRITE_ADV | CM_DISCONNECT | ERROR | TEST_DONE.

#[export] Instance rdma_session_context_state_dec : EqDecision rdma_session_context_state.
Proof. solve_decision. Defined.

Definition state_code (s : rdma_session_context_state) : Z :=
  match s with
  | IDLE => 1 | CONNECT_REQUEST => 2 | ADDR_RESOLVED => 3 | ROUTE_RESOLVED => 4
  | CONNECTED => 5 | FREE_MEM_RECV => 6 | AFTER_FREE_MEM => 7
  | RDMA_BUF_ADV => 8 | WAIT_OPS => 9 | RECV_STOP => 10 | RECV_EVICT => 11
  | RDMA_WRITE_RUNNING => 12 | RDMA_READ_RUNNING => 13 | SEND_DONE => 14
  | RDMA_DONE => 15 | RDMA_READ_ADV => 16 | RDMA_WRITE_ADV => 17
  | CM_DISCONNECT => 18 | ERROR => 19 | TEST_DONE => 20
  end.

Definition state_lt (s t : rdma_session_context_state) : bool := state_code s <? state_code t.
Definition state_ge (s t : rdma_session_context_state) : bool := state_code t <=? state_code s.
Definition state_is (s t : rdma_session_context_state) : bool := bool_decide (s = t).

Record rdma_session_context := mkOldSession {
  os_cm_id : kptr;
  os_cq : kptr;
  os_pd : kptr;
  os_qp : kptr;
  os_port : Z;
  os_addr : Z;
  os_addr_type : Z;
  os_txdepth : Z;
  os_state : rdma_session_context_state;
  os_rq_num_sge : Z;           (* rq_wr, bound to recv_sgl *)
  os_recv_sgl : ib_sge;
  os_recv_buf : cptr message;
  os_recv_dma_addr : Z;
  os_sq_opcode : ib_opcode;    (* sq_wr, bound to send_sgl *)
  os_sq_num_sge : Z;
  os_send_sgl : ib_sge;
  os_send_buf : cptr message;
  os_send_dma_addr : Z;
  os_dma_mr : kptr;
  os_mem : option mem_type;
  os_local_dma_lkey : Z;
  os_chunks : remote_mapping_chunk_list
}.
#[export] Instance rdma_session_context_eta : Eta rdma_session_context :=
  λ r, mkOldSession (os_cm_id r) (os_cq r) (os_pd r) (os_qp r) (os_port r) (os_addr r) (os_addr_type r)
    (os_txdepth r) (os_state r) (os_rq_num_sge r) (os_recv_sgl r) (os_recv_buf r) (os_recv_dma_addr r)
    (os_sq_opcode r) (os_sq_num_sge r) (os_send_sgl r) (os_send_buf r) (os_send_dma_addr r)
    (os_dma_mr r) (os_mem r) (os_local_dma_lkey r) (os_chunks r).

(** What [kzalloc] gives.  Zero is no state; [IDLE] stands for it, and is
    assigned before the state is first read. *)
Definition zero_session : rdma_session_context :=
  mkOldSession KNull KNull KNull KNull 0 0 0 0 IDLE 0 (mkSge 0 0 0) None 0 IB_WR_NONE 0
    (mkSge 0 0 0) None 0 KNull None 0 (mkChunkList None 0 0 0).

(** The pointer [rdma_session_global]. *)
Inductive session_ptr :=
| SNull
| SLive (a : Z) (s : rdma_session_context)
| SFreed (a : Z).

Record old_data := mkOldData {
  rdma_session_global : session_ptr;
  CHUNK_INDEX_OFSSET : Z       (* static uint64_t *)
}.
#[export] Instance old_data_eta : Eta old_data :=
  λ r, mkOldData (rdma_session_global r) (CHUNK_INDEX_OFSSET r).

Definition old_data0 : old_data := mkOldData SNull 0.

(** What the code depends on besides the kernel: the size of its session and
    the contents of memory from [kmalloc]. *)
Class old_params := {
  sizeof_session : Z;
  kmalloc_junk : list kcall → message
}.

Definition EINTR : Z := 4.
Definition AF_INET : Z := 2.
Definition server_port : Z := 47140.         (* htons(9400) *)
Definition server_addr : Z := 0x0200000A.    (* "10.0.0.2" *)
Definition GB_OFFSET : Z := 30.

Abbreviation KP := (prog old_data kcall).
Abbreviation KW := (wprog old_data kcall).

(** ** Operations *)

Section Ops.
Context {K : kernel} {O : old_params}.

(** Access through the session pointer. *)
Definition sess {A} (f : rdma_session_context → A) : KP A :=
  g ← data rdma_session_global;
  match g with
  | SLive _ s => mret (f s)
  | SNull => crash NullDeref
  | SFreed _ => crash UseAfterFree
  end.
Definition set_sess (f : rdma_session_context → rdma_session_context) : KP unit :=
  g ← data rdma_session_global;
  match g with
  | SLive a s => update (λ d, d <| rdma_session_global := SLive a (f s) |>)
  | SNull => crash NullDeref
  | SFreed _ => crash UseAfterFree
  end.
Definition set_state (st : rdma_session_context_state) : KP unit :=
  set_sess (λ s, s <| os_state := st |>).
Definition wake_up : KP unit := tell K_wake_up.

(** [wait_event_interruptible(rdma_session->sem, ...)]. *)
Definition wait_state (c : rdma_session_context_state → bool) : KW unit :=
  wait (λ d, match rdma_session_global d with SLive _ s => c (os_state s) | _ => false end).

Definition kzalloc {A} (size : Z) (init : A) : KP (cptr A) :=
  p ← ask k_ptr (K_kzalloc size);
  mret (match p with KPtr a => Some (a, init) | _ => None end).

(** *** Names *)

Definition message_text (id : Z) : string :=
  match id with
  | 1 => "DONE" | 2 => "GOT_CHUNKS" | 3 => "GOT_SINGLE_CHUNK" | 4 => "FREE_SIZE" | 5 => "EVICT"
  | 6 => "ACTIVITY" | 7 => "STOP" | 8 => "REQUEST_CHUNKS" | 9 => "REQUEST_SINGLE_CHUNK" | 10 => "QUERY"
  | _ => "ERROR Message Type"
  end.

Definition session_state_text (id : Z) : string :=
  match id with
  | 1 => "IDLE" | 2 => "CONNECT_REQUEST" | 3 => "ADDR_RESOLVED" | 4 => "ROUTE_RESOLVED"
  | 5 => "CONNECTED" | 6 => "FREE_MEM_RECV" | 7 => "AFTER_FREE_MEM" | 8 => "RDMA_BUF_ADV"
  | 9 => "WAIT_OPS" | 10 => "RECV_STOP" | 11 => "RECV_EVICT" | 12 => "RDMA_WRITE_RUNNING"
  | 13 => "RDMA_READ_RUNNING" | 14 => "SEND_DONE" | 15 => "RDMA_DONE" | 16 => "RDMA_READ_ADV"
  | 17 => "RDMA_WRITE_ADV" | 18 => "CM_DISCONNECT" | 19 => "ERROR" | _ => "Un-defined state."
  end.

(** [kzalloc(32)] and [strcpy] of a literal, which must fit. *)
Definition name_buffer (name : string) : KP (Z * list ascii) :=
  p ← kzalloc 32 (replicate 32 Ascii.zero);
  b ← nonnull p;
  if decide (length (c_str name) <= 32)%nat then mret (b.1, overwrite (c_str name) b.2)
  else crash OutOfBounds.

Definition rdma_message_print (message_id : Z) : KP (Z * list ascii) := name_buffer (message_text message_id).
Definition rdma_session_context_state_print (id : Z) : KP (Z * list ascii) := name_buffer (session_state_text id).

(** *** Connection-manager events *)

Definition octopus_rdma_cm_event_handler (uninit : Z) (event : rdma_cm_event) : KP Z :=
  _ ← sess os_cm_id;                       (* printed *)
  match event with
  | RDMA_CM_EVENT_ADDR_RESOLVED =>
      set_state ADDR_RESOLVED;; ask k_int (K_rdma_resolve_route 2000)
  | RDMA_CM_EVENT_ROUTE_RESOLVED => set_state ROUTE_RESOLVED;; wake_up;; mret uninit
  | RDMA_CM_EVENT_CONNECT_REQUEST => set_state CONNECT_REQUEST;; mret uninit
  | RDMA_CM_EVENT_ESTABLISHED => set_state CONNECTED;; wake_up;; mret uninit
  | RDMA_CM_EVENT_ADDR_ERROR | RDMA_CM_EVENT_ROUTE_ERROR | RDMA_CM_EVENT_CONNECT_ERROR
  | RDMA_CM_EVENT_UNREACHABLE | RDMA_CM_EVENT_REJECTED =>
      set_state ERROR;; wake_up;; mret uninit
  | RDMA_CM_EVENT_DISCONNECTED => set_state CM_DISCONNECT;; wake_up;; mret uninit
  | RDMA_CM_EVENT_DEVICE_REMOVAL => mret (-1)
  | RDMA_CM_EVENT_CONNECT_RESPONSE | RDMA_CM_EVENT_MULTICAST_JOIN | RDMA_CM_EVENT_MULTICAST_ERROR
  | RDMA_CM_EVENT_ADDR_CHANGE | RDMA_CM_EVENT_TIMEWAIT_EXIT => wake_up;; mret uninit
  end.

Definition rdma_resolve_ip_to_ib_device : KW Z :=
  s ← wlift (sess id);
  ret ← wlift (ask k_int (K_rdma_resolve_addr (os_addr s) (os_port s) 2000));
  if negb (ret =? 0) then mret ret
  else
    wait_state (λ st, state_ge st ROUTE_RESOLVED);;
    st ← wlift (sess os_state);
    if negb (state_is st ROUTE_RESOLVED) then mret (- EINTR) else mret ret.

(** *** Queues and buffers *)

Definition octopus_create_qp : KP Z :=
  depth ← sess os_txdepth;
  ret ← ask k_int (K_rdma_create_qp depth depth);
  (if ret =? 0 then set_sess (λ s, s <| os_qp := k_qp |>) else mret tt);;
  mret ret.

Definition octopus_create_rdma_queues : KP Z :=
  _ ← (id ← sess os_cm_id; valid id);      (* cm_id->device *)
  p ← ask k_ptr K_ib_alloc_pd;
  set_sess (λ s, s <| os_pd := p |>);;
  if IS_ERR p then mret (PTR_ERR p)
  else
    depth ← sess os_txdepth;
    c ← ask k_ptr (K_ib_create_cq (i32 (depth * 2)));
    set_sess (λ s, s <| os_cq := c |>);;
    if IS_ERR c then mret (PTR_ERR c)
    else octopus_create_qp.

(** The [lkey] of a message segment: the session's own flag decides. *)
Definition message_lkey (set : Z → KP unit) : KP unit :=
  s ← sess id;
  if negb (os_local_dma_lkey s =? 0) then _ ← valid (os_qp s); set k_local_dma_lkey
  else if bool_decide (os_mem s = Some DMA) then _ ← valid (os_dma_mr s); set k_mr_lkey
  else mret tt.

Definition octopus_setup_message_wr : KP unit :=
  set_sess (λ s, s <| os_recv_sgl ::= λ g, g <| sge_addr := os_recv_dma_addr s |>
                                             <| sge_length := sizeof_message |> |>);;
  message_lkey (λ k, set_sess (λ s, s <| os_recv_sgl ::= λ g, g <| sge_lkey := k |> |>));;
  set_sess (λ s, s <| os_rq_num_sge := 1 |>);;
  set_sess (λ s, s <| os_send_sgl ::= λ g, g <| sge_addr := os_send_dma_addr s |>
                                             <| sge_length := sizeof_message |> |>);;
  message_lkey (λ k, set_sess (λ s, s <| os_send_sgl ::= λ g, g <| sge_lkey := k |> |>));;
  set_sess (λ s, s <| os_sq_opcode := IB_WR_SEND |> <| os_sq_num_sge := 1 |>).

Definition kmalloc_message : KP (cptr message) := λ w,
  let p := k_ptr (p_calls w) (K_kmalloc sizeof_message) in
  let w' := mkPstate (p_data w) (p_calls w ++ [K_kmalloc sizeof_message]) in
  Done (match p with KPtr a => Some (a, kmalloc_junk (p_calls w)) | _ => None end) w'.

Definition buf_addr {A} (p : cptr A) : Z := match p with Some (a, _) => a | None => 0 end.

Definition octopus_setup_buffers (uninit : Z) : KP Z :=
  rb ← kmalloc_message;
  set_sess (λ s, s <| os_recv_buf := rb |>);;
  sb ← kmalloc_message;
  set_sess (λ s, s <| os_send_buf := sb |>);;
  set_sess (λ s, s <| os_mem := Some DMA |>);;
  _ ← (p ← sess os_pd; valid p);           (* pd->device *)
  a ← ask k_int (K_ib_dma_map_single (buf_addr rb) sizeof_message);
  set_sess (λ s, s <| os_recv_dma_addr := u64 a |>);;
  a ← ask k_int (K_ib_dma_map_single (buf_addr sb) sizeof_message);
  set_sess (λ s, s <| os_send_dma_addr := u64 a |>);;
  mr ← ask k_ptr K_get_dma_mr;
  set_sess (λ s, s <| os_dma_mr := mr |>);;
  if IS_ERR mr then mret (PTR_ERR mr)      (* an error pointer is not deregistered *)
  else octopus_setup_message_wr;; mret uninit.

Definition octopus_connect_remote_memory_server : KW Z :=
  ret ← wlift (ask k_int (K_rdma_connect 1 1 10));
  if negb (ret =? 0) then mret ret
  else
    wait_state (λ st, state_ge st CONNECTED);;
    st ← wlift (sess os_state);
    if state_is st ERROR then mret ret else mret ret.

(** *** The chunk table *)

Definition set_chunks (f : remote_mapping_chunk_list → remote_mapping_chunk_list) : KP unit :=
  set_sess (λ s, s <| os_chunks ::= f |>).

(** [remote_chunk_list.remote_chunk[i] = c]. *)
Definition set_chunk (i : Z) (c : remote_mapping_chunk) : KP unit :=
  cl ← sess os_chunks;
  p ← nonnull (remote_chunk cl);
  l ← inside (arr_set p.2 i c);
  set_chunks (λ cl, cl <| remote_chunk := Some (p.1, l) |>).

Definition init_remote_chunk_list (uninit : Z) : KP Z :=
  shift ← (match power_of_2 CHUNK_SIZE_GB with Some p => mret p | None => crash Spin end);
  update (λ d, d <| CHUNK_INDEX_OFSSET := u64 (GB_OFFSET + shift) |>);;
  cl ← sess os_chunks;
  let tmp_chunk_num := u32 (remote_free_size_gb cl / CHUNK_SIZE_GB) in
  set_chunks (λ cl, cl <| chunk_ptr := 0 |>);;
  set_chunks (λ cl, cl <| chunk_num := tmp_chunk_num |>);;
  p ← kzalloc (u64 (sizeof_chunk * tmp_chunk_num)) (replicate (Z.to_nat tmp_chunk_num) zero_chunk);
  set_chunks (λ cl, cl <| remote_chunk := p |>);;
  pfor (Z.to_nat tmp_chunk_num) 0 (λ i, set_chunk i (mkChunk 0 0 EMPTY);; mret true);;
  mret uninit.

(** One pass of the loop: the test that the table is full comes after the
    entry has been stored. *)
Definition bind_body (i : Z) : KP bool :=
  s ← sess id;
  m ← nonnull (os_recv_buf s);
  rkey ← inside (arr_get (msg_rkey m.2) i);
  (if negb (rkey =? 0) then
     buf ← inside (arr_get (msg_buf m.2) i);
     set_chunk (chunk_ptr (os_chunks s)) (mkChunk (ntohl rkey) (ntohll buf) MAPPED);;
     set_chunks (λ cl, cl <| chunk_ptr ::= λ p, u32 (p + 1) |>)
   else mret tt);;
  cl ← sess os_chunks;
  mret (negb (chunk_num cl <=? chunk_ptr cl)).

Definition bind_remote_memory_chunks : KP unit := pfor (Z.to_nat MAX_CHUNKS) 0 bind_body.

(** *** Two-sided messages *)

Definition send_message_to_remote (messge_type size_gb : Z) : KP Z :=
  p ← sess os_send_buf;
  m ← nonnull p;
  set_sess (λ s, s <| os_send_buf := Some (m.1, m.2 <| msg_type := messge_type |>) |>);;
  set_sess (λ s, s <| os_send_buf := Some (m.1, m.2 <| msg_type := messge_type |>
                                                    <| msg_size_gb := size_gb |>) |>);;
  _ ← rdma_message_print messge_type;
  _ ← (q ← sess os_qp; valid q);
  sge ← sess os_send_sgl;
  p ← sess os_send_buf;
  m ← nonnull p;
  ask k_int (K_ib_post_send_msg sge m.2).

(** The chunks of a single-chunk message are only printed. *)
Definition print_chunk (i : Z) : KP bool :=
  p ← sess os_recv_buf;
  m ← nonnull p;
  rkey ← inside (arr_get (msg_rkey m.2) i);
  (if negb (rkey =? 0) then _ ← inside (arr_get (msg_buf m.2) i); mret tt else mret tt);;
  mret true.

Definition handle_recv_wr (uninit : Z) (wc : ib_wc) : KP Z :=
  if negb (wc_byte_len wc =? sizeof_message) then mret (-1)
  else
    st ← sess os_state;
    if state_lt st CONNECTED then mret (-1)
    else
      p ← sess os_recv_buf;
      m ← nonnull p;
      _ ← rdma_message_print (msg_type m.2);
      match message_type_of_code (msg_type m.2) with
      | Some FREE_SIZE =>
          set_chunks (λ cl, cl <| remote_free_size_gb := u32 (msg_size_gb m.2) |>);;
          set_state FREE_MEM_RECV;;
          _ ← init_remote_chunk_list uninit;
          wake_up;;
          mret 0
      | Some GOT_CHUNKS =>
          bind_remote_memory_chunks;;
          set_state TEST_DONE;;
          wake_up;;
          mret 0
      | Some GOT_SINGLE_CHUNK =>
          pfor (Z.to_nat MAX_CHUNKS) 0 print_chunk;;
          set_state TEST_DONE;;
          wake_up;;
          mret 0
      | Some EVICT => set_state RECV_EVICT;; mret 0
      | Some STOP => set_state RECV_STOP;; mret 0
      | _ => mret (-1)
      end.

Definition post_recv_wr : KP Z :=
  _ ← (q ← sess os_qp; valid q);
  sge ← sess os_recv_sgl;
  ask k_int (K_ib_post_recv sge).

Definition octupos_requset_for_chunk (num_chunk : Z) : KP Z :=
  if num_chunk =? 0 then mret 0
  else
    ret ← post_recv_wr;
    if negb (ret =? 0) then mret ret
    else
      send_message_to_remote
        (if num_chunk =? 1 then message_type_code REQUEST_SINGLE_CHUNK
         else message_type_code REQUEST_CHUNKS) (i32 (num_chunk * CHUNK_SIZE_GB)).

(** *** Completions *)

(** One completion is polled; [None]: [ib_poll_cq] does not give one.  The
    HCA has put a received message into the receive buffer. *)
Definition handle_wc (uninit : Z) (wc : ib_wc) : KP bool :=
  (match wc_data wc with
   | Some m => set_sess (λ s, s <| os_recv_buf ::= fmap (λ p, (p.1, m)) |>)
   | None => mret tt
   end);;
  if negb (wc_status wc =? 0) then mret false
  else
    ok ← (match wc_opcode wc with
          | IB_WC_RECV => ret ← handle_recv_wr uninit wc; mret (ret =? 0)
          | IB_WC_SEND | IB_WC_RDMA_READ | IB_WC_RDMA_WRITE => mret true
          | IB_WC_OTHER => mret false
          end);
    if ok : bool then
      c ← sess os_cq;
      ret ← ask k_int (K_ib_req_notify_cq c);
      mret (ret =? 0)
    else mret false.

Definition octopus_cq_event_handler (uninit : Z) (ev_cq : kptr) (wc : option ib_wc) : KP unit :=
  s ← sess id;
  if bool_decide (os_cq s ≠ ev_cq) then crash BugOn
  else if state_is (os_state s) ERROR then mret tt
  else
    ok ← (match wc with Some wc => handle_wc uninit wc | None => mret false end);
    if ok : bool then mret tt else set_state ERROR.

(** *** Connecting *)

Definition connect_init : KP unit :=
  p ← kzalloc sizeof_session zero_session;
  update (λ d, d <| rdma_session_global := match p with Some (a, s) => SLive a s | None => SNull end |>);;
  id ← ask k_ptr K_rdma_create_id;
  set_sess (λ s, s <| os_cm_id := id |>);;
  set_state IDLE;;
  set_sess (λ s, s <| os_txdepth := i32 (RDMA_READ_WRITE_QUEUE_DEPTH * k_num_online_cpus + 1) |>);;
  set_sess (λ s, s <| os_port := server_port |>);;
  ret ← ask k_int K_in4_pton;
  (if ret =? 0 then mret tt else set_sess (λ s, s <| os_addr := server_addr |>));;
  set_sess (λ s, s <| os_addr_type := AF_INET |>).

(** Steps 3) to 5a): all three results are printed or dropped. *)
Definition connect_setup (uninit : Z) : KP unit :=
  _ ← octopus_create_rdma_queues;
  _ ← octopus_setup_buffers uninit;
  _ ← post_recv_wr;
  mret tt.

Definition connect_notify : KP Z :=
  c ← sess os_cq;
  _ ← valid c;
  ask k_int (K_ib_req_notify_cq c).

Definition octopus_RDMA_connect (uninit : Z) : KW Z :=
  wlift connect_init;;
  ret ← rdma_resolve_ip_to_ib_device;
  if negb (ret =? 0) then mret ret
  else
    wlift (connect_setup uninit);;
    _ ← octopus_connect_remote_memory_server;     (* an error is only printed *)
    ret ← wlift connect_notify;
    if negb (ret =? 0) then mret ret
    else
      wait_state (λ st, state_is st FREE_MEM_RECV);;
      ret ← wlift (octupos_requset_for_chunk 8);
      if negb (ret =? 0) then mret ret
      else
        wait_state (λ st, state_is st TEST_DONE);;
        mret ret.

(** *** Freeing *)

Definition free_ptr {A} (p : cptr A) : KP unit :=
  match p with Some b => tell (K_kfree b.1) | None => mret tt end.

Definition octopus_free_buffers : KP unit :=
  s ← sess id;
  free_ptr (os_recv_buf s);;
  free_ptr (os_send_buf s);;
  free_ptr (remote_chunk (os_chunks s)).

Definition destroy_if (p : kptr) (c : kptr → kcall) : KP unit :=
  if bool_decide (p ≠ KNull) then tell (c p) else mret tt.

Definition octopus_free_rdma_structure : KP unit :=
  s ← sess id;
  destroy_if (os_cm_id s) K_rdma_destroy_id;;
  destroy_if (os_qp s) K_ib_destroy_qp;;
  destroy_if (os_cq s) K_ib_destroy_cq;;
  destroy_if (os_pd s) K_ib_dealloc_pd.

(** [kfree(rdma_session)]. *)
Definition free_session : KP unit :=
  g ← data rdma_session_global;
  match g with
  | SLive a _ => tell (K_kfree a);; update (λ d, d <| rdma_session_global := SFreed a |>)
  | SNull => mret tt
  | SFreed _ => crash UseAfterFree
  end.

Definition octopus_disconenct_and_collect_resource (uninit : Z) : KW Z :=
  s ← wlift (sess id);
  ret ← (if negb (state_is (os_state s) CM_DISCONNECT) then
           ret ← wlift (ask k_int (K_rdma_disconnect (os_cm_id s)));
           wait_state (λ st, state_is st CM_DISCONNECT);;
           mret ret
         else mret uninit);
  wlift octopus_free_buffers;;
  wlift octopus_free_rdma_structure;;
  wlift free_session;;
  mret ret.

(** *** Module entry and exit *)

Definition octopus_rdma_client_init_module (uninit : Z) : KW Z :=
  _ ← octopus_RDMA_connect uninit; mret 0.

Definition octopus_rdma_client_cleanup_module (uninit : Z) : KW unit :=
  _ ← octopus_disconenct_and_collect_resource uninit; mret tt.

End Ops.

(** ** Lemmas *)

(** A world with a live session at [a]. *)
Definition live (a : Z) (s : rdma_session_context) (off : Z) (cs : list kcall) : pstate old_data kcall :=
  mkPstate (mkOldData (SLive a s) off) cs.
Definition live_cl (a : Z) (s : rdma_session_context) (cl : remote_mapping_chunk_list) (off : Z)
    (cs : list kcall) : pstate old_data kcall := live a (s <| os_chunks := cl |>) off cs.

Lemma live_cl_id a s off cs : live_cl a s (os_chunks s) off cs = live a s off cs.
Proof. by destruct s. Qed.

Lemma live_eq w a s :
  rdma_session_global (p_data w) = SLive a s → w = live a s (CHUNK_INDEX_OFSSET (p_data w)) (p_calls w).
Proof. destruct w as [[g off] cs]. cbn. by intros ->. Qed.

Lemma arr_get_0 {A} (l : list A) : arr_get l 0 = l !! 0%nat.
Proof. apply (arr_get_lookup l 0). Qed.

Lemma old_set_chunk_ok i c a s cl off cs ta l :
  remote_chunk cl = Some (ta, l) → 0 <= i < Z.of_nat (length l) →
  set_chunk i c (live_cl a s cl off cs) =
  Done tt (live_cl a s (cl <| remote_chunk := Some (ta, <[Z.to_nat i := c]> l) |>) off cs).
Proof.
  intros Hr Hi. unfold set_chunk. gstep. cbn -[mbind]. rewrite Hr. gstep. cbn -[mbind].
  rewrite arr_set_Some by done. gstep. reflexivity.
Qed.

Lemma old_set_chunk_outside i c a s cl off cs ta l :
  remote_chunk cl = Some (ta, l) → ¬ 0 <= i < Z.of_nat (length l) →
  set_chunk i c (live_cl a s cl off cs) = Fault OutOfBounds.
Proof.
  intros Hr Hi. unfold set_chunk. gstep. cbn -[mbind]. rewrite Hr. gstep. cbn -[mbind].
  unfold arr_set. rewrite decide_False by done. reflexivity.
Qed.

(** One pass, while there is room. *)
Lemma old_bind_body_room (i : nat) a s cl off cs ta l am m b k :
  os_recv_buf s = Some (am, m) → remote_chunk cl = Some (ta, l) →
  0 <= chunk_ptr cl < chunk_num cl → chunk_num cl < 2 ^ 32 → chunk_num cl <= Z.of_nat (length l) →
  msg_buf m !! i = Some b → msg_rkey m !! i = Some k →
  let cl' := store_entry (entry (b, k)) ta l cl in
  bind_body (Z.of_nat i) (live_cl a s cl off cs) =
  Done (negb (chunk_num cl' <=? chunk_ptr cl')) (live_cl a s cl' off cs).
Proof.
  intros Hm Hr Hp Hn Hl Hb Hk. unfold bind_body. gstep. cbn -[mbind Z.leb]. rewrite Hm. gstep. cbn -[mbind Z.leb].
  rewrite (arr_get_lookup (msg_rkey m)), Hk. gstep.
  unfold entry. cbn [fst snd]. destruct (Z.eqb_spec k 0); cbn [negb]; [gstep; gstep; reflexivity|].
  rewrite (arr_get_lookup (msg_buf m)), Hb.
  erewrite prog_bind_step.
  2:{ gstep. erewrite prog_bind_step by (eapply old_set_chunk_ok; [done|lia]). reflexivity. }
  gstep. unfold store_entry. rewrite <- (u32_id (chunk_ptr cl + 1)) by lia. reflexivity.
Qed.

(** One pass on a full table. *)
Lemma old_bind_body_full (i : nat) a s cl off cs ta l am m b k :
  os_recv_buf s = Some (am, m) → remote_chunk cl = Some (ta, l) →
  chunk_num cl <= chunk_ptr cl → Z.of_nat (length l) <= chunk_ptr cl →
  msg_buf m !! i = Some b → msg_rkey m !! i = Some k →
  bind_body (Z.of_nat i) (live_cl a s cl off cs) =
  if k =? 0 then Done false (live_cl a s cl off cs) else Fault OutOfBounds.
Proof.
  intros Hm Hr Hp Hl Hb Hk. unfold bind_body. gstep. cbn -[mbind Z.leb]. rewrite Hm. gstep. cbn -[mbind Z.leb].
  rewrite (arr_get_lookup (msg_rkey m)), Hk. gstep. destruct (Z.eqb_spec k 0); cbn [negb].
  - gstep. gstep. cbn -[Z.leb]. by destruct (Z.leb_spec (chunk_num cl) (chunk_ptr cl)); [|lia].
  - rewrite (arr_get_lookup (msg_buf m)), Hb. apply prog_bind_fault. gstep.
    erewrite prog_bind_fault; [done|]. eapply old_set_chunk_outside; [done|lia].
Qed.

Lemma old_bind_loop a s off cs ta am m : ∀ (n i : nat) cl l,
  os_recv_buf s = Some (am, m) →
  length (msg_buf m) = (i + n)%nat → length (msg_rkey m) = (i + n)%nat →
  remote_chunk cl = Some (ta, l) →
  0 <= chunk_ptr cl < chunk_num cl → chunk_num cl < 2 ^ 32 → chunk_num cl <= Z.of_nat (length l) →
  pfor n (Z.of_nat i) bind_body (live_cl a s cl off cs) =
  Done tt (live_cl a s (fill_chunks (omap entry (drop i (zip (msg_buf m) (msg_rkey m)))) cl) off cs).
Proof.
  induction n as [|n IH]; intros i cl l Hm Hb Hk Hr Hp Hn Hl.
  { rewrite drop_ge by (rewrite length_zip_with; lia). cbn [omap]. by erewrite fill_chunks_nil. }
  destruct (lookup_lt_is_Some_2 (msg_buf m) i) as [b Hbi]; [lia|].
  destruct (lookup_lt_is_Some_2 (msg_rkey m) i) as [k Hki]; [lia|].
  pose proof (old_bind_body_room i a s cl off cs ta l am m b k Hm Hr Hp Hn Hl Hbi Hki) as Hbody.
  assert (zip (msg_buf m) (msg_rkey m) !! i = Some (b, k)) as Hz.
  { apply lookup_zip_with_Some. eauto. }
  rewrite (drop_S _ _ _ Hz). cbn [omap list_omap].
  assert (Hgo : ∀ cl' l', store_entry (entry (b, k)) ta l cl = cl' → remote_chunk cl' = Some (ta, l') →
    0 <= chunk_ptr cl' <= chunk_num cl' → chunk_num cl' < 2 ^ 32 → chunk_num cl' <= Z.of_nat (length l') →
    pfor (S n) (Z.of_nat i) bind_body (live_cl a s cl off cs) =
    Done tt (live_cl a s (fill_chunks (omap entry (drop (S i) (zip (msg_buf m) (msg_rkey m)))) cl') off cs)).
  { intros cl' l' Hs Hr' Hp' Hn' Hl'. cbv zeta in Hbody. rewrite Hs in Hbody.
    destruct (Z.leb_spec (chunk_num cl') (chunk_ptr cl')); cbn [negb] in Hbody.
    - rewrite (pfor_break _ _ _ _ _ Hbody). by erewrite fill_chunks_full.
    - rewrite (pfor_go _ _ _ _ _ Hbody). replace (Z.of_nat i + 1) with (Z.of_nat (S i)) by lia.
      eapply IH; [done|lia|lia|done|lia|lia|lia]. }
  destruct (entry (b, k)) as [c|] eqn:Ee; cbn [store_entry] in Hgo.
  - erewrite fill_chunks_cons by (done || lia).
    eapply Hgo; [done|done|cbn; lia|cbn; lia|cbn; rewrite length_insert; lia].
  - eapply (Hgo _ l); [reflexivity|done|lia|lia|lia].
Qed.

(** The table of a session: the whole array is below [chunk_num]. *)
Definition wf_table (cl : remote_mapping_chunk_list) : Prop :=
  wf_chunks cl ∧ ∀ a l, remote_chunk cl = Some (a, l) → Z.of_nat (length l) = chunk_num cl.

Lemma old_bind_run a s off cs am m :
  os_recv_buf s = Some (am, m) → wf_message m → wf_table (os_chunks s) →
  let cl := os_chunks s in
  (chunk_ptr cl < chunk_num cl →
   bind_remote_memory_chunks (live a s off cs) = Done tt (live_cl a s (fill_chunks (received m) cl) off cs)) ∧
  (chunk_ptr cl = chunk_num cl →
   bind_remote_memory_chunks (live a s off cs) =
   if bool_decide (msg_rkey m !! 0%nat = Some 0) then Done tt (live a s off cs) else Fault OutOfBounds).
Proof.
  intros Hm [Hb Hk] [(Hp & Hn & ta & l & Hr & Hl & _) Hlen] cl. specialize (Hlen _ _ Hr).
  rewrite <- (live_cl_id a s off cs). unfold bind_remote_memory_chunks. split; intros Hc.
  - subst cl. apply (old_bind_loop a s off cs ta am m 32 0 (os_chunks s) l); (done || lia).
  - destruct (lookup_lt_is_Some_2 (msg_buf m) 0) as [b Hbi]; [lia|].
    destruct (lookup_lt_is_Some_2 (msg_rkey m) 0) as [k Hki]; [lia|].
    pose proof (old_bind_body_full 0 a s cl off cs ta l am m b k Hm Hr) as Hbody.
    change (Z.to_nat MAX_CHUNKS) with (S 31). rewrite Hki. subst cl.
    destruct (Z.eqb_spec k 0) as [->|Hne].
    + rewrite bool_decide_true by done. erewrite pfor_break; [done|]. apply Hbody; [lia|lia|done|done].
    + rewrite bool_decide_false by congruence. apply pfor_fault. apply Hbody; [lia|lia|done|done].
Qed.

Section Runs.
Context {K : kernel} {O : old_params}.

(** The table's size and the call that allocates it. *)
Definition table_size (s : rdma_session_context) : Z := u32 (remote_free_size_gb (os_chunks s) / CHUNK_SIZE_GB).
Definition table_call (s : rdma_session_context) : kcall := K_kzalloc (u64 (sizeof_chunk * table_size s)).
Definition new_table (s : rdma_session_context) (p : cptr (list remote_mapping_chunk)) : remote_mapping_chunk_list :=
  mkChunkList p (remote_free_size_gb (os_chunks s)) (table_size s) 0.
Definition empty_chunks (s : rdma_session_context) : list remote_mapping_chunk :=
  replicate (Z.to_nat (table_size s)) zero_chunk.

Lemma table_size_range s : 0 <= table_size s < 2 ^ 32.
Proof. apply u32_range. Qed.

Lemma old_zero_loop a s off cs ta f m N : ∀ n (i : nat),
  (i + n <= m)%nat →
  let w := live_cl a s (mkChunkList (Some (ta, replicate m zero_chunk)) f N 0) off cs in
  pfor n (Z.of_nat i) (λ i, set_chunk i (mkChunk 0 0 EMPTY);; mret true) w = Done tt w.
Proof.
  induction n as [|n IH]; intros i Hi w; [done|].
  erewrite pfor_go.
  2:{ erewrite prog_bind_step by (eapply old_set_chunk_ok; [done|]; rewrite length_replicate; lia).
      rewrite Nat2Z.id. change (mkChunk 0 0 EMPTY) with zero_chunk.
      rewrite list_insert_id by (apply lookup_replicate_2; lia). reflexivity. }
  replace (Z.of_nat i + 1) with (Z.of_nat (S i)) by lia. apply IH. lia.
Qed.

Lemma old_init_run u a s off cs :
  init_remote_chunk_list u (live a s off cs) =
  let cs' := cs ++ [table_call s] in
  match k_ptr cs (table_call s) with
  | KPtr ta => Done u (live_cl a s (new_table s (Some (ta, empty_chunks s))) 30 cs')
  | _ => if decide (table_size s = 0) then Done u (live_cl a s (new_table s None) 30 cs') else Fault NullDeref
  end.
Proof.
  set (p := match k_ptr cs (table_call s) with KPtr ta => Some (ta, empty_chunks s) | _ => None end).
  transitivity ((pfor (Z.to_nat (table_size s)) 0 (λ i, set_chunk i (mkChunk 0 0 EMPTY);; mret true);; mret u)
    (live_cl a s (new_table s p) 30 (cs ++ [table_call s]))); [reflexivity|].
  pose proof (table_size_range s) as Hr. subst p. destruct (k_ptr cs (table_call s)) as [|ta|e].
  2:{ erewrite prog_bind_step; [reflexivity|]. apply (old_zero_loop a s 30 _ ta _ _ _ _ 0). lia. }
  all: case_decide as Hz; [by rewrite Hz|].
  all: destruct (Z.to_nat (table_size s)) as [|n] eqn:En; [lia|].
  all: apply prog_bind_fault, pfor_fault, prog_bind_fault; reflexivity.
Qed.

Lemma empty_table_wf n ta f :
  0 <= n < 2 ^ 32 → wf_table (mkChunkList (Some (ta, replicate (Z.to_nat n) zero_chunk)) f n 0).
Proof.
  intros Hr. split.
  - split; [cbn; lia|]. split; [cbn; lia|]. eexists _, _. split; [reflexivity|]. cbn [chunk_num chunk_ptr].
    rewrite length_replicate. split; [lia|]. intros i c [-> _]%lookup_replicate. cbn. split; [done|lia].
  - intros a l [= <- <-]. rewrite length_replicate. cbn. lia.
Qed.

Lemma new_table_wf s ta : wf_table (new_table s (Some (ta, empty_chunks s))).
Proof. apply empty_table_wf, table_size_range. Qed.

Lemma fill_wf new cl :
  wf_table cl → Forall (λ c, chunk_state c = MAPPED) new → wf_table (fill_chunks new cl).
Proof.
  intros [Hwf Hlen] Hnew. pose proof (append_wf new cl Hwf Hnew) as (Hp & Hn & a & l & Hr & Hl & Hi).
  destruct Hwf as (Hp0 & Hn0 & a0 & l0 & Hr0 & Hl0 & _). specialize (Hlen _ _ Hr0).
  unfold append_chunks in *. unfold fill_chunks in *. rewrite Hr0 in *. cbn in *. simplify_eq.
  assert (length (take (Z.to_nat (chunk_num cl) - Z.to_nat (chunk_ptr cl)) new) <=
    Z.to_nat (chunk_num cl) - Z.to_nat (chunk_ptr cl))%nat by (rewrite length_take; lia).
  split.
  - split; [cbn; lia|]. split; [cbn; lia|]. eexists _, _. split; [reflexivity|]. split; [|exact Hi].
    cbn. rewrite !length_app, length_take, length_drop. lia.
  - intros ? ? [= <- <-]. cbn. rewrite !length_app, length_take, length_drop. lia.
Qed.

Lemma old_name_run n w :
  name_ok n = true →
  name_buffer n w = match k_ptr (p_calls w) (K_kzalloc 32) with
    | KPtr a => Done (a, overwrite (c_str n) (replicate 32 Ascii.zero))
                  (mkPstate (p_data w) (p_calls w ++ [K_kzalloc 32]))
    | _ => Fault NullDeref
    end.
Proof.
  unfold name_ok. rewrite andb_true_iff, Nat.ltb_lt. intros [Hn _].
  unfold name_buffer. erewrite prog_bind_step by reflexivity.
  destruct (k_ptr (p_calls w) (K_kzalloc 32)) as [|b|e]; [reflexivity| |reflexivity].
  gstep. cbn [fst snd]. rewrite decide_True; [done|].
  unfold c_str. rewrite length_app. cbn. lia.
Qed.

Lemma old_message_text_ok z : name_ok (message_text z) = true.
Proof. apply (name_ok_all _ 11); [vm_compute; done|outside|vm_compute; done]. Qed.

End Runs.

(** ** Theorems *)

(** Binding a chunk message in the older client.  While the table has room
    the loop returns and leaves a well-formed table whose array and fill
    pointer are those the later client computes ([append_chunks]): the
    received chunks, decoded, from [chunk_ptr] on, as far as there is room.
    On a full table the check comes too late: a message whose first key is
    not zero writes behind the array. *)
Theorem old_bind_spec a s off cs am m :
  os_recv_buf s = Some (am, m) → wf_message m → wf_table (os_chunks s) →
  let cl := os_chunks s in
  (chunk_ptr cl < chunk_num cl →
   ∃ cl', bind_remote_memory_chunks (live a s off cs) = Done tt (live_cl a s cl' off cs) ∧ wf_table cl' ∧
     remote_chunk cl' = remote_chunk (append_chunks (received m) cl) ∧
     chunk_ptr cl' = chunk_ptr (append_chunks (received m) cl) ∧ chunk_num cl' = chunk_num cl) ∧
  (chunk_ptr cl = chunk_num cl → msg_rkey m !! 0%nat ≠ Some 0 →
   bind_remote_memory_chunks (live a s off cs) = Fault OutOfBounds).
Proof.
  intros Hm Hw Ht cl. destruct (old_bind_run a s off cs am m Hm Hw Ht) as [H1 H2]. split; intros Hc.
  - exists (fill_chunks (received m) cl). split; [by apply H1|].
    split; [by apply fill_wf, received_mapped|]. split; [reflexivity|]. split; [reflexivity|].
    unfold fill_chunks. by destruct (remote_chunk cl) as [[? ?]|].
  - intros Hk. rewrite H2 by done. by rewrite bool_decide_false.
Qed.

(** What a session holds, as the calls that give it back. *)
Definition ptr_frees {A} (p : cptr A) : list kcall := match p with Some (b, _) => [K_kfree b] | None => [] end.
Definition struct_frees (p : kptr) (c : kptr → kcall) : list kcall := if bool_decide (p ≠ KNull) then [c p] else [].
Definition releases (a : Z) (s : rdma_session_context) : list kcall :=
  ptr_frees (os_recv_buf s) ++ ptr_frees (os_send_buf s) ++ ptr_frees (remote_chunk (os_chunks s)) ++
  struct_frees (os_cm_id s) K_rdma_destroy_id ++ struct_frees (os_qp s) K_ib_destroy_qp ++
  struct_frees (os_cq s) K_ib_destroy_cq ++ struct_frees (os_pd s) K_ib_dealloc_pd ++ [K_kfree a].

Definition freed (a off : Z) (cs : list kcall) : pstate old_data kcall := mkPstate (mkOldData (SFreed a) off) cs.

Lemma old_free_ptr_run {A} (p : cptr A) (d : old_data) cs :
  free_ptr p (mkPstate d cs) = Done tt (mkPstate d (cs ++ ptr_frees p)).
Proof. destruct p as [[b x]|]; [done|]. cbn. by rewrite app_nil_r. Qed.

Lemma destroy_if_run p c (d : old_data) cs :
  destroy_if p c (mkPstate d cs) = Done tt (mkPstate d (cs ++ struct_frees p c)).
Proof. unfold destroy_if, struct_frees. case_bool_decide; [done|]. cbn. by rewrite app_nil_r. Qed.

(** The last part of unloading. *)
Lemma release_run ret a s off cs :
  (wlift octopus_free_buffers;; wlift octopus_free_rdma_structure;; wlift free_session;; mret ret) (live a s off cs) =
  WDone (ret : Z) (freed a off (cs ++ releases a s)).
Proof.
  erewrite wlift_step.
  2:{ unfold octopus_free_buffers. gstep. cbn [id]. unfold live. cbn [p_data p_calls].
      do 2 (erewrite prog_bind_step by apply old_free_ptr_run). apply old_free_ptr_run. }
  erewrite wlift_step.
  2:{ unfold octopus_free_rdma_structure. gstep. cbn [id].
      do 3 (erewrite prog_bind_step by apply destroy_if_run). apply destroy_if_run. }
  unfold freed, releases. rewrite !app_assoc. reflexivity.
Qed.

(** Unloading the older client.  After the peer has disconnected it
    releases at once: every buffer, the table, every RDMA structure and the
    session itself, each exactly once and in this order.  In any other state
    it first disconnects and waits, and releases what the session holds when
    it is woken; and once the session has been freed, every handler that is
    still called uses freed memory. *)
Theorem old_unload_spec `{K : kernel} `{O : old_params} u a s off cs :
  (os_state s = CM_DISCONNECT →
   octopus_disconenct_and_collect_resource u (live a s off cs) = WDone u (freed a off (cs ++ releases a s))) ∧
  (os_state s ≠ CM_DISCONNECT →
   ∃ c k, octopus_disconenct_and_collect_resource u (live a s off cs) =
            WWait c (live a s off (cs ++ [K_rdma_disconnect (os_cm_id s)])) k ∧
     (∀ a' s' off' cs', c (p_data (live a' s' off' cs')) = bool_decide (os_state s' = CM_DISCONNECT)) ∧
     (∀ s' off' cs', k (live a s' off' cs') =
        WDone (k_int cs (K_rdma_disconnect (os_cm_id s))) (freed a off' (cs' ++ releases a s')))) ∧
  (∀ e wc c off' cs', octopus_rdma_cm_event_handler u e (freed a off' cs') = Fault UseAfterFree ∧
     octopus_cq_event_handler u c wc (freed a off' cs') = Fault UseAfterFree).
Proof.
  split; [|split; [|by intros]]; intros Hst; unfold octopus_disconenct_and_collect_resource.
  - gstep. cbn [id]. unfold state_is. rewrite Hst, bool_decide_true by done. cbn [negb].
    rewrite wprog_bind_unfold. cbn [mret wprog_ret wsusp_bind]. apply release_run.
  - gstep. cbn [id]. unfold state_is at 1. rewrite bool_decide_false by done. cbn [negb].
    rewrite wprog_bind_unfold. gstep. rewrite wprog_bind_unfold. unfold wait_state, wait.
    cbn [p_data live rdma_session_global state_is]. unfold state_is at 1.
    rewrite bool_decide_false by done. cbn [wsusp_bind].
    eexists _, _. split; [reflexivity|]. split; [reflexivity|]. intros s' off' cs'.
    cbn [wsusp_bind]. apply release_run.
Qed.

(** ** Witness *)

(** A session that announced four chunks and has received two. *)
Definition demo_session : rdma_session_context :=
  zero_session <| os_recv_buf := Some (256, demo_message) |>
    <| os_chunks := mkChunkList (Some (512, replicate 4 zero_chunk)) 4 4 0 |>.

Lemma old_bind_spec_witness :
  ∃ cl', bind_remote_memory_chunks (live 64 demo_session 30 []) = Done tt (live_cl 64 demo_session cl' 30 []) ∧
    chunk_ptr cl' = 2.
Proof.
  destruct (old_bind_spec 64 demo_session 30 [] 256 demo_message) as [H _].
  - reflexivity.
  - exact demo_wf_message.
  - apply (empty_table_wf 4 512 4). lia.
  - destruct H as (cl' & H1 & _ & _ & H2 & _); [cbn; lia|]. exists cl'. split; [exact H1|]. rewrite H2. reflexivity.
Defined.
