(* ===== verification/OldSystem.v ===== *)
(** * The older client as a concurrent system

    Loading, connection-manager events, completions and unloading of the
    module of [OldClient] interleave at the points where its threads wait
    ([sched_step] of [Prog]).  The theorems: in every interleaving the chunk
    table stays well formed and no RDMA structure is destroyed twice; with a
    kernel whose calls succeed the handshake with the server ends and leaves
    exactly the chunks the server sent; and the errors the code drops lead to
    a crash or to an unloading that never ends. *)

From S2P Require Import Prelude BitOps OctTypes Kernel Prog Names ChunkList OldClient.

(** ** Events *)

Inductive old_event :=
| Load (uninit : Z)
| CmEvent (uninit : Z) (e : rdma_cm_event)
| CqEvent (uninit : Z) (cq : kptr) (wc : option ib_wc)
| Unload (uninit : Z).

Definition forget {A} (p : KW A) : KW unit := _ ← p; mret tt.

Definition old_handle `{K : kernel} `{O : old_params} (ev : old_event) : KW unit :=
  match ev with
  | Load u => forget (octopus_rdma_client_init_module u)
  | CmEvent u e => forget (wlift (octopus_rdma_cm_event_handler u e))
  | CqEvent u c wc => wlift (octopus_cq_event_handler u c wc)
  | Unload u => octopus_rdma_client_cleanup_module u
  end.

(** The module is loaded once; received messages have their 32 entries. *)
Definition old_event_ok (w : pstate old_data kcall) (ev : old_event) : Prop :=
  match ev with
  | Load _ => rdma_session_global (p_data w) = SNull
  | CqEvent _ _ (Some wc) => ∀ m, wc_data wc = Some m → wf_message m
  | _ => True
  end.

Definition old_start : pstate old_data kcall := mkPstate old_data0 [].

Definition old_reachable `{K : kernel} `{O : old_params} (st : pstate old_data kcall * list (@pthread old_data kcall)) : Prop :=
  rtc (sched_step old_handle old_event_ok) (old_start, []) st.

(** ** The invariant *)

(** The four calls that destroy a structure, numbered. *)
Definition destroy_kind (c : kcall) : option nat :=
  match c with
  | K_rdma_destroy_id _ => Some 0%nat | K_ib_destroy_qp _ => Some 1%nat
  | K_ib_destroy_cq _ => Some 2%nat | K_ib_dealloc_pd _ => Some 3%nat
  | _ => None
  end.

Definition destroyed (n : nat) (cs : list kcall) : nat := length (filter (λ c, destroy_kind c = Some n) cs).

(** The receive buffer and the chunk table. *)
Definition session_ok (s : rdma_session_context) : Prop :=
  (∀ am m, os_recv_buf s = Some (am, m) → wf_message m) ∧
  (remote_chunk (os_chunks s) = None ∧ chunk_num (os_chunks s) = 0 ∧ chunk_ptr (os_chunks s) = 0 ∨
   wf_table (os_chunks s)).

Definition old_inv (w : pstate old_data kcall) : Prop :=
  match rdma_session_global (p_data w) with
  | SNull => ∀ n, destroyed n (p_calls w) = 0%nat
  | SLive _ s => (∀ n, destroyed n (p_calls w) = 0%nat) ∧ session_ok s
  | SFreed _ => ∀ n, (destroyed n (p_calls w) <= 1)%nat
  end.

Definition old_keeps (w w' : pstate old_data kcall) : Prop := old_inv w → old_inv w'.

#[export] Instance old_keeps_preorder : PreOrder old_keeps.
Proof. split; [by intros w Hw|]. intros w1 w2 w3 H1 H2 H. auto. Qed.

Lemma destroyed_app n cs cs' : destroyed n (cs ++ cs') = (destroyed n cs + destroyed n cs')%nat.
Proof. unfold destroyed. by rewrite filter_app, length_app. Qed.

Lemma destroyed_harmless n c : destroy_kind c = None → destroyed n [c] = 0%nat.
Proof. intros Hc. unfold destroyed. rewrite filter_cons, Hc. by case_decide. Qed.

Lemma old_inv_call d cs c : destroy_kind c = None → old_inv (mkPstate d cs) → old_inv (mkPstate d (cs ++ [c])).
Proof.
  intros Hc. unfold old_inv. cbn [p_data p_calls]. assert (∀ n, destroyed n (cs ++ [c]) = destroyed n cs) as He.
  { intros n. rewrite destroyed_app, destroyed_harmless by done. lia. }
  destruct (rdma_session_global d).
  - intros H n. by rewrite He.
  - intros [H1 H2]. split; [|done]. intros n. by rewrite He.
  - intros H n. rewrite He. apply H.
Qed.

Lemma keeps_tell c : destroy_kind c = None → ppres old_keeps (tell c).
Proof. intros Hc [d cs] a w' [= _ <-] Hi. by apply (old_inv_call d cs c). Qed.

Lemma keeps_ask {A} (f : list kcall → kcall → A) c : destroy_kind c = None → ppres old_keeps (ask f c).
Proof. intros Hc [d cs] a w' [= _ <-] Hi. by apply (old_inv_call d cs c). Qed.

Lemma keeps_sess {A} (f : rdma_session_context → A) : ppres old_keeps (sess f).
Proof. intros [[[| |] off] cs] r w' H; [done| |done]. injection H as _ <-. by intros Hi. Qed.

Lemma keeps_set_sess f : (∀ s, session_ok s → session_ok (f s)) → ppres old_keeps (set_sess f).
Proof.
  intros Hf [[[|a s|] off] cs] r w' H; [done| |done]. injection H as _ <-. intros [H1 H2]. split; [done|by apply Hf].
Qed.

#[export] Hint Resolve keeps_tell keeps_ask keeps_sess : ppres.
#[export] Hint Extern 1 (destroy_kind _ = None) => reflexivity : ppres.
#[export] Hint Extern 1 (ppres old_keeps (set_sess _)) => let h := fresh in apply keeps_set_sess; intros ? h; exact h : ppres.

Section Keeps.
Context {K : kernel} {O : old_params}.

Lemma keeps_state st : ppres old_keeps (set_state st).
Proof. unfold set_state. ppres_go. Qed.
Lemma keeps_wake : ppres old_keeps wake_up.
Proof. unfold wake_up. ppres_go. Qed.
Lemma keeps_kzalloc {A} n (x : A) : ppres old_keeps (kzalloc n x).
Proof. unfold kzalloc. ppres_go. Qed.
Hint Resolve keeps_state keeps_wake keeps_kzalloc : ppres.

Lemma keeps_name n : ppres old_keeps (name_buffer n).
Proof. unfold name_buffer. ppres_go. Qed.
Hint Resolve keeps_name : ppres.

Lemma keeps_cm_event u e : ppres old_keeps (octopus_rdma_cm_event_handler u e).
Proof. unfold octopus_rdma_cm_event_handler. ppres_go. Qed.

Lemma keeps_create_queues : ppres old_keeps octopus_create_rdma_queues.
Proof. unfold octopus_create_rdma_queues, octopus_create_qp. ppres_go. Qed.

Lemma keeps_message_wr : ppres old_keeps octopus_setup_message_wr.
Proof. unfold octopus_setup_message_wr, message_lkey. ppres_go. Qed.

Lemma keeps_post_recv : ppres old_keeps post_recv_wr.
Proof. unfold post_recv_wr. ppres_go. Qed.

Lemma keeps_request n : ppres old_keeps (octupos_requset_for_chunk n).
Proof.
  unfold octupos_requset_for_chunk, send_message_to_remote, rdma_message_print.
  pose proof keeps_post_recv. ppres_go.
Qed.

Lemma keeps_notify : ppres old_keeps connect_notify.
Proof. unfold connect_notify. ppres_go. Qed.

Lemma old_keeps_init_table u : ppres old_keeps (init_remote_chunk_list u).
Proof.
  intros [[[|a s|] off] cs] r w' H; [done| |done]. change (mkPstate _ _) with (live a s off cs) in H.
  rewrite old_init_run in H. intros [Hd [Hm Ht]].
  assert (∀ cl, (remote_chunk cl = None ∧ chunk_num cl = 0 ∧ chunk_ptr cl = 0 ∨ wf_table cl) →
    old_inv (live_cl a s cl 30 (cs ++ [table_call s]))) as Hi.
  { intros cl Hcl. change (old_inv (mkPstate (mkOldData (SLive a (s <| os_chunks := cl |>)) 30) (cs ++ [table_call s]))).
    apply old_inv_call; [done|]. by split. }
  cbv zeta in H. destruct (k_ptr cs (table_call s)).
  2:{ injection H as _ <-. apply Hi. right. apply new_table_wf. }
  all: case_decide; [|done]; injection H as _ <-; apply Hi; left; by split_and!.
Qed.

Lemma old_keeps_bind : ppres old_keeps bind_remote_memory_chunks.
Proof.
  intros [[[|a s|] off] cs] r w' H; [done| |done]. change (mkPstate _ _) with (live a s off cs) in H.
  intros [Hd [Hm Ht]]. destruct (os_recv_buf s) as [[am m]|] eqn:Em.
  2:{ exfalso. unfold bind_remote_memory_chunks in H. change (Z.to_nat MAX_CHUNKS) with (S 31) in H.
      rewrite (pfor_fault _ _ _ _ NullDeref) in H; [done|]. unfold bind_body. gstep. cbn [id]. by rewrite Em. }
  pose proof (Hm _ _ eq_refl) as Hmw. destruct Ht as [(Hn & Hz & Hp)|Hwf].
  - assert (bind_remote_memory_chunks (live a s off cs) = Fault NullDeref ∨
            bind_remote_memory_chunks (live a s off cs) = Done tt (live a s off cs)) as [E|E]; [|congruence|].
    2:{ rewrite E in H. injection H as _ <-. split; [done|]. split; [|by left]. by rewrite Em. }
    unfold bind_remote_memory_chunks. change (Z.to_nat MAX_CHUNKS) with (S 31).
    destruct Hmw as [Hb Hk]. destruct (lookup_lt_is_Some_2 (msg_rkey m) 0) as [k Hki]; [lia|].
    destruct (lookup_lt_is_Some_2 (msg_buf m) 0) as [b Hbi]; [lia|].
    destruct (Z.eqb_spec k 0) as [->|Hne]; [right; apply pfor_break|left; apply pfor_fault];
      unfold bind_body; gstep; cbn [id]; rewrite Em; gstep; cbn [snd].
    all: rewrite (arr_get_0 (msg_rkey m)), Hki; gstep.
    + cbn [Z.eqb negb]. gstep. gstep. cbn. by rewrite Hz, Hp.
    + rewrite (proj2 (Z.eqb_neq k 0) Hne). cbn [negb]. rewrite (arr_get_0 (msg_buf m)), Hbi.
      apply prog_bind_fault. gstep. apply prog_bind_fault. unfold set_chunk. gstep. by rewrite Hn.
  - destruct (old_bind_run a s off cs am m Em Hmw Hwf) as [H1 H2].
    destruct (decide (chunk_ptr (os_chunks s) < chunk_num (os_chunks s))) as [Hlt|Hge].
    + rewrite H1 in H by done. injection H as _ <-. split; [done|]. split; [cbn; by rewrite Em|].
      right. by apply fill_wf, received_mapped.
    + pose proof Hwf as [(Hp & _) _]. rewrite H2 in H by lia. case_bool_decide; [|done].
      injection H as _ <-. split; [done|]. split; [by rewrite Em|]. by right.
Qed.

Lemma old_keeps_recv u wc : ppres old_keeps (handle_recv_wr u wc).
Proof.
  unfold handle_recv_wr, rdma_message_print, set_chunks, print_chunk.
  pose proof (old_keeps_init_table u). pose proof old_keeps_bind. ppres_go.
Qed.

Lemma keeps_cq_event u c wc :
  (∀ v m, wc = Some v → wc_data v = Some m → wf_message m) → ppres old_keeps (octopus_cq_event_handler u c wc).
Proof.
  intros Hwc. unfold octopus_cq_event_handler, handle_wc. pose proof (old_keeps_recv u).
  apply ppres_bind; [ppres_go|]. intros s. destruct (bool_decide _); [ppres_go|].
  destruct (state_is _ _); [ppres_go|]. apply ppres_bind; [|intros []; ppres_go].
  destruct wc as [wc|]; [|ppres_go]. apply ppres_bind; [|intros ?; ppres_go].
  destruct (wc_data wc) as [m|] eqn:Em; [|ppres_go]. apply keeps_set_sess. intros s' [Hm Ht]. split; [|done].
  cbn. intros am m' Hb. destruct (os_recv_buf s') as [[x y]|]; [|done]. injection Hb as <- <-. by eapply Hwc.
Qed.

Lemma keeps_kmalloc : ppres old_keeps kmalloc_message.
Proof. intros [d cs] r w' [= _ <-] Hi. by apply (old_inv_call d cs (K_kmalloc sizeof_message)). Qed.

Lemma old_keeps_setup_buffers u :
  (∀ cs, wf_message (kmalloc_junk cs)) → ppres old_keeps (octopus_setup_buffers u).
Proof.
  intros Hj. unfold octopus_setup_buffers. pose proof keeps_kmalloc. pose proof keeps_message_wr.
  intros w r w' (rb & w1 & H1 & H2)%prog_bind_Done. etrans; [by eapply keeps_kmalloc|].
  assert (∀ am m, rb = Some (am, m) → wf_message m) as Hrb.
  { intros am m ->. injection H1 as H1 _. destruct (k_ptr _ _); [done| |done]. injection H1 as _ <-. apply Hj. }
  revert w1 r w' H1 H2. intros w1 r w' _. revert w1 r w'.
  apply ppres_bind; [|intros ?; ppres_go].
  apply keeps_set_sess. intros s [_ Ht]. by split.
Qed.

Lemma keeps_connect_init w w' :
  rdma_session_global (p_data w) = SNull → connect_init w = Done tt w' → old_keeps w w'.
Proof.
  intros Hn (p & w1 & H1 & H)%prog_bind_Done Hi.
  assert (rdma_session_global (p_data w1) = SNull) as Hn1.
  { injection H1 as _ <-. exact Hn. }
  assert (old_inv w1) as Hi1 by (by eapply (keeps_kzalloc sizeof_session zero_session)).
  assert (∀ am m, p = Some (am, m) → m = zero_session) as Hp.
  { intros am m ->. injection H1 as H1 _. destruct (k_ptr _ _); [done| |done]. by injection H1. }
  apply prog_bind_Done in H as ([] & w2 & [= <-] & H).
  match type of H with ?f ?v = _ => assert (ppres old_keeps f) as Hk by ppres_go; apply (Hk v _ _ H) end.
  unfold old_inv in Hi1. rewrite Hn1 in Hi1. unfold old_inv. cbn [p_data p_calls].
  destruct p as [[a s]|]; [|done]. cbn. rewrite (Hp _ _ eq_refl). split; [done|]. split; [done|]. by left.
Qed.

(** Unloading gives each structure back once. *)
Lemma destroyed_releases n a s : (destroyed n (releases a s) <= 1)%nat.
Proof.
  unfold releases, ptr_frees, struct_frees. rewrite !destroyed_app.
  assert (∀ b, destroyed n [K_kfree b] = 0%nat) as Hf by (intros; by apply destroyed_harmless).
  assert (∀ {A} (p : cptr A), destroyed n (match p with Some (b, _) => [K_kfree b] | None => [] end) = 0%nat) as Hp.
  { intros A [[b x]|]; [apply Hf|done]. }
  rewrite !Hp, Hf.
  assert (∀ c m (b : bool), destroy_kind c = Some m →
    destroyed n (if b then [c] else []) = if b && bool_decide (m = n) then 1%nat else 0%nat) as Hs.
  { intros c m [] Hc; [|done]. unfold destroyed. rewrite filter_cons, Hc. cbn. case_bool_decide; case_decide; naive_solver. }
  erewrite !Hs by reflexivity.
  destruct n as [|[|[|[|n]]]]; repeat case_bool_decide; simplify_eq; cbn; lia.
Qed.

Lemma keeps_release (ret : Z) :
  wpres old_keeps (wlift octopus_free_buffers;; wlift octopus_free_rdma_structure;; wlift free_session;; mret ret).
Proof.
  intros [[[|a s|] off] cs]; [done| |done].
  change (mkPstate (mkOldData (SLive a s) off) cs) with (live a s off cs). rewrite release_run.
  cbn. intros [Hd _] n. cbn [p_calls freed]. rewrite destroyed_app.
  pose proof (Hd n) as Hn. cbn [p_calls live] in Hn. rewrite Hn. apply destroyed_releases.
Qed.

Lemma keeps_unload u : wpres old_keeps (octopus_rdma_client_cleanup_module u).
Proof.
  unfold octopus_rdma_client_cleanup_module, octopus_disconenct_and_collect_resource, wait_state.
  apply wpres_bind; [|intros ?; ppres_go]. apply wpres_bind; [ppres_go|]. intros s.
  apply wpres_bind; [ppres_go|]. intros ret. apply keeps_release.
Qed.

Lemma keeps_connect u w :
  (∀ cs, wf_message (kmalloc_junk cs)) → rdma_session_global (p_data w) = SNull →
  wguar old_keeps w (octopus_RDMA_connect u w).
Proof.
  intros Hj Hn. unfold octopus_RDMA_connect. rewrite wprog_bind_unfold. apply wguar_bind.
  - intros _. unfold rdma_resolve_ip_to_ib_device, octopus_connect_remote_memory_server, connect_setup, wait_state.
    pose proof (old_keeps_setup_buffers u Hj). pose proof keeps_create_queues. pose proof keeps_post_recv.
    pose proof (keeps_request 8). pose proof keeps_notify. ppres_go.
  - unfold wlift. destruct (connect_init w) as [[] w'| |] eqn:E; [|done|done]. by apply keeps_connect_init.
Qed.

Lemma old_handle_keeps w ev :
  (∀ cs, wf_message (kmalloc_junk cs)) → old_event_ok w ev → wguar old_keeps w (old_handle ev w).
Proof.
  intros Hj Hok. destruct ev as [u|u e|u c wc|u]; cbn [old_handle] in *.
  - unfold forget, octopus_rdma_client_init_module. rewrite wprog_bind_unfold. apply wguar_bind; [intros ?; ppres_go|].
    rewrite wprog_bind_unfold. apply wguar_bind; [intros ?; ppres_go|]. by apply keeps_connect.
  - revert w Hok. intros w _. apply (wpres_bind _ _ (wpres_lift _ (keeps_cm_event u e))). intros ?. ppres_go.
  - apply wpres_lift, keeps_cq_event. intros v m ->. apply Hok.
  - apply keeps_unload.
Qed.

End Keeps.

(** C11. In every interleaving of loading, connection events, completions and
    unloading of the older client: a live session has a well-formed receive
    buffer and a chunk table that is absent or well formed with all bound
    chunks in front; none of its structures has been destroyed; and after
    it is freed each of the four has been destroyed at most once. *)
Theorem old_client_invariant `{K : kernel} `{O : old_params} st :
  (∀ cs, wf_message (kmalloc_junk cs)) → old_reachable st →
  (∀ n, (destroyed n (p_calls st.1) <= 1)%nat) ∧
  ∀ a s, rdma_session_global (p_data st.1) = SLive a s →
    (∀ n, destroyed n (p_calls st.1) = 0%nat) ∧ session_ok s.
Proof.
  intros Hj Hr. assert (old_inv st.1) as Hi.
  { eapply (sched_ind old_handle old_event_ok old_keeps); [by intros w w' H|by intros; apply old_handle_keeps| |done].
    by intros n. }
  unfold old_inv in Hi. split.
  - intros n. destruct (rdma_session_global _); [rewrite Hi; lia|rewrite (proj1 Hi); lia|apply Hi].
  - intros a s Hs. by rewrite Hs in Hi.
Qed.

(** ** A kernel whose calls succeed *)

Record kernel_good `{K : kernel} : Prop := {
  kg_int : ∀ cs c, match c with K_ib_dma_map_single _ _ | K_in4_pton => True | _ => k_int cs c = 0 end;
  kg_ptr : ∀ cs c, ∃ a, k_ptr cs c = KPtr a;
  kg_qp : ∃ q, k_qp = KPtr q
}.
Arguments kernel_good : clear implicits.

(** The result of the next kernel call in the goal. *)
Ltac good_call Hg :=
  match goal with
  | |- context [k_ptr ?cs ?c] =>
      let x := fresh "x" in let E := fresh "E" in destruct (kg_ptr Hg cs c) as [x E]; rewrite !E; clear E
  | |- context [k_int ?cs ?c] =>
      let E := fresh "E" in pose proof (kg_int Hg cs c) as E; cbn beta iota in E; rewrite !E; clear E
  end.

(** Running the primitives on a live session. *)
Lemma run_sess {A B} (f : rdma_session_context → A) (k : A → KP B) a s off cs :
  (sess f ≫= k) (live a s off cs) = k (f s) (live a s off cs).
Proof. reflexivity. Qed.
Lemma run_set {B} f (k : unit → KP B) a s off cs :
  (set_sess f ≫= k) (live a s off cs) = k tt (live a (f s) off cs).
Proof. reflexivity. Qed.
Lemma run_tell {B} c (k : unit → KP B) a s off cs :
  (tell c ≫= k) (live a s off cs) = k tt (live a s off (cs ++ [c])).
Proof. reflexivity. Qed.
Lemma run_ask {A B} (f : list kcall → kcall → A) c (k : A → KP B) a s off cs :
  (ask f c ≫= k) (live a s off cs) = k (f cs c) (live a s off (cs ++ [c])).
Proof. reflexivity. Qed.
Lemma run_ret {A B} (x : A) (k : A → KP B) w : (mret x ≫= k) w = k x w.
Proof. reflexivity. Qed.
Lemma run_valid {B} x (k : Z → KP B) w : (valid (KPtr x) ≫= k) w = k x w.
Proof. reflexivity. Qed.
Lemma run_nonnull {A B} (x : A) (k : A → KP B) w : (nonnull (Some x) ≫= k) w = k x w.
Proof. reflexivity. Qed.
Lemma run_assoc {A B D} (m : KP A) (f : A → KP B) (k : B → KP D) w :
  ((m ≫= f) ≫= k) w = (m ≫= λ x, f x ≫= k) w.
Proof. rewrite !prog_bind_unfold. by destruct (m w). Qed.

Ltac lstep :=
  (first [rewrite run_sess | rewrite run_set | rewrite run_tell | rewrite run_ask | rewrite run_ret
         | rewrite run_valid | rewrite run_nonnull | rewrite run_assoc]); cbv beta zeta.

(** Evaluates the pointer that is dereferenced next. *)
Ltac valid_field :=
  match goal with |- context [valid (?f ?t)] => let v := eval hnf in (f t) in change (f t) with v end.

(** The state a thread is resumed in. *)
Ltac at_state W := match goal with |- psettle (?f ?w) = ?r => change (psettle (f W) = r) end; cbv beta.

Section Good.
Context {K : kernel} {O : old_params} (Hg : kernel_good K).

Lemma good_init :
  ∃ a s cs, connect_init old_start = Done tt (live a s 0 cs) ∧ (∃ x, os_cm_id s = KPtr x) ∧
    os_state s = IDLE ∧ os_local_dma_lkey s = 0 ∧ os_chunks s = os_chunks zero_session.
Proof.
  unfold connect_init. destruct (kg_ptr Hg [] (K_kzalloc sizeof_session)) as [a Ha].
  erewrite prog_bind_step by reflexivity. cbn [p_calls old_start]. rewrite Ha.
  erewrite prog_bind_step by reflexivity.
  change (mkPstate _ _) with (live a zero_session 0 [K_kzalloc sizeof_session]).
  lstep. good_call Hg. unfold set_state. repeat lstep. destruct (_ =? 0); repeat lstep.
  all: eexists _, _, _; (split; [reflexivity|]); (split; [by eexists|]); done.
Qed.

Lemma good_queues a s off cs x :
  os_cm_id s = KPtr x →
  ∃ p c cs', octopus_create_rdma_queues (live a s off cs) =
    Done 0 (live a (s <| os_pd := KPtr p |> <| os_cq := KPtr c |> <| os_qp := k_qp |>) off cs').
Proof.
  intros Hx. unfold octopus_create_rdma_queues, octopus_create_qp. repeat lstep. rewrite Hx. repeat lstep.
  good_call Hg. cbn [IS_ERR]. repeat lstep. good_call Hg. cbn [IS_ERR]. repeat lstep. good_call Hg.
  cbn [Z.eqb]. repeat lstep. by eexists _, _, _.
Qed.

Lemma run_kmalloc {B} (k : cptr message → KP B) a s off cs :
  ∃ x, (kmalloc_message ≫= k) (live a s off cs) =
       k (Some (x, kmalloc_junk cs)) (live a s off (cs ++ [K_kmalloc sizeof_message])).
Proof.
  destruct (kg_ptr Hg cs (K_kmalloc sizeof_message)) as [x Hx]. exists x.
  erewrite prog_bind_step by reflexivity. cbn [p_calls live p_data]. by rewrite Hx.
Qed.

Lemma run_lkey {B} set (k : unit → KP B) a s off cs x :
  os_local_dma_lkey s = 0 → os_mem s = Some DMA → os_dma_mr s = KPtr x →
  (message_lkey set ≫= k) (live a s off cs) = (set k_mr_lkey ≫= k) (live a s off cs).
Proof.
  intros Hk Hm Hx. unfold message_lkey. repeat lstep. cbn [id]. rewrite Hk, Hm, Hx. reflexivity.
Qed.

Lemma good_post_recv a s off cs q :
  os_qp s = KPtr q → post_recv_wr (live a s off cs) = Done 0 (live a s off (cs ++ [K_ib_post_recv (os_recv_sgl s)])).
Proof.
  intros Hq. unfold post_recv_wr. repeat lstep. rewrite Hq. repeat lstep.
  change (ask k_int ?c ?w) with (Done (S := old_data) (k_int cs c) (live a s off (cs ++ [c]))). by good_call Hg.
Qed.

(** What the later steps use of a session. *)
Record ready (s : rdma_session_context) : Prop := {
  rd_qp : os_qp s = k_qp;
  rd_cq : ∃ c, os_cq s = KPtr c;
  rd_recv : is_Some (os_recv_buf s);
  rd_send : is_Some (os_send_buf s)
}.

Lemma good_setup u a s off cs x :
  os_cm_id s = KPtr x → os_local_dma_lkey s = 0 →
  ∃ s' cs', connect_setup u (live a s off cs) = Done tt (live a s' off cs') ∧ ready s' ∧
    os_state s' = os_state s ∧ os_chunks s' = os_chunks s.
Proof.
  intros Hx Hk. unfold connect_setup. destruct (good_queues a s off cs x Hx) as (p & c & cs1 & H1).
  rewrite (prog_bind_step _ _ _ _ _ H1). unfold octopus_setup_buffers, octopus_setup_message_wr.
  lstep. match goal with |- context [(kmalloc_message ≫= ?k) (live a ?s1 off cs1)] =>
    destruct (run_kmalloc k a s1 off cs1) as [y ->] end. cbv beta. repeat lstep.
  match goal with |- context [(kmalloc_message ≫= ?k) (live a ?s1 off ?cs1)] =>
    destruct (run_kmalloc k a s1 off cs1) as [z ->] end. cbv beta. repeat lstep.
  valid_field. repeat lstep. good_call Hg. cbn [IS_ERR]. repeat lstep.
  do 2 (erewrite run_lkey; [|exact Hk|reflexivity|reflexivity]; repeat lstep).
  destruct (kg_qp Hg) as [q Hq].
  erewrite prog_bind_step by (apply (good_post_recv _ _ _ _ q); exact Hq).
  eexists _, _. split; [reflexivity|]. split; [|done]. split; [done|by eexists|by eexists|by eexists].
Qed.

Lemma run_name {B} n (k : Z * list Ascii.ascii → KP B) a s off cs :
  name_ok n = true →
  ∃ r, (name_buffer n ≫= k) (live a s off cs) = k r (live a s off (cs ++ [K_kzalloc 32])).
Proof.
  intros Hn. destruct (kg_ptr Hg cs (K_kzalloc 32)) as [x Hx]. eexists.
  erewrite prog_bind_step; [reflexivity|]. rewrite old_name_run by done. cbn [p_calls live]. rewrite Hx. reflexivity.
Qed.

Lemma good_request a s off cs :
  ready s →
  ∃ am m cs', octupos_requset_for_chunk 8 (live a s off cs) = Done 0 (live a (s <| os_send_buf := Some (am, m) |>) off cs') ∧
    msg_type m = message_type_code REQUEST_CHUNKS ∧ msg_size_gb m = 8 ∧
    last cs' = Some (K_ib_post_send_msg (os_send_sgl s) m).
Proof.
  intros [Hq _ _ [[am m] Hs]]. destruct (kg_qp Hg) as [q Hk]. unfold octupos_requset_for_chunk. cbn [Z.eqb].
  erewrite prog_bind_step by (apply (good_post_recv _ _ _ _ q); congruence). cbn [Z.eqb negb].
  unfold send_message_to_remote. lstep. rewrite Hs. repeat lstep.
  unfold rdma_message_print. match goal with |- context [(name_buffer ?n ≫= ?k) (live a ?s1 off ?cs1)] =>
    destruct (run_name n k a s1 off cs1 (old_message_text_ok _)) as [r ->] end. cbv beta. repeat lstep.
  match goal with |- context [valid ?t] => replace t with (KPtr q) by exact (eq_sym (eq_trans Hq Hk)) end. repeat lstep.
  match goal with |- context [nonnull ?t] =>
    change t with (Some (am, m <| msg_type := message_type_code REQUEST_CHUNKS |> <| msg_size_gb := 8 |>)) end. repeat lstep.
  match goal with |- context [ask k_int ?c (live a ?s1 off ?cs1)] =>
    change (ask k_int c (live a s1 off cs1)) with (Done (S := old_data) (k_int cs1 c) (live a s1 off (cs1 ++ [c]))) end.
  good_call Hg. eexists _, _, _. split; [reflexivity|]. split; [done|]. split; [done|]. apply last_snoc.
Qed.

(** A completed receive. *)
Definition recv_wc (m : message) : ib_wc := mkWc 0 IB_WC_RECV sizeof_message None (Some m).

(** What a received message leads to, up to the request for the next
    notification. *)
Lemma good_cq_event u a s off cs c m a1 s1 off1 cs1 :
  os_cq s = c → state_lt (os_state s) CONNECTED = false → os_state s ≠ ERROR →
  handle_recv_wr u (recv_wc m) (live a (s <| os_recv_buf ::= fmap (λ p, (p.1, m)) |>) off cs) =
    Done 0 (live a1 s1 off1 cs1) →
  octopus_cq_event_handler u c (Some (recv_wc m)) (live a s off cs) =
    Done tt (live a1 s1 off1 (cs1 ++ [K_ib_req_notify_cq (os_cq s1)])).
Proof.
  intros <- Hlt Hne Hr. unfold octopus_cq_event_handler. lstep. cbn [id].
  rewrite bool_decide_false by (intros H; by apply H). unfold state_is. rewrite bool_decide_false by done.
  unfold handle_wc. cbn [wc_data recv_wc wc_status wc_opcode Z.eqb negb]. repeat lstep.
  rewrite (prog_bind_step _ _ _ _ _ Hr). repeat lstep. cbn [Z.eqb]. repeat lstep. good_call Hg. reflexivity.
Qed.

Lemma good_free_size u a s off cs b m :
  os_recv_buf s = Some (b, m) → state_lt (os_state s) CONNECTED = false →
  msg_type m = message_type_code FREE_SIZE →
  ∃ ta cs', handle_recv_wr u (recv_wc m) (live a s off cs) =
    Done 0 (live a (s <| os_state := FREE_MEM_RECV |>
      <| os_chunks := mkChunkList (Some (ta, replicate (Z.to_nat (u32 (msg_size_gb m))) zero_chunk))
                        (u32 (msg_size_gb m)) (u32 (msg_size_gb m)) 0 |>) 30 cs').
Proof.
  intros Hb Hst Hty. unfold handle_recv_wr. cbn [wc_byte_len recv_wc]. rewrite Z.eqb_refl. cbn [negb].
  lstep. rewrite Hst. lstep. rewrite Hb. lstep. cbn [snd].
  unfold rdma_message_print. match goal with |- context [(name_buffer ?n ≫= ?k) (live a ?s1 off ?cs1)] =>
    destruct (run_name n k a s1 off cs1 (old_message_text_ok _)) as [r ->] end. cbv beta.
  rewrite Hty. change (message_type_of_code (message_type_code FREE_SIZE)) with (Some FREE_SIZE). cbn iota.
  unfold set_chunks at 1, set_state. repeat lstep.
  match goal with |- context [(init_remote_chunk_list u ≫= ?k) (live a ?s1 off ?cs1)] =>
    pose proof (old_init_run u a s1 off cs1) as Hi; cbv zeta in Hi;
    destruct (kg_ptr Hg cs1 (table_call s1)) as [ta Hta]; rewrite Hta in Hi;
    rewrite (prog_bind_step _ _ _ _ _ Hi); clear Hi Hta;
    assert (table_size s1 = u32 (msg_size_gb m)) as Hsz
  end.
  { unfold table_size, CHUNK_SIZE_GB. cbn. rewrite Z.div_1_r. by autorewrite with cint. }
  unfold new_table, empty_chunks, live_cl. rewrite Hsz. unfold wake_up. repeat lstep.
  eexists _, _. reflexivity.
Qed.

Lemma good_got_chunks u a s off cs b m :
  os_recv_buf s = Some (b, m) → wf_message m → state_lt (os_state s) CONNECTED = false →
  msg_type m = message_type_code GOT_CHUNKS → wf_table (os_chunks s) →
  chunk_ptr (os_chunks s) < chunk_num (os_chunks s) →
  handle_recv_wr u (recv_wc m) (live a s off cs) =
    Done 0 (live a (s <| os_state := TEST_DONE |> <| os_chunks := fill_chunks (received m) (os_chunks s) |>) off
      ((cs ++ [K_kzalloc 32]) ++ [K_wake_up])).
Proof.
  intros Hb Hm Hst Hty Hwf Hlt. unfold handle_recv_wr. cbn [wc_byte_len recv_wc]. rewrite Z.eqb_refl. cbn [negb].
  lstep. rewrite Hst. lstep. rewrite Hb. lstep. cbn [snd].
  unfold rdma_message_print. match goal with |- context [(name_buffer ?n ≫= ?k) (live a ?s1 off ?cs1)] =>
    destruct (run_name n k a s1 off cs1 (old_message_text_ok _)) as [r ->] end. cbv beta.
  rewrite Hty. change (message_type_of_code (message_type_code GOT_CHUNKS)) with (Some GOT_CHUNKS). cbn iota.
  destruct (old_bind_run a s off (cs ++ [K_kzalloc 32]) b m Hb Hm Hwf) as [H1 _].
  rewrite (prog_bind_step _ _ _ _ _ (H1 Hlt)). unfold set_state, wake_up, live_cl. repeat lstep.
  reflexivity.
Qed.

Definition resolve_cond (d : old_data) : bool :=
  match rdma_session_global d with SLive _ s => state_ge (os_state s) ROUTE_RESOLVED | _ => false end.
Definition connected_cond (d : old_data) : bool :=
  match rdma_session_global d with SLive _ s => state_ge (os_state s) CONNECTED | _ => false end.

Lemma wait_blocks c a s off cs :
  c (os_state s) = false →
  wait_state c (live a s off cs) =
  WWait (λ d, match rdma_session_global d with SLive _ s => c (os_state s) | _ => false end) (live a s off cs) (WDone tt).
Proof. intros Hc. unfold wait_state, wait. cbn [p_data live rdma_session_global]. by rewrite Hc. Qed.

Lemma good_resolve a s off cs :
  state_ge (os_state s) ROUTE_RESOLVED = false →
  ∃ r, rdma_resolve_ip_to_ib_device (live a s off cs) =
         WWait resolve_cond (live a s off (cs ++ [K_rdma_resolve_addr (os_addr s) (os_port s) 2000])) r ∧
    ∀ s' off' cs', os_state s' = ROUTE_RESOLVED → r (live a s' off' cs') = WDone 0 (live a s' off' cs').
Proof.
  intros Hst. unfold rdma_resolve_ip_to_ib_device. gstep. cbn [id]. erewrite wlift_step by reflexivity.
  cbn [p_calls live p_data]. good_call Hg. cbn [Z.eqb negb]. rewrite wprog_bind_unfold. unfold wait_state, wait.
  cbn [p_data live rdma_session_global]. rewrite Hst. cbn [wsusp_bind]. eexists. split; [reflexivity|].
  intros s' off' cs' Hs. cbn [wsusp_bind]. gstep. unfold state_is. rewrite bool_decide_true by done. reflexivity.
Qed.

Lemma good_connect a s off cs :
  state_ge (os_state s) CONNECTED = false →
  ∃ r, octopus_connect_remote_memory_server (live a s off cs) =
         WWait connected_cond (live a s off (cs ++ [K_rdma_connect 1 1 10])) r ∧
    ∀ s' off' cs', r (live a s' off' cs') = WDone 0 (live a s' off' cs').
Proof.
  intros Hst. unfold octopus_connect_remote_memory_server. erewrite wlift_step by reflexivity.
  cbn [p_calls live p_data]. good_call Hg. cbn [Z.eqb negb]. rewrite wprog_bind_unfold. unfold wait_state, wait.
  cbn [p_data live rdma_session_global]. rewrite Hst. cbn [wsusp_bind]. eexists. split; [reflexivity|].
  intros s' off' cs'. cbn [wsusp_bind]. gstep. by destruct (state_is _ _).
Qed.

Lemma good_notify a s off cs c :
  os_cq s = KPtr c → connect_notify (live a s off cs) = Done 0 (live a s off (cs ++ [K_ib_req_notify_cq (os_cq s)])).
Proof.
  intros Hc. unfold connect_notify. repeat lstep. rewrite Hc. repeat lstep.
  match goal with |- context [ask k_int ?x (live a ?s1 off ?cs1)] =>
    change (ask k_int x (live a s1 off cs1)) with (Done (S := old_data) (k_int cs1 x) (live a s1 off (cs1 ++ [x]))) end.
  by good_call Hg.
Qed.

(** The two messages of the server, and the request between them. *)
Lemma good_messages u a s cs c m1 m2 :
  ready s → os_cq s = KPtr c → os_state s = CONNECTED →
  msg_type m1 = message_type_code FREE_SIZE → 0 < u32 (msg_size_gb m1) →
  msg_type m2 = message_type_code GOT_CHUNKS → wf_message m2 →
  ∃ s4 cs4 s5 cs5 s6 cs6 ta sge rq,
    octopus_cq_event_handler u (KPtr c) (Some (recv_wc m1)) (live a s 0 cs) = Done tt (live a s4 30 cs4) ∧
    os_state s4 = FREE_MEM_RECV ∧
    octupos_requset_for_chunk 8 (live a s4 30 cs4) = Done 0 (live a s5 30 cs5) ∧ os_state s5 = FREE_MEM_RECV ∧
    octopus_cq_event_handler u (KPtr c) (Some (recv_wc m2)) (live a s5 30 cs5) = Done tt (live a s6 30 cs6) ∧
    os_state s6 = TEST_DONE ∧
    os_chunks s6 = fill_chunks (received m2)
      (mkChunkList (Some (ta, replicate (Z.to_nat (u32 (msg_size_gb m1))) zero_chunk))
         (u32 (msg_size_gb m1)) (u32 (msg_size_gb m1)) 0) ∧
    K_ib_post_send_msg sge rq ∈ cs6 ∧ msg_type rq = message_type_code REQUEST_CHUNKS ∧ msg_size_gb rq = 8.
Proof.
  intros Hrd Hc Hst Ht1 Hn Ht2 Hw2. destruct (rd_recv _ Hrd) as [[b m0] Hb].
  destruct (good_free_size u a (s <| os_recv_buf ::= fmap (λ p, (p.1, m1)) |>) 0 cs b m1) as (ta & cs4 & Hfree).
  { change (prod_map id (λ _, m1) <$> os_recv_buf s = Some (b, m1)). by rewrite Hb. }
  { change (state_lt (os_state s) CONNECTED = false). by rewrite Hst. }
  { done. }
  set (s4 := _ <| os_chunks := _ |>) in Hfree.
  assert (state_lt (os_state s) CONNECTED = false ∧ os_state s ≠ ERROR) as [Hlt Hne] by (by rewrite Hst).
  pose proof (good_cq_event u a s 0 cs (KPtr c) m1 _ _ _ _ Hc Hlt Hne Hfree) as Hev1.
  destruct (good_request a s4 30 (cs4 ++ [K_ib_req_notify_cq (os_cq s4)])) as (am & rq & cs5 & Hreq & Hrt & Hrs & Hlast).
  { destruct Hrd as [? ? ? ?]. split; [done|done| |done].
    change (is_Some (prod_map id (λ _, m1) <$> os_recv_buf s)). rewrite Hb. by eexists. }
  set (s5 := s4 <| os_send_buf := _ |>) in Hreq.
  opose proof* (good_got_chunks u a (s5 <| os_recv_buf ::= fmap (λ p, (p.1, m2)) |>) 30 cs5 b m2) as Hgot.
  { change (prod_map id (λ _, m2) <$> (prod_map id (λ _, m1) <$> os_recv_buf s) = Some (b, m2)). by rewrite Hb. }
  { done. }
  { done. }
  { done. }
  { apply empty_table_wf, u32_range. }
  { cbn. lia. }
  set (s6 := _ <| os_chunks := _ |>) in Hgot.
  pose proof (good_cq_event u a s5 30 cs5 (KPtr c) m2 _ _ _ _ Hc eq_refl ltac:(done) Hgot) as Hev2.
  exists s4, (cs4 ++ [K_ib_req_notify_cq (os_cq s4)]), s5, cs5, s6. eexists _, ta, _, rq.
  split_and!; [done|done|done|done|done|done|done| |done|done].
  apply last_Some_elem_of in Hlast. rewrite !elem_of_app. eauto.
Qed.

End Good.

(** The schedule of a handshake: the two resolutions, the connection, the
    server's free size, the request, the server's chunks. *)
Definition handshake (u : Z) (c : kptr) (m1 m2 : message) : list (@action old_event) :=
  [Event (Load u); Event (CmEvent u RDMA_CM_EVENT_ADDR_RESOLVED);
   Event (CmEvent u RDMA_CM_EVENT_ROUTE_RESOLVED); Resume 0;
   Event (CmEvent u RDMA_CM_EVENT_ESTABLISHED); Resume 0;
   Event (CqEvent u c (Some (recv_wc m1))); Resume 0;
   Event (CqEvent u c (Some (recv_wc m2))); Resume 0].

(** With a kernel whose calls succeed the handshake ends: after the two
    resolutions, the connection, the server's announcement of at least one
    chunk and its chunk message, the loading thread is over, the client has
    asked for exactly eight chunks, and its table is the announced one filled
    with the received chunks. *)
Theorem old_handshake_succeeds `{K : kernel} `{O : old_params} u m1 m2 :
  kernel_good K → msg_type m1 = message_type_code FREE_SIZE → 0 < u32 (msg_size_gb m1) →
  msg_type m2 = message_type_code GOT_CHUNKS → wf_message m2 →
  ∃ c a s off cs ts ta sge rq,
    play old_handle (handshake u c m1 m2) (old_start, []) = Some (live a s off cs, ts) ∧
    Forall (λ t, t = PThread_over) ts ∧ os_state s = TEST_DONE ∧
    os_chunks s = fill_chunks (received m2)
      (mkChunkList (Some (ta, replicate (Z.to_nat (u32 (msg_size_gb m1))) zero_chunk))
         (u32 (msg_size_gb m1)) (u32 (msg_size_gb m1)) 0) ∧
    K_ib_post_send_msg sge rq ∈ cs ∧ msg_type rq = message_type_code REQUEST_CHUNKS ∧ msg_size_gb rq = 8.
Proof.
  intros Hg Ht1 Hn Ht2 Hw2.
  destruct (good_init Hg) as (a & s0 & cs0 & Hinit & [x Hx] & Hst0 & Hk0 & Hcl0).
  destruct (good_resolve Hg a s0 0 cs0) as (r1 & Hr1 & Hr1'); [by rewrite Hst0|].
  set (s1 := s0 <| os_state := ADDR_RESOLVED |> <| os_state := ROUTE_RESOLVED |>).
  set (cs1 := ((cs0 ++ [K_rdma_resolve_addr (os_addr s0) (os_port s0) 2000]) ++ [K_rdma_resolve_route 2000]) ++ [K_wake_up]).
  destruct (good_setup Hg u a s1 0 cs1 x Hx Hk0) as (s2 & cs2 & Hset & Hrd & Hst2 & Hcl2).
  destruct (good_connect Hg a s2 0 cs2) as (r2 & Hr2 & Hr2'); [by rewrite Hst2|].
  destruct (rd_cq _ Hrd) as [c Hc].
  set (s3 := s2 <| os_state := CONNECTED |>).
  pose proof (good_notify Hg a s3 0 (cs2 ++ [K_rdma_connect 1 1 10; K_wake_up]) c Hc) as Hnot. set (cs3 := (_ ++ [K_ib_req_notify_cq _])) in Hnot.
  destruct (good_messages Hg u a s3 cs3 c m1 m2) as (s4 & cs4 & s5 & cs5 & s6 & cs6 & ta & sge & rq & Hev1 & Hs4 & Hreq & Hs5 & Hev2 & Hs6 & Hcl & Hrq);
    [by destruct Hrd|done..|].
  exists (KPtr c), a. unfold handshake.
  erewrite play_event.
  2:{ cbn [old_handle]. unfold forget, octopus_rdma_client_init_module, octopus_RDMA_connect.
      do 2 rewrite wprog_bind_unfold. rewrite (wlift_step _ _ _ _ _ Hinit). rewrite wprog_bind_unfold, Hr1.
      cbn [wsusp_bind psettle]. reflexivity. }
  erewrite play_event by reflexivity. erewrite play_event by reflexivity.
  erewrite play_resume; [|reflexivity|reflexivity|].
  2:{ at_state (live a s1 0 cs1). rewrite Hr1' by reflexivity. cbn [wsusp_bind Z.eqb negb].
      rewrite (wlift_step _ _ _ _ _ Hset), wprog_bind_unfold, Hr2. cbn [wsusp_bind psettle]. reflexivity. }
  erewrite play_event by reflexivity.
  erewrite play_resume; [|reflexivity|reflexivity|].
  2:{ at_state (live a s3 0 ((cs2 ++ [K_rdma_connect 1 1 10]) ++ [K_wake_up])). rewrite <- app_assoc. cbn [app].
      rewrite Hr2'. cbn [wsusp_bind]. rewrite (wlift_step _ _ _ _ _ Hnot). cbn [Z.eqb negb].
      rewrite wprog_bind_unfold, wait_blocks by reflexivity. cbn [wsusp_bind psettle]. reflexivity. }
  erewrite play_event.
  2:{ cbn [old_handle]. unfold wlift. rewrite Hev1. reflexivity. }
  erewrite play_resume; [|reflexivity|cbn; by rewrite Hs4|].
  2:{ cbv beta. cbn [wsusp_bind]. rewrite (wlift_step _ _ _ _ _ Hreq). cbn [Z.eqb negb].
      rewrite wprog_bind_unfold, wait_blocks by (by rewrite Hs5). cbn [wsusp_bind psettle]. reflexivity. }
  erewrite play_event.
  2:{ cbn [old_handle]. unfold wlift. rewrite Hev2. reflexivity. }
  erewrite play_resume; [|reflexivity|cbn; by rewrite Hs6|reflexivity].
  eexists s6, _, _, _, ta, sge, rq. split; [reflexivity|]. split; [by repeat constructor|]. done.
Qed.

(** ** Errors the code drops *)

(** The state has one place for two facts.  When the peer disconnects, the
    receives that are still posted complete with an error, and the handler
    replaces CM_DISCONNECT by ERROR; unloading then disconnects once more and
    waits for CM_DISCONNECT, and no completion ever brings it: every further
    one is ignored. *)
Theorem old_unload_after_flush `{K : kernel} `{O : old_params} u a s off cs wc :
  os_state s ≠ ERROR → wc_status wc ≠ 0 → wc_data wc = None →
  ∃ w1 w2 w3 cond k,
    octopus_rdma_cm_event_handler u RDMA_CM_EVENT_DISCONNECTED (live a s off cs) = Done u w1 ∧
    octopus_cq_event_handler u (os_cq s) (Some wc) w1 = Done tt w2 ∧
    octopus_rdma_client_cleanup_module u w2 = WWait cond w3 k ∧ cond (p_data w3) = false ∧
    ∀ wc', octopus_cq_event_handler u (os_cq s) wc' w3 = Done tt w3.
Proof.
  intros Hst Hwc Hd. eexists _, (live a (s <| os_state := CM_DISCONNECT |> <| os_state := ERROR |>) off (cs ++ [K_wake_up])), _, _, _.
  split; [reflexivity|]. split.
  { change (mkPstate _ _) with (live a (s <| os_state := CM_DISCONNECT |>) off (cs ++ [K_wake_up])).
    unfold octopus_cq_event_handler, handle_wc. lstep. cbn [id].
    rewrite bool_decide_false by (intros H; by apply H). change (state_is _ ERROR) with false. cbn iota.
    rewrite Hd. repeat lstep. rewrite (proj2 (Z.eqb_neq _ _) Hwc). cbn [negb]. repeat lstep. reflexivity. }
  split; [reflexivity|]. split; [reflexivity|]. intros wc'.
  unfold octopus_cq_event_handler. gstep. cbn [id]. by rewrite bool_decide_false by (intros H; by apply H).
Qed.

(** The queue pair of the live session. *)
Definition session_qp (w : pstate old_data kcall) : option kptr :=
  match rdma_session_global (p_data w) with SLive _ s => Some (os_qp s) | _ => None end.
Definition qp_same (w w' : pstate old_data kcall) : Prop := session_qp w = session_qp w'.

#[export] Instance qp_same_preorder : PreOrder qp_same.
Proof. split; [by intros w|]. intros w1 w2 w3. unfold qp_same. congruence. Qed.

Lemma qp_same_ask {A} (f : list kcall → kcall → A) c : ppres qp_same (ask f c).
Proof. by intros [d cs] a w' [= _ <-]. Qed.
Lemma qp_same_sess {A} (f : rdma_session_context → A) : ppres qp_same (sess f).
Proof. intros [[[| |] off] cs] r w' H; [done| |done]. by injection H as _ <-. Qed.
Lemma qp_same_set f : (∀ s, os_qp (f s) = os_qp s) → ppres qp_same (set_sess f).
Proof.
  intros Hf [[[|a s|] off] cs] r w' H; [done| |done]. injection H as _ <-. unfold qp_same, session_qp. cbn. by rewrite Hf.
Qed.
Lemma qp_same_kmalloc `{K : kernel} `{O : old_params} : ppres qp_same kmalloc_message.
Proof. by intros [d cs] a w' [= _ <-]. Qed.

#[export] Hint Resolve qp_same_ask qp_same_sess qp_same_kmalloc : ppres.
#[export] Hint Extern 1 (ppres qp_same (set_sess _)) => apply qp_same_set; intros ?; reflexivity : ppres.

Lemma qp_same_setup_buffers `{K : kernel} `{O : old_params} u : ppres qp_same (octopus_setup_buffers u).
Proof. unfold octopus_setup_buffers, octopus_setup_message_wr, message_lkey. ppres_go. Qed.

(** A failure to create the queues leaves no queue pair. *)
Lemma failed_queues_qp `{K : kernel} `{O : old_params} a s off cs ret w :
  os_qp s = KNull → octopus_create_rdma_queues (live a s off cs) = Done ret w → ret ≠ 0 → session_qp w = Some KNull.
Proof.
  intros Hq H Hr. unfold octopus_create_rdma_queues, octopus_create_qp in H. rewrite run_assoc, run_sess in H.
  destruct (os_cm_id s); [done| |done]. rewrite run_valid, run_ask, run_set in H.
  destruct (IS_ERR _); [injection H as _ <-; cbn; by rewrite Hq|].
  rewrite run_sess, run_ask, run_set in H. destruct (IS_ERR _); [injection H as _ <-; cbn; by rewrite Hq|].
  rewrite run_sess, run_ask in H. destruct (Z.eqb_spec (k_int (((cs ++ [K_ib_alloc_pd]) ++ [K_ib_create_cq (i32 (os_txdepth s * 2))])) (K_rdma_create_qp (os_txdepth s) (os_txdepth s))) 0) as [Hz|Hz].
  - exfalso. apply Hr. cbn in H. rewrite Hz in H. cbn in H. by injection H.
  - apply Z.eqb_neq in Hz. cbn in H. rewrite Hz in H. injection H as _ <-. cbn. by rewrite Hq.
Qed.

(** The results of creating the queues and the buffers are only printed:
    when the protection domain, the completion queue or the queue pair cannot
    be created, the set-up of the connection does not return an error, it
    never returns: it dereferences what is missing. *)
Theorem old_queue_errors_crash `{K : kernel} `{O : old_params} u a s off cs ret w1 :
  session_qp (live a s off cs) = Some KNull → octopus_create_rdma_queues (live a s off cs) = Done ret w1 → ret ≠ 0 →
  ∀ r w', connect_setup u (live a s off cs) ≠ Done r w'.
Proof.
  intros [= Hq] Hc Hr r w' H. pose proof (failed_queues_qp _ _ _ _ _ _ Hq Hc Hr) as Hnull.
  unfold connect_setup in H. rewrite (prog_bind_step _ _ _ _ _ Hc) in H.
  apply prog_bind_Done in H as (r2 & w2 & H2 & H). apply qp_same_setup_buffers in H2. unfold qp_same in H2.
  rewrite Hnull in H2. destruct w2 as [[[|a2 s2|] off2] cs2]; cbn in H2; [done| |done]. injection H2 as H2.
  apply prog_bind_Done in H as (r3 & w3 & H3 & _). unfold post_recv_wr in H3.
  change (mkPstate _ _) with (live a2 s2 off2 cs2) in H3. rewrite run_assoc, run_sess, <- H2 in H3. done.
Qed.

(** ** Witnesses *)

#[local] Existing Instance kernel_ok.
#[local] Instance demo_params : old_params := {| sizeof_session := 512; kmalloc_junk := λ _, zero_message |}.

Lemma kernel_ok_good : kernel_good kernel_ok.
Proof.
  split.
  - by intros cs [].
  - intros cs c. by eexists.
  - by eexists.
Qed.

Definition free_size_message : message := zero_message <| msg_size_gb := 4 |> <| msg_type := message_type_code FREE_SIZE |>.

Lemma old_handshake_succeeds_witness :
  ∃ c a s off cs ts, play old_handle (handshake 0 c free_size_message demo_message) (old_start, []) = Some (live a s off cs, ts) ∧
    os_state s = TEST_DONE.
Proof.
  destruct (old_handshake_succeeds 0 free_size_message demo_message) as (c & a & s & off & cs & ts & ta & sge & rq & H1 & _ & H2 & _).
  - exact kernel_ok_good.
  - reflexivity.
  - reflexivity.
  - reflexivity.
  - exact demo_wf_message.
  - exists c, a, s, off, cs, ts. split; [exact H1|exact H2].
Defined.

(** The end of the handshake, after loading. *)
Definition loaded : pstate old_data kcall * list (@pthread old_data kcall) :=
  match psettle (old_handle (Load 0) old_start) with Some (w, t) => (w, [t]) | None => (old_start, []) end.
Definition after_loading : list (action (E := old_event)) :=
  tail (handshake 0 (KPtr 32768) free_size_message demo_message).
Definition handshake_end : pstate old_data kcall * list (@pthread old_data kcall) :=
  default loaded (play old_handle after_loading loaded).

(** How many chunks the session of a state holds. *)
Definition bound_chunks (st : pstate old_data kcall * list (@pthread old_data kcall)) : option Z :=
  match rdma_session_global (p_data st.1) with SLive _ s => Some (chunk_ptr (os_chunks s)) | _ => None end.

Lemma loaded_reached : old_reachable loaded.
Proof.
  assert (match psettle (old_handle (Load 0) old_start) with Some _ => true | None => false end = true) as Hs
    by (vm_compute; reflexivity).
  unfold old_reachable, loaded. destruct (psettle (old_handle (Load 0) old_start)) as [[w t]|] eqn:E; [|discriminate Hs].
  apply rtc_once. by apply (sched_event _ _ old_start [] (Load 0)).
Qed.

Lemma handshake_end_reached : old_reachable handshake_end.
Proof.
  assert (match play old_handle after_loading loaded with Some _ => true | None => false end = true) as Hs
    by (vm_compute; reflexivity).
  unfold old_reachable. transitivity loaded; [exact loaded_reached|]. apply (play_reach old_handle old_event_ok after_loading).
  - unfold after_loading, handshake, tail. repeat apply Forall_cons_2; try (intros; exact I).
    + intros w m H. injection H as <-. split; reflexivity.
    + intros w m H. injection H as <-. exact demo_wf_message.
    + constructor.
  - unfold handshake_end. destruct (play old_handle after_loading loaded); [reflexivity|discriminate Hs].
Qed.

Lemma bound_chunks_live st n :
  bound_chunks st = Some n →
  ∃ a s, rdma_session_global (p_data st.1) = SLive a s ∧ chunk_ptr (os_chunks s) = n.
Proof. unfold bound_chunks. destruct (rdma_session_global (p_data st.1)); naive_solver. Qed.

Lemma handshake_end_bound : bound_chunks handshake_end = Some 2.
Proof. vm_compute. reflexivity. Qed.

Lemma demo_junk cs : wf_message (kmalloc_junk cs).
Proof. by split. Qed.

Lemma old_client_invariant_witness :
  ∃ a s, rdma_session_global (p_data handshake_end.1) = SLive a s ∧ session_ok s ∧ chunk_ptr (os_chunks s) = 2.
Proof.
  destruct (old_client_invariant handshake_end demo_junk handshake_end_reached) as [_ H].
  destruct (bound_chunks_live handshake_end 2 handshake_end_bound) as (a & s & E & Hp).
  exists a, s. exact (conj E (conj (proj2 (H a s E)) Hp)).
Defined.

Lemma old_unload_after_flush_witness :
  ∃ w1 w2 w3 cond k,
    octopus_rdma_cm_event_handler 0 RDMA_CM_EVENT_DISCONNECTED (live 64 demo_session 30 []) = Done 0 w1 ∧
    octopus_cq_event_handler 0 KNull (Some (mkWc 5 IB_WC_RECV 0 None None)) w1 = Done tt w2 ∧
    octopus_rdma_client_cleanup_module 0 w2 = WWait cond w3 k.
Proof.
  destruct (old_unload_after_flush 0 64 demo_session 30 [] (mkWc 5 IB_WC_RECV 0 None None))
    as (w1 & w2 & w3 & cond & k & H1 & H2 & H3 & _); [discriminate|discriminate|reflexivity|].
  exists w1, w2, w3, cond, k. split; [exact H1|]. split; [exact H2|exact H3].
Defined.

(** No protection domain. *)
Definition kernel_no_pd : kernel :=
  mkKernel (@k_int kernel_ok) (λ cs c, match c with K_ib_alloc_pd => KErr 12 | _ => @k_ptr kernel_ok cs c end)
    (@k_qp kernel_ok) 7 8 2 120 40.

Lemma old_queue_errors_crash_witness :
  @connect_setup kernel_no_pd demo_params 0 (live 64 (demo_session <| os_cm_id := KPtr 8 |>) 30 []) ≠ Done tt old_start.
Proof.
  eapply (@old_queue_errors_crash kernel_no_pd demo_params 0 64 (demo_session <| os_cm_id := KPtr 8 |>) 30 [] (-12)).
  - reflexivity.
  - reflexivity.
  - discriminate.
Defined.
