(* ===== verification/OldStall.v ===== *)
(** * Neither client answers an eviction

    The older client, like the driver of [EvictStall], only ever asks: every
    message it has posted in any interleaving is a request for chunks
    ([old_reachable_asks]).  [RequestOnly] states this as the interface that
    matters to the server; the theorem that its eviction does not end is
    proved once, against the interface, and both clients are instances. *)

From S2P Require Import Prelude BitOps OctTypes Kernel Names Prog ChunkList CmdQueue OneSided BlockIO BlockDev.
From S2P Require Import Session Connect System Server Evict Ownership EvictStall OldClient OldSystem.

(** ** The interface *)

(** A program whose states record the calls it has made. *)
Class Caller (St : Type) := {
  ca_reachable : St → Prop;
  ca_calls : St → list kcall
}.

(** Every message it posts is a request for chunks. *)
Class RequestOnly (St : Type) `{C : Caller St} : Prop :=
  law_only_asks st : ca_reachable st → Forall only_asks (ca_calls st).

(** The message of an arrival on connection [p] is one the program has posted. *)
Definition posted_by `{C : Caller St} (st : St) (p : nat) (a : arrival) : Prop :=
  a_conn a = p ∧ ∃ sge, K_ib_post_send_msg sge (a_msg a) ∈ ca_calls st.

(** C12. No client of the repository answers an eviction: against any client
    that only posts requests, and whatever it has posted, the eviction of more
    chunks than the server has to spare does not come to an end. *)
Theorem eviction_never_ends_any_client {St : Type} `{C : Caller St} `{!RequestOnly St} `{V : verbs}
    (st : St) p s stop_g rnd junk uninit wait wait' r s' :
  ca_reachable st → wf_remote (rdma_remote s) → Z.of_nat (length (available_list (rdma_remote s) 0)) < stop_g →
  conns s = [Some p] → conns_state s = [CONN_MAPPED] → sems s !! p = Some (Some 0) →
  Forall (posted_by st p) (wait 0%nat) →
  evict_mem stop_g rnd junk uninit wait wait' s ≠ SRet r s'.
Proof.
  intros Hr%law_only_asks Hwf Hfew Hc Hst Hsem Hw. apply (evict_stalls _ _ _ _ _ _ p); try done.
  eapply Forall_impl; [exact Hw|]. intros a (_ & sge & Hin). rewrite Forall_forall in Hr. specialize (Hr _ Hin). cbn in Hr.
  unfold no_activity. by destruct Hr as [->| ->].
Qed.

(** ** The driver *)

#[export] Instance driver_caller `{K : kernel} (u : Z) : Caller (world * list thread) := {
  ca_reachable := reachable u;
  ca_calls st := w_trace st.1
}.

#[export] Instance driver_requests `{K : kernel} u : @RequestOnly _ (driver_caller u).
Proof. intros st. apply reachable_asks. Qed.

(** ** The older client *)

Definition old_asking (w : pstate old_data kcall) : Prop := Forall only_asks (p_calls w).
Definition old_asks (w w' : pstate old_data kcall) : Prop := old_asking w → old_asking w'.

#[export] Instance old_asks_preorder : PreOrder old_asks.
Proof. split; [by intros w Hw|]. intros w1 w2 w3 H1 H2 H. auto. Qed.

Lemma old_asks_snoc d cs c d' : only_asks c → old_asks (mkPstate d cs) (mkPstate d' (cs ++ [c])).
Proof. intros Hc Hw. apply Forall_app. split; [exact Hw|]. by repeat constructor. Qed.

Lemma old_asks_tell c : only_asks c → ppres old_asks (tell c).
Proof. intros Hc [d cs] a w' [= _ <-]. by apply old_asks_snoc. Qed.
Lemma old_asks_ask {A} (f : list kcall → kcall → A) c : only_asks c → ppres old_asks (ask f c).
Proof. intros Hc [d cs] a w' [= _ <-]. by apply old_asks_snoc. Qed.
Lemma old_asks_update f : ppres old_asks (update f).
Proof. intros [d cs] a w' [= _ <-] Hw. exact Hw. Qed.
Lemma old_asks_sess {A} (f : rdma_session_context → A) : ppres old_asks (sess f).
Proof. intros [[[| |] off] cs] r w' H; [done| |done]. injection H as _ <-. intros Hw. exact Hw. Qed.
Lemma old_asks_set f : ppres old_asks (set_sess f).
Proof. intros [[[| |] off] cs] r w' H; [done| |done]. injection H as _ <-. intros Hw. exact Hw. Qed.

#[export] Hint Resolve old_asks_tell old_asks_ask old_asks_update old_asks_sess old_asks_set : ppres.
#[export] Hint Extern 1 (only_asks _) => exact I : ppres.

Section Asks.
Context {K : kernel} {O : old_params}.

Lemma old_asks_kzalloc {A} n (x : A) : ppres old_asks (kzalloc n x).
Proof. unfold kzalloc. ppres_go. Qed.
Hint Resolve old_asks_kzalloc : ppres.

Lemma old_asks_print n : ppres old_asks (rdma_message_print n).
Proof. unfold rdma_message_print, name_buffer. ppres_go. Qed.
Hint Resolve old_asks_print : ppres.

(** Printing a name leaves the send buffer as it is. *)
Definition send_buffer (w : pstate old_data kcall) : option (cptr message) :=
  match rdma_session_global (p_data w) with SLive _ s => Some (os_send_buf s) | _ => None end.
Definition same_send (w w' : pstate old_data kcall) : Prop := send_buffer w' = send_buffer w.
#[local] Instance same_send_preorder : PreOrder same_send.
Proof. split; [by intros w|]. intros w1 w2 w3 H1 H2. unfold same_send in *. congruence. Qed.

Lemma same_send_print n : ppres same_send (rdma_message_print n).
Proof.
  assert (∀ {A} f c, ppres same_send (@ask _ _ A f c)) by (by intros A f c [d cs] a w' [= _ <-]).
  unfold rdma_message_print, name_buffer, kzalloc. ppres_go.
Qed.

Lemma sess_inv {A} (f : rdma_session_context → A) w x w' :
  sess f w = Done x w' → w' = w ∧ ∃ a s, rdma_session_global (p_data w) = SLive a s ∧ x = f s.
Proof. destruct w as [[[|a s|] off] cs]; [done| |done]. intros [= <- <-]. split; [done|]. by exists a, s. Qed.

Lemma set_sess_inv f w x w' :
  set_sess f w = Done x w' →
  p_calls w' = p_calls w ∧ ∃ a s, rdma_session_global (p_data w) = SLive a s ∧ rdma_session_global (p_data w') = SLive a (f s).
Proof. destruct w as [[[|a s|] off] cs]; [done| |done]. intros [= _ <-]. split; [done|]. by exists a, s. Qed.

Lemma old_asks_send t n : request_type t → ppres old_asks (send_message_to_remote t n).
Proof.
  intros Ht w r w' H. unfold send_message_to_remote in H. grun.
  repeat match goal with
  | H : sess _ _ = Done _ _ |- _ => apply sess_inv in H as (-> & ? & ? & ? & ?)
  | H : set_sess _ _ = Done _ _ |- _ => apply set_sess_inv in H as (? & ? & ? & ? & ?)
  end.
  match goal with H : rdma_message_print t ?v = Done _ ?v' |- _ =>
    pose proof (same_send_print _ _ _ _ H) as Hs; apply old_asks_print in H; unfold same_send, send_buffer in Hs end.
  unfold old_asks, old_asking in *. intros Hw. apply Forall_app. split; [apply Hs3; congruence|].
  apply Forall_singleton.
  repeat match goal with H : rdma_session_global _ = _ |- _ => try rewrite H in Hs; revert H end. intros.
  simplify_eq. cbn in Hs.
  match goal with H : Some _ = os_send_buf _ |- only_asks (K_ib_post_send_msg _ ?m.2) => 
    match type of H with Some m = _ => rewrite Hs in H; injection H as -> end end.
  exact Ht.
Qed.

Lemma old_asks_request n : ppres old_asks (octupos_requset_for_chunk n).
Proof.
  assert (∀ z, ppres old_asks (send_message_to_remote (if n =? 1 then message_type_code REQUEST_SINGLE_CHUNK
    else message_type_code REQUEST_CHUNKS) z)).
  { intros z. apply old_asks_send. destruct (n =? 1); [by right|by left]. }
  unfold octupos_requset_for_chunk, post_recv_wr. ppres_go.
Qed.

Lemma old_asks_cm_event u e : ppres old_asks (octopus_rdma_cm_event_handler u e).
Proof. unfold octopus_rdma_cm_event_handler, set_state, wake_up. ppres_go. Qed.

Lemma old_asks_init_table u : ppres old_asks (init_remote_chunk_list u).
Proof. unfold init_remote_chunk_list, set_chunks, set_chunk. ppres_go. Qed.

Lemma old_asks_bind : ppres old_asks bind_remote_memory_chunks.
Proof. unfold bind_remote_memory_chunks, bind_body, set_chunks, set_chunk. ppres_go. Qed.

Lemma old_asks_recv u wc : ppres old_asks (handle_recv_wr u wc).
Proof.
  pose proof (old_asks_init_table u). pose proof old_asks_bind.
  unfold handle_recv_wr, set_chunks, print_chunk, set_state, wake_up. ppres_go.
Qed.

Lemma old_asks_cq_event u c wc : ppres old_asks (octopus_cq_event_handler u c wc).
Proof.
  pose proof (old_asks_recv u). unfold octopus_cq_event_handler, handle_wc, set_state. ppres_go.
Qed.

Lemma old_asks_kmalloc : ppres old_asks kmalloc_message.
Proof. intros [d cs] r w' [= _ <-]. by apply old_asks_snoc. Qed.

Lemma old_asks_setup u : ppres old_asks (connect_setup u).
Proof.
  pose proof old_asks_kmalloc.
  unfold connect_setup, octopus_create_rdma_queues, octopus_create_qp, octopus_setup_buffers, octopus_setup_message_wr,
    message_lkey, post_recv_wr. ppres_go.
Qed.

Lemma old_asks_load u : wpres old_asks (octopus_rdma_client_init_module u).
Proof.
  pose proof (old_asks_setup u). pose proof (old_asks_request 8).
  unfold octopus_rdma_client_init_module, octopus_RDMA_connect, connect_init, rdma_resolve_ip_to_ib_device,
    octopus_connect_remote_memory_server, connect_notify, wait_state, set_state. ppres_go.
Qed.

Lemma old_asks_unload u : wpres old_asks (octopus_rdma_client_cleanup_module u).
Proof.
  unfold octopus_rdma_client_cleanup_module, octopus_disconenct_and_collect_resource, octopus_free_buffers,
    octopus_free_rdma_structure, free_session, free_ptr, destroy_if, wait_state. ppres_go.
Qed.

(** In every interleaving, every message posted so far is a request for
    chunks. *)
Lemma old_reachable_asks st : old_reachable st → Forall only_asks (p_calls st.1).
Proof.
  intros Hr. apply (sched_ind old_handle old_event_ok old_asks old_asking old_start st) in Hr; [done|auto| |constructor].
  intros w [u|u e|u c wc|u] _; unfold old_handle, forget.
  - apply (wpres_bind _ _ (old_asks_load u)). intros ?. ppres_go.
  - apply (wpres_bind _ _ (wpres_lift _ (old_asks_cm_event u e))). intros ?. ppres_go.
  - apply wpres_lift, old_asks_cq_event.
  - apply old_asks_unload.
Qed.

End Asks.

#[export] Instance old_caller `{K : kernel} `{O : old_params} : Caller (pstate old_data kcall * list (@pthread old_data kcall)) := {
  ca_reachable := old_reachable;
  ca_calls st := p_calls st.1
}.

#[export] Instance old_requests `{K : kernel} `{O : old_params} : @RequestOnly _ old_caller.
Proof. intros st. apply old_reachable_asks. Qed.

(** ** Witness: the older client after its handshake *)

#[local] Existing Instance kernel_ok.
#[local] Existing Instance demo_params.

Lemma arrivals_posted (st : pstate old_data kcall * list (@pthread old_data kcall)) p :
  Forall (posted_by st p)
    (mkArrival p <$> omap (λ c, match c with K_ib_post_send_msg _ m => Some m | _ => None end) (p_calls st.1)).
Proof.
  apply Forall_fmap, Forall_forall. intros m (c & Hc & Hm)%list_elem_of_omap. split; [done|].
  destruct c; try done. injection Hm as ->. by eexists.
Qed.

(** The messages the older client has posted. *)
Definition old_posted : list arrival :=
  mkArrival 0 <$> omap (λ c, match c with K_ib_post_send_msg _ m => Some m | _ => None end) (p_calls handshake_end.1).

Lemma eviction_never_ends_any_client_witness : length old_posted = 1%nat ∧ ∀ r s',
  @evict_mem verbs_ok 11 (λ _, 0) (λ _, mkActivity 0 0) 0 (λ _, old_posted) (λ _, []) demo_pressed ≠ SRet r s'.
Proof.
  split; [vm_compute; reflexivity|]. intros r s'.
  apply (@eviction_never_ends_any_client _ old_caller old_requests verbs_ok handshake_end 0 demo_pressed 11).
  - exact handshake_end_reached.
  - apply wf_remoteb_sound. vm_compute. reflexivity.
  - vm_compute. reflexivity.
  - reflexivity.
  - reflexivity.
  - vm_compute. reflexivity.
  - apply arrivals_posted.
Defined.
