(* ===== verification/TwoClients.v ===== *)
(** * Two clients of one server

    The Octopus driver ([Session]) and the older client ([OldClient]) speak
    the same protocol with the memory server ([Server]).  [ChunkClient] is the
    interface of a client as the protocol sees it: it takes the announcement
    of the free size, asks for chunks and takes the message that carries them.
    [ChunkClientLaws] says what the server may rely on.  The theorem about the
    handshake is proved once, against the interface; both clients are
    instances. *)

From S2P Require Import Prelude BitOps OctTypes Kernel Names Prog ChunkList CmdQueue OneSided BlockIO BlockDev.
From S2P Require Import Session Server Protocol OldClient OldSystem.

(** ** The interface *)

Class ChunkClient (W : Type) := {
  (** Connected, with its buffers and its queue pair. *)
  cc_ready : W → Prop;
  (** Ready, with an empty table for [n] chunks. *)
  cc_empty : Z → W → Prop;
  (** A completed receive of a message; [None]: an error or a fault. *)
  cc_receive : message → W → option W;
  (** The request for chunks, and what it sends. *)
  cc_request : W → option (message * W);
  (** How many chunks it asks for. *)
  cc_wanted : Z;
  (** Entry [i] of the table. *)
  cc_chunk : W → nat → option remote_mapping_chunk
}.

Class ChunkClientLaws (W : Type) `{C : ChunkClient W} : Prop := {
  law_wanted : 1 <= cc_wanted <= 32;
  law_announce w m :
    cc_ready w → rtype m = Some FREE_SIZE → 0 < msg_size_gb m < 2 ^ 31 →
    ∃ w', cc_receive m w = Some w' ∧ cc_empty (msg_size_gb m) w';
  law_request n w :
    cc_empty n w →
    ∃ rq w', cc_request w = Some (rq, w') ∧ cc_empty n w' ∧
      rtype rq = Some REQUEST_CHUNKS ∧ msg_size_gb rq = cc_wanted;
  law_fill n w m rs :
    0 < n < 2 ^ 31 → cc_empty n w → chunk_message m rs → Z.of_nat (length rs) <= n →
    ∃ w', cc_receive m w = Some w' ∧ ∀ j r, rs !! j = Some r → cc_chunk w' j = Some (grant_chunk r)
}.

(** C9. Any client of the server: after the announcement, its request and the
    answer, which has as many regions as it asked for and the server had,
    entry [j] of its table is the [j]-th region of the answer, with
    the region's address and key, and every region of the answer is memory
    that the server allocated, registered and recorded for this client. *)
Theorem handshake_any_client {W : Type} `{C : ChunkClient W} `{!ChunkClientLaws W} `{V : verbs} s p c (w : W) :
  server_ready s p c → cc_ready w → (0 < length (available_list (rdma_remote s) 0))%nat →
  ∃ m1 s1 w1 rq w2 m2 s2 w3 (rs : list ibv_mr),
    send_free_mem_size p s = SRet tt s1 ∧ last (s_trace s1) = Some (V_ibv_post_send p m1) ∧
    cc_receive m1 w = Some w1 ∧ cc_request w1 = Some (rq, w2) ∧
    send_chunks_to_client p (msg_size_gb rq) s1 = SRet tt s2 ∧ last (s_trace s2) = Some (V_ibv_post_send p m2) ∧
    chunk_message m2 rs ∧ length rs = Nat.min (Z.to_nat cc_wanted) (length (available_list (rdma_remote s) 0)) ∧
    cc_receive m2 w2 = Some w3 ∧
    ∀ j r, rs !! j = Some r → cc_chunk w3 j = Some (grant_chunk r) ∧ server_owns s2 (conn_index c) r.
Proof.
  intros Hs Hw Hn. destruct (server_handshake s p c cc_wanted Hs law_wanted)
    as (m1 & s1 & m2 & s2 & rs & H1 & H2 & H3 & H4 & H5 & H6 & H7 & H8 & H9).
  pose proof (available_list_length (rdma_remote s) 0) as Hle.
  destruct (law_announce w m1 Hw H3) as (w1 & Hw1 & He1); [lia|].
  destruct (law_request _ w1 He1) as (rq & w2 & Hw2 & He2 & _ & Hsz).
  destruct (law_fill (msg_size_gb m1) w2 m2 rs ltac:(lia) He2 H7) as (w3 & Hw3 & Hc); [lia|].
  exists m1, s1, w1, rq, w2, m2, s2, w3, rs. rewrite Hsz. split_and!; try assumption.
  intros j r Hj. split; [by apply Hc|]. by apply H9, list_elem_of_lookup_2 with j.
Qed.

(** ** The Octopus driver *)

Section Octopus.
Context {K : kernel} (HG : kernel_good K).

Definition recv_addr (w : world) : Z := match recv_buf (w_sess w) with Some (a, _) => a | None => 0 end.

Definition octopus_client : ChunkClient world := {|
  cc_ready w := Session.state_lt (state (w_sess w)) OctTypes.CONNECTED = false ∧ (∃ q, qp (w_sess w) = KPtr q) ∧
                is_Some (send_buf (w_sess w));
  cc_empty n w := (Session.state_lt (state (w_sess w)) OctTypes.CONNECTED = false ∧ (∃ q, qp (w_sess w) = KPtr q) ∧
                   is_Some (send_buf (w_sess w))) ∧
                  ∃ a, remote_chunk_list (w_sess w) = mkChunkList (Some (a, replicate (Z.to_nat n) zero_chunk)) n n 0;
  cc_receive m w :=
    match Session.handle_recv_wr Session.recv_wc (delivered (recv_addr w) m w) with
    | Ret r w' => if r =? 0 then Some w' else None
    | Oops _ => None
    end;
  cc_request w :=
    match Session.octupos_requset_for_chunk (MAX_REMOTE_MEMORY_SIZE_GB / CHUNK_SIZE_GB) w with
    | Ret r w' => if r =? 0 then m ← snd <$> send_buf (w_sess w'); Some (m, w') else None
    | Oops _ => None
    end;
  cc_wanted := MAX_REMOTE_MEMORY_SIZE_GB / CHUNK_SIZE_GB;
  cc_chunk w j := match remote_chunk (remote_chunk_list (w_sess w)) with Some (_, l) => l !! j | None => None end
|}.

#[local] Existing Instance octopus_client.

Lemma octopus_post_recv w q :
  qp (w_sess w) = KPtr q → Session.post_recv_wr w = Ret 0 (w <| w_trace ::= (.++ [K_ib_post_recv (recv_sgl (w_sess w))]) |>).
Proof.
  intros Hq. unfold Session.post_recv_wr.
  erewrite M_bind_step by (mstep; rewrite Hq; reflexivity). mstep. unfold call_int. good_call HG. reflexivity.
Qed.

Lemma octopus_request n w am m q :
  qp (w_sess w) = KPtr q → send_buf (w_sess w) = Some (am, m) → 2 <= n < 2 ^ 31 →
  ∃ w', Session.octupos_requset_for_chunk n w = Ret 0 w' ∧
    w_sess w' = (w_sess w) <| send_buf := Some (am, m <| msg_type := message_type_code REQUEST_CHUNKS |> <| msg_size_gb := n |>) |>.
Proof.
  intros Hq Hs Hn. unfold Session.octupos_requset_for_chunk.
  destruct (Z.eqb_spec n 0); [lia|]. destruct (Z.eqb_spec n 1); [lia|].
  rewrite (M_bind_step _ _ _ _ _ (octopus_post_recv w q Hq)). cbn [Z.eqb negb]. mstep.
  unfold CHUNK_SIZE_GB. rewrite Z.mul_1_r, i32_id by lia.
  unfold Session.send_message_to_remote. mstep.
  match goal with |- context [deref_opt ?t] => replace t with (Some (am, m)) by exact (eq_sym Hs) end.
  mstep. cbn [fst snd]. mstep. mstep.
  unfold Names.rdma_message_print.
  match goal with |- context [mbind _ (Names.name_buffer ?t) ?v] =>
    destruct (kg_ptr HG (w_trace v) (K_kzalloc 32)) as [an Han];
    destruct (name_buffer_run t v an (message_text_ok _) Han) as (b & Hb & _) end.
  rewrite (M_bind_step _ _ _ _ _ Hb).
  erewrite M_bind_step by (mstep; match goal with |- context [deref ?t] => replace t with (KPtr q) by exact (eq_sym Hq) end; reflexivity).
  do 3 mstep. cbn -[mbind].
  rewrite M_bind_unfold. unfold call_int. good_call HG. cbn [Z.eqb negb]. eexists. split; [reflexivity|]. reflexivity.
Qed.

Lemma octopus_client_laws : ChunkClientLaws world.
Proof.
  constructor.
  - done.
  - intros w m (Hst & Hq & Hsb) Ht Hn. cbn [cc_receive octopus_client].
    destruct (kg_ptr HG (w_trace w) name_call) as [an Han].
    assert (u32 (msg_size_gb m) = msg_size_gb m) as Hu by (apply u32_id; lia).
    destruct (kg_ptr HG (w_trace w ++ [name_call]) (K_kzalloc (u64 (sizeof_chunk * u32 (msg_size_gb m))))) as [a Ha].
    rewrite (recv_free_size_run (delivered (recv_addr w) m w) Session.recv_wc (recv_addr w) m an a eq_refl Hst eq_refl Han Ht Ha).
    rewrite Hu. eexists. split; [reflexivity|]. split; [done|]. by exists a.
  - intros n w [(Hst & [q Hq] & [[am m] Hsb]) [a Ha]]. cbn [cc_request octopus_client].
    destruct (octopus_request 32 w am m q Hq Hsb) as (w' & Hrun & Hw'); [lia|].
    change (MAX_REMOTE_MEMORY_SIZE_GB / CHUNK_SIZE_GB) with 32. rewrite Hrun. cbn [Z.eqb]. rewrite Hw'.
    eexists _, _. split; [reflexivity|]. split; [|done]. unfold cc_empty, octopus_client. rewrite Hw'.
    split; [|by exists a]. split; [done|]. split; [by exists q|by eexists].
  - intros n w m rs Hn [(Hst & Hq & Hsb) [a Ha]] Hm Hfit. cbn [cc_receive octopus_client].
    destruct (kg_ptr HG (w_trace w) name_call) as [an Han].
    assert (wf_chunks (remote_chunk_list (w_sess w))) as Hwf by (rewrite Ha; apply announced_wf; lia).
    rewrite (recv_chunks_run (delivered (recv_addr w) m w) Session.recv_wc (recv_addr w) m an eq_refl Hst eq_refl Han
      (cm_type (chunk_message := Hm)) (cm_wf (chunk_message := Hm)) Hwf).
    eexists. split; [reflexivity|]. cbn [cc_chunk octopus_client]. intros j r Hj.
    destruct (append_fits m rs (remote_chunk_list (w_sess w)) a (replicate (Z.to_nat n) zero_chunk) Hm Hwf) as (l' & Hl' & _ & Hnth);
      [by rewrite Ha|by rewrite Ha|by rewrite Ha|].
    cbn -[append_chunks received]. rewrite Hl'. by apply Hnth.
Qed.

End Octopus.

(** ** The older client *)

Section Older.
Context {K : kernel} {O : old_params} (HG : kernel_good K) (u : Z).

Definition old_connected (w : pstate old_data kcall) (P : rdma_session_context → Prop) : Prop :=
  ∃ a s off cs, w = live a s off cs ∧ state_lt (os_state s) CONNECTED = false ∧ ready s ∧ P s.

Definition old_session (w : pstate old_data kcall) : option rdma_session_context :=
  match rdma_session_global (p_data w) with SLive _ s => Some s | _ => None end.

Definition old_client : ChunkClient (pstate old_data kcall) := {|
  cc_ready w := old_connected w (λ _, True);
  cc_empty n w := old_connected w (λ s,
    ∃ a, os_chunks s = mkChunkList (Some (a, replicate (Z.to_nat n) zero_chunk)) n n 0);
  cc_receive m w :=
    match (set_sess (λ s, s <| os_recv_buf ::= fmap (λ p, (p.1, m)) |>);; handle_recv_wr u (recv_wc m)) w with
    | Done r w' => if r =? 0 then Some w' else None
    | _ => None
    end;
  cc_request w :=
    match octupos_requset_for_chunk 8 w with
    | Done r w' => if r =? 0 then s ← old_session w'; m ← snd <$> os_send_buf s; Some (m, w') else None
    | _ => None
    end;
  cc_wanted := 8;
  cc_chunk w j := s ← old_session w; match remote_chunk (os_chunks s) with Some (_, l) => l !! j | None => None end
|}.

#[local] Existing Instance old_client.

Lemma old_client_laws : ChunkClientLaws (pstate old_data kcall).
Proof.
  constructor.
  - cbn. lia.
  - intros w m (a & s & off & cs & -> & Hst & Hrd & _) Ht Hn. cbn [cc_receive old_client].
    destruct (rd_recv _ Hrd) as [[b m0] Hb].
    assert (u32 (msg_size_gb m) = msg_size_gb m) as Hu by (apply u32_id; lia).
    set (s1 := s <| os_recv_buf ::= fmap (λ p, (p.1, m)) |>).
    destruct (good_free_size HG u a s1 off cs b m) as (ta & cs' & Hrun).
    { subst s1. cbn. by rewrite Hb. }
    { done. }
    { by apply rtype_code. }
    gstep. change (mkPstate _ _) with (live a s1 off cs). rewrite Hrun. cbn [Z.eqb].
    eexists. split; [reflexivity|]. eexists a, _, _, _. split; [reflexivity|]. split; [done|]. split.
    + destruct Hrd. split; [done|done| |done]. subst s1. cbn. rewrite Hb. by eexists.
    + exists ta. by rewrite Hu.
  - intros n w (a & s & off & cs & -> & Hst & Hrd & [ta Hta]). cbn [cc_request old_client].
    destruct (good_request HG a s off cs Hrd) as (am & m & cs' & Hrun & Hty & Hsz & _). rewrite Hrun. cbn [Z.eqb].
    eexists _, _. split; [reflexivity|]. split; [|split; [|done]].
    + eexists a, _, _, _. split; [reflexivity|]. split; [done|]. split; [|by exists ta].
      destruct Hrd. by split; [| | |by eexists].
    + change (rtype m = Some REQUEST_CHUNKS). unfold rtype. by rewrite Hty.
  - intros n w m rs Hn (a & s & off & cs & -> & Hst & Hrd & [ta Hta]) Hm Hfit. cbn [cc_receive old_client].
    destruct (rd_recv _ Hrd) as [[b m0] Hb]. set (s1 := s <| os_recv_buf ::= fmap (λ p, (p.1, m)) |>).
    assert (os_chunks s1 = mkChunkList (Some (ta, replicate (Z.to_nat n) zero_chunk)) n n 0) as Hcl by exact Hta.
    assert (wf_table (os_chunks s1)) as Hwf by (rewrite Hcl; apply empty_table_wf; lia).
    opose proof* (good_got_chunks HG u a s1 off cs b m) as Hrun.
    { subst s1. cbn. by rewrite Hb. }
    { exact (cm_wf (chunk_message := Hm)). }
    { done. }
    { apply rtype_code, (cm_type (chunk_message := Hm)). }
    { done. }
    { rewrite Hcl. cbn. lia. }
    gstep. change (mkPstate _ _) with (live a s1 off cs). rewrite Hrun. cbn [Z.eqb].
    eexists. split; [reflexivity|]. intros j r Hj. cbn [cc_chunk old_client].
    destruct (append_fits m rs (os_chunks s1) ta (replicate (Z.to_nat n) zero_chunk) Hm) as (l' & Hl' & _ & Hnth);
      [by apply Hwf|by rewrite Hcl|by rewrite Hcl|by rewrite Hcl|].
    change (remote_chunk (fill_chunks (received m) (os_chunks s1)) = Some (ta, l')) in Hl'.
    change (match remote_chunk (fill_chunks (received m) (os_chunks s1)) with Some (_, l) => l !! j | None => None end =
      Some (grant_chunk r)). rewrite Hl'. by apply Hnth.
Qed.

End Older.

(** ** Witness *)

(** The older client after the two resolutions and the connection. *)
Definition old_demo : pstate old_data kcall :=
  live 64 (demo_session <| os_state := CONNECTED |> <| os_qp := KPtr 64 |> <| os_cq := KPtr 72 |>
    <| os_send_buf := Some (80, zero_message) |>) 0 [].

#[local] Existing Instance kernel_ok.
#[local] Existing Instance verbs_ok.
#[local] Instance demo_old_params : old_params := {| sizeof_session := 512; kmalloc_junk := λ _, zero_message |}.

Lemma old_demo_ready : @cc_ready _ (old_client 0) old_demo.
Proof.
  eexists _, _, _, _. split; [reflexivity|]. split; [reflexivity|]. split; [|done].
  split; [reflexivity|by eexists|by eexists|by eexists].
Qed.

Lemma demo_available : (0 < length (available_list (rdma_remote demo_connected) 0))%nat.
Proof. destruct demo_connected_books as (_ & _ & -> & _). cbn. lia. Qed.

(** The older client holds the server's first chunk. *)
Lemma handshake_any_client_witness :
  ∃ w3 s2 r, @cc_chunk _ (old_client 0) w3 0 = Some (grant_chunk r) ∧ server_owns s2 (conn_index demo_conn) r.
Proof.
  destruct (@handshake_any_client _ (old_client 0) (old_client_laws kernel_ok_good 0) verbs_ok demo_connected 0%nat demo_conn old_demo
    demo_server_ready old_demo_ready demo_available)
    as (m1 & s1 & w1 & rq & w2 & m2 & s2 & w3 & rs & _ & _ & _ & _ & _ & _ & _ & Hl & _ & H).
  destruct rs as [|r rs].
  { destruct demo_connected_books as (_ & _ & Ha & _). rewrite Ha in Hl. discriminate Hl. }
  exists w3, s2, r. exact (H 0%nat r eq_refl).
Defined.
