(* ===== verification/HexConn.v ===== *)
(** * The connection message of the RDMA read/write programs

    [tcp_exch_ib_connection_info] of [src/IB-test-case/RDMA_read_write]
    ([rdma_client.c] and [rdma_server.c], the same text in both) sends five
    numbers over a TCP socket as fixed-width hexadecimal text and reads the
    peer's.  This file models what it uses of [sprintf] and [sscanf], the
    message and its parser, and shows when the message fits its 45 bytes and
    that the parser gives the numbers back. *)

From Stdlib Require Import Ascii String.
From S2P Require Import Prelude OctTypes Kernel Names.

(** ** [sprintf] with [%0<w>x] *)

Definition hex_digit (d : Z) : ascii :=
  default Ascii.zero (list_ascii_of_string "0123456789abcdef" !! Z.to_nat d).

(** The digits of a number, most significant first, before [acc]; 16 steps are
    enough for 64 bits. *)
Fixpoint hex_loop (fuel : nat) (n : Z) (acc : list ascii) : list ascii :=
  match fuel with
  | O => acc
  | S fuel => if n =? 0 then acc else hex_loop fuel (n / 16) (hex_digit (n mod 16) :: acc)
  end.

Definition fmt_hex (width : nat) (n : Z) : list ascii :=
  let ds := if n =? 0 then [hex_digit 0] else hex_loop 16 n [] in
  replicate (width - length ds) (hex_digit 0) ++ ds.

(** ** [sscanf] with [%x] *)

Definition char_code (c : ascii) : Z := Z.of_N (Ascii.N_of_ascii c).

Definition hex_val (c : ascii) : option Z :=
  let n := char_code c in
  if (48 <=? n) && (n <=? 57) then Some (n - 48)
  else if (97 <=? n) && (n <=? 102) then Some (n - 87)
  else if (65 <=? n) && (n <=? 70) then Some (n - 55)
  else None.

Definition is_space (c : ascii) : bool :=
  let n := char_code c in (n =? 32) || ((9 <=? n) && (n <=? 13)).

Fixpoint skip_spaces (l : list ascii) : list ascii :=
  match l with c :: r => if is_space c then skip_spaces r else l | [] => [] end.

(** The longest run of digits, its value and what follows. *)
Fixpoint scan_digits (l : list ascii) (acc : Z) : Z * list ascii :=
  match l with
  | c :: r => match hex_val c with Some d => scan_digits r (16 * acc + d) | None => (acc, l) end
  | [] => (acc, [])
  end.

Definition scan_sign (l : list ascii) : bool * list ascii :=
  match l with
  | c :: r => if char_code c =? 45 then (true, r) else if char_code c =? 43 then (false, r) else (false, l)
  | [] => (false, [])
  end.

Definition scan_prefix (l : list ascii) : list ascii :=
  match l with
  | z :: x :: r => if (char_code z =? 48) && ((char_code x =? 120) || (char_code x =? 88)) then r else l
  | _ => l
  end.

(** A value beyond 64 bits is the largest one; a minus sign negates; the value
    is stored in a field of [bits] bits. *)
Definition scan_hex (bits : Z) (l : list ascii) : option (Z * list ascii) :=
  let '(neg, l) := scan_sign (skip_spaces l) in
  let l := scan_prefix l in
  match l with
  | c :: _ =>
      match hex_val c with
      | Some _ =>
          let '(v, r) := scan_digits l 0 in
          let v := if v <? 2 ^ 64 then v else 2 ^ 64 - 1 in
          Some ((if neg then - v else v) mod 2 ^ bits, r)
      | None => None
      end
  | [] => None
  end.

Definition scan_colon (l : list ascii) : option (list ascii) :=
  match l with c :: r => if char_code c =? 58 then Some r else None | [] => None end.

(** ** The message *)

Record ib_connection := mkConn {
  ic_lid : Z;             (* int *)
  ic_qpn : Z;             (* int *)
  ic_psn : Z;             (* int *)
  ic_rkey : Z;            (* unsigned *)
  ic_vaddr : Z            (* unsigned long long *)
}.

Definition colon : ascii := ":".

(** The text before the terminating NUL. *)
Definition conn_text (c : ib_connection) : list ascii :=
  fmt_hex 4 (u32 (ic_lid c)) ++ colon :: fmt_hex 6 (u32 (ic_qpn c)) ++ colon ::
  fmt_hex 6 (u32 (ic_psn c)) ++ colon :: fmt_hex 8 (u32 (ic_rkey c)) ++ colon :: fmt_hex 16 (u64 (ic_vaddr c)).

(** [sizeof "0000:000000:000000:00000000:0000000000000000"] *)
Definition sizeof_msg : nat := length (c_str "0000:000000:000000:00000000:0000000000000000").

(** [sprintf] into [msg]; [None]: it writes behind the array. *)
Definition sprintf_conn (c : ib_connection) : option (list ascii) :=
  let t := conn_text c ++ [Ascii.zero] in
  if decide (length t <= sizeof_msg)%nat then Some (t ++ replicate (sizeof_msg - length t) Ascii.zero) else None.

(** [sscanf(msg, "%x:%x:%x:%x:%Lx", ...) == 5]; [None]: fewer fields. *)
Definition sscanf_conn (l : list ascii) : option ib_connection :=
  '(lid, l) ← scan_hex 32 l; l ← scan_colon l;
  '(qpn, l) ← scan_hex 32 l; l ← scan_colon l;
  '(psn, l) ← scan_hex 32 l; l ← scan_colon l;
  '(rkey, l) ← scan_hex 32 l; l ← scan_colon l;
  '(vaddr, l) ← scan_hex 64 l;
  Some (mkConn (i32 lid) (i32 qpn) (i32 psn) rkey vaddr).

(** ** Lemmas *)

(** The [w] low digits of a number. *)
Fixpoint hex_fixed (w : nat) (n : Z) : list ascii :=
  match w with O => [] | S w => hex_fixed w (n / 16) ++ [hex_digit (n mod 16)] end.

Lemma hex_digit_all : Forall (λ d, hex_val (hex_digit d) = Some d ∧ is_space (hex_digit d) = false ∧
  char_code (hex_digit d) ≠ 45 ∧ char_code (hex_digit d) ≠ 43 ∧ char_code (hex_digit d) ≠ 120 ∧
  char_code (hex_digit d) ≠ 88 ∧ char_code (hex_digit d) ≠ 0) (seqZ 0 16).
Proof. vm_compute. repeat constructor; done. Qed.

Lemma hex_digit_spec n : hex_val (hex_digit (n mod 16)) = Some (n mod 16) ∧ is_space (hex_digit (n mod 16)) = false ∧
  char_code (hex_digit (n mod 16)) ≠ 45 ∧ char_code (hex_digit (n mod 16)) ≠ 43 ∧
  char_code (hex_digit (n mod 16)) ≠ 120 ∧ char_code (hex_digit (n mod 16)) ≠ 88 ∧ char_code (hex_digit (n mod 16)) ≠ 0.
Proof.
  pose proof hex_digit_all as H. rewrite Forall_forall in H. apply H.
  apply elem_of_seqZ. pose proof (Z.mod_pos_bound n 16). lia.
Qed.

Lemma length_hex_fixed w n : length (hex_fixed w n) = w.
Proof. revert n. induction w as [|w IH]; intros n; [done|]. cbn. rewrite length_app, IH. cbn. lia. Qed.

Lemma hex_loop_acc fuel n acc : hex_loop fuel n acc = hex_loop fuel n [] ++ acc.
Proof.
  revert n acc. induction fuel as [|fuel IH]; intros n acc; cbn; [done|].
  destruct (n =? 0); [done|]. by rewrite IH, (IH _ [_]), <- app_assoc.
Qed.

Lemma hex_fixed_0 w : hex_fixed w 0 = replicate w (hex_digit 0).
Proof.
  induction w as [|w IH]; [done|]. cbn -[hex_digit]. rewrite Z.div_0_l, IH, Z.mod_0_l by lia.
  by rewrite <- replicate_cons_app.
Qed.

Lemma pow16_S w : 16 ^ Z.of_nat (S w) = 16 * 16 ^ Z.of_nat w.
Proof. rewrite Nat2Z.inj_succ, Z.pow_succ_r by lia. done. Qed.

(** Padded, the digits are the fixed-width ones, and they are no more. *)
Lemma hex_loop_pad w : ∀ fuel n, (w <= fuel)%nat → 0 <= n < 16 ^ Z.of_nat w →
  (length (hex_loop fuel n []) <= w)%nat ∧
  replicate (w - length (hex_loop fuel n [])) (hex_digit 0) ++ hex_loop fuel n [] = hex_fixed w n.
Proof.
  induction w as [|w IH]; intros fuel n Hf Hn.
  { assert (n = 0) as -> by (cbn in Hn; lia). by destruct fuel. }
  destruct fuel as [|fuel]; [lia|]. cbn [hex_loop]. destruct (Z.eqb_spec n 0) as [->|Hz].
  { cbn [length]. rewrite app_nil_r, hex_fixed_0, Nat.sub_0_r. split; [lia|done]. }
  rewrite hex_loop_acc, length_app. cbn [length]. rewrite pow16_S in Hn.
  destruct (IH fuel (n / 16)) as [Hl Hd]; [lia|dlia|]. split; [lia|].
  cbn [hex_fixed]. rewrite <- Hd, app_assoc. do 3 f_equal. lia.
Qed.

Lemma hex_loop_long w : ∀ fuel n, (w < fuel)%nat → 16 ^ Z.of_nat w <= n → (w < length (hex_loop fuel n []))%nat.
Proof.
  induction w as [|w IH]; intros fuel n Hf Hn; (destruct fuel as [|fuel]; [lia|]); cbn [hex_loop].
  - cbn in Hn. destruct (Z.eqb_spec n 0); [lia|]. rewrite hex_loop_acc, length_app. cbn. lia.
  - rewrite pow16_S in Hn. pose proof (Z.pow_pos_nonneg 16 (Z.of_nat w)).
    destruct (Z.eqb_spec n 0); [lia|]. rewrite hex_loop_acc, length_app. cbn [length].
    enough (w < length (hex_loop fuel (n / 16) []))%nat by lia. apply IH; [lia|dlia].
Qed.

Lemma fmt_hex_fixed w n : (0 < w <= 16)%nat → 0 <= n < 16 ^ Z.of_nat w → fmt_hex w n = hex_fixed w n.
Proof.
  intros Hw Hn. unfold fmt_hex. destruct (Z.eqb_spec n 0) as [->|Hz].
  - rewrite hex_fixed_0. cbn [length]. destruct w as [|w]; [lia|]. cbn [Nat.sub]. rewrite Nat.sub_0_r.
    by rewrite <- replicate_cons_app.
  - apply hex_loop_pad; lia.
Qed.

Lemma fmt_hex_length w n : (0 < w <= 16)%nat → 0 <= n →
  (w <= length (fmt_hex w n))%nat ∧ ((w < 16)%nat → 16 ^ Z.of_nat w <= n → (w < length (fmt_hex w n))%nat).
Proof.
  intros Hw Hn. unfold fmt_hex. rewrite length_app, length_replicate. split; [lia|]. intros Hw' Hbig.
  pose proof (Z.pow_pos_nonneg 16 (Z.of_nat w)). destruct (Z.eqb_spec n 0); [lia|].
  pose proof (hex_loop_long w 16 n Hw' Hbig). lia.
Qed.

Lemma scan_digits_fixed w n rest acc :
  0 <= n → scan_digits (hex_fixed w n ++ rest) acc = scan_digits rest (acc * 16 ^ Z.of_nat w + n mod 16 ^ Z.of_nat w).
Proof.
  revert n rest acc. induction w as [|w IH]; intros n rest acc Hn.
  { cbn. rewrite Z.mod_1_r. f_equal. lia. }
  cbn [hex_fixed]. rewrite <- app_assoc, IH by dlia. cbn [app scan_digits].
  rewrite (proj1 (hex_digit_spec n)), pow16_S. f_equal.
  pose proof (Z.pow_pos_nonneg 16 (Z.of_nat w)). rewrite (Z.rem_mul_r n 16) by lia. lia.
Qed.

Lemma scan_digits_stop c r acc : hex_val c = None → scan_digits (c :: r) acc = (acc, c :: r).
Proof. intros H. cbn. by rewrite H. Qed.

(** A fixed-width number is neither space nor sign nor prefix. *)
Lemma hex_fixed_cons w n : ∃ d ds, hex_fixed (S w) n = hex_digit (d mod 16) :: ds ∧
  (∀ x r, ds = x :: r → ∃ e, x = hex_digit (e mod 16)).
Proof.
  revert n. induction w as [|w IH]; intros n; [by exists n, []|].
  destruct (IH (n / 16)) as (d & ds & Heq & Hds). exists d, (ds ++ [hex_digit (n mod 16)]). split.
  - change (hex_fixed (S (S w)) n) with (hex_fixed (S w) (n / 16) ++ [hex_digit (n mod 16)]). by rewrite Heq.
  - intros x r Hx. destruct ds as [|y ds]; [|by injection Hx as -> _; eapply Hds]. injection Hx as <- _. eauto.
Qed.

Lemma scan_hex_fixed bits w n rest :
  0 <= bits <= 64 → (1 < w <= 16)%nat → 0 <= n < 16 ^ Z.of_nat w →
  (∀ acc, scan_digits rest acc = (acc, rest)) →
  scan_hex bits (hex_fixed w n ++ rest) = Some (n mod 2 ^ bits, rest).
Proof.
  intros Hb Hw Hn Hrest. destruct w as [|[|w]]; [lia|lia|].
  destruct (hex_fixed_cons (S w) n) as (d & ds & Heq & Hds).
  destruct ds as [|x ds].
  { pose proof (length_hex_fixed (S (S w)) n) as Hl. rewrite Heq in Hl. done. }
  destruct (Hds _ _ eq_refl) as [e ->]. destruct (hex_digit_spec d) as (Hv & Hsp & H45 & H43 & _).
  destruct (hex_digit_spec e) as (_ & _ & _ & _ & H120 & H88 & _).
  unfold scan_hex. rewrite Heq. cbn [app skip_spaces]. rewrite Hsp. cbn [scan_sign].
  rewrite (proj2 (Z.eqb_neq _ _) H45), (proj2 (Z.eqb_neq _ _) H43). cbn [scan_prefix].
  rewrite (proj2 (Z.eqb_neq _ _) H120), (proj2 (Z.eqb_neq _ _) H88), andb_false_r. cbn iota. rewrite Hv.
  change (hex_digit (d mod 16) :: hex_digit (e mod 16) :: ds ++ rest) with
    ((hex_digit (d mod 16) :: hex_digit (e mod 16) :: ds) ++ rest). rewrite <- Heq.
  rewrite scan_digits_fixed, Hrest by lia. rewrite (Z.mod_small n) by lia.
  destruct (Z.ltb_spec (0 * 16 ^ Z.of_nat (S (S w)) + n) (2 ^ 64)); [by repeat f_equal|].
  assert (16 ^ Z.of_nat (S (S w)) <= 16 ^ 16) by (apply Z.pow_le_mono_r; lia). lia.
Qed.

(** What a connection must satisfy for its text to have the fixed width. *)
Definition conn_fits (c : ib_connection) : Prop :=
  u32 (ic_lid c) < 2 ^ 16 ∧ u32 (ic_qpn c) < 2 ^ 24 ∧ u32 (ic_psn c) < 2 ^ 24.

#[export] Instance conn_fits_dec c : Decision (conn_fits c).
Proof. unfold conn_fits. apply _. Defined.

Definition conn_fixed (c : ib_connection) : list ascii :=
  hex_fixed 4 (u32 (ic_lid c)) ++ colon :: hex_fixed 6 (u32 (ic_qpn c)) ++ colon ::
  hex_fixed 6 (u32 (ic_psn c)) ++ colon :: hex_fixed 8 (u32 (ic_rkey c)) ++ colon :: hex_fixed 16 (u64 (ic_vaddr c)).

Lemma conn_text_fixed c : conn_fits c → conn_text c = conn_fixed c.
Proof.
  intros (H1 & H2 & H3). pose proof (u32_range (ic_lid c)). pose proof (u32_range (ic_qpn c)).
  pose proof (u32_range (ic_psn c)). pose proof (u32_range (ic_rkey c)). pose proof (u64_range (ic_vaddr c)).
  unfold conn_text, conn_fixed. rewrite !fmt_hex_fixed by (cbn; lia). done.
Qed.

Lemma length_conn_fixed c : length (conn_fixed c) = 44%nat.
Proof. unfold conn_fixed. do 4 (rewrite length_app; cbn [length]). rewrite !length_hex_fixed. done. Qed.

Lemma conn_text_long c : ¬ conn_fits c → (44 < length (conn_text c))%nat.
Proof.
  intros Hc. pose proof (u32_range (ic_lid c)). pose proof (u32_range (ic_qpn c)).
  pose proof (u32_range (ic_psn c)). pose proof (u32_range (ic_rkey c)). pose proof (u64_range (ic_vaddr c)).
  unfold conn_text. do 4 (rewrite length_app; cbn [length]).
  destruct (fmt_hex_length 4 (u32 (ic_lid c))) as [? L1]; [lia..|].
  destruct (fmt_hex_length 6 (u32 (ic_qpn c))) as [? L2]; [lia..|].
  destruct (fmt_hex_length 6 (u32 (ic_psn c))) as [? L3]; [lia..|].
  destruct (fmt_hex_length 8 (u32 (ic_rkey c))) as [? _]; [lia..|].
  destruct (fmt_hex_length 16 (u64 (ic_vaddr c))) as [? _]; [lia..|].
  unfold conn_fits in Hc. cbn in L1, L2, L3.
  destruct (decide (u32 (ic_lid c) < 2 ^ 16)); [|lia].
  destruct (decide (u32 (ic_qpn c) < 2 ^ 24)); [|lia].
  destruct (decide (u32 (ic_psn c) < 2 ^ 24)); [|lia]. tauto.
Qed.

Lemma sprintf_conn_fits c : conn_fits c → sprintf_conn c = Some (conn_fixed c ++ [Ascii.zero]).
Proof.
  intros Hc. unfold sprintf_conn. rewrite conn_text_fixed by done.
  rewrite length_app, length_conn_fixed. rewrite decide_True by (cbn; lia). cbn [Nat.add length Nat.sub].
  by rewrite app_nil_r.
Qed.

Lemma sprintf_conn_overflow c : ¬ conn_fits c → sprintf_conn c = None.
Proof.
  intros Hc%conn_text_long. unfold sprintf_conn. rewrite decide_False; [done|].
  rewrite length_app. cbn. lia.
Qed.

(** A connection whose fields have the range of their C types. *)
Definition wf_conn (c : ib_connection) : Prop :=
  (- 2 ^ 31 <= ic_lid c < 2 ^ 31) ∧ (- 2 ^ 31 <= ic_qpn c < 2 ^ 31) ∧ (- 2 ^ 31 <= ic_psn c < 2 ^ 31) ∧
  (0 <= ic_rkey c < 2 ^ 32) ∧ (0 <= ic_vaddr c < 2 ^ 64).

Lemma i32_u32 z : i32 (u32 z) = i32 z.
Proof. unfold i32, u32. by rewrite Zplus_mod_idemp_l. Qed.

Lemma scan_field w n rest :
  (1 < w <= 16)%nat → 0 <= n < 16 ^ Z.of_nat w → 0 <= n < 2 ^ 32 →
  scan_hex 32 (hex_fixed w n ++ colon :: rest) = Some (n, colon :: rest).
Proof.
  intros Hw Hn Hn'. rewrite scan_hex_fixed by (done || lia || (intros; by apply scan_digits_stop)).
  by rewrite Z.mod_small by lia.
Qed.

Lemma scan_colon_hit r : scan_colon (colon :: r) = Some r.
Proof. reflexivity. Qed.

Lemma sscanf_fixed c : wf_conn c → conn_fits c → sscanf_conn (conn_fixed c) = Some c.
Proof.
  intros (W1 & W2 & W3 & W4 & W5) (H1 & H2 & H3). unfold sscanf_conn, conn_fixed.
  pose proof (u32_range (ic_lid c)). pose proof (u32_range (ic_qpn c)). pose proof (u32_range (ic_psn c)).
  rewrite (u32_id (ic_rkey c)), (u64_id (ic_vaddr c)) by lia.
  do 4 (rewrite scan_field by (cbn; lia); cbn [mbind option_bind];
        rewrite scan_colon_hit; cbn [mbind option_bind]).
  rewrite <- (app_nil_r (hex_fixed 16 _)). rewrite scan_hex_fixed by (done || cbn; lia).
  cbn [mbind option_bind]. rewrite !i32_u32, !i32_id by lia. rewrite Z.mod_small by lia. by destruct c.
Qed.

Lemma conn_fixed_no_nul c : Ascii.zero ∉ conn_fixed c.
Proof.
  assert (∀ w n, Ascii.zero ∉ hex_fixed w n) as Hf.
  { intros w. induction w as [|w IH]; intros n; [by apply not_elem_of_nil|]. cbn [hex_fixed].
    rewrite elem_of_app, list_elem_of_singleton. intros [?|Hz]; [by eapply IH|].
    destruct (hex_digit_spec n) as (_ & _ & _ & _ & _ & _ & Hne). by rewrite <- Hz in Hne. }
  assert (∀ l, Ascii.zero ∉ l → Ascii.zero ∉ colon :: l) as Hc.
  { intros l Hl. rewrite elem_of_cons. by intros [?|?]. }
  unfold conn_fixed. repeat first [apply not_elem_of_app; split; [apply Hf|] | apply Hc | apply Hf].
Qed.

(** ** Theorems *)

(** C16. The connection message.  It is written inside its 45 bytes exactly
    when the LID has 16 bits and the queue pair and packet numbers have 24;
    then the peer, which reads the text before the NUL, gets back the
    connection that was sent. *)
Theorem conn_message_roundtrip c :
  wf_conn c →
  (conn_fits c →
   ∃ msg, sprintf_conn c = Some msg ∧ length msg = sizeof_msg ∧ (c_string msg ≫= sscanf_conn) = Some c) ∧
  (¬ conn_fits c → sprintf_conn c = None).
Proof.
  intros Hw. split; [intros Hc|apply sprintf_conn_overflow].
  exists (conn_fixed c ++ [Ascii.zero]). split; [by apply sprintf_conn_fits|]. split.
  - rewrite length_app, length_conn_fixed. done.
  - rewrite c_string_app by apply conn_fixed_no_nul. cbn. by apply sscanf_fixed.
Qed.

(** ** Witness *)

Definition demo_conn : ib_connection := mkConn 7 0x1234 0xabcdef 0x8001 0x7f0000800010.

Lemma conn_message_roundtrip_witness :
  ∃ msg, sprintf_conn demo_conn = Some msg ∧ c_string msg = Some (list_ascii_of_string "0007:001234:abcdef:00008001:00007f0000800010").
Proof.
  destruct (conn_message_roundtrip demo_conn) as [H _]; [unfold wf_conn; cbn; lia|].
  destruct H as (msg & H & _); [vm_compute; done|]. exists msg. split; [exact H|].
  vm_compute in H. injection H as <-. reflexivity.
Defined.
