(* ===== verification/RdmaPair.v ===== *)
(** * The RDMA read/write programs

    [rdma_client.c] and [rdma_server.c] of [src/IB-test-case/RDMA_read_write]:
    the same user-level program twice, with different buffers.  Run without an
    argument it is the server: it listens, exchanges connections with its
    peer, and writes a text into the peer's memory by RDMA.  Run with a host
    name it is the client: it connects, exchanges connections, and polls its
    memory until the text is there.

    The state of a process is [proc]; calls of the operating system and of
    libibverbs are values of [vcall], their results come from the parameter
    [ibverbs].  [main] waits twice: for the peer's message and for the text.
    [pair_run] runs a server and a client process together, with the bytes of
    the socket and the RDMA write delivered between them.  The server posts its
    write and destroys its queue pair without waiting for the completion (the
    polling is commented out): whether the adapter carries the write out before
    the destruction or discards it is an argument.

    Functions that have the same text in both files are defined once. *)

From Stdlib Require Import Ascii String.
From S2P Require Import Prelude OctTypes Kernel Names Prog HexConn.

(** ** Data *)

(** A pointer to a block that can be freed. *)
Inductive hptr (A : Type) := PNull | PLive (a : Z) (x : A) | PFreed (a : Z).
Arguments PNull {A}.
Arguments PLive {A} a x.
Arguments PFreed {A} a.

Record app_context := mkAppCtx {
  c_context : Z; c_pd : Z; c_mr : Z; c_rcq : Z; c_scq : Z; c_qp : Z; c_ch : Z;
  c_buf : Z;
  c_size : Z;                       (* unsigned *)
  c_tx_depth : Z;
  c_sge_addr : Z; c_sge_length : Z; c_sge_lkey : Z;
  c_remote_addr : Z; c_rkey : Z; c_wr_id : Z
}.
#[export] Instance app_context_eta : Eta app_context :=
  λ c, mkAppCtx (c_context c) (c_pd c) (c_mr c) (c_rcq c) (c_scq c) (c_qp c) (c_ch c) (c_buf c) (c_size c)
         (c_tx_depth c) (c_sge_addr c) (c_sge_length c) (c_sge_lkey c) (c_remote_addr c) (c_rkey c) (c_wr_id c).
Definition zero_ctx : app_context := mkAppCtx 0 0 0 0 0 0 0 0 0 0 0 0 0 0 0 0.

Record app_data := mkAppData {
  ad_port : Z;
  ad_ib_port : Z;
  ad_size : Z;                      (* unsigned *)
  ad_tx_depth : Z;
  ad_sockfd : Z;
  ad_servername : option string;
  ad_local : ib_connection;
  ad_remote : hptr ib_connection;
  ad_ib_dev : Z
}.
#[export] Instance app_data_eta : Eta app_data :=
  λ d, mkAppData (ad_port d) (ad_ib_port d) (ad_size d) (ad_tx_depth d) (ad_sockfd d) (ad_servername d)
         (ad_local d) (ad_remote d) (ad_ib_dev d).

Definition zero_conn : ib_connection := mkConn 0 0 0 0 0.

(** A process: its globals, its memory (the byte at each address), and the
    bytes that have arrived on its socket. *)
Record proc := mkProc {
  page_size : Z;
  p_mem : Z → ascii;
  p_ctx : hptr app_context;
  p_app : app_data;
  p_inbox : list ascii;
  p_closed : bool
}.
#[export] Instance proc_eta : Eta proc :=
  λ p, mkProc (page_size p) (p_mem p) (p_ctx p) (p_app p) (p_inbox p) (p_closed p).

(** What is allocated, and the attributes of the queue-pair states. *)
Inductive block := B_ctx | B_attr | B_conn | B_buffer (size : Z).
Inductive qp_attr :=
| QPS_INIT (port : Z)
| QPS_RTR (dest_qp_num rq_psn dlid sl port : Z)
| QPS_RTS (sq_psn : Z).

(** A posted RDMA write. *)
Record write_wr := mkWr { wr_laddr : Z; wr_length : Z; wr_lkey : Z; wr_raddr : Z; wr_rkey : Z }.

Inductive vcall :=
| V_sysconf | V_lrand48
| V_malloc (b : block) | V_posix_memalign (align size : Z) | V_free (p : Z)
| V_get_device_list | V_first_device | V_open_device (dev : Z) | V_alloc_pd (ctx : Z)
| V_reg_mr (pd addr len : Z) | V_create_comp_channel (ctx : Z) | V_create_cq (ctx cqe : Z)
| V_create_qp (pd scq rcq depth : Z) | V_modify_qp (qp : Z) (attr : qp_attr) | V_query_port (ctx port : Z)
| V_post_send (qp : Z) (wr : write_wr)
| V_destroy_qp (qp : Z) | V_destroy_cq (cq : Z) | V_destroy_comp_channel (ch : Z) | V_dereg_mr (mr : Z) | V_dealloc_pd (pd : Z)
| V_asprintf (port : Z) | V_getaddrinfo (host : option string) | V_getnameinfo | V_freeaddrinfo
| V_socket | V_connect (fd : Z) | V_setsockopt (fd : Z) | V_bind (fd : Z) | V_listen (fd : Z) | V_accept (fd : Z)
| V_write (fd : Z) (bytes : list ascii) | V_read (fd : Z) (n : nat) | V_close (fd : Z)
| V_print (text : list ascii).

(** The operating system and the library.  [v_addrs] is the length of the
    list that [getaddrinfo] gives. *)
Class ibverbs := {
  v_int : list vcall → vcall → Z;
  v_ptr : list vcall → vcall → option Z;
  v_lid : Z;
  v_qp_num : Z;
  v_rkey : Z;
  v_lkey : Z;
  v_addrs : nat
}.

Definition BUFFER_SIZE : Z := 8 * 1024 * 1024.
Definition sl : Z := 1.

Abbreviation VP := (prog proc vcall).
Abbreviation VW := (wprog proc vcall).

(** ** Memory *)

Definition mem_put (m : Z → ascii) (addr len : Z) (f : Z → ascii) : Z → ascii :=
  λ a, if (addr <=? a) && (a <? addr + len) then f (a - addr) else m a.

Definition zero_bytes : Z → ascii := λ _, Ascii.zero.
Definition list_bytes (l : list ascii) : Z → ascii := λ i, default Ascii.zero (l !! Z.to_nat i).
(** The bytes of a pointer. *)
Definition ptr_bytes (p : Z) : Z → ascii := λ i, Ascii.ascii_of_N (Z.to_N (Z.shiftr p (8 * i) mod 256)).

(** The C string at an address; [None]: no NUL in [fuel] bytes. *)
Fixpoint string_at (fuel : nat) (m : Z → ascii) (a : Z) : option (list ascii) :=
  match fuel with
  | O => None
  | S fuel => if decide (m a = Ascii.zero) then Some [] else cons (m a) <$> string_at fuel m (a + 1)
  end.

(** ** Operations *)

Section Ops.
Context {E : ibverbs}.

Definition die {A} : VP A := exit 1.
Definition test_nz (x : Z) : VP unit := if x =? 0 then mret tt else die.
Definition test_n (x : Z) : VP unit := if x <? 0 then die else mret tt.
Definition test_z (x : option Z) : VP Z := match x with Some a => mret a | None => die end.

Definition app {A} (f : app_data → A) : VP A := data (λ p, f (p_app p)).
Definition set_app (f : app_data → app_data) : VP unit := update (λ p, p <| p_app ::= f |>).

Definition deref {A} (p : hptr A) : VP A :=
  match p with PLive _ x => mret x | PNull => crash NullDeref | PFreed _ => crash UseAfterFree end.
Definition ctx {A} (f : app_context → A) : VP A := p ← data p_ctx; c ← deref p; mret (f c).
Definition set_ctx (f : app_context → app_context) : VP unit :=
  p ← data p_ctx;
  match p with
  | PLive a c => update (λ p, p <| p_ctx := PLive a (f c) |>)
  | PNull => crash NullDeref
  | PFreed _ => crash UseAfterFree
  end.
Definition remote {A} (f : ib_connection → A) : VP A := p ← app ad_remote; c ← deref p; mret (f c).

Definition memset0 (addr len : Z) : VP unit := update (λ p, p <| p_mem ::= λ m, mem_put m addr len zero_bytes |>).

(** [malloc] and the [memset] of the block, which faults on NULL. *)
Definition zalloc (b : block) : VP Z := p ← ask v_ptr (V_malloc b); nonnull p.

(** The result of [posix_memalign] and the pointer it stores. *)
Definition memalign (size : Z) : VP (Z * option Z) :=
  ps ← data page_size;
  ask (λ cs c, (v_int cs c, v_ptr cs c)) (V_posix_memalign ps size).

(** *** Queue-pair states *)

(** [attr] is not freed. *)
Definition qp_change_state_init : VP unit :=
  _ ← zalloc B_attr;
  qp ← ctx c_qp;
  port ← app ad_ib_port;
  r ← ask v_int (V_modify_qp qp (QPS_INIT port));
  test_nz r.

Definition qp_change_state_rtr : VP unit :=
  a ← zalloc B_attr;
  r ← remote id;
  port ← app ad_ib_port;
  qp ← ctx c_qp;
  r ← ask v_int (V_modify_qp qp (QPS_RTR (u32 (ic_qpn r)) (u32 (ic_psn r)) (u16 (ic_lid r)) sl port));
  test_nz r;;
  tell (V_free a).

Definition qp_change_state_rts : VP unit :=
  qp_change_state_rtr;;
  a ← zalloc B_attr;
  l ← app ad_local;
  qp ← ctx c_qp;
  r ← ask v_int (V_modify_qp qp (QPS_RTS (u32 (ic_psn l))));
  test_nz r;;
  tell (V_free a).

(** *** The context *)

Definition new_ctx : VP unit :=
  a ← zalloc B_ctx;
  d ← data p_app;
  update (λ p, p <| p_ctx := PLive a (zero_ctx <| c_size := ad_size d |> <| c_tx_depth := ad_tx_depth d |>) |>).

(** From the device list on: the text is the same in both functions. *)
Definition open_device : VP unit :=
  l ← ask v_ptr V_get_device_list; _ ← test_z l;
  d ← ask v_ptr V_first_device; dev ← test_z d;
  set_app (λ d, d <| ad_ib_dev := dev |>);;
  x ← ask v_ptr (V_open_device dev); x ← test_z x; set_ctx (λ c, c <| c_context := x |>);;
  pd ← ask v_ptr (V_alloc_pd x); pd ← test_z pd; set_ctx (λ c, c <| c_pd := pd |>);;
  b ← ctx c_buf; n ← ctx c_size;
  mr ← ask v_ptr (V_reg_mr pd b (u32 (n * 2))); mr ← test_z mr; set_ctx (λ c, c <| c_mr := mr |>);;
  ch ← ask v_ptr (V_create_comp_channel x); ch ← test_z ch; set_ctx (λ c, c <| c_ch := ch |>);;
  rcq ← ask v_ptr (V_create_cq x 1); rcq ← test_z rcq; set_ctx (λ c, c <| c_rcq := rcq |>);;
  depth ← ctx c_tx_depth;
  scq ← ask v_ptr (V_create_cq x depth); scq ← test_z scq; set_ctx (λ c, c <| c_scq := scq |>);;
  qp ← ask v_ptr (V_create_qp pd scq rcq depth); qp ← test_z qp; set_ctx (λ c, c <| c_qp := qp |>);;
  qp_change_state_init.

Definition init_ctx : VP unit :=
  new_ctx;;
  n ← ctx c_size;
  r ← memalign (u32 (n * 2));
  test_nz r.1;;
  b ← nonnull r.2;
  set_ctx (λ c, c <| c_buf := b |>);;
  memset0 b (u32 (n * 2));;
  open_device.

(** [posix_memalign] stores its block's address in the buffer, where the
    [memset] erases it. *)
Definition init_ctx_with_buffer (buffer : Z) : VP unit :=
  new_ctx;;
  set_ctx (λ c, c <| c_buf := buffer |>);;
  set_ctx (λ c, c <| c_size := BUFFER_SIZE |>);;
  r ← memalign (BUFFER_SIZE * 2);
  test_nz r.1;;
  b ← nonnull r.2;
  update (λ p, p <| p_mem ::= λ m, mem_put m buffer 8 (ptr_bytes b) |>);;
  memset0 buffer (BUFFER_SIZE * 2);;
  open_device.

Definition destroy_ctx : VP unit :=
  c ← ctx id;
  r ← ask v_int (V_destroy_qp (c_qp c)); test_nz r;;
  r ← ask v_int (V_destroy_cq (c_scq c)); test_nz r;;
  r ← ask v_int (V_destroy_cq (c_rcq c)); test_nz r;;
  r ← ask v_int (V_destroy_comp_channel (c_ch c)); test_nz r;;
  r ← ask v_int (V_dereg_mr (c_mr c)); test_nz r;;
  r ← ask v_int (V_dealloc_pd (c_pd c)); test_nz r;;
  tell (V_free (c_buf c));;
  p ← data p_ctx;
  match p with
  | PLive a _ => tell (V_free a);; update (λ p, p <| p_ctx := PFreed a |>)
  | _ => mret tt
  end.

(** *** Connections *)

Definition set_local_ib_connection : VP unit :=
  x ← ctx c_context;
  port ← app ad_ib_port;
  r ← ask v_int (V_query_port x port);
  test_nz r;;
  rnd ← ask v_int V_lrand48;
  b ← ctx c_buf;
  n ← ctx c_size;
  set_app (λ d, d <| ad_local :=
    mkConn (u16 v_lid) (i32 v_qp_num) (Z.land rnd 0xffffff) (u32 v_rkey) (u64 (b + n)) |>).

(** A nonzero result of [getaddrinfo] that is not negative passes the test,
    with [res] uninitialised. *)
Definition getaddrinfo (host : option string) : VP unit :=
  r ← ask v_int (V_getaddrinfo host);
  test_n r;;
  if negb (r =? 0) then crash BadPtr
  else if decide (v_addrs = 0%nat) then crash NullDeref else mret tt.

(** Every address of the list is connected, not the first that works. *)
Fixpoint connect_loop (n : nat) (sockfd : Z) : VP Z :=
  match n with
  | O => mret sockfd
  | S n =>
      fd ← ask v_int V_socket; test_n fd;;
      r ← ask v_int (V_connect fd); test_n r;;
      connect_loop n fd
  end.

Definition tcp_client_connect : VP Z :=
  port ← app ad_port; r ← ask v_int (V_asprintf port); test_n r;;
  host ← app ad_servername; getaddrinfo host;;
  tell V_getnameinfo;;
  fd ← connect_loop v_addrs (-1);
  tell V_freeaddrinfo;;
  mret fd.

Definition tcp_server_listen : VP Z :=
  port ← app ad_port; r ← ask v_int (V_asprintf port); test_n r;;
  getaddrinfo None;;
  fd ← ask v_int V_socket; test_n fd;;
  tell (V_setsockopt fd);;
  r ← ask v_int (V_bind fd); test_n r;;
  tell (V_listen fd);;
  connfd ← ask v_int (V_accept fd); test_n connfd;;
  tell V_freeaddrinfo;;
  mret connfd.

(** [read] takes what has arrived, at most [n] bytes and at most what the
    system is ready to give; [None] is -1. *)
Definition read (fd : Z) (n : nat) : VP (option (list ascii)) :=
  r ← ask v_int (V_read fd n);
  if r <? 0 then mret None
  else
    inbox ← data p_inbox;
    let got := take (Z.to_nat r `min` n) inbox in
    update (λ p, p <| p_inbox := drop (length got) inbox |>);;
    mret (Some got).

(** A peer's message that does not parse: the block is freed, and the function
    returns 0 all the same. *)
Definition parse_remote (got : list ascii) : VP unit :=
  p ← ask v_ptr (V_malloc B_conn); a ← test_z p;
  s ← inside (c_string got);
  match sscanf_conn s with
  | Some c => set_app (λ d, d <| ad_remote := PLive a c |>)
  | None => tell (V_free a);; set_app (λ d, d <| ad_remote := PFreed a |>)
  end.

Definition has_data (p : proc) : bool := match p_inbox p with [] => p_closed p | _ => true end.

Definition exch_read (fd : Z) : VW Z :=
  got ← wlift (read fd sizeof_msg);
  match got with
  | Some got => if decide (length got = sizeof_msg) then wlift (parse_remote got);; mret 0 else mret (-1)
  | None => mret (-1)
  end.

Definition tcp_exch_ib_connection_info : VW Z :=
  local ← wlift (app ad_local);
  msg ← wlift (inside (sprintf_conn local));
  fd ← wlift (app ad_sockfd);
  n ← wlift (ask v_int (V_write fd msg));
  if negb (n =? Z.of_nat sizeof_msg) then mret (-1)
  else wait has_data;; exch_read fd.

Definition print_ib_connection : VP unit := _ ← remote id; mret tt.

(** *** The transfer *)

Definition rdma_write : VP unit :=
  set_ctx (λ c, c <| c_sge_addr := c_buf c |> <| c_sge_length := c_size c |> <| c_sge_lkey := v_lkey |>);;
  r ← remote id;
  set_ctx (λ c, c <| c_remote_addr := ic_vaddr r |> <| c_rkey := ic_rkey r |> <| c_wr_id := 3 |>);;
  c ← ctx id;
  x ← ask v_int (V_post_send (c_qp c)
        (mkWr (c_sge_addr c) (c_sge_length c) (c_sge_lkey c) (c_remote_addr c) (c_rkey c)));
  test_nz x.

Definition text : string := "Saluton Teewurst. UiUi".

Definition server_transfer : VP unit :=
  b ← ctx c_buf;
  update (λ p, p <| p_mem ::= λ m, mem_put m b (Z.of_nat (length (c_str text))) (list_bytes (c_str text)) |>);;
  rdma_write.

(** [while(1) if(strlen(chPtr) > 0) break;] *)
Definition text_arrived (p : proc) : bool :=
  bool_decide (p_mem p (ic_vaddr (ad_local (p_app p))) ≠ Ascii.zero).

(** A string longer than half the buffer leaves the region. *)
Definition print_text : VP unit :=
  a ← app (λ d, ic_vaddr (ad_local d));
  n ← ctx c_size;
  m ← data p_mem;
  s ← inside (string_at (Z.to_nat n) m a);
  tell (V_print s).

(** *** [main] *)

Definition data0 (size : Z) (servername : option string) : app_data :=
  mkAppData 19765 1 size 100 0 servername zero_conn PNull 0.

(** [if(argc == 2) data.servername = argv[1];] *)
Definition servername_of (argv : list string) : option string :=
  match argv with [_; h] => Some h | _ => None end.

Definition main_setup (init : VP unit) (size : Z) (argv : list string) : VP unit :=
  update (λ p, p <| p_app := data0 size (servername_of argv) |>);;
  (if decide (2 < length argv)%nat then die else mret tt);;
  ps ← ask v_int V_sysconf; update (λ p, p <| page_size := i32 ps |>);;
  init;;
  set_local_ib_connection;;
  host ← app ad_servername;
  fd ← (match host with
        | Some _ => tcp_client_connect
        | None => fd ← tcp_server_listen; test_n fd;; mret fd
        end);
  set_app (λ d, d <| ad_sockfd := fd |>).

Definition main_end : VW Z :=
  wlift destroy_ctx;;
  wlift (fd ← app ad_sockfd; tell (V_close fd));;
  mret 0.

(** After the exchange, whose result is [r]. *)
Definition main_continue (r : Z) : VW Z :=
  wlift (test_nz r);;
  wlift print_ib_connection;;
  host ← wlift (app ad_servername);
  match host with
  | None => wlift (qp_change_state_rts;; server_transfer);; main_end
  | Some _ => wlift qp_change_state_rtr;; wait text_arrived;; wlift print_text;; main_end
  end.

Definition main_body : VW Z := r ← tcp_exch_ib_connection_info; main_continue r.

Definition client_main_init : VP unit :=
  b ← zalloc (B_buffer (BUFFER_SIZE * 2));
  memset0 b (BUFFER_SIZE * 2);;
  init_ctx_with_buffer b.

(** [main] of [rdma_client.c] and of [rdma_server.c]. *)
Definition client_main (argv : list string) : VW Z :=
  wlift (main_setup client_main_init BUFFER_SIZE argv);; main_body.
Definition server_main (argv : list string) : VW Z :=
  wlift (main_setup init_ctx 65536 argv);; main_body.

End Ops.

(** ** Two processes *)

(** What a process has done so far. *)
Definition sent (cs : list vcall) : list ascii :=
  concat (omap (λ c, match c with V_write _ b => Some b | _ => None end) cs).
Definition regions (cs : list vcall) : list (Z * Z) :=
  omap (λ c, match c with V_reg_mr _ a n => Some (a, n) | _ => None end) cs.
Definition posts (cs : list vcall) : list write_wr :=
  omap (λ c, match c with V_post_send _ wr => Some wr | _ => None end) cs.
Definition printed (cs : list vcall) : list (list ascii) :=
  omap (λ c, match c with V_print t => Some t | _ => None end) cs.

(** The adapter accepts a write with the key of the receiver's region and
    inside it. *)
Definition write_allowed (rkey : Z) (cs : list vcall) (wr : write_wr) : bool :=
  (wr_rkey wr =? rkey) &&
  existsb (λ r, (r.1 <=? wr_raddr wr) && (wr_raddr wr + wr_length wr <=? r.1 + r.2)) (regions cs).

Definition place_write (src : proc) (wr : write_wr) (dst : proc) : proc :=
  dst <| p_mem ::= λ m, mem_put m (wr_raddr wr) (wr_length wr) (λ i, p_mem src (wr_laddr wr + i)) |>.

(** A waiting process is given something and goes on if its condition holds. *)
Definition resume_with (f : proc → proc) (s : wsusp proc vcall Z) : wsusp proc vcall Z :=
  match s with
  | WWait c w k =>
      let w' := mkPstate (f (p_data w)) (p_calls w) in
      if c (p_data w') then k w' else WWait c w' k
  | s => s
  end.

Definition calls_of (s : wsusp proc vcall Z) : list vcall :=
  match s with WDone _ w | WExited _ w | WWait _ w _ => p_calls w | WFault _ => [] end.

Definition receive (bytes : list ascii) (p : proc) : proc := p <| p_inbox ::= λ l, l ++ bytes |>.

(** The two sides run to their waits and the socket carries their messages.  A
    write that is allowed is carried out between its post and the destruction of
    the server's queue pair, its source still in place, if the adapter is fast
    enough ([carried]), and is discarded with the queue pair otherwise. *)
Definition pair_run (carried : bool) (rkey : Z) (s1 c1 : wsusp proc vcall Z) : wsusp proc vcall Z * wsusp proc vcall Z :=
  let s2 := resume_with (receive (sent (calls_of c1))) s1 in
  let c2 := resume_with (receive (sent (calls_of s1))) c1 in
  match s2, posts (calls_of s2) with
  | WDone _ ws, [wr] =>
      if carried && write_allowed rkey (calls_of c2) wr then (s2, resume_with (place_write (p_data ws) wr) c2) else (s2, c2)
  | _, _ => (s2, c2)
  end.

(** ** Runs when the calls succeed *)

Definition must_be_zero (c : vcall) : bool :=
  match c with
  | V_posix_memalign _ _ | V_modify_qp _ _ | V_query_port _ _ | V_post_send _ _ | V_destroy_qp _ | V_destroy_cq _
  | V_destroy_comp_channel _ | V_dereg_mr _ | V_dealloc_pd _ | V_getaddrinfo _ => true
  | _ => false
  end.

(** Calls succeed; addresses are those of user space, queue-pair numbers have
    24 bits. *)
Record verbs_good (E : ibverbs) : Prop := {
  good_zero cs c : must_be_zero c = true → v_int cs c = 0;
  good_nonneg cs c : 0 <= v_int cs c;
  good_write cs fd b : v_int cs (V_write fd b) = Z.of_nat (length b);
  good_read cs fd n : Z.of_nat n <= v_int cs (V_read fd n);
  good_ptr cs c : ∃ a, v_ptr cs c = Some a ∧ 0 <= a < 2 ^ 47;
  good_addrs : (0 < v_addrs)%nat;
  good_qp_num : 0 <= v_qp_num < 2 ^ 24
}.

Section Good.
Context {E : ibverbs} (HG : verbs_good E).

Lemma runs_zero c d cs (Q : Z → pstate proc vcall → Prop) : must_be_zero c = true → Q 0 (mkPstate d (cs ++ [c])) → runs (ask v_int c) (mkPstate d cs) Q.
Proof. intros Hz HQ. eexists _, _. split; [done|]. cbn. by rewrite (good_zero _ HG). Qed.

Lemma runs_nonneg c d cs (Q : Z → pstate proc vcall → Prop) :
  (∀ r, 0 <= r → Q r (mkPstate d (cs ++ [c]))) → runs (ask v_int c) (mkPstate d cs) Q.
Proof. intros HQ. eexists _, _. split; [done|]. apply HQ, (good_nonneg _ HG). Qed.

Lemma runs_ptr c d cs (Q : option Z → pstate proc vcall → Prop) :
  (∀ a, 0 <= a < 2 ^ 47 → Q (Some a) (mkPstate d (cs ++ [c]))) → runs (ask v_ptr c) (mkPstate d cs) Q.
Proof. intros HQ. destruct (good_ptr _ HG cs c) as (a & Ha & Hr). eexists _, _. split; [done|]. cbn. rewrite Ha. by apply HQ. Qed.

Lemma runs_memalign n d cs (Q : Z * option Z → pstate proc vcall → Prop) :
  (∀ a, 0 <= a < 2 ^ 47 → Q (0, Some a) (mkPstate d (cs ++ [V_posix_memalign (page_size d) n]))) →
  runs (memalign n) (mkPstate d cs) Q.
Proof.
  intros HQ. destruct (good_ptr _ HG cs (V_posix_memalign (page_size d) n)) as (a & Ha & Hr).
  eexists _, _. split; [done|]. cbn. rewrite Ha, (good_zero _ HG) by done. by apply HQ.
Qed.

Lemma runs_test_n x w (Q : unit → pstate proc vcall → Prop) : 0 <= x → Q tt w → runs (test_n x) w Q.
Proof. intros Hx HQ. unfold test_n. destruct (Z.ltb_spec x 0); [lia|]. by eexists _, _. Qed.

End Good.

(** [rgo] runs a computation whose calls succeed, as far as its primitives
    are known. *)
Ltac rstep HG :=
  cbv beta zeta;
  lazymatch goal with
  | |- runs (mbind _ _) _ _ => apply runs_bind
  | |- wruns (mbind _ (wlift _)) _ _ => apply wruns_lift
  | |- wruns (mret _) _ _ => apply wruns_ret
  | |- wruns main_end _ _ => unfold main_end
  | |- wruns (match _ with _ => _ end) _ _ => progress cbv iota
  | |- runs (ask v_ptr _) _ _ => apply (runs_ptr HG); intros ? ?
  | |- runs (memalign _) _ _ => apply (runs_memalign HG); intros ? ?
  | |- runs (ask v_int _) _ _ => first [apply (runs_zero HG); [reflexivity|] | apply (runs_nonneg HG); intros ? ?]
  | |- runs (connect_loop _ _) _ _ => fail
  | |- runs (getaddrinfo _) _ _ => fail
  | |- runs (tcp_client_connect) _ _ => fail
  | |- runs (tcp_server_listen) _ _ => fail
  | |- runs (test_n _) _ _ => apply runs_test_n; [first [assumption|lia]|]
  | |- runs ?m ?w ?Q =>
      let r := eval hnf in (m w) in
      lazymatch r with
      | Done ?a ?w' =>
          let a2 := eval cbn in a in
          let w2 := eval cbn in w' in
          apply (runs_done m w a2 w2 Q); [reflexivity|]
      | _ => let h := eval red in m in change (runs h w Q)
      end
  end.
Ltac rgo HG := repeat rstep HG.

Section Setup.
Context {E : ibverbs} (HG : verbs_good E).

(** The context after its initialisation: a buffer of twice the size, zeroed,
    registered, nothing sent, posted or printed. *)
Record initialised (n b : Z) (d0 : app_data) (w : pstate proc vcall) : Prop := {
  in_ctx : ∃ a c, p_ctx (p_data w) = PLive a c ∧ c_size c = n ∧ c_buf c = b;
  in_mem x : b <= x < b + 2 * n → p_mem (p_data w) x = Ascii.zero;
  in_app : ∃ dev, p_app (p_data w) = d0 <| ad_ib_dev := dev |>;
  in_box : p_inbox (p_data w) = [] ∧ p_closed (p_data w) = false;
  in_calls : regions (p_calls w) = [(b, 2 * n)] ∧ sent (p_calls w) = [] ∧ posts (p_calls w) = [] ∧ printed (p_calls w) = []
}.

Lemma mem_put_in m a n f x : a <= x < a + n → mem_put m a n f x = f (x - a).
Proof. intros Hx. unfold mem_put. destruct (Z.leb_spec a x); [|lia]. destruct (Z.ltb_spec x (a + n)); [done|lia]. Qed.

Ltac init_done b :=
  intros ->; exists b; split; [assumption|]; split; cbn;
  [eexists _, _; split; [reflexivity|done] | intros x Hx; rewrite mem_put_in by lia; done | by eexists | done | done].

Lemma init_ctx_runs n d m ps cp cl :
  0 < n < 2 ^ 31 → ad_size d = n →
  runs init_ctx (mkPstate (mkProc ps m cp d [] cl) [V_sysconf])
    (λ _ w, cl = false → ∃ b, 0 <= b < 2 ^ 47 ∧ initialised n b d w).
Proof.
  intros Hn Hd. unfold init_ctx, new_ctx, open_device. rgo HG.
  replace (u32 (ad_size d * 2)) with (2 * n) by (rewrite u32_id; lia). init_done a0.
Qed.

Lemma client_main_init_runs d m ps cp cl :
  runs client_main_init (mkPstate (mkProc ps m cp d [] cl) [V_sysconf])
    (λ _ w, cl = false → ∃ b, 0 <= b < 2 ^ 47 ∧ initialised BUFFER_SIZE b d w).
Proof.
  unfold client_main_init, init_ctx_with_buffer, new_ctx, open_device. rgo HG. init_done a.
Qed.

Definition quiet (l : list vcall) : Prop := regions l = [] ∧ sent l = [] ∧ posts l = [] ∧ printed l = [].

Lemma regions_app k l : regions (k ++ l) = regions k ++ regions l.
Proof. apply omap_app. Qed.
Lemma sent_app k l : sent (k ++ l) = sent k ++ sent l.
Proof. unfold sent. by rewrite omap_app, concat_app. Qed.
Lemma posts_app k l : posts (k ++ l) = posts k ++ posts l.
Proof. apply omap_app. Qed.
Lemma printed_app k l : printed (k ++ l) = printed k ++ printed l.
Proof. apply omap_app. Qed.

Lemma sent_write fd b : sent [V_write fd b] = b.
Proof. apply app_nil_r. Qed.

Lemma quiet_app k l : quiet k → quiet l → quiet (k ++ l).
Proof.
  intros (A1 & A2 & A3 & A4) (B1 & B2 & B3 & B4). unfold quiet.
  by rewrite regions_app, sent_app, posts_app, printed_app, A1, A2, A3, A4, B1, B2, B3, B4.
Qed.

Lemma connect_loop_runs k : ∀ fd d cs, 0 <= fd ∨ (0 < k)%nat →
  runs (connect_loop k fd) (mkPstate d cs) (λ r w, 0 <= r ∧ ∃ l, w = mkPstate d (cs ++ l) ∧ quiet l).
Proof.
  induction k as [|k IH]; intros fd d cs Hfd.
  { apply (runs_done _ _ fd (mkPstate d cs)); [done|]. split; [lia|]. exists []. by rewrite app_nil_r. }
  cbn [connect_loop]. rgo HG. eapply runs_mono; [|by apply IH; left].
  intros x w (Hx & l & -> & Hl). split; [done|].
  eexists. rewrite <- !app_assoc. split; [reflexivity|]. by apply quiet_app; [|apply quiet_app].
Qed.

Lemma getaddrinfo_runs host d cs Q :
  Q tt (mkPstate d (cs ++ [V_getaddrinfo host])) → runs (getaddrinfo host) (mkPstate d cs) Q.
Proof.
  intros HQ. unfold getaddrinfo. do 4 rstep HG. cbn [Z.eqb negb]. pose proof (good_addrs _ HG).
  rewrite decide_False by lia. by eexists _, _.
Qed.

Lemma tcp_client_connect_runs d cs :
  runs tcp_client_connect (mkPstate d cs) (λ r w, ∃ l, w = mkPstate d (cs ++ l) ∧ quiet l).
Proof.
  unfold tcp_client_connect. rgo HG. apply getaddrinfo_runs. rgo HG.
  eapply runs_mono; [|apply connect_loop_runs; right; apply (good_addrs _ HG)].
  intros fd w (_ & l & -> & Hl). rgo HG. eexists. rewrite <- !app_assoc. split; [reflexivity|].
  by repeat apply quiet_app.
Qed.

Lemma tcp_server_listen_runs d cs :
  runs tcp_server_listen (mkPstate d cs) (λ r w, 0 <= r ∧ ∃ l, w = mkPstate d (cs ++ l) ∧ quiet l).
Proof.
  unfold tcp_server_listen. rgo HG. apply getaddrinfo_runs. rgo HG. split; [done|].
  eexists. rewrite <- !app_assoc. split; [reflexivity|]. by repeat apply quiet_app.
Qed.

(** A process with its own connection, that has sent [out]. *)
Definition local_conn (n b psn : Z) : ib_connection := mkConn (u16 v_lid) v_qp_num psn (u32 v_rkey) (b + n).

Record connected (n b psn : Z) (host : option string) (out : list ascii) (w : pstate proc vcall) : Prop := {
  cn_ctx : ∃ a c, p_ctx (p_data w) = PLive a c ∧ c_size c = n ∧ c_buf c = b;
  cn_mem x : b <= x < b + 2 * n → p_mem (p_data w) x = Ascii.zero;
  cn_local : ad_local (p_app (p_data w)) = local_conn n b psn;
  cn_host : ad_servername (p_app (p_data w)) = host;
  cn_box : p_inbox (p_data w) = [] ∧ p_closed (p_data w) = false;
  cn_calls : regions (p_calls w) = [(b, 2 * n)] ∧ sent (p_calls w) = out ∧ posts (p_calls w) = [] ∧ printed (p_calls w) = []
}.

(** The ways to initialise the context that [main] may be given. *)
Definition inits (init : VP unit) (n : Z) : Prop := ∀ d m ps cp cl, ad_size d = n →
  runs init (mkPstate (mkProc ps m cp d [] cl) [V_sysconf])
    (λ _ w, cl = false → ∃ b, 0 <= b < 2 ^ 47 ∧ initialised n b d w).

Lemma calls_quiet cs l b n out :
  regions cs = [(b, n)] ∧ sent cs = out ∧ posts cs = [] ∧ printed cs = [] → quiet l →
  regions (cs ++ l) = [(b, n)] ∧ sent (cs ++ l) = out ∧ posts (cs ++ l) = [] ∧ printed (cs ++ l) = [].
Proof.
  intros (A1 & A2 & A3 & A4) (B1 & B2 & B3 & B4).
  by rewrite regions_app, sent_app, posts_app, printed_app, A1, A2, A3, A4, B1, B2, B3, B4, !app_nil_r.
Qed.

Lemma psn_range r : 0 <= Z.land r 0xffffff < 2 ^ 24.
Proof. change 0xffffff with (2 ^ 24 - 1). rewrite land_mask by lia. apply Z.mod_pos_bound. lia. Qed.

Lemma main_setup_runs init n argv m :
  0 < n < 2 ^ 31 → inits init n → (length argv <= 2)%nat →
  runs (main_setup init n argv) (mkPstate (mkProc 0 m PNull (data0 0 None) [] false) [])
    (λ _ w, ∃ b psn, 0 <= b < 2 ^ 47 ∧ 0 <= psn < 2 ^ 24 ∧ connected n b psn (servername_of argv) [] w).
Proof.
  intros Hn Hi Ha. unfold main_setup. generalize (servername_of argv). intros host.
  rstep HG. rstep HG. rewrite decide_False by lia. rgo HG. cbn. rgo HG. eapply runs_mono; [|by apply Hi].
  intros [] w Hw. destruct (Hw eq_refl) as (b & Hb & [(a & c & Hc & Hcn & Hcb) Hm [dev Hd] [Hib Hcl] Hcs]). clear Hw.
  destruct w as [[ps1 m1 cp1 d1 ib1 cl1] cs1]. cbn in Hc, Hm, Hd, Hib, Hcl, Hcs. subst cp1 d1 ib1 cl1.
  unfold set_local_ib_connection. rgo HG.
  assert (∀ fd l, quiet l → ∃ b0 psn, 0 <= b0 < 2 ^ 47 ∧ 0 <= psn < 2 ^ 24 ∧ connected n b0 psn host []
    (mkPstate (mkProc ps1 m1 (PLive a c) ((data0 n host) <| ad_ib_dev := dev |> <| ad_local :=
      mkConn (u16 v_lid) (i32 v_qp_num) (Z.land r0 0xffffff) (u32 v_rkey) (u64 (c_buf c + c_size c)) |> <| ad_sockfd := fd |>)
      [] false) (((cs1 ++ [V_query_port (c_context c) 1]) ++ [V_lrand48]) ++ l))) as Hend.
  { intros fd l Hl. exists b, (Z.land r0 0xffffff). split; [done|]. split; [apply psn_range|].
    pose proof (good_qp_num _ HG). split; cbn.
    - by exists a, c.
    - done.
    - rewrite i32_id, u64_id by lia. unfold local_conn. by rewrite Hcb, Hcn.
    - done.
    - done.
    - rewrite <- !app_assoc. apply calls_quiet; [done|]. by repeat apply quiet_app. }
  destruct host as [h|].
  - eapply runs_mono; [|apply tcp_client_connect_runs]. intros fd w (l & -> & Hl). rgo HG. by apply Hend.
  - apply runs_bind. eapply runs_mono; [|apply tcp_server_listen_runs]. intros fd w (Hfd & l & -> & Hl).
    rgo HG. by apply Hend.
Qed.

(** *** The exchange *)

Definition conn_msg (c : ib_connection) : list ascii := conn_fixed c ++ [Ascii.zero].

Lemma local_conn_ok n b psn :
  0 < n < 2 ^ 31 → 0 <= b < 2 ^ 47 → 0 <= psn < 2 ^ 24 → wf_conn (local_conn n b psn) ∧ conn_fits (local_conn n b psn).
Proof.
  intros Hn Hb Hp. pose proof (good_qp_num _ HG). pose proof (u32_range v_rkey).
  assert (0 <= u16 v_lid < 2 ^ 16) by (apply Z.mod_pos_bound; lia).
  unfold wf_conn, conn_fits, local_conn. cbn. rewrite (u32_id (u16 v_lid)), (u32_id v_qp_num), (u32_id psn) by lia. lia.
Qed.

Definition start (m : Z → ascii) : pstate proc vcall := mkPstate (mkProc 0 m PNull (data0 0 None) [] false) [].

Lemma wait_stops {A} c w (k : unit → VW A) : c (p_data w) = false → (wait c ≫= k) w = WWait c w (λ w', k tt w').
Proof. intros Hc. rewrite wprog_bind_unfold. unfold wait. by rewrite Hc. Qed.

Lemma wait_goes {A} c w (k : unit → VW A) : c (p_data w) = true → (wait c ≫= k) w = k tt w.
Proof. intros Hc. rewrite wprog_bind_unfold. unfold wait. by rewrite Hc. Qed.

Lemma main_waits init n argv m :
  0 < n < 2 ^ 31 → inits init n → (length argv <= 2)%nat →
  ∃ b psn fd w k, (wlift (main_setup init n argv);; main_body) (start m) = WWait has_data w k ∧
    0 <= b < 2 ^ 47 ∧ 0 <= psn < 2 ^ 24 ∧
    connected n b psn (servername_of argv) (conn_msg (local_conn n b psn)) w ∧
    ∀ w', k w' = (exch_read fd ≫= main_continue) w'.
Proof.
  intros Hn Hi Ha. eapply runs_wlift; [by apply main_setup_runs|].
  intros [] w (b & psn & Hb & Hp & [(a & c & Hc & Hcn & Hcb) Hm Hl Hh [Hib Hcl] Hcs]).
  destruct (local_conn_ok n b psn Hn Hb Hp) as [Hwf Hfit].
  destruct w as [[ps1 m1 cp1 d1 ib1 cl1] cs1]. cbn -[regions sent posts printed] in Hc, Hm, Hl, Hh, Hib, Hcl, Hcs.
  subst cp1 ib1 cl1. exists b, psn, (ad_sockfd d1).
  unfold main_body, tcp_exch_ib_connection_info. cbn [p_app p_data].
  erewrite wlift_step2 by reflexivity. cbn [p_data p_app]. rewrite Hl, (sprintf_conn_fits _ Hfit).
  do 3 (erewrite wlift_step2 by reflexivity).
  cbn [p_data p_calls p_app]. rewrite (good_write _ HG), length_app, length_conn_fixed.
  change (Z.of_nat (44 + length [Ascii.zero]) =? Z.of_nat sizeof_msg) with true. cbn [negb].
  eexists _, _. rewrite wprog_bind_unfold, wait_stops by reflexivity. cbn [wsusp_bind].
  split; [reflexivity|]. split; [done|]. split; [done|]. split; [|reflexivity].
  split; cbn -[regions sent posts printed]; [by exists a, c|done..| ].
  destruct Hcs as (A1 & A2 & A3 & A4).
  rewrite regions_app, sent_app, posts_app, printed_app, A1, A2, A3, A4, sent_write. done.
Qed.

(** A well-formed message of the peer: the exchange returns 0 and leaves the
    peer's connection. *)
Lemma exch_read_good fd c' d cs :
  p_inbox d = [] → wf_conn c' → conn_fits c' →
  ∃ ra l, quiet l ∧
    (exch_read fd ≫= main_continue) (mkPstate (receive (conn_msg c') d) cs) =
    main_continue 0 (mkPstate (d <| p_app ::= λ e, e <| ad_remote := PLive ra c' |> |>) (cs ++ l)).
Proof.
  intros Hib Hwf Hfit. destruct d as [ps m cp e ib cl]. cbn in Hib. subst ib.
  assert (length (conn_msg c') = sizeof_msg) as Hlen by (unfold conn_msg; by rewrite length_app, length_conn_fixed).
  set (cs1 := cs ++ [V_read fd sizeof_msg]).
  assert (read fd sizeof_msg (mkPstate (receive (conn_msg c') (mkProc ps m cp e [] cl)) cs) =
    Done (Some (conn_msg c')) (mkPstate (mkProc ps m cp e [] cl) cs1)) as Hread.
  { unfold read. gstep. pose proof (good_read _ HG cs fd sizeof_msg) as Hr. cbn [p_calls].
    destruct (Z.ltb_spec (v_int cs (V_read fd sizeof_msg)) 0); [lia|]. gstep. gstep.
    unfold receive. cbn -[sizeof_msg conn_msg take drop].
    rewrite take_ge by lia. rewrite drop_ge by lia. reflexivity. }
  unfold exch_read. rewrite (wlift_step2 _ _ _ _ _ _ Hread). rewrite decide_True by done.
  destruct (good_ptr _ HG cs1 (V_malloc B_conn)) as (ra & Hra & _).
  exists ra, [V_read fd sizeof_msg; V_malloc B_conn]. split; [done|].
  erewrite wlift_step2.
  2:{ unfold parse_remote. gstep. cbn [p_calls]. rewrite Hra. gstep.
      unfold conn_msg. rewrite c_string_app by apply conn_fixed_no_nul. gstep.
      rewrite (sscanf_fixed _ Hwf Hfit). reflexivity. }
  subst cs1. cbn [p_data p_calls]. rewrite <- app_assoc. reflexivity.
Qed.

(** *** After the exchange *)

Lemma connected_remote n b psn host out ra c' d cs l :
  connected n b psn host out (mkPstate d cs) → quiet l →
  connected n b psn host out (mkPstate (d <| p_app ::= λ e, e <| ad_remote := PLive ra c' |> |>) (cs ++ l)).
Proof.
  intros [H1 H2 H3 H4 H5 H6] Hl. destruct d as [ps m cp e ib cl]. split; [done..|]. by apply calls_quiet.
Qed.

(** The server posts its write of the text and ends. *)
Lemma server_continues n b psn out ra c' w :
  connected n b psn None out w → ad_remote (p_app (p_data w)) = PLive ra c' →
  wruns (main_continue 0) w (λ r w', r = 0 ∧
    posts (p_calls w') = [mkWr b n v_lkey (ic_vaddr c') (ic_rkey c')] ∧
    p_mem (p_data w') = mem_put (p_mem (p_data w)) b 23 (list_bytes (c_str text))).
Proof.
  intros [(a & c & Hc & Hcn & Hcb) Hm Hl Hh [Hib Hcl] (_ & _ & Hpo & _)] Hr.
  destruct w as [[ps1 m1 cp1 [po ip sz td fd sn lc rc dv] ib1 cl1] cs1].
  cbn -[posts] in Hc, Hl, Hh, Hib, Hcl, Hr, Hpo. subst cp1 sn ib1 cl1 rc. unfold main_continue, qp_change_state_rts, server_transfer, rdma_write.
  rgo HG. split; [done|]. split; [|by rewrite <- Hcb]. cbn [p_calls]. rewrite !posts_app, Hpo. cbn. by rewrite Hcb, Hcn.
Qed.

(** The client becomes ready and polls: the text is not there yet. *)
Lemma client_continues n b psn host out ra c' w :
  0 < n → connected n b psn (Some host) out w → ad_remote (p_app (p_data w)) = PLive ra c' →
  ∃ w', main_continue 0 w = WWait text_arrived w' (λ w, (wlift print_text;; main_end) w) ∧
    connected n b psn (Some host) out w'.
Proof.
  intros Hn Hw Hr. destruct Hw as [(a & c & Hc & Hcn & Hcb) Hm Hl Hh [Hib Hcl] Hcs].
  destruct w as [[ps1 m1 cp1 [po ip sz td fd sn lc rc dv] ib1 cl1] cs1].
  cbn -[posts regions sent printed] in Hc, Hm, Hl, Hh, Hib, Hcl, Hr, Hcs. subst cp1 sn ib1 cl1 rc. unfold main_continue.
  do 3 gstep. cbn [ad_servername p_data p_app].
  pose (Q := λ w : pstate proc vcall, ∃ l, w = mkPstate (mkProc ps1 m1 (PLive a c) (mkAppData po ip sz td fd (Some host) lc (PLive ra c') dv) [] false) (cs1 ++ l) ∧ quiet l).
  eapply (runs_wlift _ _ _ (λ _, Q)).
  { unfold qp_change_state_rtr. rgo HG. eexists. rewrite <- !app_assoc. by split. }
  intros [] w (l & -> & Hq). rewrite wait_stops.
  2:{ unfold text_arrived. cbn. rewrite Hl. cbn. rewrite Hm by lia. done. }
  eexists. split; [reflexivity|]. split; [by exists a, c|done..|]. by apply calls_quiet.
Qed.

(** Once a string is at its address, the client prints it and ends. *)
Lemma client_prints a c w t :
  p_ctx (p_data w) = PLive a c → printed (p_calls w) = [] →
  string_at (Z.to_nat (c_size c)) (p_mem (p_data w)) (ic_vaddr (ad_local (p_app (p_data w)))) = Some t →
  wruns (λ w, (wlift print_text;; main_end) w) w (λ r w', r = 0 ∧ printed (p_calls w') = [t]).
Proof.
  intros Hc Hpr Ht. destruct w as [[ps1 m1 cp1 d1 ib1 cl1] cs1]. cbn -[printed string_at] in Hc, Hpr, Ht. subst cp1.
  unfold print_text. change (λ w, ?f w) with f. do 2 rstep HG. do 3 rstep HG. do 3 rstep HG.
  rewrite Ht. rgo HG. split; [done|]. cbn [p_calls]. by rewrite !printed_app, Hpr.
Qed.

End Setup.

(** *** The transfer *)

Lemma string_at_list l : ∀ fuel m a, (length l < fuel)%nat → Ascii.zero ∉ l →
  (∀ i, (i <= length l)%nat → m (a + Z.of_nat i) = list_bytes (l ++ [Ascii.zero]) (Z.of_nat i)) →
  string_at fuel m a = Some l.
Proof.
  induction l as [|x l IH]; intros fuel m a Hf Hz Hm; (destruct fuel as [|fuel]; [lia|]); cbn [string_at].
  - specialize (Hm 0%nat (Nat.le_refl _)). rewrite Z.add_0_r in Hm. by rewrite Hm.
  - assert (m a = x) as -> by (rewrite <- (Z.add_0_r a); apply (Hm 0%nat); cbn; lia).
    apply not_elem_of_cons in Hz as [Hx Hz]. rewrite decide_False by congruence.
    rewrite (IH fuel m (a + 1)); [done|cbn in Hf; lia|done|]. intros i Hi.
    replace (a + 1 + Z.of_nat i) with (a + Z.of_nat (S i)) by lia. rewrite Hm by (cbn; lia).
    unfold list_bytes. by rewrite !Nat2Z.id.
Qed.

(** What the write puts at the client's address. *)
Lemma written_text m bs nS mC addr fuel :
  23 <= nS → (23 <= fuel)%nat →
  string_at fuel (mem_put mC addr nS (λ i, mem_put m bs 23 (list_bytes (c_str text)) (bs + i))) addr =
  Some (list_ascii_of_string text).
Proof.
  intros Hn Hf. apply string_at_list; [cbn; lia|by apply (bool_decide_eq_true_1 _)|].
  intros i Hi. cbn in Hi. rewrite mem_put_in by lia. rewrite mem_put_in by lia. f_equal. lia.
Qed.

Section Pair.

Inductive program := Client_program | Server_program.

Definition buffer_size (p : program) : Z := match p with Client_program => BUFFER_SIZE | Server_program => 65536 end.
Definition main_of `{E : ibverbs} (p : program) : list string → VW Z :=
  match p with Client_program => client_main | Server_program => server_main end.

Lemma program_inits `{E : ibverbs} (HG : verbs_good E) p argv m :
  (length argv <= 2)%nat →
  ∃ b psn fd w k, main_of p argv (start m) = WWait has_data w k ∧
    0 <= b < 2 ^ 47 ∧ 0 <= psn < 2 ^ 24 ∧
    connected (buffer_size p) b psn (servername_of argv) (conn_msg (local_conn (buffer_size p) b psn)) w ∧
    ∀ w', k w' = (exch_read fd ≫= main_continue) w'.
Proof.
  intros Ha. destruct p.
  - apply (main_waits HG client_main_init BUFFER_SIZE); [unfold BUFFER_SIZE; lia| |done].
    intros d m' ps cp cl _. by apply client_main_init_runs.
  - apply (main_waits HG init_ctx 65536); [lia| |done]. intros d m' ps cp cl Hd. by apply init_ctx_runs.
Qed.

Lemma resume_exchange `{E : ibverbs} (HG : verbs_good E) n b psn host out fd w k c' :
  connected n b psn host out w → (∀ w', k w' = (exch_read fd ≫= main_continue) w') → wf_conn c' → conn_fits c' →
  ∃ ra w', resume_with (receive (conn_msg c')) (WWait has_data w k) = main_continue 0 w' ∧
    connected n b psn host out w' ∧ ad_remote (p_app (p_data w')) = PLive ra c'.
Proof.
  intros Hw Hk Hwf Hfit. destruct w as [d cs]. pose proof (proj1 (cn_box _ _ _ _ _ _ Hw)) as Hib. cbn in Hib.
  destruct (exch_read_good HG fd c' d cs Hib Hwf Hfit) as (ra & l & Hl & Heq).
  eexists ra, _. split; [|split; [by apply connected_remote|reflexivity]].
  rewrite <- Heq. cbn [resume_with p_data p_calls]. rewrite <- Hk.
  assert (has_data (receive (conn_msg c') d) = true) as ->; [|done].
  destruct d as [ps m cp e ib cl]. cbn in Hib. subst ib. unfold has_data, receive. cbn -[conn_msg].
  by destruct (conn_msg c') eqn:Hm; [by apply app_nil in Hm as [_ Hm]|].
Qed.

Lemma allowed_iff rkey lkey laddr cs b n nS :
  regions cs = [(b, 2 * n)] → 0 <= n →
  write_allowed rkey cs (mkWr laddr nS lkey (b + n) rkey) = bool_decide (nS <= n).
Proof.
  intros Hr Hn. unfold write_allowed. rewrite Hr. cbn. rewrite Z.eqb_refl, orb_false_r.
  destruct (Z.leb_spec b (b + n)); [|lia]. cbn. case_bool_decide; [apply Z.leb_le|apply Z.leb_gt]; lia.
Qed.

Lemma string_at_first fuel m a x l : string_at fuel m a = Some (x :: l) → m a ≠ Ascii.zero.
Proof. destruct fuel; [done|]. cbn. by case_decide. Qed.

Lemma write_wakes `{E : ibverbs} (HG : verbs_good E) n b psn host out w src m bS nS lkey rkey :
  connected n b psn host out w → 23 <= nS → 23 <= n →
  p_mem src = mem_put m bS 23 (list_bytes (c_str text)) →
  ∃ wc, resume_with (place_write src (mkWr bS nS lkey (b + n) rkey))
    (WWait text_arrived w (λ w, (wlift print_text;; main_end) w)) = WDone 0 wc ∧
    printed (p_calls wc) = [list_ascii_of_string text].
Proof.
  intros [(a & c & Hc & Hcn & Hcb) _ Hl _ _ (_ & _ & _ & Hpr)] HnS Hn Hsrc.
  destruct w as [[ps1 m1 cp1 d1 ib1 cl1] cs1]. cbn -[printed] in Hc, Hl, Hpr. subst cp1.
  set (d' := place_write src (mkWr bS nS lkey (b + n) rkey) (mkProc ps1 m1 (PLive a c) d1 ib1 cl1)).
  assert (string_at (Z.to_nat (c_size c)) (p_mem d') (ic_vaddr (ad_local (p_app d'))) = Some (list_ascii_of_string text)) as Ht.
  { subst d'. cbn -[string_at text]. rewrite Hl, Hsrc. cbn [local_conn ic_vaddr]. apply written_text; lia. }
  destruct (client_prints HG a c (mkPstate d' cs1) (list_ascii_of_string text)) as (r & wc & Hrun & -> & Hp); [done..|].
  exists wc. split; [|done]. cbn [resume_with p_data p_calls]. fold d'.
  assert (text_arrived d' = true) as ->; [|exact Hrun].
  apply bool_decide_eq_true_2. exact (string_at_first _ _ _ _ _ Ht).
Qed.

(** C10. The two programs together, whichever of them is the server (run
    without an argument) and whichever the client.  When their calls succeed
    each gets the other's connection; the server posts its write and ends
    without waiting for it.  The client prints the text and ends exactly when
    two things hold: the write is inside the memory the client registered,
    which it is when the server's buffer is no larger than the client's, and the
    adapter has carried the write out before the server destroyed the queue
    pair it was posted on.  Otherwise (a write that was lost that way, or the
    roles of the two programs exchanged) the client polls for ever. *)
Theorem pair_transfers (ES EC : ibverbs) carried pS pC name nameC host mS mC :
  verbs_good ES → verbs_good EC →
  let '(s, c) := pair_run carried (u32 (@v_rkey EC)) (@main_of ES pS [name] (start mS)) (@main_of EC pC [nameC; host] (start mC)) in
  (∃ ws, s = WDone 0 ws) ∧
  if decide (carried = true ∧ buffer_size pS <= buffer_size pC)
  then ∃ wc, c = WDone 0 wc ∧ printed (p_calls wc) = [list_ascii_of_string text]
  else ∃ wc k, c = WWait text_arrived wc k ∧ text_arrived (p_data wc) = false.
Proof.
  intros HS HC.
  destruct (program_inits HS pS [name] mS) as (bS & psS & fdS & wS & kS & -> & HbS & HpS & HwS & HkS); [cbn; lia|].
  destruct (program_inits HC pC [nameC; host] mC) as (bC & psC & fdC & wC & kC & -> & HbC & HpC & HwC & HkC); [cbn; lia|].
  assert (∀ p, 0 < buffer_size p < 2 ^ 31 ∧ 23 <= buffer_size p) as Hsz by (intros []; unfold buffer_size, BUFFER_SIZE; lia).
  destruct (Hsz pS) as [HnS HtS], (Hsz pC) as [HnC HtC].
  destruct (local_conn_ok HS _ _ _ HnS HbS HpS) as [WS FS]. destruct (local_conn_ok HC _ _ _ HnC HbC HpC) as [WC FC].
  pose proof (proj1 (proj2 (cn_calls _ _ _ _ _ _ HwS))) as HsS. pose proof (proj1 (proj2 (cn_calls _ _ _ _ _ _ HwC))) as HsC.
  destruct (resume_exchange HS _ _ _ _ _ _ _ _ _ HwS HkS WC FC) as (raS & wS2 & Hs2 & HwS2 & HrS).
  destruct (resume_exchange HC _ _ _ _ _ _ _ _ _ HwC HkC WS FS) as (raC & wC2 & Hc2 & HwC2 & HrC).
  destruct (server_continues HS _ _ _ _ _ _ _ HwS2 HrS) as (r & wS3 & HdS & -> & Hpost & HmS).
  destruct (client_continues HC _ _ _ _ _ _ _ _ (proj1 HnC) HwC2 HrC) as (wC3 & HdC & HwC3).
  unfold pair_run. cbn [calls_of]. rewrite HsS, HsC, Hs2, Hc2, HdS, HdC. cbn [calls_of]. rewrite Hpost.
  cbn [local_conn ic_vaddr ic_rkey].
  rewrite (allowed_iff _ _ _ _ bC (buffer_size pC)) by (lia || apply (cn_calls _ _ _ _ _ _ HwC3)).
  assert (carried && bool_decide (buffer_size pS <= buffer_size pC) =
    bool_decide (carried = true ∧ buffer_size pS <= buffer_size pC)) as ->.
  { destruct carried; cbn [andb]; [apply bool_decide_ext; tauto|]. symmetry. apply bool_decide_false. by intros [? _]. }
  destruct (decide (carried = true ∧ buffer_size pS <= buffer_size pC)) as [Hle|Hgt].
  - rewrite bool_decide_true by done. split; [by eexists|]. by eapply (write_wakes HC).
  - rewrite bool_decide_false by done. split; [by eexists|]. eexists _, _. split; [reflexivity|].
    unfold text_arrived. rewrite (cn_local _ _ _ _ _ _ HwC3). cbn.
    rewrite (cn_mem _ _ _ _ _ _ HwC3) by lia. done.
Qed.

End Pair.

(** C35. What a bad peer does to [main].  Fewer than 45 bytes end the process
    with an error.  45 bytes without a NUL are read past their end.  A text
    that is not five hexadecimal numbers is reported, its block is freed and
    the exchange still returns 0, so [main] goes on to print the connection
    it has freed. *)
Theorem bad_peer_message {E : ibverbs} fd d cs ra :
  Z.of_nat sizeof_msg <= v_int cs (V_read fd sizeof_msg) →
  v_ptr (cs ++ [V_read fd sizeof_msg]) (V_malloc B_conn) = Some ra →
  let after_wait := (exch_read fd ≫= main_continue) (mkPstate d cs) in
  ((length (p_inbox d) < sizeof_msg)%nat → ∃ w, after_wait = WExited 1 w) ∧
  ((sizeof_msg <= length (p_inbox d))%nat →
   match c_string (take sizeof_msg (p_inbox d)) with
   | None => after_wait = WFault OutOfBounds
   | Some t => sscanf_conn t = None → after_wait = WFault UseAfterFree
   end).
Proof.
  intros Hr Hra after_wait. destruct d as [ps m cp e ib cl]. cbn [p_inbox].
  set (cs1 := cs ++ [V_read fd sizeof_msg]) in *.
  assert (read fd sizeof_msg (mkPstate (mkProc ps m cp e ib cl) cs) = Done (Some (take sizeof_msg ib))
    (mkPstate (mkProc ps m cp e (drop (length (take sizeof_msg ib)) ib) cl) cs1)) as Hread.
  { unfold read. gstep. cbn [p_calls]. destruct (Z.ltb_spec (v_int cs (V_read fd sizeof_msg)) 0); [lia|].
    gstep. gstep. cbn [p_data p_inbox]. rewrite Nat.min_r by lia. reflexivity. }
  subst after_wait. unfold exch_read. rewrite (wlift_step2 _ _ _ _ _ _ Hread). rewrite length_take. split; intros Hl.
  - rewrite decide_False by lia. by eexists.
  - rewrite decide_True by lia.
    assert (∀ f, parse_remote (take sizeof_msg ib) (mkPstate (mkProc ps m cp e (drop (sizeof_msg `min` length ib) ib) cl) cs1) = Fault f →
      ((wlift (parse_remote (take sizeof_msg ib));; mret 0) ≫= main_continue)
        (mkPstate (mkProc ps m cp e (drop (sizeof_msg `min` length ib) ib) cl) cs1) = WFault f) as Hf.
    { intros f Hf. by rewrite wprog_bind_unfold, (wlift_fault _ _ _ _ Hf). }
    destruct (c_string (take sizeof_msg ib)) as [t|] eqn:Et.
    + intros Ht. erewrite wlift_step2.
      2:{ unfold parse_remote. gstep. cbn [p_calls]. rewrite Hra. gstep. rewrite Et. gstep. rewrite Ht. reflexivity. }
      reflexivity.
    + apply Hf. unfold parse_remote. gstep. cbn [p_calls]. rewrite Hra. gstep. by rewrite Et.
Qed.

(** ** Witnesses *)

#[local] Instance verbs_demo : ibverbs := {|
  v_int := λ _ c, match c with
                  | V_write _ b => Z.of_nat (length b) | V_read _ n => Z.of_nat n
                  | V_sysconf => 4096 | V_lrand48 => 0x1abcdef | V_socket => 3 | V_accept _ => 4 | _ => 0
                  end;
  v_ptr := λ cs _, Some (0x10000000 * (1 + Z.of_nat (length cs) mod 64));
  v_lid := 7; v_qp_num := 0x1234; v_rkey := 0x8001; v_lkey := 0x8001; v_addrs := 1
|}.

Lemma verbs_demo_good : verbs_good verbs_demo.
Proof.
  split.
  - intros cs c Hc. by destruct c.
  - intros cs c. destruct c; cbn; lia.
  - done.
  - done.
  - intros cs c. eexists. split; [reflexivity|]. pose proof (Z.mod_pos_bound (Z.of_nat (length cs)) 64). lia.
  - cbn. lia.
  - cbn. lia.
Qed.

Lemma pair_transfers_witness :
  ∃ ws wc, pair_run true (u32 v_rkey) (main_of Server_program ["rdma_server"] (start zero_bytes))
      (main_of Client_program ["rdma_client"; "zion-1"] (start zero_bytes)) =
    (WDone 0 ws, WDone 0 wc) ∧ printed (p_calls wc) = [list_ascii_of_string text].
Proof.
  pose proof (pair_transfers verbs_demo verbs_demo true Server_program Client_program "rdma_server" "rdma_client" "zion-1"
    zero_bytes zero_bytes verbs_demo_good verbs_demo_good) as H.
  destruct (pair_run _ _ _ _) as [s c]. destruct H as [[ws ->] H].
  rewrite decide_True in H by (unfold buffer_size, BUFFER_SIZE; split; [reflexivity|lia]). destruct H as (wc & -> & Hp).
  exists ws, wc. split; [reflexivity|exact Hp].
Defined.

(** Dashes in place of the colons. *)
Definition dashes : proc := receive (c_str "0007-001234-abcdef-00008001-00007f0000800010") (p_data (start zero_bytes)).

Lemma bad_peer_message_witness : (exch_read 4 ≫= main_continue) (mkPstate dashes []) = WFault UseAfterFree.
Proof.
  destruct (bad_peer_message 4 dashes [] 0x20000000) as [_ H]; [reflexivity|reflexivity|].
  apply H; [apply Nat.leb_le; reflexivity|vm_compute; reflexivity].
Defined.
