(* ===== verification/OldDisk.v ===== *)
(** * The older block device

    [src/block_device/register_disk.c] and its header: the block device before
    remote memory was added to it.  It registers a disk, answers every request
    without moving data, and is removed with the module.

    The controller and the globals are the record [disk_data]; calls of the
    block layer are values of [dcall] with results from the parameter
    [blk_layer].  [held] computes from the calls what the module still holds,
    and fails when something is given back that is not held; the theorems say
    what loading and unloading leave. *)

From Stdlib Require Import Ascii String.
From S2P Require Import Prelude BitOps OctTypes Kernel Names Prog.

(** ** Data *)

(** [RMEM_SIZE_IN_BYTES]: 8 GB. *)
Definition RMEM_SIZE_IN_BYTES : Z := 1024 * 1024 * 1024 * 8.
(** 4096 here, 512 in the later driver. *)
Definition RMEM_LOGICAL_SECT_SIZE : Z := 4096.
Definition ENOMEM : Z := 12.
Definition ENOTTY : Z := 25.

(** [struct rmem_device_control]; [od_rdma_queues] is never set. *)
Record rmem_device_control := mkOldDev {
  od_major : Z;
  od_disk : cptr gendisk;
  od_queue : kptr;
  od_limits : queue_limits;
  od_tag_set : blk_mq_tag_set;
  od_rdma_queues : Z;               (* an address; 0 is NULL *)
  od_queue_depth : Z;               (* unsigned *)
  od_nr_queues : Z;                 (* unsigned *)
  od_dev_name : list ascii
}.
#[export] Instance old_dev_eta : Eta rmem_device_control :=
  λ d, mkOldDev (od_major d) (od_disk d) (od_queue d) (od_limits d) (od_tag_set d) (od_rdma_queues d)
         (od_queue_depth d) (od_nr_queues d) (od_dev_name d).

Definition zero_limits : queue_limits := mkLimits false 0 0 0.
Definition zero_tag_set : blk_mq_tag_set := mkTagSet false 0 0 0 0 false false.
Definition zero_old_dev : rmem_device_control :=
  mkOldDev 0 None KNull zero_limits zero_tag_set 0 0 0 (replicate 32 Ascii.zero).

(** The module's static variables. *)
Record disk_data := mkDiskData {
  rmem_major_num : Z;
  online_cores : Z;
  rmem_dev_ctl_global : rmem_device_control
}.
#[export] Instance disk_data_eta : Eta disk_data :=
  λ d, mkDiskData (rmem_major_num d) (online_cores d) (rmem_dev_ctl_global d).

Inductive dcall :=
| D_register_blkdev | D_unregister_blkdev (maj : Z)
| D_alloc_tag_set (ts : blk_mq_tag_set) | D_free_tag_set
| D_init_queue | D_cleanup_queue (q : kptr)
| D_alloc_disk_node | D_add_disk (capacity : Z) | D_del_gendisk (disk : Z) | D_put_disk (disk : Z)
| D_start_request (tag : Z) | D_complete_request (tag errors : Z).

Class blk_layer := {
  d_int : list dcall → dcall → Z;
  d_ptr : list dcall → dcall → kptr;
  d_num_online_cpus : Z;
  d_sizeof_cmd : Z;
  d_sizeof_queue : Z
}.

(** The fields of a request that the driver reads. *)
Record request := mkRequest { rq_tag : Z; rq_nr_phys_segments : Z; rq_errors : Z }.

Abbreviation DP := (prog disk_data dcall).

(** ** Operations *)

Section Ops.
Context {B : blk_layer}.

Definition dev {A} (f : rmem_device_control → A) : DP A := data (λ d, f (rmem_dev_ctl_global d)).
Definition set_dev (f : rmem_device_control → rmem_device_control) : DP unit :=
  update (λ d, d <| rmem_dev_ctl_global ::= f |>).

(** The driver data of a hardware context: [&rdma_queues[hw_index]], an address
    computed from NULL. *)
Definition rmem_init_hctx (hw_index : Z) : DP (Z * Z) :=
  q ← dev od_rdma_queues;
  mret (0, u64 (q + d_sizeof_queue * hw_index)).

Definition BLK_MQ_RQ_QUEUE_OK : Z := 0.

Definition rmem_queue_rq (rq : request) : DP Z :=
  tell (D_start_request (rq_tag rq));;
  tell (D_complete_request (rq_tag rq) (rq_errors rq));;
  mret BLK_MQ_RQ_QUEUE_OK.

Definition rmem_end_io (err : Z) : DP Z := mret err.

(** [struct blk_mq_ops rmem_mq_ops] and [struct block_device_operations
    rmem_device_ops]. *)
Record blk_mq_ops := mkOldMqOps { mq_queue_rq : request → DP Z; mq_init_hctx : Z → DP (Z * Z) }.
Definition rmem_mq_ops : blk_mq_ops := mkOldMqOps rmem_queue_rq rmem_init_hctx.

Record block_device_operations := mkOldOps {
  bd_open : DP Z; bd_release : DP unit; bd_media_changed : DP Z;
  bd_revalidate_disk : DP Z; bd_ioctl : DP Z; bd_getgeo : DP Z
}.
Definition rmem_dev_open : DP Z := mret 0.
Definition rmem_dev_release : DP unit := mret tt.
Definition rmem_dev_media_changed : DP Z := mret 0.
Definition rmem_dev_revalidate : DP Z := mret 0.
Definition rmem_dev_ioctl : DP Z := mret (- ENOTTY).
Definition rmem_getgeo : DP Z := mret (- ENOTTY).
Definition rmem_device_ops : block_device_operations :=
  mkOldOps rmem_dev_open rmem_dev_release rmem_dev_media_changed rmem_dev_revalidate rmem_dev_ioctl rmem_getgeo.

Definition init_blk_mq_tag_set : DP Z :=
  set_dev (λ d, d <| od_tag_set := mkTagSet true (od_nr_queues d) (od_queue_depth d) (-1) d_sizeof_cmd true true |>);;
  ts ← dev od_tag_set;
  ask d_int (D_alloc_tag_set ts).

Definition init_blk_mq_queue : DP Z :=
  q ← ask d_ptr D_init_queue;
  set_dev (λ d, d <| od_queue := q |>);;
  if IS_ERR q then mret (PTR_ERR q)
  else
    _ ← valid q;                             (* queue->queuedata = ... *)
    set_dev (λ d, d <| od_limits := mkLimits true RMEM_LOGICAL_SECT_SIZE RMEM_PHY_SECT_SIZE
                                              RMEM_QUEUE_MAX_SECT_SIZE |>);;
    mret 0.

(** The disk's size in units of [RMEM_LOGICAL_SECT_SIZE]: what [set_capacity]
    gets, which counts sectors of 512 bytes. *)
Definition remote_mem_size : Z := RMEM_SIZE_IN_BYTES / RMEM_LOGICAL_SECT_SIZE.

Definition init_gendisk : DP Z :=
  p ← ask d_ptr D_alloc_disk_node;
  if bool_decide (p = KNull) then set_dev (λ d, d <| od_disk := None |>);; mret (- ENOMEM)
  else
    a ← valid p;
    set_dev (λ d, d <| od_disk := Some (a, mkDisk (od_major d) 0 true (od_queue d) true
      (overwrite (take (Z.to_nat DEVICE_NAME_LEN) (od_dev_name d)) (replicate 32 Ascii.zero)) remote_mem_size) |>);;
    tell (D_add_disk remote_mem_size);;
    mret 0.

(** [name]: the bytes of [dev_name], [None] for NULL; [ctrl]: the controller is
    not NULL. *)
Definition init_rmem_device_control (name : option (list ascii)) (ctrl : bool) : DP Z :=
  if negb ctrl then mret (-1)
  else
    (match name with
     | Some n => set_dev (λ d, d <| od_dev_name ::= overwrite (take (Z.to_nat DEVICE_NAME_LEN) n) |>)
     | None => set_dev (λ d, d <| od_dev_name ::= overwrite (c_str "rmempool") |>)
     end);;
    maj ← data rmem_major_num;
    set_dev (λ d, d <| od_major := maj |>);;
    set_dev (λ d, d <| od_queue_depth := RMEM_QUEUE_DEPTH |>);;
    cores ← data online_cores;
    set_dev (λ d, d <| od_nr_queues := u32 cores |>);;
    mret 0.

Definition RMEM_create_device (name : option (list ascii)) (ctrl : bool) : DP Z :=
  if negb ctrl then mret (-1)
  else
    ret ← init_rmem_device_control name ctrl;
    if negb (ret =? 0) then mret ret
    else
      ret ← init_blk_mq_tag_set;
      if negb (ret =? 0) then mret ret
      else
        ret ← init_blk_mq_queue;
        if negb (ret =? 0) then mret ret
        else init_gendisk.

Definition RMEM_init_module : DP Z :=
  maj ← ask d_int D_register_blkdev;
  update (λ d, d <| rmem_major_num := maj |>);;
  if maj <? 0 then mret maj
  else
    update (λ d, d <| online_cores := d_num_online_cpus |>);;
    RMEM_create_device None true.

Definition RMEM_cleanup_module : DP unit :=
  d ← dev id;
  (match od_disk d with Some g => tell (D_del_gendisk g.1) | None => mret tt end);;
  (if bool_decide (od_queue d ≠ KNull) then tell (D_cleanup_queue (od_queue d)) else mret tt);;
  tell D_free_tag_set;;
  (match od_disk d with Some g => tell (D_put_disk g.1) | None => mret tt end);;
  maj ← data rmem_major_num;
  tell (D_unregister_blkdev maj).

End Ops.

(** ** What the module holds *)

Inductive resource := R_major | R_tags | R_queue | R_disk | R_added.
#[export] Instance resource_dec : EqDecision resource.
Proof. solve_decision. Defined.

Definition gain `{B : blk_layer} (cs : list dcall) (c : dcall) : option resource :=
  match c with
  | D_register_blkdev => if 0 <=? d_int cs c then Some R_major else None
  | D_alloc_tag_set _ => if d_int cs c =? 0 then Some R_tags else None
  | D_init_queue => if IS_ERR (d_ptr cs c) then None else Some R_queue
  | D_alloc_disk_node => match d_ptr cs c with KPtr _ => Some R_disk | _ => None end
  | D_add_disk _ => Some R_added
  | _ => None
  end.

Definition lose (c : dcall) : option resource :=
  match c with
  | D_unregister_blkdev _ => Some R_major
  | D_free_tag_set => Some R_tags
  | D_cleanup_queue _ => Some R_queue
  | D_put_disk _ => Some R_disk
  | D_del_gendisk _ => Some R_added
  | _ => None
  end.

(** What is held after the calls [cs] that follow [pre]; [None]: something was
    given back that was not held. *)
Fixpoint held_from `{B : blk_layer} (pre cs : list dcall) (h : list resource) : option (list resource) :=
  match cs with
  | [] => Some h
  | c :: cs =>
      h ← match lose c with
          | Some r => if decide (r ∈ h) then Some (filter (λ x, x ≠ r) h) else None
          | None => Some h
          end;
      held_from (pre ++ [c]) cs (h ++ match gain pre c with Some r => [r] | None => [] end)
  end.
Definition held `{B : blk_layer} (cs : list dcall) : option (list resource) := held_from [] cs [].

(** ** Theorems *)

Definition disk_start : pstate disk_data dcall := mkPstate (mkDiskData 0 0 zero_old_dev) [].

(** What is documented of the block layer: a queue or an error pointer, a disk
    or NULL. *)
Record blk_documented (B : blk_layer) : Prop := {
  doc_queue cs : d_ptr cs D_init_queue ≠ KNull;
  doc_disk cs : IS_ERR (d_ptr cs D_alloc_disk_node) = false
}.

(** The disk of a loaded module. *)
Definition loaded_disk `{B : blk_layer} (d : disk_data) : Prop :=
  ∃ a g, od_disk (rmem_dev_ctl_global d) = Some (a, g) ∧ gd_major g = rmem_major_num d ∧
    c_string (gd_disk_name g) = Some (list_ascii_of_string "rmempool") ∧
    ts_nr_hw_queues (od_tag_set (rmem_dev_ctl_global d)) = u32 d_num_online_cpus ∧
    gd_capacity g * 512 = 2 ^ 30.

Section Loading.
Context {B : blk_layer}.

(** The controller as loading fills it in. *)
Definition loading (maj : Z) (tags : blk_mq_tag_set) (q : kptr) (lim : queue_limits) (g : cptr gendisk) : disk_data :=
  mkDiskData maj d_num_online_cpus (mkOldDev maj g q lim tags 0 RMEM_QUEUE_DEPTH (u32 d_num_online_cpus)
    (overwrite (c_str "rmempool") (replicate 32 Ascii.zero))).
Definition new_tags : blk_mq_tag_set := mkTagSet true (u32 d_num_online_cpus) RMEM_QUEUE_DEPTH (-1) d_sizeof_cmd true true.
Definition new_limits : queue_limits := mkLimits true RMEM_LOGICAL_SECT_SIZE RMEM_PHY_SECT_SIZE RMEM_QUEUE_MAX_SECT_SIZE.
Definition new_disk (maj : Z) (q : kptr) : gendisk :=
  mkDisk maj 0 true q true (overwrite (take 32 (overwrite (c_str "rmempool") (replicate 32 Ascii.zero))) (replicate 32 Ascii.zero))
    remote_mem_size.

Lemma load_major :
  let maj := d_int [] D_register_blkdev in
  RMEM_init_module disk_start =
  if maj <? 0 then Done maj (mkPstate (mkDiskData maj 0 zero_old_dev) [D_register_blkdev])
  else (ret ← init_blk_mq_tag_set; if negb (ret =? 0) then mret ret else
        ret ← init_blk_mq_queue; if negb (ret =? 0) then mret ret else init_gendisk)
       (mkPstate (loading maj zero_tag_set KNull zero_limits None) [D_register_blkdev]).
Proof. intros maj. unfold RMEM_init_module, disk_start. gstep. gstep. change (d_int (p_calls _) _) with maj. by destruct (maj <? 0). Qed.

Lemma load_tags maj q l g cs :
  init_blk_mq_tag_set (mkPstate (loading maj zero_tag_set q l g) cs) =
  Done (d_int cs (D_alloc_tag_set new_tags)) (mkPstate (loading maj new_tags q l g) (cs ++ [D_alloc_tag_set new_tags])).
Proof. reflexivity. Qed.

Lemma load_queue maj t l g cs :
  d_ptr cs D_init_queue ≠ KNull →
  init_blk_mq_queue (mkPstate (loading maj t KNull l g) cs) =
  let q := d_ptr cs D_init_queue in
  let cs' := cs ++ [D_init_queue] in
  match q with
  | KErr e => Done (Z.neg e) (mkPstate (loading maj t q l g) cs')
  | _ => Done 0 (mkPstate (loading maj t q new_limits g) cs')
  end.
Proof. intros Hq. unfold init_blk_mq_queue. gstep. gstep. cbn [p_calls]. by destruct (d_ptr cs D_init_queue). Qed.

Lemma load_disk maj t q l cs :
  IS_ERR (d_ptr cs D_alloc_disk_node) = false →
  init_gendisk (mkPstate (loading maj t q l None) cs) =
  let cs' := cs ++ [D_alloc_disk_node] in
  match d_ptr cs D_alloc_disk_node with
  | KPtr a => Done 0 (mkPstate (loading maj t q l (Some (a, new_disk maj q))) (cs' ++ [D_add_disk remote_mem_size]))
  | _ => Done (- ENOMEM) (mkPstate (loading maj t q l None) cs')
  end.
Proof. intros Hd. unfold init_gendisk. gstep. cbn [p_calls]. by destruct (d_ptr cs D_alloc_disk_node). Qed.

Lemma unload_run maj t q l a g cs :
  q ≠ KNull →
  RMEM_cleanup_module (mkPstate (loading maj t q l (Some (a, g))) cs) =
  Done tt (mkPstate (loading maj t q l (Some (a, g)))
    (cs ++ [D_del_gendisk a; D_cleanup_queue q; D_free_tag_set; D_put_disk a; D_unregister_blkdev maj])).
Proof.
  intros Hq. unfold RMEM_cleanup_module. gstep. cbn -[mbind]. gstep. rewrite bool_decide_true by done. do 4 gstep.
  unfold tell. cbn [p_calls p_data]. rewrite <- !app_assoc. reflexivity.
Qed.

End Loading.

(** Evaluates [held] with the gains that are known. *)
Ltac held_eval :=
  unfold held; cbn -[gain];
  repeat (match goal with G : gain ?a ?b = _ |- context [gain ?a ?b] => rewrite G end; cbn -[gain]).
Ltac held_go := eexists; split; [held_eval; reflexivity|by left].

(** C32. Loading the older block device on every answer of the block layer.  It
    returns.  When it returns 0 the disk is there, named, with one queue per
    core, and everything it took is held; its capacity is 1 GB, an eighth of
    [RMEM_SIZE_IN_BYTES].  When it fails after the major number was
    registered, that number is still held: nothing is given back, and the
    kernel does not unload a module that failed to load.  Unloading a loaded
    module gives back everything, each once. *)
Theorem disk_load_unload {B : blk_layer} :
  blk_documented B →
  ∃ r w, RMEM_init_module disk_start = Done r w ∧
    (r = 0 → loaded_disk (p_data w) ∧ held (p_calls w) = Some [R_major; R_tags; R_queue; R_disk; R_added] ∧
       ∃ w', RMEM_cleanup_module w = Done tt w' ∧ held (p_calls w') = Some []) ∧
    (r ≠ 0 → 0 <= rmem_major_num (p_data w) → ∃ h, held (p_calls w) = Some h ∧ R_major ∈ h).
Proof.
  intros [Hq Hd]. rewrite load_major. set (maj := d_int [] D_register_blkdev).
  destruct (Z.ltb_spec maj 0) as [Hm|Hm].
  { eexists _, _. split; [reflexivity|]. split; [lia|]. cbn. lia. }
  assert (gain [] D_register_blkdev = Some R_major) as G1 by (cbn; fold maj; by rewrite (proj2 (Z.leb_le 0 maj))).
  rewrite (prog_bind_step _ _ _ _ _ (load_tags _ _ _ _ _)). cbn [app].
  destruct (d_int [D_register_blkdev] (D_alloc_tag_set new_tags) =? 0) eqn:Ht; cbn [negb].
  2:{ assert (gain [D_register_blkdev] (D_alloc_tag_set new_tags) = None) as G2 by (cbn; by rewrite Ht).
      eexists _, _. split; [reflexivity|]. split; [intros E; by rewrite E in Ht|]. intros _ _. held_go. }
  assert (gain [D_register_blkdev] (D_alloc_tag_set new_tags) = Some R_tags) as G2 by (cbn; by rewrite Ht).
  rewrite prog_bind_unfold, load_queue by done. cbn zeta. cbn [app].
  destruct (d_ptr [D_register_blkdev; D_alloc_tag_set new_tags] D_init_queue) as [|q|e] eqn:Eq; [by apply Hq in Eq| |].
  2:{ assert (gain [D_register_blkdev; D_alloc_tag_set new_tags] D_init_queue = None) as G3 by (cbn; by rewrite Eq).
      eexists _, _. split; [reflexivity|]. split; [done|]. intros _ _. held_go. }
  assert (gain [D_register_blkdev; D_alloc_tag_set new_tags] D_init_queue = Some R_queue) as G3 by (cbn; by rewrite Eq).
  cbn [Z.eqb negb app]. rewrite load_disk by done. cbn zeta. cbn [app].
  destruct (d_ptr [D_register_blkdev; D_alloc_tag_set new_tags; D_init_queue] D_alloc_disk_node) as [|a|e] eqn:Ea;
    [| |by specialize (Hd [D_register_blkdev; D_alloc_tag_set new_tags; D_init_queue]); rewrite Ea in Hd].
  - assert (gain [D_register_blkdev; D_alloc_tag_set new_tags; D_init_queue] D_alloc_disk_node = None) as G4 by (cbn; by rewrite Ea).
    eexists _, _. split; [reflexivity|]. split; [done|]. intros _ _. held_go.
  - assert (gain [D_register_blkdev; D_alloc_tag_set new_tags; D_init_queue] D_alloc_disk_node = Some R_disk) as G4 by (cbn; by rewrite Ea).
    eexists _, _. split; [reflexivity|]. split; [|done]. intros _.
    split; [by eexists _, _; repeat split|]. split; [held_eval; done|].
    eexists. split; [by apply unload_run|]. held_eval. done.
Qed.

(** ** Witness *)

#[local] Instance blk_demo : blk_layer := {|
  d_int := λ _ c, match c with D_register_blkdev => 252 | _ => 0 end;
  d_ptr := λ cs _, KPtr (4096 * (1 + Z.of_nat (length cs)));
  d_num_online_cpus := 8; d_sizeof_cmd := 120; d_sizeof_queue := 16
|}.

Lemma disk_load_unload_witness : ∃ r w, RMEM_init_module disk_start = Done r w ∧ r = 0 ∧ loaded_disk (p_data w).
Proof.
  destruct disk_load_unload as (r & w & Hrun & H0 & _); [by split|]. exists r, w. split; [exact Hrun|].
  assert (r = 0) as Hr by (vm_compute in Hrun; congruence). split; [exact Hr|]. by apply H0.
Defined.
