(* ===== verification/CmVerbs.v ===== *)
(** * What the connection-manager samples share

    The samples [RDMA_post_send_recv_a_plus_b] ([client.c], [server.c]) and
    [RDMA_post_send_recv_connect_to_infiniswap_daemon] ([client.c]) are
    user-level programs written against librdmacm and libibverbs: one [main]
    each, which connects, registers a buffer, posts requests and takes their
    completions.  This file has

    - the state of such a process, [cmdata]: its memory in 32-bit words, the
      regions it registered, its send, receive and completion queues, and the
      notifications of the completion queue;
    - the calls, and their results as the parameter [cmverbs];
    - the parts of [main] that the programs have in common;
    - the adapters between two processes: [transmit] carries out the oldest
      posted request of one, [report] completes it, as the reliable service of
      InfiniBand does. *)

From Stdlib Require Import Ascii.
From S2P Require Import Prelude BitOps OctTypes Kernel Prog.

#[export] Instance rdma_cm_event_dec : EqDecision rdma_cm_event.
Proof. solve_decision. Defined.

(** ** Data *)

(** [IBV_ACCESS_*] *)
Definition ACCESS_LOCAL_WRITE : Z := 1.
Definition ACCESS_REMOTE_WRITE : Z := 2.
Definition ACCESS_REMOTE_READ : Z := 4.

Record mem_region := mkRegion { mr_addr : Z; mr_length : Z; mr_access : Z; mr_rkey : Z }.
Record sge := mkSge { sg_addr : Z; sg_length : Z; sg_lkey : Z }.

Inductive wr_opcode := WR_RDMA_WRITE | WR_SEND.
Record send_wr := mkSend {
  sw_id : Z;
  sw_opcode : wr_opcode;
  sw_signaled : bool;               (* [IBV_SEND_SIGNALED] in [send_flags] *)
  sw_sge : sge;
  sw_remote_addr : Z;
  sw_rkey : Z
}.
#[export] Instance send_wr_eta : Eta send_wr :=
  λ w, mkSend (sw_id w) (sw_opcode w) (sw_signaled w) (sw_sge w) (sw_remote_addr w) (sw_rkey w).
Record recv_wr := mkRecv { rw_id : Z; rw_sge : sge }.

(** A completion. *)
Record cm_wc := mkCwc { cw_id : Z; cw_status : Z }.

Record cmdata := mkCm {
  cm_mem : Z → Z;                   (* the 32-bit word at an address *)
  cm_regions : list mem_region;
  cm_sq : list send_wr;             (* posted and not carried out, oldest first *)
  cm_rq : list recv_wr;
  cm_done : list cm_wc;             (* carried out, the completion not there yet *)
  cm_cq : list cm_wc;
  cm_armed : bool;                  (* the next completion gives an event *)
  cm_events : nat                   (* events of the completion channel *)
}.
#[export] Instance cmdata_eta : Eta cmdata :=
  λ d, mkCm (cm_mem d) (cm_regions d) (cm_sq d) (cm_rq d) (cm_done d) (cm_cq d) (cm_armed d) (cm_events d).

Definition cm_start (mem : Z → Z) : cmdata := mkCm mem [] [] [] [] [] false 0.

(** [struct pdata], as it is passed with the connection. *)
Record pdata := mkPdata { buf_va : Z; buf_rkey : Z }.

Inductive ccall :=
| C_create_event_channel | C_create_id | C_getaddrinfo (host : option (list ascii)) (port : Z)
| C_resolve_addr | C_resolve_route | C_get_cm_event | C_ack_cm_event
| C_bind_addr (port : Z) | C_listen (backlog : Z)
| C_alloc_pd | C_create_comp_channel | C_create_cq (cqe : Z) | C_req_notify_cq
| C_calloc (size : Z) | C_reg_mr (addr len access : Z)
| C_create_qp (max_send_wr max_recv_wr : Z) (own_send_cq : bool)
| C_connect | C_accept (private : pdata)
| C_post_recv (wr : recv_wr) | C_post_send (wr : send_wr)
| C_get_cq_event | C_poll_cq | C_ack_cq_events (n : Z)
| C_print (text : list ascii).

(** The libraries: integer and pointer results, the event that
    [rdma_get_cm_event] stores, the private data of the connection, the keys
    of the region, the length of the list of addresses. *)
Class cmverbs := {
  cv_int : list ccall → ccall → Z;
  cv_ptr : list ccall → ccall → option Z;
  cv_event : list ccall → rdma_cm_event;
  cv_private : option pdata;
  cv_lkey : Z;
  cv_rkey : Z;
  cv_addrs : nat
}.

Abbreviation CP := (prog cmdata ccall).
Abbreviation CW := (wprog cmdata ccall).
Abbreviation process := (wsusp cmdata ccall unit).

(** ** Memory *)

Definition mem_set (m : Z → Z) (addr v : Z) : Z → Z := λ a, if a =? addr then v else m a.
(** [len] bytes, in words. *)
Definition mem_copy (src : Z → Z) (sa : Z) (dst : Z → Z) (da len : Z) : Z → Z :=
  λ a, if (da <=? a) && (a <? da + len) then src (sa + (a - da)) else dst a.
Definition mem_zero (m : Z → Z) (addr len : Z) : Z → Z := mem_copy (λ _, 0) 0 m addr len.

(** ** The steps of [main] *)

Section Ops.
Context {E : cmverbs}.

(** [if (err) return err;], [if (x) return 1;] and [if (!p) return 1;] *)
Definition check_err (err : Z) : CP unit := if err =? 0 then mret tt else exit err.
Definition check_one (x : bool) : CP unit := if x then exit 1 else mret tt.
Definition check_ptr (p : option Z) : CP Z := match p with Some a => mret a | None => exit 1 end.

(** [for (t = res; t; t = t->ai_next)] over [n] addresses; [err] before it. *)
Fixpoint resolve_loop (n : nat) (err : Z) : CP Z :=
  match n with
  | O => mret err
  | S n =>
      err ← ask cv_int C_resolve_addr;
      if err =? 0 then mret err else resolve_loop n err
  end.

(** [rdma_get_cm_event] and the test of the event. *)
Definition expect_event (want : rdma_cm_event) : CP unit :=
  err ← ask cv_int C_get_cm_event; check_err err;;
  e ← (λ w, Done (cv_event (p_calls w)) w);
  check_one (bool_decide (e ≠ want)).
Definition ack_event : CP unit := tell C_ack_cm_event.

(** The client's first part, up to the resolved route. *)
Definition resolve (host : option (list ascii)) (port : Z) : CP unit :=
  ch ← ask cv_ptr C_create_event_channel; check_ptr ch;;
  err ← ask cv_int C_create_id; check_err err;;
  n ← ask cv_int (C_getaddrinfo host port); check_one (n <? 0);;
  err ← resolve_loop cv_addrs 0; check_err err;;
  expect_event RDMA_CM_EVENT_ADDR_RESOLVED;; ack_event;;
  err ← ask cv_int C_resolve_route; check_err err;;
  expect_event RDMA_CM_EVENT_ROUTE_RESOLVED;; ack_event.

(** Protection domain, completion channel and queue; the queue is armed. *)
Definition notify : CP unit :=
  r ← ask cv_int C_req_notify_cq; check_one (negb (r =? 0));;
  update (λ d, d <| cm_armed := true |>).
Definition create_verbs : CP unit :=
  pd ← ask cv_ptr C_alloc_pd; check_ptr pd;;
  ch ← ask cv_ptr C_create_comp_channel; check_ptr ch;;
  cq ← ask cv_ptr (C_create_cq 2); check_ptr cq;;
  notify.

Definition calloc (size : Z) : CP (option Z) :=
  p ← ask cv_ptr (C_calloc size);
  (match p with Some a => update (λ d, d <| cm_mem ::= λ m, mem_zero m a size |>) | None => mret tt end);;
  mret p.

(** The address is 0 for a null pointer. *)
Definition reg_mr (addr len access : Z) : CP unit :=
  mr ← ask cv_ptr (C_reg_mr addr len access); check_ptr mr;;
  update (λ d, d <| cm_regions ::= λ l, l ++ [mkRegion addr len access (u32 cv_rkey)] |>).

Definition create_qp (max_send_wr max_recv_wr : Z) (own_send_cq : bool) : CP unit :=
  err ← ask cv_int (C_create_qp max_send_wr max_recv_wr own_send_cq); check_err err.

(** [rdma_connect] and the private data of the established connection. *)
Definition connect : CP pdata :=
  err ← ask cv_int C_connect; check_err err;;
  expect_event RDMA_CM_EVENT_ESTABLISHED;;
  p ← nonnull cv_private;
  ack_event;; mret p.

Definition post_recv (wr : recv_wr) : CP unit :=
  r ← ask cv_int (C_post_recv wr); check_one (negb (r =? 0));;
  update (λ d, d <| cm_rq ::= λ q, q ++ [wr] |>).
Definition post_send (wr : send_wr) : CP unit :=
  r ← ask cv_int (C_post_send wr); check_one (negb (r =? 0));;
  update (λ d, d <| cm_sq ::= λ q, q ++ [wr] |>).

Definition has_event (d : cmdata) : bool := (0 <? cm_events d)%nat.

(** [ibv_get_cq_event] blocks until the channel has an event. *)
Definition get_cq_event : CW unit :=
  wlift (r ← ask cv_int C_get_cq_event; check_one (negb (r =? 0)));;
  wait has_event;;
  wlift (update (λ d, d <| cm_events ::= pred |>)).

(** [ibv_poll_cq(cq, 1, &wc)]: an error, or how many completions it took. *)
Definition poll_cq : CP (Z * option cm_wc) :=
  r ← ask cv_int C_poll_cq;
  if r <? 0 then mret (r, None)
  else
    q ← data cm_cq;
    match q with
    | [] => mret (0, None)
    | c :: q => update (λ d, d <| cm_cq := q |>);; mret (1, Some c)
    end.

Definition load (addr : Z) : CP Z := data (λ d, cm_mem d addr).
Definition store (addr v : Z) : CP unit := update (λ d, d <| cm_mem ::= λ m, mem_set m addr (u32 v) |>).

End Ops.

(** ** The adapters *)

(** A completion arrives; an armed queue gives one event. *)
Definition arrive (c : cm_wc) (d : cmdata) : cmdata :=
  let d := d <| cm_cq ::= λ q, q ++ [c] |> in
  if cm_armed d then d <| cm_armed := false |> <| cm_events ::= S |> else d.

Definition covers (rkey addr len : Z) (m : mem_region) : bool :=
  (mr_rkey m =? rkey) && negb (Z.land (mr_access m) ACCESS_REMOTE_WRITE =? 0) &&
  (mr_addr m <=? addr) && (addr + len <=? mr_addr m + mr_length m).

Definition WC_SUCCESS : Z := 0.
Definition WC_WR_FLUSH_ERR : Z := 5.
Definition WC_REM_ACCESS_ERR : Z := 10.

(** The request is done; an unsignaled one has no completion. *)
Definition done_ok (w : send_wr) (q : list send_wr) (d : cmdata) : cmdata :=
  d <| cm_sq := q |> <| cm_done ::= λ l, l ++ (if sw_signaled w then [mkCwc (sw_id w) WC_SUCCESS] else []) |>.
(** It fails: the queue pair stops, and everything posted is flushed. *)
Definition done_error (w : send_wr) (q : list send_wr) (d : cmdata) : cmdata :=
  d <| cm_sq := [] |> <| cm_rq := [] |>
    <| cm_done ::= λ l, l ++ mkCwc (sw_id w) WC_REM_ACCESS_ERR ::
         map (λ w, mkCwc (sw_id w) WC_WR_FLUSH_ERR) q ++ map (λ r, mkCwc (rw_id r) WC_WR_FLUSH_ERR) (cm_rq d) |>.

Definition place (src : cmdata) (s : sge) (da : Z) (dst : cmdata) : cmdata :=
  dst <| cm_mem ::= λ m, mem_copy (cm_mem src) (sg_addr s) m da (sg_length s) |>.

(** The oldest request of [src] is carried out at [dst].  A write needs a
    region that covers its target, a message needs a posted receive that is
    long enough and waits for one. *)
Definition transmit (src dst : cmdata) : option (cmdata * cmdata) :=
  match cm_sq src with
  | [] => None
  | w :: q =>
      match sw_opcode w with
      | WR_RDMA_WRITE =>
          if existsb (covers (sw_rkey w) (sw_remote_addr w) (sg_length (sw_sge w))) (cm_regions dst)
          then Some (done_ok w q src, place src (sw_sge w) (sw_remote_addr w) dst)
          else Some (done_error w q src, dst)
      | WR_SEND =>
          match cm_rq dst with
          | r :: rq =>
              if sg_length (sw_sge w) <=? sg_length (rw_sge r)
              then Some (done_ok w q src,
                         arrive (mkCwc (rw_id r) WC_SUCCESS) (place src (sw_sge w) (sg_addr (rw_sge r)) (dst <| cm_rq := rq |>)))
              else None
          | [] => None
          end
      end
  end.

Definition report (d : cmdata) : option cmdata :=
  match cm_done d with [] => None | c :: l => Some (arrive c (d <| cm_done := l |>)) end.

(** ** A process and its adapter *)

(** The adapters serve a process until it exits. *)
Definition data_of (p : process) : option cmdata := match p with WWait _ w _ => Some (p_data w) | _ => None end.
Definition set_data (d : cmdata) (p : process) : process :=
  match p with WWait c w k => WWait c (mkPstate d (p_calls w)) k | p => p end.
Definition wake (p : process) : option process :=
  match p with WWait c w k => if c (p_data w) then Some (k w) else None | _ => None end.

(** ** Lemmas *)

Lemma mem_set_eq m a v : mem_set m a v a = v.
Proof. unfold mem_set. by rewrite Z.eqb_refl. Qed.
Lemma mem_set_ne m a v x : x ≠ a → mem_set m a v x = m x.
Proof. intros H. unfold mem_set. by destruct (Z.eqb_spec x a). Qed.
Lemma mem_copy_eq src sa dst da : mem_copy src sa dst da 4 da = src sa.
Proof. unfold mem_copy. rewrite Z.leb_refl. destruct (Z.ltb_spec da (da + 4)); [|lia]. cbn. f_equal. lia. Qed.
Lemma mem_copy_ne src sa dst da len x : x < da ∨ da + len <= x → mem_copy src sa dst da len x = dst x.
Proof.
  intros H. unfold mem_copy. destruct (Z.leb_spec da x); [|done]. destruct (Z.ltb_spec x (da + len)); [lia|done].
Qed.

Lemma done_ok_unsignaled w q d : sw_signaled w = false → done_ok w q d = d <| cm_sq := q |>.
Proof. 
  intros H. destruct d as [m rs sq rq dn cq ar ev]. unfold done_ok. rewrite H.
  change (mkCm m rs q rq (dn ++ []) cq ar ev = mkCm m rs q rq dn cq ar ev). by rewrite app_nil_r.
Qed.
Lemma done_ok_signaled w q d :
  sw_signaled w = true → cm_done d = [] → done_ok w q d = d <| cm_sq := q |> <| cm_done := [mkCwc (sw_id w) WC_SUCCESS] |>.
Proof. intros H Hd. destruct d. cbn in Hd. subst. unfold done_ok. by rewrite H. Qed.

(** ** Libraries whose calls succeed *)

Definition event_after (c : ccall) : option rdma_cm_event :=
  match c with
  | C_resolve_addr => Some RDMA_CM_EVENT_ADDR_RESOLVED
  | C_resolve_route => Some RDMA_CM_EVENT_ROUTE_RESOLVED
  | C_listen _ => Some RDMA_CM_EVENT_CONNECT_REQUEST
  | C_connect | C_accept _ => Some RDMA_CM_EVENT_ESTABLISHED
  | _ => None
  end.

(** [b] is the address that [calloc] gives. *)
Record cm_good (E : cmverbs) (b : Z) : Prop := {
  cg_int cs c : cv_int cs c = 0;
  cg_ptr cs c : is_Some (cv_ptr cs c);
  cg_calloc cs n : cv_ptr cs (C_calloc n) = Some b;
  cg_event cs e : last cs ≫= event_after = Some e → cv_event (cs ++ [C_get_cm_event]) = e;
  cg_addrs : cv_addrs ≠ 0%nat
}.

Section Good.
Context {E : cmverbs} {b : Z} (HG : cm_good E b).
Implicit Types d : cmdata.

Lemma runs_ask_int c d cs (Q : Z → pstate cmdata ccall → Prop) :
  Q 0 (mkPstate d (cs ++ [c])) → runs (ask cv_int c) (mkPstate d cs) Q.
Proof. intros HQ. eexists _, _. split; [done|]. cbn. by rewrite (cg_int _ _ HG). Qed.

Lemma runs_calloc n d cs (Q : option Z → pstate cmdata ccall → Prop) :
  Q (Some b) (mkPstate (d <| cm_mem ::= λ m, mem_zero m b n |>) (cs ++ [C_calloc n])) →
  runs (calloc n) (mkPstate d cs) Q.
Proof.
  intros HQ. unfold calloc. eexists _, _. split.
  - unfold ask. rewrite prog_bind_unfold. cbn. rewrite (cg_calloc _ _ HG). reflexivity.
  - exact HQ.
Qed.

Lemma runs_ask_ptr c d cs (Q : option Z → pstate cmdata ccall → Prop) :
  (∀ a, Q (Some a) (mkPstate d (cs ++ [c]))) → runs (ask cv_ptr c) (mkPstate d cs) Q.
Proof. intros HQ. destruct (cg_ptr _ _ HG cs c) as [a Ha]. eexists _, _. split; [done|]. cbn. by rewrite Ha. Qed.

Lemma runs_expect_event e d cs (Q : unit → pstate cmdata ccall → Prop) :
  last cs ≫= event_after = Some e → Q tt (mkPstate d (cs ++ [C_get_cm_event])) →
  runs (expect_event e) (mkPstate d cs) Q.
Proof.
  intros He HQ. unfold expect_event. apply runs_bind, runs_ask_int. apply runs_bind.
  eapply runs_done; [reflexivity|]. apply runs_bind. eapply runs_done; [reflexivity|]. cbn [p_calls].
  rewrite (cg_event _ _ HG cs e He), bool_decide_false by (intros H; by apply H).
  eapply runs_done; [reflexivity|done].
Qed.

Lemma runs_resolve_loop d cs (Q : Z → pstate cmdata ccall → Prop) :
  Q 0 (mkPstate d (cs ++ [C_resolve_addr])) → runs (resolve_loop cv_addrs 0) (mkPstate d cs) Q.
Proof.
  intros HQ. pose proof (cg_addrs _ _ HG). destruct cv_addrs as [|n]; [done|]. cbn [resolve_loop].
  apply runs_bind, runs_ask_int. by eapply runs_done.
Qed.
End Good.

(** [cgo] runs a computation whose calls succeed. *)
Ltac cstep HG :=
  cbv beta zeta;
  lazymatch goal with
  | |- runs (mbind _ _) _ _ => apply runs_bind
  | |- runs (ask cv_ptr _) _ _ => apply (runs_ask_ptr HG); intros ?
  | |- runs (ask cv_int _) _ _ => apply (runs_ask_int HG)
  | |- runs (calloc _) _ _ => apply (runs_calloc HG)
  | |- runs (expect_event _) _ _ => eapply (runs_expect_event HG); [reflexivity|]
  | |- runs (resolve_loop _ _) _ _ => apply (runs_resolve_loop HG)
  | |- runs ?m ?w ?Q =>
      let r := eval hnf in (m w) in
      lazymatch r with
      | Done ?a ?w' =>
          let a2 := eval cbn in a in
          let w2 := eval cbn in w' in
          apply (runs_done m w a2 w2 Q); [reflexivity|]
      | _ => let h := eval red in m in change (runs h w Q)
      end
  end.
Ltac cgo HG := repeat cstep HG.

(** *** A process that waits for an event of its completion channel *)

Definition take_event (d : cmdata) : cmdata := d <| cm_events ::= pred |>.

Definition waits (rest : CW unit) (d : cmdata) (p : process) : Prop :=
  ∃ cs k, p = WWait has_event (mkPstate d cs) k ∧ ∀ d' cs', k (mkPstate d' cs') = rest (mkPstate (take_event d') cs').

Lemma get_cq_event_waits {E b} (HG : cm_good E b) rest d cs :
  has_event d = false → waits rest d ((get_cq_event ≫= λ _, rest) (mkPstate d cs)).
Proof.
  intros Hd. unfold get_cq_event. eexists _, _. split.
  - unfold mbind, wprog_bind, wlift, ask, check_one. cbn. rewrite (cg_int _ _ HG). cbn. unfold wait. cbn [p_data].
    rewrite Hd. reflexivity.
  - reflexivity.
Qed.

Lemma waits_data rest d p : waits rest d p → data_of p = Some d.
Proof. by intros (cs & k & -> & _). Qed.

Lemma waits_set rest d d' p : waits rest d p → waits rest d' (set_data d' p).
Proof. intros (cs & k & -> & Hk). exists cs, k. by split. Qed.

Lemma waits_wake rest d p :
  waits rest d p →
  if has_event d then ∃ cs, wake p = Some (rest (mkPstate (take_event d) cs)) else wake p = None.
Proof.
  intros (cs & k & -> & Hk). unfold wake. cbn [p_data]. destruct (has_event d); [|done]. exists cs. by rewrite Hk.
Qed.

(** Libraries whose calls succeed, with buffer [b]. *)
Definition cm_ok (b key : Z) (private : option pdata) : cmverbs := {|
  cv_int := λ _ _, 0;
  cv_ptr := λ _ _, Some b;
  cv_event := λ cs, match rev cs with _ :: c :: _ => default RDMA_CM_EVENT_REJECTED (event_after c) | _ => RDMA_CM_EVENT_REJECTED end;
  cv_private := private; cv_lkey := 3; cv_rkey := key; cv_addrs := 1
|}.

Lemma cm_ok_good b key private : cm_good (cm_ok b key private) b.
Proof.
  split; [done|by intros; eexists|done| |done].
  - intros cs e H. destruct (last cs) as [c|] eqn:E; [|done]. apply last_Some in E as [l ->]. cbn in H |- *.
    rewrite !rev_app_distr. cbn. by rewrite H.
Qed.
