(* ===== verification/SumPrograms.v ===== *)
(** * Adding two numbers over RDMA

    [client.c] and [server.c] of
    [src/IB-test-case/RDMA_post_send_recv_a_plus_b].  The client writes its
    first number into the server's buffer by RDMA and sends the second as a
    message; the server adds them and sends the sum back, which the client
    prints.  [strtoul] and the [%d] of [printf] are modelled as the C library
    defines them.

    The theorems of this file are about one program against any libraries; the
    two programs together are in [SumPair]. *)

From Stdlib Require Import Ascii String.
From S2P Require Import Prelude BitOps OctTypes Kernel Names Prog HexConn CmVerbs.

(** ** [strtoul(s, NULL, 0)] and [%d] *)

Definition base_digit (base : Z) (c : ascii) : option Z :=
  d ← hex_val c; if d <? base then Some d else None.

Fixpoint base_digits (base : Z) (l : list ascii) (acc : Z) : Z :=
  match l with
  | c :: r => match base_digit base c with Some d => base_digits base r (base * acc + d) | None => acc end
  | [] => acc
  end.

(** The base from the prefix: 0x, 0, or none. *)
Definition scan_number (l : list ascii) : Z :=
  match l with
  | z :: r =>
      if char_code z =? 48 then
        match r with
        | x :: r' => if (char_code x =? 120) || (char_code x =? 88) then base_digits 16 r' 0 else base_digits 8 r 0
        | [] => 0
        end
      else base_digits 10 l 0
  | [] => 0
  end.

(** A value beyond [unsigned long] is the largest one; a minus sign negates. *)
Definition strtoul (l : list ascii) : Z :=
  let '(neg, l) := scan_sign (skip_spaces l) in
  let v := scan_number l in
  if 2 ^ 64 <=? v then 2 ^ 64 - 1 else u64 (if neg then - v else v).

(** The decimal digits of a number before [acc]; 10 steps are enough for 32
    bits. *)
Fixpoint dec_loop (fuel : nat) (n : Z) (acc : list ascii) : list ascii :=
  match fuel with
  | O => acc
  | S fuel => if n =? 0 then acc else dec_loop fuel (n / 10) (hex_digit (n mod 10) :: acc)
  end.
Definition fmt_u (n : Z) : list ascii := if n =? 0 then [hex_digit 0] else dec_loop 10 n [].

(** [%d] of an argument of 32 bits. *)
Definition minus : ascii := "-".
Definition newline : ascii := "010".
Definition fmt_d (n : Z) : list ascii :=
  let v := i32 n in if v <? 0 then minus :: fmt_u (- v) else fmt_u v.

(** ** The client *)

Section Ops.
Context {E : cmverbs}.

Definition PORT : Z := 20079.

(** Connected: the buffer and what the server says about its own. *)
Definition client_setup (argv : list (list ascii)) : CP (Z * pdata) :=
  resolve (argv !! 1%nat) PORT;;
  create_verbs;;
  b ← calloc (2 * 4); b ← check_ptr b;
  reg_mr b (2 * 4) ACCESS_LOCAL_WRITE;;
  create_qp 2 1 true;;
  p ← connect;
  mret (b, p).

(** The receive, the two numbers, the write and the message. *)
Definition client_post (argv : list (list ascii)) (buf : Z) (server_pdata : pdata) : CP unit :=
  post_recv (mkRecv 0 (mkSge buf 4 cv_lkey));;
  v1 ← nonnull (argv !! 2%nat); store buf (strtoul v1);;
  v2 ← nonnull (argv !! 3%nat); store (buf + 4) (strtoul v2);;
  x ← load buf; y ← load (buf + 4);
  tell (C_print (fmt_d x ++ list_ascii_of_string " + " ++ fmt_d y ++ list_ascii_of_string " = "));;
  x ← load buf; store buf (htonl x);;
  y ← load (buf + 4); store (buf + 4) (htonl y);;
  let send_wr := mkSend 1 WR_RDMA_WRITE false (mkSge buf 4 cv_lkey)
                   (ntohl (buf_va server_pdata)) (ntohl (buf_rkey server_pdata)) in
  post_send send_wr;;
  let send_wr := mkSend 2 WR_SEND true (mkSge (buf + 4) 4 cv_lkey)
                   (sw_remote_addr send_wr) (sw_rkey send_wr) in
  post_send send_wr.

(** One round of [while (1)] after its event; it returns when it goes round again. *)
Definition client_complete (buf : Z) : CP unit :=
  notify;;
  r ← poll_cq;
  check_one (negb (r.1 =? 1));;
  wc ← nonnull r.2;
  check_one (negb (cw_status wc =? WC_SUCCESS));;
  if cw_id wc =? 0 then x ← load buf; tell (C_print (fmt_d (ntohl x) ++ [newline]));; exit 0 else mret tt.

(** [fuel] rounds. *)
Fixpoint client_loop (fuel : nat) (buf : Z) : CW unit :=
  match fuel with
  | O => wlift (crash Spin)
  | S fuel => get_cq_event;; wlift (client_complete buf);; client_loop fuel buf
  end.

Definition client_main (fuel : nat) (argv : list (list ascii)) : CW unit :=
  s ← wlift (client_setup argv);
  wlift (client_post argv s.1 s.2);;
  client_loop fuel s.1.

(** ** The server *)

(** Up to the connection request. *)
Definition server_listen : CP unit :=
  ch ← ask cv_ptr C_create_event_channel; check_ptr ch;;
  err ← ask cv_int C_create_id; check_err err;;
  err ← ask cv_int (C_bind_addr PORT); check_one (negb (err =? 0));;
  err ← ask cv_int (C_listen 1); check_one (negb (err =? 0));;
  expect_event RDMA_CM_EVENT_CONNECT_REQUEST;; ack_event.

(** [rep_pdata] *)
Definition server_pdata (buf : Z) : pdata := mkPdata (htonl buf) (htonl (u32 cv_rkey)).

Definition server_accept (buf : Z) : CP unit :=
  post_recv (mkRecv 0 (mkSge (buf + 4) 4 cv_lkey));;
  err ← ask cv_int (C_accept (server_pdata buf)); check_one (negb (err =? 0));;
  expect_event RDMA_CM_EVENT_ESTABLISHED;; ack_event.

Definition server_setup : CP Z :=
  server_listen;;
  create_verbs;;
  b ← calloc (2 * 4); b ← check_ptr b;
  reg_mr b (2 * 4) (Z.lor (Z.lor ACCESS_LOCAL_WRITE ACCESS_REMOTE_READ) ACCESS_REMOTE_WRITE);;
  create_qp 1 1 true;;
  server_accept b;;
  mret b.

(** [ibv_poll_cq(cq, 1, &wc) < 1] and the status. *)
Definition server_poll : CP unit :=
  r ← poll_cq;
  check_one (r.1 <? 1);;
  wc ← nonnull r.2;
  check_one (negb (cw_status wc =? WC_SUCCESS)).

(** The sum and its message. *)
Definition server_reply (buf : Z) : CP unit :=
  x ← load buf; y ← load (buf + 4);
  store buf (htonl (u32 (ntohl x + ntohl y)));;
  post_send (mkSend 0 WR_SEND true (mkSge buf 4 cv_lkey) 0 0).

Definition server_main : CW unit :=
  b ← wlift server_setup;
  get_cq_event;;
  wlift (notify;; server_poll;; server_reply b);;
  get_cq_event;;
  wlift (server_poll;; tell (C_ack_cq_events 2);; exit 0).

End Ops.

(** ** Decimal text *)

Lemma dec_digit_all : Forall (λ d, base_digit 10 (hex_digit d) = Some d ∧ is_space (hex_digit d) = false ∧
  char_code (hex_digit d) = 48 + d) (seqZ 0 10).
Proof. vm_compute. repeat constructor. Qed.

Lemma dec_digit d : 0 <= d < 10 → base_digit 10 (hex_digit d) = Some d ∧ is_space (hex_digit d) = false ∧
  char_code (hex_digit d) = 48 + d.
Proof. intros Hd. pose proof dec_digit_all as H. rewrite Forall_forall in H. apply H, elem_of_seqZ. lia. Qed.

Lemma dec_loop_zero fuel acc : dec_loop fuel 0 acc = acc.
Proof. by destruct fuel. Qed.

Lemma dec_loop_value fuel n acc :
  0 <= n < 10 ^ Z.of_nat fuel → base_digits 10 (dec_loop fuel n acc) 0 = base_digits 10 acc n.
Proof.
  revert n acc. induction fuel as [|fuel IH]; intros n acc Hn.
  - change (10 ^ Z.of_nat 0) with 1 in Hn. by replace n with 0 by lia.
  - cbn [dec_loop]. destruct (Z.eqb_spec n 0) as [->|H0]; [done|].
    rewrite Nat2Z.inj_succ, Z.pow_succ_r in Hn by lia.
    rewrite IH by (split; [by apply Z.div_pos; lia|apply Z.div_lt_upper_bound; lia]).
    cbn [base_digits]. destruct (dec_digit (n mod 10)) as [-> _]; [apply Z.mod_pos_bound; lia|].
    f_equal. pose proof (Z.div_mod n 10). lia.
Qed.

Lemma dec_loop_head fuel n acc :
  0 < n < 10 ^ Z.of_nat fuel → ∃ d r, dec_loop fuel n acc = hex_digit d :: r ∧ 1 <= d < 10.
Proof.
  revert n acc. induction fuel as [|fuel IH]; intros n acc Hn; [change (10 ^ Z.of_nat 0) with 1 in Hn; lia|].
  cbn [dec_loop]. destruct (Z.eqb_spec n 0) as [|_]; [lia|]. rewrite Nat2Z.inj_succ, Z.pow_succ_r in Hn by lia.
  destruct (decide (n < 10)) as [H10|H10].
  - rewrite Z.div_small, dec_loop_zero, Z.mod_small by lia. exists n, acc. split; [done|lia].
  - apply IH. split; [apply Z.div_str_pos; lia|apply Z.div_lt_upper_bound; lia].
Qed.

(** What [printf] writes for an [unsigned], [strtoul] reads back. *)
Lemma strtoul_fmt_u n : 0 <= n < 2 ^ 32 → strtoul (fmt_u n) = n.
Proof.
  intros Hn. unfold fmt_u. destruct (Z.eqb_spec n 0) as [->|H0]; [done|].
  destruct (dec_loop_head 10 n []) as (d & r & E & Hd); [change (10 ^ Z.of_nat 10) with 10000000000; lia|].
  destruct (dec_digit d) as (_ & Hs & Hc); [lia|].
  assert (base_digits 10 (hex_digit d :: r) 0 = n) as Hv
    by (rewrite <- E, dec_loop_value by (change (10 ^ Z.of_nat 10) with 10000000000; lia); done).
  rewrite E. unfold strtoul. cbn [skip_spaces]. rewrite Hs. unfold scan_sign. rewrite Hc.
  destruct (Z.eqb_spec (48 + d) 45); [lia|]. destruct (Z.eqb_spec (48 + d) 43); [lia|].
  unfold scan_number. rewrite Hc. destruct (Z.eqb_spec (48 + d) 48); [lia|]. rewrite Hv.
  destruct (Z.leb_spec (2 ^ 64) n); [lia|]. rewrite u64_id by lia. done.
Qed.

(** The sum of two numbers as text: [%d] shows it as long as it has 31 bits,
    and a larger one as a negative number. *)
Lemma fmt_sum a b : 0 <= a → 0 <= b → a < 2 ^ 32 → b < 2 ^ 32 → a + b < 2 ^ 32 →
  fmt_d (u32 (strtoul (fmt_u a) + strtoul (fmt_u b))) =
  if a + b <? 2 ^ 31 then fmt_u (a + b) else minus :: fmt_u (2 ^ 32 - (a + b)).
Proof.
  intros. rewrite !strtoul_fmt_u, u32_id by lia. unfold fmt_d. destruct (Z.ltb_spec (a + b) (2 ^ 31)).
  - rewrite i32_id by lia. destruct (Z.ltb_spec (a + b) 0); [lia|done].
  - assert (i32 (a + b) = a + b - 2 ^ 32) as ->.
    { unfold i32. replace (a + b + 2 ^ 31) with (a + b - 2 ^ 31 + 1 * 2 ^ 32) by lia.
      rewrite Z.mod_add, Z.mod_small by lia. lia. }
    destruct (Z.ltb_spec (a + b - 2 ^ 32) 0); [|lia]. do 2 f_equal. lia.
Qed.
