(* ===== verification/SumPair.v ===== *)
(** * The adding programs together

    A client and a server process of [SumPrograms] with the adapters between
    them ([CmVerbs]): a move lets a waiting process go on, an adapter carry
    out a request, or a completion arrive.  Every order of the moves is
    considered.

    The pair is simulated by a finite machine, [abs]: how far each process and
    each request is and which completions are in which queue.  What holds of
    the machine is decided by computing its states; the simulation carries it
    over to the programs, for all numbers, addresses and keys. *)

From Stdlib Require Import Ascii String.
From S2P Require Import Prelude BitOps OctTypes Kernel Prog CmVerbs SumPrograms.

(** ** Two processes *)

Inductive side := Cl | Sv.
Inductive move := Wake (s : side) | Transmit (s : side) | Report (s : side).

Record pair := mkPair { pr_client : process; pr_server : process }.

Definition move_between (p q : process) : option (process * process) :=
  dp ← data_of p; dq ← data_of q; '(dp', dq') ← transmit dp dq; Some (set_data dp' p, set_data dq' q).
Definition report_at (p : process) : option process := d ← data_of p; d' ← report d; Some (set_data d' p).

Definition do_move (m : move) (st : pair) : option pair :=
  let '(mkPair c s) := st in
  match m with
  | Wake Cl => c ← wake c; Some (mkPair c s)
  | Wake Sv => s ← wake s; Some (mkPair c s)
  | Transmit Cl => '(c, s) ← move_between c s; Some (mkPair c s)
  | Transmit Sv => '(s, c) ← move_between s c; Some (mkPair c s)
  | Report Cl => c ← report_at c; Some (mkPair c s)
  | Report Sv => s ← report_at s; Some (mkPair c s)
  end.

Fixpoint do_moves (ms : list move) (st : pair) : option pair :=
  match ms with [] => Some st | m :: ms => st ← do_move m st; do_moves ms st end.

Definition stuck (st : pair) : Prop := ∀ m, do_move m st = None.

(** ** The finite machine *)

Record abs := mkAbs {
  a_csent : nat;                (* requests of the client carried out *)
  a_cdone : bool;               (* the completion of its message is to come *)
  a_ccq : list bool;            (* its completion queue; [true]: the reply *)
  a_cevent : bool; a_carmed : bool;
  a_client : nat;               (* rounds done; 2: exited *)
  a_ssent : bool;
  a_sdone : bool;
  a_scq : nat;
  a_sevent : bool; a_sarmed : bool;
  a_server : nat                (* 0: no number yet, 1: replied, 2: exited *)
}.
#[export] Instance abs_eta : Eta abs :=
  λ a, mkAbs (a_csent a) (a_cdone a) (a_ccq a) (a_cevent a) (a_carmed a) (a_client a) (a_ssent a) (a_sdone a)
         (a_scq a) (a_sevent a) (a_sarmed a) (a_server a).
#[export] Instance abs_dec : EqDecision abs.
Proof. solve_decision. Defined.

Definition abs_start : abs := mkAbs 0 false [] false true 0 false false 0 false true 0.

Definition arrive_client (r : bool) (a : abs) : abs :=
  a <| a_ccq ::= λ q, q ++ [r] |> <| a_cevent := a_carmed a || a_cevent a |> <| a_carmed := false |>.
Definition arrive_server (a : abs) : abs :=
  a <| a_scq ::= S |> <| a_sevent := a_sarmed a || a_sevent a |> <| a_sarmed := false |>.

Definition abs_move (m : move) (a : abs) : option abs :=
  match m with
  | Transmit Cl =>
      if decide (a_client a = 2%nat ∨ a_server a = 2%nat) then None
      else match a_csent a with
           | 0%nat => Some (a <| a_csent := 1%nat |>)
           | 1%nat => Some (arrive_server (a <| a_csent := 2%nat |> <| a_cdone := true |>))
           | _ => None
           end
  | Transmit Sv =>
      if decide (a_client a = 2%nat ∨ a_server a ≠ 1%nat ∨ a_ssent a = true) then None
      else Some (arrive_client true (a <| a_ssent := true |> <| a_sdone := true |>))
  | Report Cl =>
      if decide (a_client a = 2%nat ∨ a_cdone a = false) then None
      else Some (arrive_client false (a <| a_cdone := false |>))
  | Report Sv =>
      if decide (a_server a = 2%nat ∨ a_sdone a = false) then None
      else Some (arrive_server (a <| a_sdone := false |>))
  | Wake Cl =>
      if decide (a_client a = 2%nat ∨ a_cevent a = false) then None
      else match a_ccq a with
           | r :: q =>
               Some (a <| a_cevent := false |> <| a_carmed := true |> <| a_ccq := q |>
                       <| a_client := if r then 2%nat else S (a_client a) |>)
           | [] => None
           end
  | Wake Sv =>
      if decide (a_server a = 2%nat ∨ a_sevent a = false) then None
      else match a_scq a with
           | S n =>
               Some (a <| a_sevent := false |> <| a_sarmed := (if decide (a_server a = 0%nat) then true else a_sarmed a) |>
                       <| a_scq := n |> <| a_server ::= S |>)
           | O => None
           end
  end.

Definition moves : list move := [Wake Cl; Wake Sv; Transmit Cl; Transmit Sv; Report Cl; Report Sv].
Definition successors (a : abs) : list abs := omap (λ m, abs_move m a) moves.

(** The states that are reached in [fuel] rounds, newest first. *)
Fixpoint explore (fuel : nat) (seen frontier : list abs) : list abs :=
  match fuel with
  | O => seen
  | S fuel =>
      let new := remove_dups (filter (λ a, a ∉ seen) (frontier ≫= successors)) in
      explore fuel (new ++ seen) new
  end.
Definition abs_states : list abs := explore 12 [abs_start] [abs_start].

(** What the simulation relies on. *)
Definition abs_ok (a : abs) : Prop :=
  (a_csent a ≤ 2 ∧ a_server a ≤ 2 ∧ a_client a ≤ 2)%nat ∧
  (a_server a ≠ 0%nat → a_csent a = 2%nat) ∧
  (a_ssent a = true → a_server a ≠ 0%nat) ∧
  (a_server a = 2%nat → a_ssent a = true) ∧
  (a_client a = 2%nat → a_ssent a = true) ∧
  (a_carmed a = true → a_cevent a = false) ∧
  (a_sarmed a = true → a_sevent a = false) ∧
  (a_cevent a = true → a_ccq a ≠ []) ∧
  (a_sevent a = true → a_scq a ≠ 0%nat) ∧
  (a_client a = 1%nat → a_cdone a = false ∧ false ∉ a_ccq a) ∧
  (true ∈ a_ccq a → a_ssent a = true) ∧
  (a_cdone a = true → a_csent a = 2%nat) ∧
  (a_sdone a = true → a_ssent a = true) ∧
  (a_sevent a = true → a_csent a = 2%nat).
#[export] Instance abs_ok_dec a : Decision (abs_ok a).
Proof. unfold abs_ok. apply _. Defined.

(** Each move comes closer to the end. *)
Definition abs_measure (a : abs) : nat :=
  4 * (2 - a_csent a) + (if a_ssent a then 0 else 4) + (if a_cdone a then 2 else 0) + (if a_sdone a then 2 else 0) +
  length (a_ccq a) + a_scq a.

Lemma abs_states_ok : Forall abs_ok abs_states.
Proof. refine (bool_decide_eq_true_1 _ _). vm_cast_no_check (eq_refl true). Qed.

Lemma abs_states_closed :
  Forall (λ a, Forall (λ b, b ∈ abs_states ∧ (abs_measure b < abs_measure a)%nat) (successors a)) abs_states.
Proof. refine (bool_decide_eq_true_1 _ _). vm_cast_no_check (eq_refl true). Qed.

Lemma abs_start_in : abs_start ∈ abs_states.
Proof. refine (bool_decide_eq_true_1 _ _). vm_cast_no_check (eq_refl true). Qed.

(** At the end both have exited, or the client waits for an event with the
    reply in its queue. *)
Definition abs_final (a : abs) : bool :=
  (a_server a =? 2)%nat &&
  ((a_client a =? 2)%nat || ((a_client a =? 1)%nat && negb (a_cevent a) && bool_decide (true ∈ a_ccq a))).

Lemma abs_states_final : Forall (λ a, successors a = [] → abs_final a = true) abs_states.
Proof. refine (bool_decide_eq_true_1 _ _). vm_cast_no_check (eq_refl true). Qed.

Lemma move_in m : m ∈ moves.
Proof. unfold moves. destruct m as [[]|[]|[]]; repeat constructor. Qed.

Lemma abs_move_in a m b :
  a ∈ abs_states → abs_move m a = Some b → b ∈ abs_states ∧ (abs_measure b < abs_measure a)%nat.
Proof.
  intros Ha Hm. pose proof abs_states_closed as H. rewrite Forall_forall in H. specialize (H a Ha).
  rewrite Forall_forall in H. apply H. apply list_elem_of_omap. exists m. split; [apply move_in|exact Hm].
Qed.

(** ** The simulation *)

Section Pair.
Context {EC ES : cmverbs} {bC bS : Z} (HC : cm_good EC bC) (HS : cm_good ES bS).
Context (mC mS : Z → Z) (v1 v2 : list ascii).

Definition client_mem : Z → Z :=
  let m := mem_zero mC bC (2 * 4) in
  let m := mem_set m bC (u32 (strtoul v1)) in
  let m := mem_set m (bC + 4) (u32 (strtoul v2)) in
  let m := mem_set m bC (u32 (htonl (m bC))) in
  mem_set m (bC + 4) (u32 (htonl (m (bC + 4)))).
Definition server_mem0 : Z → Z := mem_zero mS bS (2 * 4).

(** The client's requests, for the address and the key it was told. *)
Definition client_write (va rkey : Z) : send_wr := mkSend 1 WR_RDMA_WRITE false (mkSge bC 4 (@cv_lkey EC)) va rkey.
Definition client_send (va rkey : Z) : send_wr := mkSend 2 WR_SEND true (mkSge (bC + 4) 4 (@cv_lkey EC)) va rkey.
Definition client_recv : recv_wr := mkRecv 0 (mkSge bC 4 (@cv_lkey EC)).
Definition server_recv : recv_wr := mkRecv 0 (mkSge (bS + 4) 4 (@cv_lkey ES)).
Definition server_send : send_wr := mkSend 0 WR_SEND true (mkSge bS 4 (@cv_lkey ES)) 0 0.
Definition client_region : mem_region := mkRegion bC (2 * 4) ACCESS_LOCAL_WRITE (u32 (@cv_rkey EC)).
Definition server_region : mem_region := mkRegion bS (2 * 4) 7 (u32 (@cv_rkey ES)).

Definition client_ready (va rkey : Z) : cmdata :=
  mkCm client_mem [client_region] [client_write va rkey; client_send va rkey] [client_recv] [] [] true 0.
Definition server_ready : cmdata := mkCm server_mem0 [server_region] [] [server_recv] [] [] true 0.

Definition client_rest (fuel : nat) : CW unit := wlift (@client_complete EC bC);; @client_loop EC fuel bC.
Definition server_rest2 : CW unit := wlift (@server_poll ES;; tell (C_ack_cq_events 2);; exit 0).
Definition server_rest1 : CW unit :=
  wlift (@notify ES;; @server_poll ES;; @server_reply ES bS);; @get_cq_event ES;; server_rest2.

Lemma client_main_ready argv pd fuel :
  argv !! 2%nat = Some v1 → argv !! 3%nat = Some v2 → @cv_private EC = Some pd →
  waits (client_rest fuel) (client_ready (ntohl (buf_va pd)) (ntohl (buf_rkey pd)))
    (@client_main EC (S fuel) argv (mkPstate (cm_start mC) [])).
Proof.
  intros H2 H3 Hp. unfold client_main.
  assert (runs (@client_setup EC argv) (mkPstate (cm_start mC) []) (λ r w,
    r = (bC, pd) ∧ p_data w = mkCm (mem_zero mC bC (2 * 4)) [client_region] [] [] [] [] true 0)) as (r & w & Hr & -> & Hd).
  { unfold client_setup, connect. rewrite Hp. cgo HC. by split. }
  rewrite (wlift_step _ _ _ _ _ Hr). cbn [fst snd]. clear Hr. destruct w as [d cs]. cbn in Hd. subst d.
  assert (runs (@client_post EC argv bC pd) (mkPstate (mkCm (mem_zero mC bC (2 * 4)) [client_region] [] [] [] [] true 0) cs)
    (λ _ w, p_data w = client_ready (ntohl (buf_va pd)) (ntohl (buf_rkey pd)))) as ([] & [d cs'] & Hr & Hd).
  { unfold client_post. rewrite H2, H3. cgo HC. reflexivity. }
  rewrite (wlift_step _ _ _ _ _ Hr). cbn in Hd. subst d. cbn [client_loop]. by apply (get_cq_event_waits HC).
Qed.

Lemma server_main_ready : waits server_rest1 server_ready (@server_main ES (mkPstate (cm_start mS) [])).
Proof.
  unfold server_main.
  assert (runs (@server_setup ES) (mkPstate (cm_start mS) []) (λ r w, r = bS ∧ p_data w = server_ready))
    as (r & [d cs] & Hr & -> & Hd).
  { unfold server_setup, server_listen, server_accept. cgo HS. by split. }
  rewrite (wlift_step _ _ _ _ _ Hr). cbn in Hd. subst d. by apply (get_cq_event_waits HS).
Qed.

(** *** The contents of the buffers *)

Definition server_mem1 : Z → Z := mem_copy client_mem bC server_mem0 bS 4.
Definition server_mem2 : Z → Z := mem_copy client_mem (bC + 4) server_mem1 (bS + 4) 4.
Definition server_mem3 : Z → Z :=
  mem_set server_mem2 bS (u32 (htonl (u32 (ntohl (server_mem2 bS) + ntohl (server_mem2 (bS + 4)))))).
Definition client_mem1 : Z → Z := mem_copy server_mem3 bS client_mem bC 4.

Definition sum_text : list ascii := fmt_d (u32 (strtoul v1 + strtoul v2)) ++ [newline].

Lemma stored_word x : ntohl (u32 (htonl x)) = u32 x.
Proof. unfold htonl. by rewrite ntohl_u32, ntohl_involutive. Qed.

Lemma client_words : ntohl (client_mem bC) = u32 (strtoul v1) ∧ ntohl (client_mem (bC + 4)) = u32 (strtoul v2).
Proof.
  unfold client_mem. cbv zeta. split.
  - rewrite mem_set_ne, mem_set_eq by lia. rewrite mem_set_ne, mem_set_eq by lia. by rewrite stored_word, u32_u32.
  - rewrite mem_set_eq, mem_set_ne, mem_set_eq by lia. by rewrite stored_word, u32_u32.
Qed.

Lemma server_words : server_mem2 bS = client_mem bC ∧ server_mem2 (bS + 4) = client_mem (bC + 4).
Proof.
  unfold server_mem2, server_mem1. split.
  - rewrite mem_copy_ne, mem_copy_eq by lia. done.
  - by rewrite mem_copy_eq.
Qed.

Lemma reply_word : fmt_d (ntohl (client_mem1 bC)) ++ [newline] = sum_text.
Proof.
  unfold client_mem1, server_mem3, sum_text. rewrite mem_copy_eq, mem_set_eq, stored_word, u32_u32.
  destruct server_words as [-> ->]. destruct client_words as [-> ->]. do 2 f_equal.
  unfold u32. by rewrite <- Z.add_mod.
Qed.

(** *** The steps of the processes *)

Lemma client_goes_round d cs q fuel :
  cm_cq d = mkCwc 2 WC_SUCCESS :: q → cm_events d = 0%nat →
  waits (client_rest fuel) (d <| cm_cq := q |> <| cm_armed := true |>) (client_rest (S fuel) (mkPstate d cs)).
Proof.
  intros Hq He. unfold client_rest at 2.
  assert (runs (@client_complete EC bC) (mkPstate d cs) (λ _ w, p_data w = d <| cm_cq := q |> <| cm_armed := true |>))
    as ([] & [d' cs'] & Hr & Hd).
  { destruct d. cbn in Hq, He. subst. unfold client_complete, poll_cq. cgo HC. reflexivity. }
  rewrite (wlift_step _ _ _ _ _ Hr). cbn in Hd. subst d'. cbn [client_loop]. apply (get_cq_event_waits HC).
  unfold has_event. cbn. by rewrite He.
Qed.

Lemma client_exits d cs q fuel :
  cm_cq d = mkCwc 0 WC_SUCCESS :: q →
  ∃ d' cs', client_rest fuel (mkPstate d cs) =
            WExited 0 (mkPstate d' (cs' ++ [C_print (fmt_d (ntohl (cm_mem d bC)) ++ [newline])])).
Proof.
  intros Hq. destruct d. cbn in Hq. subst. eexists _, _. unfold client_rest, client_complete, notify, poll_cq.
  unfold mbind, wprog_bind, prog_bind, wlift, ask. cbn. rewrite !(cg_int _ _ HC). cbn. rewrite !(cg_int _ _ HC). cbn. reflexivity.
Qed.

Lemma server_replies d cs q :
  cm_cq d = mkCwc 0 WC_SUCCESS :: q → cm_events d = 0%nat →
  waits server_rest2
    (d <| cm_cq := q |> <| cm_armed := true |> <| cm_sq ::= λ l, l ++ [server_send] |>
       <| cm_mem ::= λ m, mem_set m bS (u32 (htonl (u32 (ntohl (m bS) + ntohl (m (bS + 4)))))) |>)
    (server_rest1 (mkPstate d cs)).
Proof.
  intros Hq He. unfold server_rest1.
  assert (runs (@notify ES;; @server_poll ES;; @server_reply ES bS) (mkPstate d cs) (λ _ w, p_data w =
    d <| cm_cq := q |> <| cm_armed := true |> <| cm_sq ::= λ l, l ++ [server_send] |>
      <| cm_mem ::= λ m, mem_set m bS (u32 (htonl (u32 (ntohl (m bS) + ntohl (m (bS + 4)))))) |>))
    as ([] & [d' cs'] & Hr & Hd).
  { destruct d. cbn in Hq, He. subst. unfold server_poll, poll_cq, server_reply. cgo HS. reflexivity. }
  rewrite (wlift_step _ _ _ _ _ Hr). cbn in Hd. subst d'. apply (get_cq_event_waits HS).
  unfold has_event. cbn. by rewrite He.
Qed.

Lemma server_exits d cs q :
  cm_cq d = mkCwc 0 WC_SUCCESS :: q → ∃ w, server_rest2 (mkPstate d cs) = WExited 0 w.
Proof.
  intros Hq. destruct d. cbn in Hq. subst. eexists. unfold server_rest2, server_poll, poll_cq.
  unfold mbind, wprog_bind, prog_bind, wlift, ask. cbn. rewrite !(cg_int _ _ HS). cbn. reflexivity.
Qed.

(** *** The programs follow the machine *)

Context (Haddr : 0 <= bS < 2 ^ 32) (more : nat).
#[local] Abbreviation rkey := (u32 (@cv_rkey ES)).

Definition client_data (a : abs) : cmdata :=
  mkCm (if a_ssent a then client_mem1 else client_mem) [client_region]
    (match a_csent a with
     | 0%nat => [client_write bS rkey; client_send bS rkey] | 1%nat => [client_send bS rkey] | _ => []
     end)
    (if a_ssent a then [] else [client_recv])
    (if a_cdone a then [mkCwc 2 WC_SUCCESS] else [])
    (map (λ r : bool, mkCwc (if r then 0 else 2) WC_SUCCESS) (a_ccq a))
    (a_carmed a) (if a_cevent a then 1 else 0).

Definition server_data (a : abs) : cmdata :=
  mkCm (match a_csent a, a_server a with
        | 0%nat, _ => server_mem0 | 1%nat, _ => server_mem1 | _, 0%nat => server_mem2 | _, _ => server_mem3
        end) [server_region]
    (match a_server a with 1%nat => if a_ssent a then [] else [server_send] | _ => [] end)
    (match a_csent a with 0%nat | 1%nat => [server_recv] | _ => [] end)
    (if a_sdone a then [mkCwc 0 WC_SUCCESS] else [])
    (replicate (a_scq a) (mkCwc 0 WC_SUCCESS))
    (a_sarmed a) (if a_sevent a then 1 else 0).

Definition printed_sum (p : process) : Prop :=
  ∃ d cs, p = WExited 0 (mkPstate d (cs ++ [C_print sum_text])).

Definition client_at (a : abs) (p : process) : Prop :=
  match a_client a with
  | 0%nat => waits (client_rest (S more)) (client_data a) p
  | 1%nat => waits (client_rest more) (client_data a) p
  | _ => printed_sum p
  end.
Definition server_at (a : abs) (p : process) : Prop :=
  match a_server a with
  | 0%nat => waits server_rest1 (server_data a) p
  | 1%nat => waits server_rest2 (server_data a) p
  | _ => ∃ w, p = WExited 0 w
  end.
Definition at_abs (a : abs) (st : pair) : Prop := client_at a (pr_client st) ∧ server_at a (pr_server st).

(** The move of the machine is the move of the programs. *)
Definition follows (m : move) (a : abs) (st : pair) : Prop :=
  match abs_move m a with
  | Some b => ∃ st', do_move m st = Some st' ∧ at_abs b st'
  | None => do_move m st = None
  end.

Lemma at_abs_start argv :
  argv !! 2%nat = Some v1 → argv !! 3%nat = Some v2 → @cv_private EC = Some (@server_pdata ES bS) →
  at_abs abs_start
    (mkPair (@client_main EC (S (S more)) argv (mkPstate (cm_start mC) [])) (@server_main ES (mkPstate (cm_start mS) []))).
Proof.
  intros H2 H3 Hp. split; cbn [pr_client pr_server].
  - pose proof (client_main_ready argv _ (S more) H2 H3 Hp) as H. unfold server_pdata in H. cbn [buf_va buf_rkey] in H.
    unfold htonl in H. rewrite !ntohl_involutive, u32_u32, (u32_id bS) in H by done. exact H.
  - exact server_main_ready.
Qed.

Lemma not_sent_mem a : abs_ok a → a_csent a ≠ 2%nat →
  a_server a = 0%nat ∧ a_ssent a = false ∧ a_cdone a = false.
Proof.
  intros (_ & Hsrv & Hss & _ & _ & _ & _ & _ & _ & _ & _ & Hcd & _) H. repeat split.
  - destruct (a_server a); [done|]. by destruct H; apply Hsrv.
  - destruct (a_ssent a); [|done]. by destruct H; apply Hsrv, Hss.
  - destruct (a_cdone a); [|done]. by destruct H; apply Hcd.
Qed.

Lemma client_at_alive a p : client_at a p → (a_client a < 2)%nat → data_of p = Some (client_data a).
Proof. unfold client_at. intros H Ha. destruct (a_client a) as [|[|]]; [by eapply waits_data..|lia]. Qed.
Lemma server_at_alive a p : server_at a p → (a_server a < 2)%nat → data_of p = Some (server_data a).
Proof. unfold server_at. intros H Ha. destruct (a_server a) as [|[|]]; [by eapply waits_data..|lia]. Qed.
Lemma client_at_set a b p :
  client_at a p → (a_client a < 2)%nat → a_client b = a_client a → client_at b (set_data (client_data b) p).
Proof.
  unfold client_at. intros H Ha ->. destruct (a_client a) as [|[|]]; [by eapply waits_set..|lia].
Qed.
Lemma server_at_set a b p :
  server_at a p → (a_server a < 2)%nat → a_server b = a_server a → server_at b (set_data (server_data b) p).
Proof.
  unfold server_at. intros H Ha ->. destruct (a_server a) as [|[|]]; [by eapply waits_set..|lia].
Qed.
Lemma client_at_over a p : client_at a p → (2 <= a_client a)%nat → data_of p = None ∧ wake p = None.
Proof.
  unfold client_at. intros H Ha. destruct (a_client a) as [|[|]]; [lia|lia|]. by destruct H as (d & cs & ->).
Qed.
Lemma server_at_over a p : server_at a p → (2 <= a_server a)%nat → data_of p = None ∧ wake p = None.
Proof.
  unfold server_at. intros H Ha. destruct (a_server a) as [|[|]]; [lia|lia|]. by destruct H as (d & ->).
Qed.

(** [client_data_of a b] replaces the data of a live process by those of [b]. *)
Ltac client_data_of a b :=
  match goal with |- client_at _ (set_data ?d ?c) => replace d with (client_data b); [by apply (client_at_set a)|] end.
Ltac server_data_of a b :=
  match goal with |- server_at _ (set_data ?d ?c) => replace d with (server_data b); [by apply (server_at_set a)|] end.

Lemma follows_report_client a st : abs_ok a → at_abs a st → follows (Report Cl) a st.
Proof.
  destruct st as [c s]. intros (Hn & _ & _ & _ & _ & Harm & _) [Hc Hs]. unfold follows, at_abs in *. cbn [pr_client pr_server abs_move do_move] in *.
  unfold report_at. destruct (decide (a_client a < 2)%nat) as [Ha|Ha].
  - rewrite (client_at_alive _ _ Hc Ha). cbn [mbind option_bind]. unfold report. destruct (a_cdone a) eqn:E.
    + rewrite decide_False by (intros [?|?]; [lia|congruence]). unfold client_data at 1. cbn [cm_done]. rewrite E.
      eexists. split; [reflexivity|]. split; [|exact Hs]. cbn [pr_client].
      match goal with |- client_at ?b _ => client_data_of a b end.
      unfold client_data, arrive, arrive_client. cbn. rewrite E. cbn. destruct (a_carmed a); [rewrite Harm by done|]; cbn; by rewrite map_app.
    + rewrite decide_True by (by right). unfold client_data. cbn. by rewrite E.
  - rewrite decide_True by lia. by rewrite (proj1 (client_at_over _ _ Hc ltac:(lia))).
Qed.

Lemma follows_report_server a st : abs_ok a → at_abs a st → follows (Report Sv) a st.
Proof.
  destruct st as [c s]. intros (Hn & _ & _ & _ & _ & _ & Harm & _) [Hc Hs]. unfold follows, at_abs in *. cbn [pr_client pr_server abs_move do_move] in *.
  unfold report_at. destruct (decide (a_server a < 2)%nat) as [Ha|Ha].
  - rewrite (server_at_alive _ _ Hs Ha). cbn [mbind option_bind]. unfold report. destruct (a_sdone a) eqn:E.
    + rewrite decide_False by (intros [?|?]; [lia|congruence]). unfold server_data at 1. cbn [cm_done]. rewrite E.
      eexists. split; [reflexivity|]. split; [exact Hc|]. cbn [pr_server].
      match goal with |- server_at ?b _ => server_data_of a b end.
      unfold server_data, arrive, arrive_server. cbn. rewrite E. cbn.
      destruct (a_sarmed a); [rewrite Harm by done|]; cbn; by rewrite replicate_cons_app.
    + rewrite decide_True by (by right). unfold server_data. cbn. by rewrite E.
  - rewrite decide_True by lia. by rewrite (proj1 (server_at_over _ _ Hs ltac:(lia))).
Qed.

Lemma server_covers : existsb (covers rkey bS 4) [server_region] = true.
Proof.
  unfold existsb, covers, server_region. cbn [mr_rkey mr_access mr_addr mr_length]. 
  rewrite Z.eqb_refl, Z.leb_refl. destruct (Z.leb_spec (bS + 4) (bS + 2 * 4)); [done|lia].
Qed.

(** The data of both processes while they live. *)
Lemma at_abs_alive a c s :
  at_abs a (mkPair c s) → (a_client a < 2)%nat → (a_server a < 2)%nat →
  data_of c = Some (client_data a) ∧ data_of s = Some (server_data a).
Proof. intros [Hc Hs] H1 H2. split; [by apply client_at_alive|by apply server_at_alive]. Qed.

Lemma at_abs_over a c s :
  at_abs a (mkPair c s) → (2 <= a_client a)%nat ∨ (2 <= a_server a)%nat →
  move_between c s = None ∧ move_between s c = None.
Proof.
  intros [Hc Hs]. unfold move_between. cbn [pr_client pr_server] in *. intros [Ha|Ha].
  - rewrite (proj1 (client_at_over _ _ Hc Ha)). by destruct (data_of s).
  - rewrite (proj1 (server_at_over _ _ Hs Ha)). by destruct (data_of c).
Qed.

Lemma follows_transmit_client a st : abs_ok a → at_abs a st → follows (Transmit Cl) a st.
Proof.
  destruct st as [c s]. intros Hok Hat. unfold follows. cbn [abs_move do_move].
  destruct (decide (a_client a = 2%nat ∨ a_server a = 2%nat)) as [Hd|Hd].
  { destruct (at_abs_over a c s Hat) as [-> _]; [lia|done]. }
  pose proof (not_sent_mem a Hok) as Hno. destruct Hok as (Hn & _ & _ & _ & _ & _ & Harm & _).
  assert (a_client a < 2)%nat as Ha1 by lia. assert (a_server a < 2)%nat as Ha2 by lia.
  destruct (at_abs_alive a c s Hat Ha1 Ha2) as [Ec Es]. destruct Hat as [Hc Hs]. cbn [pr_client pr_server] in *.
  unfold move_between. rewrite Ec, Es. cbn [mbind option_bind]. unfold transmit.
  destruct (a_csent a) as [|[|n]] eqn:E; unfold client_data at 1; cbn [cm_sq]; rewrite E; [| |done];
    destruct Hno as (E0 & E1 & E2); try done.
  - unfold server_data at 1. cbn [client_write sw_opcode sw_rkey sw_remote_addr sw_sge sg_length cm_regions].
    rewrite server_covers. cbn [mbind option_bind]. eexists. split; [reflexivity|]. split; cbn [pr_client pr_server].
    + match goal with |- client_at ?b _ => client_data_of a b end.
      rewrite done_ok_unsignaled by done. unfold client_data. cbn. by rewrite E.
    + match goal with |- server_at ?b _ => server_data_of a b end.
      unfold server_data, place. cbn. by rewrite E, E0, E1.
  - cbn [client_send sw_opcode sw_rkey sw_remote_addr sw_sge sg_length].
    replace (cm_rq (server_data a)) with [server_recv] by (unfold server_data; cbn; by rewrite E).
    cbn [rw_sge server_recv sg_length]. cbn [mbind option_bind]. eexists. split; [reflexivity|].
    split; cbn [pr_client pr_server].
    + match goal with |- client_at ?b _ => client_data_of a b end.
      rewrite done_ok_signaled; [|done|by unfold client_data; cbn; rewrite E2]. unfold client_data. cbn. by rewrite E.
    + match goal with |- server_at ?b _ => server_data_of a b end.
      unfold server_data, place, arrive, arrive_server. cbn. rewrite E, E0, E1. cbn.
      destruct (a_sarmed a); [rewrite Harm by done|]; cbn; by rewrite replicate_cons_app.
Qed.

Lemma follows_transmit_server a st : abs_ok a → at_abs a st → follows (Transmit Sv) a st.
Proof.
  destruct st as [c s]. intros (Hn & Hcs & _ & _ & _ & Harm & _ & _ & _ & _ & _ & _ & Hsd & _) Hat. unfold follows. cbn [abs_move do_move].
  destruct (decide (2 <= a_client a ∨ 2 <= a_server a)%nat) as [Hd|Hd].
  { destruct (at_abs_over a c s Hat Hd) as [_ ->].
    destruct (decide _) as [|H]; [done|]. destruct H. lia. }
  assert (a_client a < 2)%nat as Ha1 by lia. assert (a_server a < 2)%nat as Ha2 by lia.
  destruct (at_abs_alive a c s Hat Ha1 Ha2) as [Ec Es]. destruct Hat as [Hc Hs]. cbn [pr_client pr_server] in *.
  unfold move_between. rewrite Ec, Es. cbn [mbind option_bind]. unfold transmit.
  destruct (decide (a_client a = 2%nat ∨ a_server a ≠ 1%nat ∨ a_ssent a = true)) as [H|H].
  { replace (cm_sq (server_data a)) with (@nil send_wr); [done|]. unfold server_data. cbn.
    destruct (a_server a) as [|[|n]]; [done| |done]. destruct (a_ssent a); [done|]. exfalso. intuition lia. }
  assert (a_server a = 1%nat) as E by lia. assert (a_ssent a = false) as E1 by (apply not_true_is_false; tauto).
  replace (cm_sq (server_data a)) with [server_send] by (unfold server_data; cbn; by rewrite E, E1).
  cbn [server_send sw_opcode sw_rkey sw_remote_addr sw_sge sg_length].
  replace (cm_rq (client_data a)) with [client_recv] by (unfold client_data; cbn; by rewrite E1).
  cbn [rw_sge client_recv sg_length]. cbn [mbind option_bind]. eexists. split; [reflexivity|].
  assert (a_sdone a = false) as E2 by (destruct (a_sdone a); [by rewrite Hsd in E1|done]).
  split; cbn [pr_client pr_server].
  + match goal with |- client_at ?b _ => client_data_of a b end.
    unfold client_data, server_data, place, arrive, arrive_client. cbn. rewrite E, E1, (Hcs ltac:(lia)). cbn.
    destruct (a_carmed a); [rewrite Harm by done|]; cbn; by rewrite map_app.
  + match goal with |- server_at ?b _ => server_data_of a b end.
    rewrite done_ok_signaled; [|done|by unfold server_data; cbn; rewrite E2]. unfold server_data. cbn. by rewrite E.
Qed.

Lemma client_word : cm_mem (client_data abs_start) bC = client_mem bC.
Proof. done. Qed.

Lemma follows_wake_client a st : abs_ok a → at_abs a st → follows (Wake Cl) a st.
Proof.
  destruct st as [c s]. intros (Hn & _ & _ & _ & _ & _ & _ & Hev & _ & Hc1 & Hin & _) [Hc Hs]. cbn [pr_client pr_server] in *.
  unfold follows. cbn [abs_move do_move].
  destruct (decide (2 <= a_client a)%nat) as [Ha|Ha].
  { rewrite (proj2 (client_at_over _ _ Hc Ha)), decide_True by lia. done. }
  assert (∃ fuel, waits (client_rest fuel) (client_data a) c ∧ (a_client a = 0%nat → fuel = S more)) as (fuel & Hw & Hf).
  { unfold client_at in Hc. destruct (a_client a) as [|[|]]; [by exists (S more)|by exists more|lia]. }
  apply waits_wake in Hw. unfold has_event in Hw. cbn [client_data cm_events] in Hw.
  destruct (a_cevent a) eqn:E; cbn in Hw.
  2: { rewrite Hw. by rewrite decide_True by tauto. }
  destruct Hw as [cs ->]. rewrite decide_False by (intros [?|?]; [lia|congruence]). cbn [mbind option_bind].
  destruct (a_ccq a) as [|r q] eqn:Eq; [by specialize (Hev eq_refl)|].
  eexists. split; [reflexivity|]. split; [|exact Hs]. cbn [pr_client]. unfold client_at. cbn.
  destruct r.
  - destruct (client_exits (take_event (client_data a)) cs (map (λ r : bool, mkCwc (if r then 0 else 2) WC_SUCCESS) q) fuel)
      as (d' & cs' & ->); [unfold client_data; cbn; by rewrite Eq|].
    exists d', cs'. rewrite <- reply_word. unfold client_data. cbn. by rewrite (Hin ltac:(by left)).
  - destruct (a_client a) as [|[|]] eqn:E1; [|by destruct (proj2 (Hc1 eq_refl)); left|lia].
    rewrite (Hf eq_refl).
    match goal with |- waits _ (client_data ?b) _ => replace (client_data b) with
      (take_event (client_data a) <| cm_cq := map (λ r : bool, mkCwc (if r then 0 else 2) WC_SUCCESS) q |> <| cm_armed := true |>)
      by (unfold client_data; cbn; by rewrite E) end.
    apply (client_goes_round (take_event (client_data a)) cs _ more); unfold client_data; cbn; by rewrite ?Eq, ?E.
Qed.

Lemma follows_wake_server a st : abs_ok a → at_abs a st → follows (Wake Sv) a st.
Proof.
  destruct st as [c s]. intros (Hn & Hcs & Hss & _ & _ & _ & _ & _ & Hev & _ & _ & _ & _ & Hsc) [Hc Hs]. cbn [pr_client pr_server] in *.
  unfold follows. cbn [abs_move do_move].
  destruct (decide (2 <= a_server a)%nat) as [Ha|Ha].
  { rewrite (proj2 (server_at_over _ _ Hs Ha)), decide_True by lia. done. }
  assert (waits (if decide (a_server a = 0%nat) then server_rest1 else server_rest2) (server_data a) s) as Hw.
  { unfold server_at in Hs. destruct (a_server a) as [|[|]]; [done..|lia]. }
  apply waits_wake in Hw. unfold has_event in Hw. cbn [server_data cm_events] in Hw.
  destruct (a_sevent a) eqn:E; cbn in Hw.
  2: { rewrite Hw. by rewrite decide_True by tauto. }
  destruct Hw as [cs ->]. rewrite decide_False by (intros [?|?]; [lia|congruence]). cbn [mbind option_bind].
  destruct (a_scq a) as [|n] eqn:Eq; [by specialize (Hev eq_refl)|].
  eexists. split; [reflexivity|]. split; [exact Hc|]. cbn [pr_server]. unfold server_at. cbn.
  destruct (a_server a) as [|[|]] eqn:E1; [| |lia].
  - rewrite decide_True by done.
    match goal with |- waits _ (server_data ?b) _ => replace (server_data b) with
      (take_event (server_data a) <| cm_cq := replicate n (mkCwc 0 WC_SUCCESS) |> <| cm_armed := true |>
         <| cm_sq ::= λ l, l ++ [server_send] |>
         <| cm_mem ::= λ m, mem_set m bS (u32 (htonl (u32 (ntohl (m bS) + ntohl (m (bS + 4)))))) |>) end.
    + apply (server_replies (take_event (server_data a)) cs); unfold server_data; cbn; by rewrite ?Eq, ?E.
    + assert (a_ssent a = false) as E2 by (destruct (a_ssent a); [by destruct Hss|done]).
      unfold server_data. cbn. by rewrite E, E1, E2, Hsc.
  - rewrite decide_False by done. destruct (server_exits (take_event (server_data a)) cs (replicate n (mkCwc 0 WC_SUCCESS))) as [w ->];
      [unfold server_data; cbn; by rewrite Eq|by exists w].
Qed.

Lemma all_follow m a st : abs_ok a → at_abs a st → follows m a st.
Proof.
  intros Hok Hat. destruct m as [[]|[]|[]];
    [by apply follows_wake_client|by apply follows_wake_server|by apply follows_transmit_client
    |by apply follows_transmit_server|by apply follows_report_client|by apply follows_report_server].
Qed.

Lemma in_states_ok a : a ∈ abs_states → abs_ok a.
Proof. intros Ha. pose proof abs_states_ok as H. rewrite Forall_forall in H. by apply H. Qed.

Lemma do_moves_abs ms a st st' :
  a ∈ abs_states → at_abs a st → do_moves ms st = Some st' →
  ∃ b, b ∈ abs_states ∧ at_abs b st' ∧ (length ms + abs_measure b <= abs_measure a)%nat.
Proof.
  revert a st. induction ms as [|m ms IH]; intros a st Ha Hat H; cbn in H.
  { injection H as <-. exists a. split; [done|]. split; [done|cbn [length]; lia]. }
  pose proof (all_follow m a st (in_states_ok a Ha) Hat) as Hf. unfold follows in Hf.
  destruct (abs_move m a) as [b|] eqn:Em; [|by rewrite Hf in H]. destruct Hf as (st1 & Hm & Hat1).
  rewrite Hm in H. destruct (abs_move_in a m b Ha Em) as [Hb Hlt].
  destruct (IH b st1 Hb Hat1 H) as (b' & Hb' & Hat' & Hle). exists b'. split; [done|]. split; [done|cbn [length]; lia].
Qed.

Fixpoint abs_moves (ms : list move) (a : abs) : option abs :=
  match ms with [] => Some a | m :: ms => a ← abs_move m a; abs_moves ms a end.

Lemma abs_moves_do ms a b st :
  a ∈ abs_states → at_abs a st → abs_moves ms a = Some b → ∃ st', do_moves ms st = Some st' ∧ at_abs b st'.
Proof.
  revert a st. induction ms as [|m ms IH]; intros a st Ha Hat H; cbn in H.
  { injection H as <-. by exists st. }
  pose proof (all_follow m a st (in_states_ok a Ha) Hat) as Hf. unfold follows in Hf.
  destruct (abs_move m a) as [a1|] eqn:Em; [|done]. destruct Hf as (st1 & Hm & Hat1).
  destruct (abs_move_in a m a1 Ha Em) as [Ha1 _]. cbn. rewrite Hm. by apply (IH a1).
Qed.

(** The client waits for an event; there is none, and none will come: the
    completion of the reply is in its queue. *)
Definition lost_wakeup (p : process) : Prop :=
  ∃ rest d, waits rest d p ∧ cm_events d = 0%nat ∧ mkCwc 0 WC_SUCCESS ∈ cm_cq d.
Definition exited_zero (p : process) : Prop := ∃ w, p = WExited 0 w.

Lemma at_abs_final a st :
  a ∈ abs_states → at_abs a st → stuck st →
  exited_zero (pr_server st) ∧ (printed_sum (pr_client st) ∨ lost_wakeup (pr_client st)).
Proof.
  intros Ha [Hc Hs] Hst. assert (successors a = []) as Hno.
  { unfold successors. apply elem_of_nil_inv. intros b (m & _ & Hm)%list_elem_of_omap.
    pose proof (all_follow m a st (in_states_ok a Ha) (conj Hc Hs)) as Hf. unfold follows in Hf. rewrite Hm in Hf.
    destruct Hf as (st' & Hd & _). by rewrite Hst in Hd. }
  pose proof abs_states_final as H. rewrite Forall_forall in H. specialize (H a Ha Hno).
  unfold abs_final in H. apply andb_true_iff in H as [H1%Nat.eqb_eq H2].
  unfold client_at, server_at in *. rewrite H1 in Hs. split; [exact Hs|].
  apply orb_true_iff in H2 as [H2%Nat.eqb_eq|H2]; [left; by rewrite H2 in Hc|right].
  apply andb_true_iff in H2 as [[H2%Nat.eqb_eq H3]%andb_true_iff H4%bool_decide_eq_true].
  rewrite H2 in Hc. eexists _, _. split; [exact Hc|]. unfold client_data. cbn [cm_events cm_cq].
  split; [by destruct (a_cevent a)|]. apply list_elem_of_fmap. by exists true.
Qed.

Lemma no_successors_stuck a st : a ∈ abs_states → at_abs a st → successors a = [] → stuck st.
Proof.
  intros Ha Hat Hno m. pose proof (all_follow m a st (in_states_ok a Ha) Hat) as Hf. unfold follows in Hf.
  destruct (abs_move m a) as [b|] eqn:Em; [|exact Hf]. exfalso.
  assert (b ∈ successors a) as Hb by (apply list_elem_of_omap; exists m; split; [apply move_in|exact Em]).
  rewrite Hno in Hb. by apply not_elem_of_nil in Hb.
Qed.

End Pair.

(** Two orders of the moves: the completions of the client's message and of
    the reply arrive one after the other is taken, or both before. *)
Definition in_turn : list move :=
  [Transmit Cl; Transmit Cl; Report Cl; Wake Cl; Wake Sv; Transmit Sv; Report Sv; Wake Sv; Wake Cl].
Definition together : list move :=
  [Transmit Cl; Transmit Cl; Report Cl; Wake Sv; Transmit Sv; Report Sv; Wake Sv; Wake Cl].

(** ** The adding programs *)

Definition pair_start {EC ES : cmverbs} (fuel : nat) (argv : list (list ascii)) (mC mS : Z → Z) : pair :=
  mkPair (@client_main EC fuel argv (mkPstate (cm_start mC) [])) (@server_main ES (mkPstate (cm_start mS) [])).
Arguments pair_start EC ES fuel argv mC mS : clear implicits.

(** The client has exited with 0, and the last thing it did is to print the
    sum of the two numbers. *)
Definition printed (v1 v2 : list ascii) (p : process) : Prop :=
  ∃ d cs, p = WExited 0 (mkPstate d (cs ++ [C_print (fmt_d (u32 (strtoul v1 + strtoul v2)) ++ [newline])])).

Section Sum.
Context {EC ES : cmverbs} {bC bS : Z} (HC : cm_good EC bC) (HS : cm_good ES bS) (Haddr : 0 <= bS < 2 ^ 32).
Context (argv : list (list ascii)) (v1 v2 : list ascii) (H2 : argv !! 2%nat = Some v1) (H3 : argv !! 3%nat = Some v2).
Context (Hpriv : @cv_private EC = Some (@server_pdata ES bS)) (mC mS : Z → Z) (more : nat).

#[local] Abbreviation start := (pair_start EC ES (S (S more)) argv mC mS).

(** C29. Whatever the order of the moves: there are at most twelve; a client that
    exits has printed the sum; and when nothing can move any more, the server
    has exited with success, and the client has printed the sum or waits
    forever. *)
Theorem sum_pair_outcomes ms st :
  do_moves ms start = Some st →
  (length ms <= 12)%nat ∧
  (∀ code w, pr_client st = WExited code w → printed v1 v2 (pr_client st)) ∧
  (stuck st → exited_zero (pr_server st) ∧ (printed v1 v2 (pr_client st) ∨ lost_wakeup (pr_client st))).
Proof using All.
  intros H. pose proof (at_abs_start HC HS mC mS v1 v2 Haddr more argv H2 H3 Hpriv) as Hat.
  destruct (do_moves_abs HC HS mC mS v1 v2 Haddr more ms _ _ st abs_start_in Hat H) as (b & Hb & Hat' & Hle).
  split; [cbn in Hle; lia|]. split; [|intros Hst; by apply (at_abs_final HC HS mC mS v1 v2 Haddr more b)].
  intros code w Hw. destruct Hat' as [Hc _]. unfold client_at in Hc. rewrite Hw in *.
  destruct (a_client b) as [|[|]]; [by destruct Hc as (? & ? & ? & _)..|exact Hc].
Qed.

Lemma sum_pair_reaches ms b :
  abs_moves ms abs_start = Some b → bool_decide (b ∈ abs_states ∧ successors b = []) = true →
  ∃ st, do_moves ms start = Some st ∧ stuck st ∧ @at_abs EC ES bC bS mC mS v1 v2 more b st.
Proof using All.
  intros Hb [Hin Hno]%bool_decide_eq_true. pose proof (at_abs_start HC HS mC mS v1 v2 Haddr more argv H2 H3 Hpriv) as Hat.
  destruct (abs_moves_do HC HS mC mS v1 v2 Haddr more ms _ b _ abs_start_in Hat Hb) as (st & Hd & Hst).
  exists st. split; [exact Hd|]. split; [|exact Hst].
  by apply (no_successors_stuck HC HS mC mS v1 v2 Haddr more b).
Qed.

(** C30. Both ends are reached.  When the two completions of the client arrive in
    turn, it prints the sum; when both are there before it takes its first
    event, it takes one of them, and since an armed queue gives an event only
    for a later completion, it waits forever with the answer in its buffer. *)
Theorem sum_pair_both_ends :
  (∃ st, do_moves in_turn start = Some st ∧ printed v1 v2 (pr_client st) ∧ exited_zero (pr_server st)) ∧
  (∃ st, do_moves together start = Some st ∧ stuck st ∧ lost_wakeup (pr_client st) ∧ exited_zero (pr_server st)).
Proof using All.
  split.
  - destruct (abs_moves in_turn abs_start) as [b|] eqn:Eb; [|by vm_compute in Eb].
    destruct (sum_pair_reaches in_turn b Eb) as (st & Hd & Hst & Hat); [vm_compute in Eb; injection Eb as <-; vm_compute; reflexivity|].
    exists st. split; [exact Hd|]. vm_compute in Eb. injection Eb as <-. destruct Hat as [Hc Hs]. by split.
  - destruct (abs_moves together abs_start) as [b|] eqn:Eb; [|by vm_compute in Eb].
    destruct (sum_pair_reaches together b Eb) as (st & Hd & Hst & Hat); [vm_compute in Eb; injection Eb as <-; vm_compute; reflexivity|].
    exists st. split; [exact Hd|]. split; [exact Hst|]. vm_compute in Eb. injection Eb as <-. destruct Hat as [Hc Hs].
    split; [|exact Hs]. eexists _, _. split; [exact Hc|]. split; [reflexivity|]. apply list_elem_of_fmap. exists true. split; [done|by left].
Qed.

End Sum.

(** ** A server buffer above 4 GB *)

Section High.
Context {EC ES : cmverbs} {bC bS : Z} (HC : cm_good EC bC) (HS : cm_good ES bS) (Haddr : 2 ^ 32 <= bS).
Context (argv : list (list ascii)) (v1 v2 : list ascii) (H2 : argv !! 2%nat = Some v1) (H3 : argv !! 3%nat = Some v2).
Context (Hpriv : @cv_private EC = Some (@server_pdata ES bS)) (mC mS : Z → Z) (more : nat).

#[local] Abbreviation start := (pair_start EC ES (S more) argv mC mS).
#[local] Abbreviation va := (u32 bS).
#[local] Abbreviation key := (u32 (@cv_rkey ES)).

Definition flushed : list cm_wc := [mkCwc 1 WC_REM_ACCESS_ERR; mkCwc 2 WC_WR_FLUSH_ERR; mkCwc 0 WC_WR_FLUSH_ERR].

(** After the failed write, [n] completions have arrived. *)
Definition flushed_data (n : nat) : cmdata :=
  mkCm (@client_mem bC mC v1 v2) [@client_region EC bC] [] [] (drop n flushed) (take n flushed)
    (bool_decide (n = 0%nat)) (if decide (n = 0%nat) then 0 else 1).

Inductive high_client : process → Prop :=
| high_start p : waits (@client_rest EC bC more) (@client_ready EC bC mC v1 v2 va key) p → high_client p
| high_flushed n p : (n <= 3)%nat → waits (@client_rest EC bC more) (flushed_data n) p → high_client p
| high_exit w : high_client (WExited 1 w).

Definition high (st : pair) : Prop :=
  high_client (pr_client st) ∧ waits (@server_rest1 ES bS) (@server_ready ES bS mS) (pr_server st).

Lemma high_begin : high start.
Proof using All.
  split; unfold pair_start; cbn [pr_client pr_server].
  - apply high_start. pose proof (client_main_ready HC mC v1 v2 argv _ more H2 H3 Hpriv) as H.
    unfold server_pdata in H. cbn [buf_va buf_rkey] in H. unfold htonl in H. by rewrite !ntohl_involutive, u32_u32 in H.
  - by apply server_main_ready.
Qed.

Lemma high_uncovered : existsb (covers key va 4) [@server_region ES bS] = false.
Proof using All.
  unfold existsb, covers, server_region. cbn [mr_rkey mr_access mr_addr mr_length]. pose proof (u32_range bS).
  destruct (Z.leb_spec bS va) as [H'|_]; [lia|]. by rewrite andb_false_r.
Qed.

Lemma flushed_exits n cs : (0 < n <= 3)%nat →
  ∃ w, @client_rest EC bC more (mkPstate (take_event (flushed_data n)) cs) = WExited 1 w.
Proof using All.
  intros Hn. destruct n as [|n]; [lia|]. eexists. unfold client_rest, client_complete, notify, poll_cq, flushed_data.
  unfold mbind, wprog_bind, prog_bind, wlift, ask. cbn. rewrite !(cg_int _ _ HC). cbn. rewrite !(cg_int _ _ HC). cbn. reflexivity.
Qed.

Lemma flushed_next n : (n < 3)%nat → report (flushed_data n) = Some (flushed_data (S n)).
Proof using All. intros Hn. by destruct n as [|[|[|n]]]; [| | |lia]. Qed.

Lemma flushed_first : transmit (@client_ready EC bC mC v1 v2 va key) (@server_ready ES bS mS) =
  Some (flushed_data 0, @server_ready ES bS mS).
Proof using All.
  unfold transmit, client_ready. cbn [cm_sq client_write sw_opcode sw_rkey sw_remote_addr sw_sge sg_length].
  unfold server_ready at 1. cbn [cm_regions]. by rewrite high_uncovered.
Qed.

Lemma high_step m st st' : high st → do_move m st = Some st' → high st'.
Proof using All.
  intros [Hc Hs] Hm. destruct st as [c s]. cbn [pr_client pr_server] in *. destruct m as [[]|[]|[]]; cbn [do_move] in Hm.
  - destruct Hc as [p Hw|n p Hn Hw|w]; [| |done]; apply waits_wake in Hw.
    + cbn in Hw. by rewrite Hw in Hm.
    + destruct n as [|n]; [cbn in Hw; by rewrite Hw in Hm|]. destruct Hw as [cs Hw]. rewrite Hw in Hm.
      injection Hm as <-. split; [|exact Hs]. cbn [pr_client].
      destruct (flushed_exits (S n) cs) as [w ->]; [lia|apply high_exit].
  - apply waits_wake in Hs. cbn in Hs. by rewrite Hs in Hm.
  - unfold move_between in Hm. rewrite (waits_data _ _ _ Hs) in Hm.
    destruct Hc as [p Hw|n p Hn Hw|w]; [| |done]; rewrite (waits_data _ _ _ Hw) in Hm; cbn [mbind option_bind] in Hm; [|done].
    rewrite flushed_first in Hm. injection Hm as <-. split; cbn [pr_client pr_server].
    + apply (high_flushed 0); [lia|]. by eapply waits_set.
    + by eapply waits_set.
  - unfold move_between in Hm. rewrite (waits_data _ _ _ Hs) in Hm. cbn in Hm. by destruct (data_of c).
  - unfold report_at in Hm.
    destruct Hc as [p Hw|n p Hn Hw|w]; [| |done]; rewrite (waits_data _ _ _ Hw) in Hm; cbn [mbind option_bind] in Hm; [done|].
    destruct (decide (n = 3%nat)) as [->|Hn']; [done|]. rewrite flushed_next in Hm by lia. injection Hm as <-.
    split; [|exact Hs]. apply (high_flushed (S n)); [lia|]. by eapply waits_set.
  - unfold report_at in Hm. by rewrite (waits_data _ _ _ Hs) in Hm.
Qed.

Lemma high_reached : ∃ st w, do_moves [Transmit Cl; Report Cl; Wake Cl] start = Some st ∧ pr_client st = WExited 1 w.
Proof using All.
  pose proof (client_main_ready HC mC v1 v2 argv _ more H2 H3 Hpriv) as Hc. pose proof (server_main_ready HS mS) as Hs.
  unfold server_pdata in Hc. cbn [buf_va buf_rkey] in Hc. unfold htonl in Hc. rewrite !ntohl_involutive, u32_u32 in Hc.
  pose proof (waits_wake _ _ _ (waits_set _ _ (flushed_data 1) _ (waits_set _ _ (flushed_data 0) _ Hc))) as Hw.
  destruct Hw as [cs Hw]. destruct (flushed_exits 1 cs) as [w Hex]; [lia|].
  unfold pair_start. cbn [do_moves do_move]. unfold move_between.
  rewrite (waits_data _ _ _ Hc), (waits_data _ _ _ Hs). cbn [mbind option_bind].
  rewrite flushed_first. cbn [mbind option_bind do_move]. unfold report_at.
  rewrite (waits_data _ _ _ (waits_set _ _ (flushed_data 0) _ Hc)). cbn [mbind option_bind].
  rewrite flushed_next by lia. cbn [mbind option_bind do_move]. rewrite Hw. cbn [mbind option_bind]. rewrite Hex.
  eexists _, w. split; reflexivity.
Qed.

(** C31. The address of the server's buffer passes through [htonl] and [ntohl],
    which keep 32 bits.  When the buffer is above 4 GB, whatever the order of
    the moves, the client never prints a sum: it waits or exits with 1, which
    is reached; and the server waits for its numbers forever. *)
Theorem sum_pair_high_address :
  (∀ ms st, do_moves ms start = Some st →
     (∀ code w, pr_client st = WExited code w → code = 1) ∧
     waits (@server_rest1 ES bS) (@server_ready ES bS mS) (pr_server st)) ∧
  ∃ st w, do_moves [Transmit Cl; Report Cl; Wake Cl] start = Some st ∧ pr_client st = WExited 1 w.
Proof using All.
  split; [|exact high_reached]. intros ms st H. assert (high st) as [Hc Hs].
  { revert H. generalize high_begin. generalize (start). induction ms as [|m ms IH]; intros st0 Hi H; cbn in H; [by injection H as <-|].
    destruct (do_move m st0) as [st1|] eqn:Em; [|done]. cbn in H. by apply (IH st1); [eapply high_step|]. }
  split; [|exact Hs]. intros code w Hw. by destruct Hc as [p (? & ? & -> & _)|n p _ (? & ? & -> & _)|w']; simplify_eq.
Qed.

End High.

(** ** Witnesses *)

Definition demo_argv : list (list ascii) := list_ascii_of_string <$> ["client"; "server"; "40"; "0x10"]%string.
Definition demo_server (b : Z) : cmverbs := cm_ok b 77 None.
Definition demo_client (b : Z) : cmverbs := cm_ok 65536 88 (Some (@server_pdata (demo_server b) b)).
Definition demo_pair (b : Z) : pair := pair_start (demo_client b) (demo_server b) 2 demo_argv (λ _, 0) (λ _, 0).

Lemma demo_outcomes_runs : match do_moves in_turn (demo_pair 4096) with Some _ => true | None => false end = true.
Proof. vm_compute. reflexivity. Qed.

Lemma sum_pair_outcomes_witness :
  match do_moves in_turn (demo_pair 4096) with
  | Some st => stuck st → exited_zero (pr_server st) ∧
      (printed (list_ascii_of_string "40") (list_ascii_of_string "0x10") (pr_client st) ∨ lost_wakeup (pr_client st))
  | None => False
  end.
Proof.
  pose proof demo_outcomes_runs as H. destruct (do_moves in_turn (demo_pair 4096)) as [st|] eqn:E; [|discriminate H].
  apply (@sum_pair_outcomes (demo_client 4096) (demo_server 4096) 65536 4096 (cm_ok_good _ _ _) (cm_ok_good _ _ _)
    ltac:(lia) demo_argv _ _ eq_refl eq_refl eq_refl (λ _, 0) (λ _, 0) 0 in_turn st E).
Defined.

Lemma sum_pair_both_ends_witness :
  (∃ st, do_moves in_turn (demo_pair 4096) = Some st ∧
     printed (list_ascii_of_string "40") (list_ascii_of_string "0x10") (pr_client st) ∧ exited_zero (pr_server st)) ∧
  (∃ st, do_moves together (demo_pair 4096) = Some st ∧ stuck st ∧ lost_wakeup (pr_client st) ∧ exited_zero (pr_server st)).
Proof.
  exact (@sum_pair_both_ends (demo_client 4096) (demo_server 4096) 65536 4096 (cm_ok_good _ _ _) (cm_ok_good _ _ _)
    ltac:(lia) demo_argv _ _ eq_refl eq_refl eq_refl (λ _, 0) (λ _, 0) 0).
Defined.

Lemma sum_pair_high_address_witness :
  ∃ st w, do_moves [Transmit Cl; Report Cl; Wake Cl] (demo_pair (2 ^ 32 + 4096)) = Some st ∧ pr_client st = WExited 1 w.
Proof.
  destruct (@sum_pair_high_address (demo_client (2 ^ 32 + 4096)) (demo_server (2 ^ 32 + 4096)) 65536 (2 ^ 32 + 4096)
    (cm_ok_good _ _ _) (cm_ok_good _ _ _) ltac:(lia) demo_argv _ _ eq_refl eq_refl eq_refl (λ _, 0) (λ _, 0) 1) as [_ H]. exact H.
Defined.
