(* ===== verification/DaemonClient.v ===== *)
(** * The sample client of the memory server

    [client.c] of [src/IB-test-case/RDMA_post_send_recv_connect_to_infiniswap_daemon]
    connects to the daemon of [Server], waits for one message and prints its
    type and its size.  It is written like the adding client, whose connecting
    functions ([CmVerbs]) it repeats. *)

From Stdlib Require Import Ascii String.
From S2P Require Import Prelude BitOps OctTypes Kernel Names Server Prog CmVerbs SumPrograms.

(** ** The message in memory *)

(** The 32-bit word at offset [o] of a [struct message]: 32 addresses, 32
    keys, the size and the type. *)
Definition size_offset : Z := 8 * MAX_CHUNKS + 4 * MAX_CHUNKS.
Definition type_offset : Z := size_offset + 4.
Definition message_word (m : message) (o : Z) : Z :=
  if o <? 8 * MAX_CHUNKS then
    let v := default 0 (msg_buf m !! Z.to_nat (o / 8)) in
    if o mod 8 =? 0 then u32 v else u32 (Z.shiftr v 32)
  else if o <? size_offset then u32 (default 0 (msg_rkey m !! Z.to_nat ((o - 8 * MAX_CHUNKS) / 4)))
  else if o =? size_offset then u32 (msg_size_gb m)
  else u32 (msg_type m).

(** The message arrives in the oldest posted receive, if it fits. *)
Definition deliver (m : message) (d : cmdata) : option cmdata :=
  match cm_rq d with
  | r :: rq =>
      if sizeof_message <=? sg_length (rw_sge r) then
        let a := sg_addr (rw_sge r) in
        Some (arrive (mkCwc (rw_id r) WC_SUCCESS)
                (d <| cm_rq := rq |>
                   <| cm_mem ::= λ mem, mem_copy (message_word m) 0 mem a sizeof_message |>))
      else None
  | [] => None
  end.

(** ** The program *)

Section Ops.
Context {E : cmverbs}.

Definition DAEMON_PORT : Z := 9400.

(** The buffer is not checked: a null pointer is registered and posted as 0. *)
Definition sample_setup (argv : list (list ascii)) : CP (option Z) :=
  resolve (argv !! 1%nat) DAEMON_PORT;;
  create_verbs;;
  b ← calloc sizeof_message;
  reg_mr (default 0 b) sizeof_message ACCESS_LOCAL_WRITE;;
  create_qp 2 1 false;;
  _ ← connect;
  post_recv (mkRecv 66 (mkSge (default 0 b) sizeof_message cv_lkey));;
  mret b.

(** One round of the loop, which ends with [break]. *)
Definition sample_complete (b : option Z) : CP unit :=
  notify;;
  r ← poll_cq;
  check_one (negb (r.1 =? 1));;
  wc ← nonnull r.2;
  check_one (negb (cw_status wc =? WC_SUCCESS));;
  tell (C_print (list_ascii_of_string "wc.wr_id  : " ++ fmt_d (cw_id wc) ++ list_ascii_of_string " " ++ [newline]));;
  b ← nonnull b;
  t ← load (b + type_offset); n ← load (b + size_offset);
  tell (C_print (list_ascii_of_string " buf->type, buf->size_gb : " ++ fmt_d t ++ list_ascii_of_string " GB " ++ fmt_d n ++ list_ascii_of_string " " ++ [newline]));;
  exit 0.

Definition sample_main (argv : list (list ascii)) : CW unit :=
  b ← wlift (sample_setup argv);
  get_cq_event;;
  wlift (sample_complete b).

End Ops.

(** ** Theorems *)

Definition announcement (m : message) : list ascii :=
  list_ascii_of_string " buf->type, buf->size_gb : " ++ fmt_d (msg_type m) ++ list_ascii_of_string " GB " ++ fmt_d (msg_size_gb m) ++ list_ascii_of_string " " ++ [newline].

Lemma fmt_d_u32 x : fmt_d (u32 x) = fmt_d x.
Proof. unfold fmt_d. replace (i32 (u32 x)) with (i32 x); [done|]. unfold i32, u32. by rewrite Zplus_mod_idemp_l. Qed.

Lemma fmt_d_i32 x : fmt_d (i32 x) = fmt_d x.
Proof. rewrite <- (fmt_d_u32 (i32 x)), u32_i32. apply fmt_d_u32. Qed.

Section Sample.
Context {E : cmverbs} {b : Z} (HG : cm_good E b).

Definition sample_recv : recv_wr := mkRecv 66 (mkSge b sizeof_message cv_lkey).

Lemma sample_main_waits argv pd mem :
  cv_private = Some pd →
  waits (wlift (sample_complete (Some b)))
    (mkCm (mem_zero mem b sizeof_message) [mkRegion b sizeof_message ACCESS_LOCAL_WRITE (u32 cv_rkey)] [] [sample_recv] [] [] true 0)
    (sample_main argv (mkPstate (cm_start mem) [])).
Proof.
  intros Hp. unfold sample_main.
  assert (runs (sample_setup argv) (mkPstate (cm_start mem) []) (λ r w, r = Some b ∧ p_data w =
    mkCm (mem_zero mem b sizeof_message) [mkRegion b sizeof_message ACCESS_LOCAL_WRITE (u32 cv_rkey)] [] [sample_recv] [] [] true 0))
    as (r & [d cs] & Hr & -> & Hd).
  { unfold sample_setup, connect. rewrite Hp. cgo HG. by split. }
  rewrite (wlift_step _ _ _ _ _ Hr). cbn in Hd. subst d. by apply (get_cq_event_waits HG).
Qed.

Lemma message_load m mem o : 0 <= o < sizeof_message → mem_copy (message_word m) 0 mem b sizeof_message (b + o) = message_word m o.
Proof using Type.
  intros Ho. unfold mem_copy. destruct (Z.leb_spec b (b + o)); [|lia].
  destruct (Z.ltb_spec (b + o) (b + sizeof_message)); [|lia]. cbn [andb]. f_equal. lia.
Qed.

Lemma deliver_fits m d : cm_rq d = [sample_recv] →
  deliver m d = Some (arrive (mkCwc 66 WC_SUCCESS)
    (d <| cm_rq := [] |> <| cm_mem ::= λ mem, mem_copy (message_word m) 0 mem b sizeof_message |>)).
Proof using Type. intros Hd. unfold deliver. rewrite Hd. cbn [sample_recv rw_sge rw_id sg_length sg_addr]. by rewrite Z.leb_refl. Qed.

(** A message arrives at the waiting sample. *)
Lemma sample_receives m d cs mem :
  cm_cq d = [mkCwc 66 WC_SUCCESS] → cm_mem d = mem_copy (message_word m) 0 mem b sizeof_message →
  ∃ w, wlift (sample_complete (Some b)) (mkPstate d cs) = (WExited 0 w : process) ∧
    last (p_calls w) = Some (C_print (announcement m)).
Proof using HG.
  intros Hq Hm. destruct d as [m' rs sq rq dn cq ar ev]. cbn in Hq, Hm. subst cq m'.
  unfold sample_complete, notify, poll_cq.
  unfold mbind, wprog_bind, prog_bind, wlift, ask. cbn -[fmt_d mem_copy list_ascii_of_string]. rewrite !(cg_int _ _ HG). cbn -[fmt_d mem_copy list_ascii_of_string].
  rewrite !(cg_int _ _ HG). cbn -[fmt_d mem_copy list_ascii_of_string].
  eexists. split; [reflexivity|]. cbn -[fmt_d mem_copy list_ascii_of_string]. rewrite last_snoc.
  rewrite !message_load by (vm_compute; split; congruence).
  unfold message_word. change (type_offset <? 8 * MAX_CHUNKS) with false. change (size_offset <? 8 * MAX_CHUNKS) with false.
  change (type_offset <? size_offset) with false. change (size_offset <? size_offset) with false.
  change (type_offset =? size_offset) with false. change (size_offset =? size_offset) with true. cbv iota.
  by rewrite !fmt_d_u32.
Qed.
End Sample.

(** The daemon and its sample: when the server's connection is established it
    announces its free size, and the sample that receives this message prints
    type 4 and that size, and exits with success. *)
Theorem sample_prints_free_size `{V : verbs} {E : cmverbs} {b : Z} (HG : cm_good E b) p c s argv pd mem :
  send_ok → conn_heap s !! p = Some (Some c) → @cv_private E = Some pd →
  ∃ m s1 d0 d w, rdma_connected p s = SRet 0 s1 ∧ last (s_trace s1) = Some (V_ibv_post_send p m) ∧
    data_of (@sample_main E argv (mkPstate (cm_start mem) [])) = Some d0 ∧ deliver m d0 = Some d ∧
    wake (set_data d (@sample_main E argv (mkPstate (cm_start mem) []))) = Some (WExited 0 w) ∧
    last (p_calls w) = Some (C_print (list_ascii_of_string " buf->type, buf->size_gb : 4 GB " ++
      fmt_d (size_gb (rdma_remote s) - mapped_size (rdma_remote s)) ++ list_ascii_of_string " " ++ [newline])).
Proof.
  intros Hsend Hc Hp.
  destruct (send_free_run p (c <| connected := 1 |>) (s <| conn_heap ::= <[p := Some (c <| connected := 1 |>)]> |>))
    as (m & s1 & Hrun & Hlast & Ht & Hn & _); [done|by eapply conn_heap_lookup|done|].
  pose proof (sample_main_waits HG argv pd mem Hp) as Hw.
  match type of Hw with waits _ ?x _ => set (d0 := x) in * end.
  pose proof (deliver_fits (E := E) (b := b) m d0 eq_refl) as Hd. set (d := arrive _ _) in Hd.
  pose proof (waits_wake _ _ _ (waits_set _ _ d _ Hw)) as Hwk.
  assert (has_event d = true ∧ cm_cq (take_event d) = [mkCwc 66 WC_SUCCESS] ∧
    cm_mem (take_event d) = mem_copy (message_word m) 0 (mem_zero mem b sizeof_message) b sizeof_message) as (He & Hq & Hm)
    by done.
  rewrite He in Hwk. destruct Hwk as [cs Hwk]. destruct (sample_receives HG m (take_event d) cs _ Hq Hm) as (w & Hex & Hpr).
  exists m, s1, d0, d, w. split.
  { unfold rdma_connected, on_connect. rewrite (S_bind_step _ _ _ _ _ (upd_conn_run p c _ s Hc)).
    by rewrite (S_bind_step _ _ _ _ _ Hrun). }
  split; [done|]. split; [exact (waits_data _ _ _ Hw)|]. split; [done|]. rewrite Hwk, Hex. split; [done|].
  rewrite Hpr. unfold announcement. by rewrite Ht, Hn, fmt_d_i32.
Qed.

Lemma sample_prints_free_size_witness :
  ∃ w, last (p_calls w : list ccall) = Some (C_print (list_ascii_of_string " buf->type, buf->size_gb : 4 GB 12 " ++ [newline])) ∧
    ∃ d, wake (set_data d (@sample_main (cm_ok 4096 9 (Some (mkPdata 0 0))) [] (mkPstate (cm_start (λ _, 0)) []))) =
         Some (WExited 0 w : process).
Proof.
  destruct (@sample_prints_free_size _ _ 4096 (cm_ok_good 4096 9 (Some (mkPdata 0 0))) 0 demo_conn demo_connected [] _ (λ _, 0)
    verbs_ok_send demo_connected_conn eq_refl) as (m & s1 & d0 & d & w & _ & _ & _ & _ & Hw & Hp).
  exists w. split; [rewrite Hp; vm_compute; reflexivity|]. exists d. exact Hw.
Defined.
