(* ===== verification/VmArea.v ===== *)
(** * Programs on anonymous memory

    The tests of [src/block_device/swap] and [src/Kernel-dev] reserve a range
    of virtual memory, commit it, and read and write it as an array of 64-bit
    words.  This file holds what they share: the address space of a process
    ([vm]: protection and content of every byte), [mmap], [madvise] and system
    calls over it, [reserve_anon_memory] and [commit_anon_memory] (each test
    has its own copy of these two), and the loops over an array.

    The kernel is an environment: it decides the result of every call and what
    a system call writes into the memory of the process.  [mmap] maps zero
    pages where its result says, in place of what was there; an access to a
    byte that is not mapped with the protection it needs ends the program
    ([BadPtr]), as does one through [NULL] ([NullDeref]).

    The theorems give the two rules the tests need: a loop that fills an array
    leaves exactly that content, and a loop that adds it up returns the sum
    modulo 2^64. *)

From Stdlib Require Import String.
From S2P Require Import Prelude BitOps OctTypes Kernel Prog.

(** ** The address space *)

Record vm := mkVm {
  v_prot : Z → option Z;   (* protection of the page of a byte; [None]: not mapped *)
  v_byte : Z → Z
}.
#[export] Instance vm_eta : Eta vm := λ s, mkVm (v_prot s) (v_byte s).

Definition vm_empty : vm := mkVm (λ _, None) (λ _, 0).

Definition PROT_NONE : Z := 0.
Definition PROT_READ : Z := 1.
Definition PROT_WRITE : Z := 2.
Definition PROT_EXEC : Z := 4.
Definition MAP_PRIVATE : Z := 0x2.
Definition MAP_FIXED : Z := 0x10.
Definition MAP_ANONYMOUS : Z := 0x20.
Definition MAP_NORESERVE : Z := 0x4000.
Definition MAP_HUGETLB : Z := 0x40000.
Definition MAP_FAILED : Z := 2 ^ 64 - 1.
Definition MADV_FREE : Z := 8.
Definition PAGE_SIZE : Z := 4096.

Definition in_range (b a n : Z) : bool := (a <=? b) && (b <? a + n).
Definition page_up (n : Z) : Z := (n + PAGE_SIZE - 1) / PAGE_SIZE * PAGE_SIZE.

(** The pages of [len] bytes from [a], mapped anew: zero, with protection [prot]. *)
Definition map_range (a len prot : Z) (s : vm) : vm :=
  mkVm (λ b, if in_range b a (page_up len) then Some prot else v_prot s b)
       (λ b, if in_range b a (page_up len) then 0 else v_byte s b).
Definition unmap_range (a len : Z) (s : vm) : vm :=
  s <| v_prot := λ b, if in_range b a (page_up len) then None else v_prot s b |>.

(** The 64-bit word at an address. *)
Definition word (s : vm) (a : Z) : Z := of_le_bytes (map (λ k, v_byte s (a + k)) (seqZ 0 8)).
Definition put_word (a v : Z) (s : vm) : vm :=
  s <| v_byte := λ b, if in_range b a 8 then Z.shiftr v (8 * (b - a)) mod 256 else v_byte s b |>.

Definition allows (need : Z) (prot : option Z) : bool :=
  match prot with Some p => Z.land p need =? need | None => false end.

(** ** Calls *)

Inductive vcall :=
| V_mmap (addr len prot flags : Z)
| V_mremap (old : option Z) (old_len new_len flags : Z) (new : option Z)
| V_madvise (addr : option Z) (len advice : Z)
| V_syscall (nr : Z) (args : list Z)
| V_sleep (seconds : Z)
| V_rand | V_srand
| V_pthread_create (i : Z)
| V_print (format : string) (args : list Z).

(** The kernel: the result of a call; the bytes a system call writes; whether a
    failed [mmap] has removed the old mapping; the pages dropped before the
    [i]-th read that follows [MADV_FREE]. *)
Class vmenv := {
  ve_ret : list vcall → vcall → Z;
  ve_fill : list vcall → vcall → Z → option Z;
  ve_lost : list vcall → vcall → bool;
  ve_drop : Z → list Z
}.

Abbreviation VP := (prog vm vcall).

Section Ops.
Context {E : vmenv}.

Definition printf (format : string) (args : list Z) : VP unit := tell (V_print format args).

Definition mmap (addr len prot flags : Z) : VP Z :=
  r ← ask (λ cs c, (ve_ret cs c, ve_lost cs c)) (V_mmap addr len prot flags);
  (if r.1 =? MAP_FAILED then update (λ s, if r.2 : bool then unmap_range addr len s else s)
   else update (map_range r.1 len prot));;
  mret r.1.

(** A call during which the kernel may write into the memory. *)
Definition kernel_call (c : vcall) : VP Z :=
  r ← ask (λ cs c, (ve_ret cs c, ve_fill cs c)) c;
  update (λ s, s <| v_byte := λ b, match r.2 b with Some v => v mod 256 | None => v_byte s b end |>);;
  mret r.1.
Definition addr_of (p : option Z) : Z := default 0 p.
Definition syscall (nr : Z) (args : list Z) : VP Z := kernel_call (V_syscall nr args).
Definition madvise (p : option Z) (len advice : Z) : VP Z := kernel_call (V_madvise p len advice).

(** An access to 8 bytes. *)
Definition access (need a : Z) : VP unit :=
  s ← data id;
  if forallb (λ k, allows need (v_prot s (a + k))) (seqZ 0 8) then mret tt else crash BadPtr.

(** [p[i]] of an [unsigned long *p]. *)
Definition load (p : option Z) (i : Z) : VP Z :=
  b ← nonnull p; let a := u64 (b + 8 * i) in
  access PROT_READ a;; data (λ s, word s a).
Definition store (p : option Z) (i v : Z) : VP unit :=
  b ← nonnull p; let a := u64 (b + 8 * i) in
  access PROT_WRITE a;; update (put_word a (u64 v)).

(** ** The two functions every test has *)

(** [reserve_anon_memory]; [extra] are flags that only [hugeTable.c] adds. *)
Definition reserve_anon (extra requested_addr bytes : Z) (fixed : bool) : VP (option Z) :=
  let flags := Z.lor (Z.lor (Z.lor MAP_PRIVATE MAP_NORESERVE) MAP_ANONYMOUS) extra in
  flags ← (if fixed then
             printf "Request fixed addr 0x%lx " [requested_addr];; mret (Z.lor flags MAP_FIXED)
           else mret flags);
  addr ← mmap requested_addr bytes PROT_NONE flags;
  mret (if addr =? MAP_FAILED then None else Some addr).
Definition reserve_anon_memory : Z → Z → bool → VP (option Z) := reserve_anon 0.

Definition commit_anon (extra start_addr size : Z) (exec : bool) : VP (option Z) :=
  let prot := if exec then Z.lor (Z.lor PROT_READ PROT_WRITE) PROT_EXEC else Z.lor PROT_READ PROT_WRITE in
  res ← mmap start_addr size prot (Z.lor (Z.lor (Z.lor MAP_PRIVATE MAP_FIXED) MAP_ANONYMOUS) extra);
  mret (if res =? MAP_FAILED then None else Some start_addr).
Definition commit_anon_memory : Z → Z → bool → VP (option Z) := commit_anon 0.

(** Steps 1) and 2) of the [main]s, with their messages. *)
Definition print_reserve (p : option Z) (request_addr size : Z) : VP unit :=
  match p with
  | None => printf "Reserve user_buffer, 0x%lx failed. " [request_addr]
  | Some a => printf "Reserve user_buffer: 0x%lx, bytes_len: 0x%lx " [a; size]
  end.
Definition print_commit (p : option Z) (request_addr size : Z) : VP unit :=
  match p with
  | None => printf "Commit user_buffer, 0x%lx failed. " [request_addr]
  | Some a => printf "Commit user_buffer: 0x%lx, bytes_len: 0x%lx " [a; size]
  end.
Definition map_with (extra request_addr size : Z) : VP (option Z) :=
  user_buff ← reserve_anon extra request_addr size true; print_reserve user_buff request_addr size;;
  user_buff ← commit_anon extra request_addr size false; print_commit user_buff request_addr size;;
  mret user_buff.
Definition map_buffer : Z → Z → VP (option Z) := map_with 0.

(** ** Loops *)

(** [for (i = i0; i < n; i += step) x = body(i, x)] with an [unsigned long i];
    [fuel] rounds. *)
Fixpoint for_lt {A} (fuel : nat) (i n step : Z) (body : Z → A → VP A) (x : A) : VP A :=
  match fuel with
  | O => crash Spin
  | S fuel => if i <? n then x ← body i x; for_lt fuel (u64 (i + step)) n step body x else mret x
  end.

(** [for (i = i0; i < n; i++) buf_ptr[i] = f(i)] *)
Definition fill_loop (fuel : nat) (buf_ptr : option Z) (i0 n : Z) (f : Z → Z) : VP unit :=
  for_lt fuel i0 n 1 (λ i _, store buf_ptr i (f i)) tt.

(** [for (i = i0; i < n; i += step) sum += buf_ptr[i]] *)
Definition sum_loop (fuel : nat) (buf_ptr : option Z) (i0 n step sum : Z) : VP Z :=
  for_lt fuel i0 n step (λ i sum, x ← load buf_ptr i; mret (u64 (sum + x))) sum.

(** The same, with a message about each word. *)
Definition sum_print_loop (fuel : nat) (buf_ptr : option Z) (n step sum : Z) : VP Z :=
  for_lt fuel 0 n step (λ i sum,
    x ← load buf_ptr i; printf "buf_ptr[0x%lx] 0x%lx " [i; x];;
    x ← load buf_ptr i; mret (u64 (sum + x))) sum.

End Ops.

(** ** Words of the memory *)

Lemma in_range_true b a n : in_range b a n = true ↔ a <= b < a + n.
Proof. unfold in_range. rewrite andb_true_iff, Z.leb_le, Z.ltb_lt. lia. Qed.

Lemma in_range_false b a n : in_range b a n = false ↔ ¬ a <= b < a + n.
Proof. rewrite <- in_range_true. by destruct (in_range b a n). Qed.

Lemma seqZ8 : seqZ 0 8 = [0; 1; 2; 3; 4; 5; 6; 7].
Proof. reflexivity. Qed.

(** Two states with the same 8 bytes have the same word. *)
Lemma word_ext s t a b : (∀ k, 0 <= k < 8 → v_byte s (a + k) = v_byte t (b + k)) → word s a = word t b.
Proof. intros H. unfold word. rewrite seqZ8. cbn [map]. by rewrite !H by lia. Qed.

Lemma shiftr_bytes v : map (λ k, Z.shiftr v (8 * k) mod 256) (seqZ 0 8) = le_bytes 8 v.
Proof.
  rewrite seqZ8. cbn [map le_bytes]. rewrite !Z.shiftr_div_pow2 by lia.
  rewrite !Z.div_div by lia. by rewrite Z.div_1_r.
Qed.

Lemma word_put_same s a v : word (put_word a v s) a = u64 v.
Proof.
  unfold word, put_word, u64. cbn.
  erewrite (map_ext_in _ (λ k, Z.shiftr v (8 * k) mod 256)), shiftr_bytes, of_le_bytes_of; [done|].
  intros k Hk%list_elem_of_In%elem_of_seqZ.
  rewrite (proj2 (in_range_true (a + k) a 8)) by lia. by replace (a + k - a) with k by lia.
Qed.

Lemma word_put_other s a v b : b + 8 <= a ∨ a + 8 <= b → word (put_word a v s) b = word s b.
Proof.
  intros H. apply word_ext. intros k Hk. unfold put_word. cbn.
  by rewrite (proj2 (in_range_false (b + k) a 8)) by lia.
Qed.

Lemma word_zero s a : (∀ k, 0 <= k < 8 → v_byte s (a + k) = 0) → word s a = 0.
Proof. intros H. unfold word. rewrite seqZ8. cbn [map]. by rewrite !H by lia. Qed.

Lemma word_map_range s a len prot b :
  a <= b → b + 8 <= a + page_up len → word (map_range a len prot s) b = 0.
Proof.
  intros H1 H2. apply word_zero. intros k Hk. cbn. by rewrite (proj2 (in_range_true _ _ _)) by lia.
Qed.

Lemma page_up_ge n : n <= page_up n.
Proof. unfold page_up, PAGE_SIZE. dlia. Qed.

(** *** Buffers *)

Definition rw (prot : option Z) : bool := allows PROT_READ prot && allows PROT_WRITE prot.

(** A committed buffer of [n] words inside the address space. *)
Definition buffer (s : vm) (a n : Z) : Prop :=
  0 <= a ∧ a + 8 * n <= 2 ^ 64 ∧ ∀ b, a <= b < a + 8 * n → rw (v_prot s b) = true.

(** Its content. *)
Definition holds (s : vm) (a : Z) (f : Z → Z) (i n : Z) : Prop := ∀ j, i <= j < n → word s (a + 8 * j) = u64 (f j).

(** Only bytes of [a, a + n) differ, and no protection. *)
Definition only (a n : Z) (s t : vm) : Prop :=
  v_prot t = v_prot s ∧ ∀ b, ¬ a <= b < a + n → v_byte t b = v_byte s b.

(** Nothing outside [a, a + n) differs. *)
Definition apart (a n : Z) (s t : vm) : Prop :=
  ∀ b, ¬ a <= b < a + n → v_prot t b = v_prot s b ∧ v_byte t b = v_byte s b.

Lemma only_apart a n s t : only a n s t → apart a n s t.
Proof. intros [H1 H2] b Hb. by rewrite H1, H2. Qed.

Lemma only_refl a n s : only a n s s.
Proof. done. Qed.

Lemma only_trans a n s t u : only a n s t → only a n t u → only a n s u.
Proof. intros [H1 H2] [H3 H4]. split; [by rewrite H3|]. intros b Hb. by rewrite H4, H2. Qed.

Lemma only_word a n s t b : only a n s t → b + 8 <= a ∨ a + n <= b → word t b = word s b.
Proof. intros [_ H] Hb. apply word_ext. intros k Hk. apply H. lia. Qed.

Lemma only_put a n p v s : a <= p → p + 8 <= a + n → only a n s (put_word p v s).
Proof.
  intros H1 H2. split; [done|]. intros b Hb. cbn. by rewrite (proj2 (in_range_false b p 8)) by lia.
Qed.

Lemma buffer_prot s t a n : v_prot t = v_prot s → buffer s a n → buffer t a n.
Proof. intros H. unfold buffer. by rewrite H. Qed.

Lemma buffer_part s a n i m : 0 <= i → 0 <= m → i + m <= n → buffer s a n → buffer s (a + 8 * i) m.
Proof. intros Hi Hm Hn (H1 & H2 & H3). split; [lia|split; [lia|]]. intros b Hb. apply H3. lia. Qed.

Lemma rw_both p : rw p = true → allows PROT_READ p = true ∧ allows PROT_WRITE p = true.
Proof. apply andb_true_iff. Qed.

Lemma buffer_map s a n prot :
  0 <= a → a + 8 * n <= 2 ^ 64 → rw (Some prot) = true → buffer (map_range a (8 * n) prot s) a n.
Proof.
  intros H1 H2 H3. split; [done|split; [done|]]. intros b Hb. cbn.
  pose proof (page_up_ge (8 * n)). by rewrite (proj2 (in_range_true _ _ _)) by lia.
Qed.

Lemma holds_map s a n prot : holds (map_range a (8 * n) prot s) a (λ _, 0) 0 n.
Proof. intros j Hj. pose proof (page_up_ge (8 * n)). rewrite word_map_range by lia. done. Qed.

(** ** Accesses and loops *)

Section Rules.
Context {E : vmenv}.
Implicit Types w : pstate vm vcall.

Lemma access_ok need a w :
  (∀ k, 0 <= k < 8 → allows need (v_prot (p_data w) (a + k)) = true) → access need a w = Done tt w.
Proof.
  intros H. unfold access. rewrite (prog_bind_step _ _ _ _ _ (eq_refl : data id w = Done (p_data w) w)).
  rewrite (proj2 (forallb_forall _ _)); [done|]. intros k Hk%list_elem_of_In%elem_of_seqZ. apply H. lia.
Qed.

Lemma load_ok a n i w : buffer (p_data w) a n → 0 <= i < n → load (Some a) i w = Done (word (p_data w) (a + 8 * i)) w.
Proof.
  intros (H1 & H2 & H3) Hi. unfold load.
  rewrite (prog_bind_step _ _ _ _ _ (eq_refl : nonnull (Some a) w = Done a w)). cbv zeta. rewrite u64_id by lia.
  erewrite (prog_bind_step (access _ _)); [done|]. apply access_ok. intros k Hk. apply rw_both, H3. lia.
Qed.

Lemma store_ok a n i v w :
  buffer (p_data w) a n → 0 <= i < n →
  store (Some a) i v w = Done tt (mkPstate (put_word (a + 8 * i) (u64 v) (p_data w)) (p_calls w)).
Proof.
  intros (H1 & H2 & H3) Hi. unfold store.
  rewrite (prog_bind_step _ _ _ _ _ (eq_refl : nonnull (Some a) w = Done a w)). cbv zeta. rewrite u64_id by lia.
  erewrite (prog_bind_step (access _ _)); [done|]. apply access_ok. intros k Hk. apply rw_both, H3. lia.
Qed.

(** *** The rule for loops: [k] counts the rounds, [i = i0 + step * k] *)

Definition rounds (i0 n step : Z) : Z := (n - i0 + step - 1) / step.

Lemma rounds_lt i0 n step k : 0 < step → (k < rounds i0 n step ↔ i0 + step * k < n).
Proof.
  intros H. unfold rounds. split; intros Hk.
  - pose proof (Z.mul_div_le (n - i0 + step - 1) step H). nia.
  - enough (k + 1 <= (n - i0 + step - 1) / step) by lia. apply Z.div_le_lower_bound; lia.
Qed.

Lemma rounds_one i0 n : rounds i0 n 1 = n - i0.
Proof. unfold rounds. rewrite Z.div_1_r. lia. Qed.

Lemma rounds_nonneg i0 n step : 0 < step → i0 <= n → 0 <= rounds i0 n step.
Proof. intros H1 H2. apply Z.div_pos; lia. Qed.

Lemma for_lt_runs {A} (I : Z → A → pstate vm vcall → Prop) i0 n step (body : Z → A → VP A) fuel x w :
  0 <= i0 <= n → 0 < step → n + step <= 2 ^ 64 →
  (∀ k x w, 0 <= k → i0 + step * k < n → I k x w → runs (body (i0 + step * k) x) w (I (k + 1))) →
  I 0 x w → (Z.to_nat (rounds i0 n step) < fuel)%nat →
  runs (for_lt fuel i0 n step body x) w (I (rounds i0 n step)).
Proof.
  intros Hi Hs Hn Hbody H0 Hf.
  enough (∀ fuel k x w, 0 <= k <= rounds i0 n step → I k x w →
            (Z.to_nat (rounds i0 n step - k) < fuel)%nat →
            runs (for_lt fuel (i0 + step * k) n step body x) w (I (rounds i0 n step))) as Hgen.
  { specialize (Hgen fuel 0 x w). rewrite Z.mul_0_r, Z.add_0_r, Z.sub_0_r in Hgen.
    apply Hgen; [split; [done|by apply rounds_nonneg; lia]|done|done]. }
  clear -Hs Hn Hbody Hi. induction fuel as [|fuel IH]; intros k x w Hk HI Hf; [lia|]. cbn [for_lt].
  pose proof (rounds_lt i0 n step k Hs) as Hlt. destruct (Z.ltb_spec (i0 + step * k) n) as [H|H].
  - apply runs_bind. eapply runs_mono; [|apply Hbody; [lia|done|done]]. intros x' w' HI'. cbn beta.
    rewrite u64_id by nia. replace (i0 + step * k + step) with (i0 + step * (k + 1)) by lia. apply IH; [lia|done|lia].
  - replace (rounds i0 n step) with k by lia. by exists x, w.
Qed.

(** *** Filling and adding up *)

Lemma fill_loop_runs a n i0 i1 f fuel w :
  buffer (p_data w) a n → 0 <= i0 <= i1 → i1 <= n → (Z.to_nat (i1 - i0) < fuel)%nat →
  runs (fill_loop fuel (Some a) i0 i1 f) w (λ _ w',
    only (a + 8 * i0) (8 * (i1 - i0)) (p_data w) (p_data w') ∧ holds (p_data w') a f i0 i1 ∧ p_calls w' = p_calls w).
Proof.
  intros Hb Hi Hn Hf. pose proof Hb as (H1 & H2 & _). unfold fill_loop.
  eapply runs_mono; [|apply (for_lt_runs (λ k _ w',
    only (a + 8 * i0) (8 * (i1 - i0)) (p_data w) (p_data w') ∧ holds (p_data w') a f i0 (i0 + k) ∧ p_calls w' = p_calls w))];
    [|lia..| | |by rewrite rounds_one].
  - intros u w'. rewrite rounds_one. by replace (i0 + (i1 - i0)) with i1 by lia.
  - intros k [] w' Hk Hlt (Ho & Hh & Hc). replace (i0 + 1 * k) with (i0 + k) in * by lia.
    eexists tt, _. split; [eapply (store_ok a n); [by eapply buffer_prot; [apply Ho|]|lia]|]. cbn.
    split; [|split; [|done]].
    + eapply only_trans; [apply Ho|]. apply only_put; lia.
    + intros j Hj. destruct (decide (j = i0 + k)) as [->|]; [|rewrite word_put_other by lia; apply Hh; lia].
      rewrite word_put_same. unfold u64. by rewrite Zmod_mod.
  - split; [apply only_refl|split; [|done]]. intros j Hj. lia.
Qed.

Lemma u64_add_l x y : u64 (u64 x + y) = u64 (x + y).
Proof. unfold u64. by rewrite Zplus_mod_idemp_l. Qed.

Lemma u64_add_r x y : u64 (x + u64 y) = u64 (x + y).
Proof. unfold u64. by rewrite Zplus_mod_idemp_r. Qed.

Fixpoint zsum (m : nat) (g : Z → Z) : Z := match m with O => 0 | S m => zsum m g + g (Z.of_nat m) end.

Lemma zsum_ext m g h : (∀ k, 0 <= k < Z.of_nat m → g k = h k) → zsum m g = zsum m h.
Proof.
  induction m as [|m IH]; intros H; [done|]. cbn [zsum]. rewrite IH; [|intros k Hk; apply H; lia].
  by rewrite H by lia.
Qed.

Lemma zsum_u64 x m g : u64 (x + zsum m (λ k, u64 (g k))) = u64 (x + zsum m g).
Proof.
  induction m as [|m IH]; [done|]. cbn [zsum]. rewrite !Z.add_assoc, u64_add_r.
  by rewrite <- (u64_add_l (x + zsum m _)), IH, u64_add_l.
Qed.

(** [2 * (0 + 1 + ... + (m - 1)) = m * (m - 1)] *)
Lemma zsum_linear m a b : 2 * zsum m (λ k, a + b * k) = Z.of_nat m * (2 * a + b * (Z.of_nat m - 1)).
Proof. induction m as [|m IH]; [done|]. cbn [zsum]. rewrite Z.mul_add_distr_l, IH. lia. Qed.

Lemma zsum_le m g h : (∀ k, 0 <= k < Z.of_nat m → g k <= h k) → zsum m g <= zsum m h.
Proof.
  induction m as [|m IH]; intros H; [done|]. cbn [zsum].
  assert (zsum m g <= zsum m h) by (apply IH; intros k Hk; apply H; lia). specialize (H (Z.of_nat m)). lia.
Qed.

Lemma zsum_lt m g h i :
  (∀ k, 0 <= k < Z.of_nat m → g k <= h k) → 0 <= i < Z.of_nat m → g i < h i → zsum m g < zsum m h.
Proof.
  induction m as [|m IH]; intros Hle Hi Hlt; [lia|]. cbn [zsum]. pose proof (Hle (Z.of_nat m) ltac:(lia)).
  assert (∀ k, 0 <= k < Z.of_nat m → g k <= h k) as Hle' by (intros k Hk; apply Hle; lia).
  destruct (decide (i = Z.of_nat m)) as [->|]; [pose proof (zsum_le m g h Hle'); lia|].
  specialize (IH Hle' ltac:(lia) Hlt). lia.
Qed.

Lemma zsum_S m g : zsum (S m) g = zsum m g + g (Z.of_nat m).
Proof. done. Qed.

Lemma zsum_app m p g : zsum (m + p) g = zsum m g + zsum p (λ k, g (Z.of_nat m + k)).
Proof.
  induction p as [|p IH]; [cbn [zsum]; rewrite Nat.add_0_r; lia|]. rewrite Nat.add_succ_r, !zsum_S, IH.
  rewrite Nat2Z.inj_add. lia.
Qed.

Lemma zsum_const m c : zsum m (λ _, c) = Z.of_nat m * c.
Proof. induction m as [|m IH]; [done|]. rewrite zsum_S, IH. lia. Qed.

Lemma zsum_Zsucc m g : 0 <= m → zsum (Z.to_nat (m + 1)) g = zsum (Z.to_nat m) g + g m.
Proof. intros H. replace (Z.to_nat (m + 1)) with (S (Z.to_nat m)) by lia. rewrite zsum_S. by rewrite Z2Nat.id. Qed.

Lemma sum_loop_ok a n i0 i1 step x fuel w :
  buffer (p_data w) a n → 0 <= i0 <= i1 → i1 <= n → 0 < step → n + step <= 2 ^ 64 →
  0 <= x < 2 ^ 64 → (Z.to_nat (rounds i0 i1 step) < fuel)%nat →
  sum_loop fuel (Some a) i0 i1 step x w =
    Done (u64 (x + zsum (Z.to_nat (rounds i0 i1 step)) (λ k, word (p_data w) (a + 8 * (i0 + step * k))))) w.
Proof.
  intros Hb Hi Hn Hs Hstep Hx Hf. unfold sum_loop.
  destruct (for_lt_runs (λ k y w', w' = w ∧
    y = u64 (x + zsum (Z.to_nat k) (λ k, word (p_data w) (a + 8 * (i0 + step * k)))))
    i0 i1 step (λ i sum, y ← load (Some a) i; mret (u64 (sum + y))) fuel x w) as (y & w' & He & -> & ->);
    [lia..| | |done|exact He].
  - intros k y w' Hk Hlt [-> ->].
    rewrite zsum_Zsucc by done. eexists _, _. split; [erewrite prog_bind_step by (apply (load_ok a n); [done|nia]); done|].
    split; [done|]. by rewrite u64_add_l, Z.add_assoc.
  - split; [done|]. cbn. by rewrite Z.add_0_r, u64_id.
Qed.

(** ... of a buffer whose content is known. *)
Lemma sum_loop_holds a n i0 i1 step x f fuel w :
  buffer (p_data w) a n → holds (p_data w) a f i0 i1 → 0 <= i0 <= i1 → i1 <= n → 0 < step → n + step <= 2 ^ 64 →
  0 <= x < 2 ^ 64 → (Z.to_nat (rounds i0 i1 step) < fuel)%nat →
  sum_loop fuel (Some a) i0 i1 step x w =
    Done (u64 (x + zsum (Z.to_nat (rounds i0 i1 step)) (λ k, f (i0 + step * k)))) w.
Proof.
  intros Hb Hh Hi Hn Hs Hstep Hx Hf. rewrite (sum_loop_ok a n) by done.
  rewrite <- (zsum_u64 x _ (λ k, f (i0 + step * k))). do 3 f_equal. apply zsum_ext. intros k Hk. apply Hh.
  split; [nia|]. apply rounds_lt; lia.
Qed.

(** The messages of [sum_print_loop]. *)
Definition word_messages (m step : Z) (f : Z → Z) : list vcall :=
  map (λ k, V_print "buf_ptr[0x%lx] 0x%lx " [step * k; u64 (f (step * k))]) (seqZ 0 m).

Lemma sum_print_loop_holds a n i1 step x f fuel w :
  buffer (p_data w) a n → holds (p_data w) a f 0 i1 → 0 <= i1 <= n → 0 < step → n + step <= 2 ^ 64 →
  0 <= x < 2 ^ 64 → (Z.to_nat (rounds 0 i1 step) < fuel)%nat →
  sum_print_loop fuel (Some a) i1 step x w =
    Done (u64 (x + zsum (Z.to_nat (rounds 0 i1 step)) (λ k, f (step * k))))
         (mkPstate (p_data w) (p_calls w ++ word_messages (rounds 0 i1 step) step f)).
Proof.
  intros Hb Hh Hn Hs Hstep Hx Hf. unfold sum_print_loop.
  destruct (for_lt_runs (λ k y w', w' = mkPstate (p_data w) (p_calls w ++ word_messages k step f) ∧
    y = u64 (x + zsum (Z.to_nat k) (λ k, f (step * k))))
    0 i1 step (λ i sum, y ← load (Some a) i; printf "buf_ptr[0x%lx] 0x%lx " [i; y];;
       y ← load (Some a) i; mret (u64 (sum + y))) fuel x w) as (y & w' & He & -> & ->); [lia..| | |done|exact He].
  - intros k y w' Hk Hlt [-> ->].
    assert (word (p_data w) (a + 8 * (0 + step * k)) = u64 (f (step * k))) as Hw by (apply Hh; nia).
    eexists _, _. split.
    { erewrite prog_bind_step; [|by apply (load_ok a n); [|nia]].
      erewrite prog_bind_step; [|done]. erewrite prog_bind_step; [|by apply (load_ok a n); [|nia]]. done. }
    cbn. rewrite Hw. split.
    + f_equal. rewrite <- app_assoc. f_equal. unfold word_messages.
      rewrite (seqZ_app 0 k 1), map_app by lia. cbn. by rewrite Z.add_0_l.
    + by rewrite zsum_Zsucc, u64_add_l, u64_add_r, Z.add_assoc by done.
  - split; [|by rewrite Z.add_0_r, u64_id]. unfold word_messages. cbn. rewrite app_nil_r. by destruct w.
Qed.

(** *** Reserving and committing *)

(** The call of [commit_anon_memory] gives the address asked for; it fails. *)
Definition commit_call (extra a size : Z) : vcall := V_mmap a size (Z.lor PROT_READ PROT_WRITE) (Z.lor 0x32 extra).
Definition commit_ok (extra a size : Z) : Prop := ∀ cs, ve_ret cs (commit_call extra a size) = a.
Definition commit_no (extra a size : Z) : Prop := ∀ cs, ve_ret cs (commit_call extra a size) = MAP_FAILED.

Lemma mmap_done addr len prot flags w :
  ∃ s, mmap addr len prot flags w =
         Done (ve_ret (p_calls w) (V_mmap addr len prot flags))
              (mkPstate s (p_calls w ++ [V_mmap addr len prot flags])) ∧
       (ve_ret (p_calls w) (V_mmap addr len prot flags) ≠ MAP_FAILED →
        s = map_range (ve_ret (p_calls w) (V_mmap addr len prot flags)) len prot (p_data w)).
Proof.
  unfold mmap, mbind, prog_bind, ask. cbn. destruct (Z.eqb_spec (ve_ret (p_calls w) (V_mmap addr len prot flags)) MAP_FAILED).
  - eexists. split; [done|]. done.
  - eexists. split; done.
Qed.

Lemma reserve_runs extra a size w :
  runs (reserve_anon extra a size true) w (λ _ w', p_calls w' = p_calls w ++
    [V_print "Request fixed addr 0x%lx " [a]; V_mmap a size PROT_NONE (Z.lor (Z.lor 0x4022 extra) MAP_FIXED)]).
Proof.
  unfold reserve_anon. apply runs_bind. eapply runs_done; [reflexivity|].
  destruct (mmap_done a size PROT_NONE (Z.lor (Z.lor 0x4022 extra) MAP_FIXED)
    (mkPstate (p_data w) (p_calls w ++ [V_print "Request fixed addr 0x%lx " [a]]))) as (s & H & _).
  apply runs_bind. eapply runs_done; [exact H|]. eexists _, _. split; [reflexivity|]. cbn [p_calls]. by rewrite <- app_assoc.
Qed.

Definition commit_prot (exec : bool) : Z :=
  if exec then Z.lor (Z.lor PROT_READ PROT_WRITE) PROT_EXEC else Z.lor PROT_READ PROT_WRITE.

Lemma commit_any_runs exec extra a n w :
  0 <= a → 0 < n → a + 8 * n <= 2 ^ 64 →
  ve_ret (p_calls w) (V_mmap a (8 * n) (commit_prot exec) (Z.lor 0x32 extra)) = a →
  runs (commit_anon extra a (8 * n) exec) w (λ p w',
    p = Some a ∧ buffer (p_data w') a n ∧ holds (p_data w') a (λ _, 0) 0 n ∧
    p_calls w' = p_calls w ++ [V_mmap a (8 * n) (commit_prot exec) (Z.lor 0x32 extra)] ∧
    apart a (page_up (8 * n)) (p_data w) (p_data w') ∧ ∀ b, a <= b < a + 8 * n → v_byte (p_data w') b = 0).
Proof.
  intros Ha Hp Hn Hok. destruct (mmap_done a (8 * n) (commit_prot exec) (Z.lor 0x32 extra) w) as (s & H & Hs).
  rewrite Hok in H, Hs. unfold commit_anon. apply runs_bind. eapply runs_done; [exact H|].
  assert (a ≠ MAP_FAILED) as Hne by (unfold MAP_FAILED; lia). rewrite (Hs Hne).
  eapply runs_done; [rewrite (proj2 (Z.eqb_neq _ _) Hne); reflexivity|]. cbn [p_data p_calls].
  split; [done|split; [apply buffer_map; [done|done|by destruct exec]|split; [by apply holds_map|split; [done|split]]]].
  - intros b Hb%in_range_false. cbn. by rewrite Hb.
  - intros b Hb. cbn. pose proof (page_up_ge (8 * n)). by rewrite (proj2 (in_range_true _ _ _)) by lia.
Qed.

Lemma commit_runs extra a n w :
  0 <= a → 0 < n → a + 8 * n <= 2 ^ 64 → commit_ok extra a (8 * n) →
  runs (commit_anon extra a (8 * n) false) w (λ p w',
    p = Some a ∧ buffer (p_data w') a n ∧ holds (p_data w') a (λ _, 0) 0 n ∧
    p_calls w' = p_calls w ++ [commit_call extra a (8 * n)] ∧ apart a (page_up (8 * n)) (p_data w) (p_data w')).
Proof.
  intros Ha Hp Hn Hok. eapply runs_mono; [|by apply (commit_any_runs false)].
  intros p w' (H1 & H2 & H3 & H4 & H5 & _). done.
Qed.

Lemma commit_fails extra a size w :
  commit_no extra a size →
  runs (commit_anon extra a size false) w (λ p w', p = None ∧ p_calls w' = p_calls w ++ [commit_call extra a size]).
Proof.
  intros Hno. destruct (mmap_done a size (Z.lor PROT_READ PROT_WRITE) (Z.lor 0x32 extra) w) as (s & H & _).
  specialize (Hno (p_calls w)). unfold commit_call in Hno. rewrite Hno in H.
  unfold commit_anon. apply runs_bind. eapply runs_done; [exact H|]. by eapply runs_done.
Qed.

Lemma print_runs {A} w format args (k : unit → VP A) Q :
  runs (k tt) (mkPstate (p_data w) (p_calls w ++ [V_print format args])) Q → runs (printf format args ≫= k) w Q.
Proof. intros H. apply runs_bind. by eapply runs_done. Qed.

Lemma runs_exact {S C A B} (m : prog S C A) a (w w' : pstate S C) (k : A → prog S C B) Q : m w = Done a w' → runs (k a) w' Q → runs (m ≫= k) w Q.
Proof. intros H1 H2. apply runs_bind. by eapply runs_done. Qed.

(** The calls of the two steps, [q] being the result of the reservation. *)
Definition map_calls (extra a size : Z) (q p : option Z) : list vcall :=
  [V_print "Request fixed addr 0x%lx " [a]; V_mmap a size PROT_NONE (Z.lor (Z.lor 0x4022 extra) MAP_FIXED);
   match q with None => V_print "Reserve user_buffer, 0x%lx failed. " [a]
   | Some r => V_print "Reserve user_buffer: 0x%lx, bytes_len: 0x%lx " [r; size] end;
   commit_call extra a size;
   match p with None => V_print "Commit user_buffer, 0x%lx failed. " [a]
   | Some r => V_print "Commit user_buffer: 0x%lx, bytes_len: 0x%lx " [r; size] end].

Lemma runs_fault {S C A B} (m : prog S C A) (k : A → prog S C B) (w : pstate S C) (Q : A → pstate S C → Prop) (f : fault) :
  runs m w Q → (∀ x (w' : pstate S C), Q x w' → k x w' = Fault f) → (m ≫= k) w = Fault f.
Proof. intros (x & w' & Hm & HQ) Hk. rewrite (prog_bind_step _ _ _ _ _ Hm). by apply Hk. Qed.

(** What the two steps leave: whatever [reserve] did, the commit decides. *)
Lemma map_with_runs extra a n w :
  0 <= a → 0 < n → a + 8 * n <= 2 ^ 64 → commit_ok extra a (8 * n) →
  runs (map_with extra a (8 * n)) w (λ p w',
    p = Some a ∧ buffer (p_data w') a n ∧ holds (p_data w') a (λ _, 0) 0 n ∧
    ∃ q, p_calls w' = p_calls w ++ map_calls extra a (8 * n) q p).
Proof.
  intros Ha Hp Hn Hok. unfold map_with. apply runs_bind.
  eapply runs_mono; [|apply reserve_runs]. intros q w1 Hc1. cbn beta.
  apply runs_bind. destruct q as [q|]; (eapply runs_done; [reflexivity|]); apply runs_bind;
    (eapply runs_mono; [|by apply commit_runs]); intros p w2 (-> & Hb & Hh & Hc2 & _); apply print_runs; eexists _, _.
  all: cbn [p_calls] in Hc2; rewrite Hc1 in Hc2; (split; [reflexivity|]); split; [done|split; [done|split; [done|]]].
  - exists (Some q). cbn [p_calls]. by rewrite Hc2, <- !app_assoc.
  - exists None. cbn [p_calls]. by rewrite Hc2, <- !app_assoc.
Qed.

Lemma map_with_fails extra a size w :
  commit_no extra a size →
  runs (map_with extra a size) w (λ p w',
    p = None ∧ last (p_calls w') = Some (V_print "Commit user_buffer, 0x%lx failed. " [a])).
Proof.
  intros Hno. unfold map_with. apply runs_bind.
  eapply runs_mono; [|apply reserve_runs]. intros q w1 _. cbn beta.
  apply runs_bind. destruct q; (eapply runs_done; [reflexivity|]); apply runs_bind;
    (eapply runs_mono; [|by apply commit_fails]); intros p w2 (-> & _); apply print_runs; eexists _, _;
    (split; [reflexivity|]); split; [done|apply last_snoc|done|apply last_snoc].
Qed.

(** An access through the pointer that a failed commit returns. *)
Lemma load_null i w : load None i w = Fault NullDeref.
Proof. done. Qed.

Lemma store_null i v w : store None i v w = Fault NullDeref.
Proof. done. Qed.

Lemma fill_null i0 n f fuel w : i0 < n → fill_loop (S fuel) None i0 n f w = Fault NullDeref.
Proof. intros H. unfold fill_loop. cbn [for_lt]. by rewrite (proj2 (Z.ltb_lt _ _) H). Qed.

End Rules.
