(* ===== verification/SwapTests.v ===== *)
(** * The swap tests

    The programs of [src/block_device/swap] that work on a buffer in one
    thread, and the older tests of the same shape in [src/Kernel-dev]: each
    commits a buffer, fills it so that pages are swapped out, may ask the
    kernel to flush pages or to copy the buffer over RDMA, and reads the buffer
    back.  Their system calls (333 to 337) are those of the authors' kernel and
    an environment here; the programs with threads are in [SwapThreads].

    Every [main] takes the number of rounds its loops may make ([fuel]) and,
    where the source fixes them, the address and size of the buffer; [_main]
    is the program with the constants of the source.

    The theorems say what each test prints at the end, for every size and every
    behaviour of the kernel that the test relies on, and that a failed commit
    is reported and then the program dies on [NULL]. *)

From Stdlib Require Import String.
From S2P Require Import Prelude BitOps OctTypes Kernel Prog VmArea.

Definition SYS_do_semeru_rdma_ops : Z := 333.
Definition SYS_SWAP_STAT_RESET : Z := 335.
Definition SYS_NUM_SWAP_OUT_PAGES : Z := 336.
Definition SYS_ON_DEMAND_SWAPIN : Z := 337.
Definition MADV_FLUSH_RANGE_TO_REMOTE : Z := 20.
Definition ONE_MB : Z := 1048576.
Definition ONE_GB : Z := 1073741824.

(** Words of a buffer of [size] bytes: [size / sizeof(unsigned long)]. *)
Definition words (size : Z) : Z := size / 8.

Section Tests.
Context {E : vmenv}.

(** ** Fill and add up: [swap_mmap.c], [swap_mmap_random.c] *)

Definition swap_mmap (fuel : nat) (request_addr size : Z) : VP Z :=
  user_buff ← map_buffer request_addr size;
  printf "Phase #1, trigger swap out. " [];;
  fill_loop fuel user_buff 0 (words size) (λ i, i);;
  printf "Phase #2, trigger swap in." [];;
  sum ← sum_loop fuel user_buff 0 (words size) 1 0;
  printf "sum : 0x%lx " [sum];; mret 0.
Definition swap_mmap_main (fuel : nat) : VP Z := swap_mmap fuel 0x400100000000 0x100000000.

(** [(unsigned long)rand()*i % (size/sizeof(unsigned long))] *)
Definition random_index (r i n : Z) : Z := u64 (r * i) mod n.
Definition random_sum_loop (fuel : nat) (buf_ptr : option Z) (rounds n : Z) : VP Z :=
  for_lt fuel 0 rounds 1 (λ i sum,
    r ← ask ve_ret V_rand; x ← load buf_ptr (random_index r i n); mret (u64 (sum + x))) 0.

Definition swap_mmap_random (fuel : nat) (request_addr size : Z) : VP Z :=
  tell V_srand;;
  user_buff ← map_buffer request_addr size;
  printf "Phase #1, trigger swap out. " [];;
  fill_loop fuel user_buff 0 (words size) (λ i, i);;
  printf "Phase #2, trigger randonw swap in." [];;
  sum ← random_sum_loop fuel user_buff (words size / 32) (words size);
  printf "sum : 0x%lx " [sum];; mret 0.
Definition swap_mmap_random_main (fuel : nat) : VP Z :=
  swap_mmap_random fuel (0x400000000000 - 5 * ONE_GB) (3 * ONE_GB).

(** ** [madvise]: [add_page_to_inactive_list.c], [flush_page_to_swap_imm.c] *)

Definition check_madvise (ret : Z) : VP unit :=
  if ret =? 0 then mret tt else printf "MAD_FREE failed, return value %d " [ret].

(** After [MADV_FREE] the kernel may drop any page of the buffer at any time:
    those of [ve_drop i] before the [i]-th read. *)
Definition drop_pages (a size : Z) (pages : list Z) (s : vm) : vm :=
  s <| v_byte := λ b, if in_range b a size && existsb (Z.eqb (b / PAGE_SIZE)) pages then 0 else v_byte s b |>.
Definition free_sum_loop (fuel : nat) (buf_ptr : option Z) (size : Z) : VP Z :=
  for_lt fuel 0 (words size) 1 (λ i sum,
    update (drop_pages (addr_of buf_ptr) size (ve_drop i));;
    x ← load buf_ptr i; mret (u64 (sum + x))) 0.

Definition add_page_to_inactive_list (fuel : nat) (request_addr size : Z) : VP Z :=
  user_buff ← map_buffer request_addr size;
  printf "Phase#1, no swap out " [];;
  fill_loop fuel user_buff 0 (words size) (λ i, i);;
  printf "Phase#2, invoke madvice to add the whole array into inactive list " [];;
  ret ← madvise user_buff size MADV_FREE; check_madvise (i32 ret);;
  printf "Phase#3, trigger swap in." [];;
  sum ← free_sum_loop fuel user_buff size;
  printf "sum : 0x%lx " [sum];; mret 0.
Definition add_page_to_inactive_list_main (fuel : nat) : VP Z :=
  add_page_to_inactive_list fuel 0x40000000 0x100000.

Definition flush_page_to_swap_imm (fuel : nat) (request_addr size : Z) : VP Z :=
  user_buff ← map_buffer request_addr size;
  printf "Phase#1, no swap out " [];;
  fill_loop fuel user_buff 0 (words size) (λ i, i);;
  printf "Phase#2, invoke madvice to add the whole array into inactive list " [];;
  ret ← madvise user_buff size MADV_FLUSH_RANGE_TO_REMOTE; check_madvise (i32 ret);;
  printf "Phase#3, trigger swap in." [];;
  sum ← sum_print_loop fuel user_buff (words size) 1024 0;
  printf "sum : 0x%lx " [sum];; mret 0.
Definition flush_page_to_swap_imm_main (fuel : nat) : VP Z :=
  flush_page_to_swap_imm fuel 0x400100000000 0x20000000.

(** ** Counters: [on_demand_swapin.c], [swap_out_ratio_flush_based.c],
    [swap_info_count.c], [swap_reset_counter.c], [swap_counter_read.c],
    [on_demand_swapin_monitor.c] *)

Definition swap_stat_reset (request_addr size : Z) : VP unit :=
  printf "Reset the swap out statistics monitoring array" [];;
  ret ← syscall SYS_SWAP_STAT_RESET [request_addr; size];
  printf "SYS_SWAP_STAT_RESET returned %d " [i32 ret].
Definition num_swap_out_pages (request_addr size : Z) : VP Z :=
  r ← syscall SYS_NUM_SWAP_OUT_PAGES [request_addr; size]; mret (u64 r).
(** Into an [int] or an [unsigned long]. *)
Definition on_demand_swapin_int : VP Z := r ← syscall SYS_ON_DEMAND_SWAPIN []; mret (i32 r).
Definition on_demand_swapin_ul : VP Z := r ← syscall SYS_ON_DEMAND_SWAPIN []; mret (u64 r).

Definition on_demand_swapin (fuel : nat) (request_addr size : Z) : VP Z :=
  user_buff ← map_buffer request_addr size;
  printf "Phase#1, no swap out " [];;
  fill_loop fuel user_buff 0 (words size) (λ i, i);;
  swap_stat_reset request_addr size;;
  printf "#1 Check current swapped out pages num" [];;
  pages ← num_swap_out_pages request_addr size; record ← on_demand_swapin_int;
  printf "#1 swapped out pages num 0x%lx , on demand swapin page 0x%x" [pages; u32 record];;
  printf "Phase#2, invoke madvice to add the whole array into inactive list " [];;
  ret ← madvise user_buff size MADV_FLUSH_RANGE_TO_REMOTE;
  printf "#2 Check current swapped out pages num after calling madvise" [];;
  pages ← num_swap_out_pages request_addr size;
  printf "#2 swapped out pages num 0x%lx " [pages];;
  check_madvise (i32 ret);;
  printf "Phase#3, trigger swap in." [];;
  sum ← sum_print_loop fuel user_buff (words size) 1024 0;
  printf "#3 Check current swapped out pages num after re-access these pages" [];;
  pages ← num_swap_out_pages request_addr size; record ← on_demand_swapin_int;
  printf "#3 swapped out pages num 0x%lx , on demand swapin page 0x%x " [pages; u32 record];;
  printf "sum : 0x%lx " [sum];; mret 0.
Definition on_demand_swapin_main (fuel : nat) : VP Z := on_demand_swapin fuel 0x40000000 0x100000.

Definition swap_out_ratio_flush_based (fuel : nat) (request_addr size : Z) : VP Z :=
  user_buff ← map_buffer request_addr size;
  printf "Phase#1, no swap out " [];;
  fill_loop fuel user_buff 0 (words size) (λ i, i);;
  swap_stat_reset request_addr size;;
  printf "#1 Check current swapped out pages num" [];;
  pages ← num_swap_out_pages request_addr size;
  printf "#1 swapped out pages num 0x%lx " [pages];;
  printf "Phase#2, invoke madvice to add the whole array into inactive list " [];;
  ret ← madvise user_buff size MADV_FLUSH_RANGE_TO_REMOTE;
  printf "#2 Check current swapped out pages num after calling madvise" [];;
  pages ← num_swap_out_pages request_addr size;
  printf "#2 swapped out pages num 0x%lx " [pages];;
  check_madvise (i32 ret);;
  printf "Phase#3, trigger swap in." [];;
  sum ← sum_print_loop fuel user_buff (words size) 1024 0;
  printf "#3 Check current swapped out pages num after re-access these pages" [];;
  pages ← num_swap_out_pages request_addr size;
  printf "#3 swapped out pages num 0x%lx " [pages];;
  printf "sum : 0x%lx " [sum];; mret 0.
Definition swap_out_ratio_flush_based_main (fuel : nat) : VP Z :=
  swap_out_ratio_flush_based fuel 0x400100000000 0x20000000.

(** Two passes into one sum, 8 pages and one page apart. *)
Definition swap_info_count (fuel : nat) (request_addr size : Z) : VP Z :=
  user_buff ← map_buffer request_addr size;
  printf "Phase#1, trigger swap-out " [];;
  fill_loop fuel user_buff 0 (words size) (λ i, i);;
  swap_stat_reset request_addr size;;
  printf "#1 Check current swapped out pages num" [];;
  n ← on_demand_swapin_ul; printf "#1 on-demand swap-in pages num 0x%lx " [n];;
  printf "Phase#2, trigger swap-in, stride in 8 pages." [];;
  sum ← sum_print_loop fuel user_buff (words size) 4096 0;
  printf "# Check on-demand swap-in pages after re-access these pages" [];;
  n ← on_demand_swapin_ul; printf "# on-demand swap-in pages num %lu " [n];;
  swap_stat_reset request_addr size;;
  printf "Phase#3, trigger swap-in, streaming (access consecutive pages)." [];;
  sum ← sum_print_loop fuel user_buff (words size) 512 sum;
  printf "# Check on-demand swap-in pages after re-access these pages" [];;
  n ← on_demand_swapin_ul; printf "# on-demand swap-in pages num %lu " [n];;
  printf "sum : 0x%lx " [sum];; mret 0.
Definition swap_info_count_main (fuel : nat) : VP Z := swap_info_count fuel 0x40000000 0x40000000.

Definition swap_counter_read_main : VP Z :=
  printf "#1 Check current swapped out pages num" [];;
  n ← on_demand_swapin_ul; printf "#1 on-demand swap-in pages num 0x%lx " [n];; mret 0.
Definition swap_reset_counter_main : VP Z := swap_stat_reset 0x40000000 0x40000000;; swap_counter_read_main.

(** [while (1)]: [fuel] rounds. *)
Fixpoint on_demand_swapin_monitor_main (fuel : nat) : VP Z :=
  match fuel with
  | O => crash Spin
  | S fuel =>
      record ← on_demand_swapin_int; printf "on demand swapin page 0x%x" [u32 record];;
      ret ← syscall SYS_SWAP_STAT_RESET [0x40000000; 0x100000];
      (if i32 ret =? 0 then mret tt else printf " ERROR	SYS_SWAP_STAT_RESET returned %d " [i32 ret]);;
      tell (V_sleep 1);;
      on_demand_swapin_monitor_main fuel
  end.

(** ** Regions: [swap_out_ratio_info.c] *)

Definition HEAP_REGION_BYTE_LOG : Z := 20.
Definition HEAP_REGION_BYTE_SIZE : Z := Z.shiftl 1 HEAP_REGION_BYTE_LOG.

(** One round for region [i]; the counter is an [int] there. *)
Definition print_region (start : Z) (i : Z) : VP unit :=
  let region := u64 (start + u64 (i * HEAP_REGION_BYTE_SIZE)) in
  r ← syscall SYS_NUM_SWAP_OUT_PAGES [region; HEAP_REGION_BYTE_SIZE];
  printf "HeapRegion[%d] [0x%lx, 0x%lx)  swapped out pages %lu "
    [i; region; u64 (start + u64 ((i + 1) * HEAP_REGION_BYTE_SIZE)); u64 r].

Definition print_cache_ration_of_each_region (fuel : nat) (start size : Z) : VP unit :=
  let num_of_regions := size / HEAP_REGION_BYTE_SIZE in
  if negb (start mod HEAP_REGION_BYTE_SIZE =? 0) then
    printf "start addr 0x%lx is NOT aligned to region size 0x%lx ." [start; HEAP_REGION_BYTE_SIZE]
  else if negb (size mod HEAP_REGION_BYTE_SIZE =? 0) then
    printf "Heap size 0x%lx is NOT aligned to region size 0x%lx ." [size; HEAP_REGION_BYTE_SIZE]
  else for_lt fuel 0 num_of_regions 1 (λ i _, print_region start i) tt.

Definition swap_out_ratio_info (fuel : nat) (request_addr size : Z) : VP Z :=
  swap_stat_reset request_addr size;;
  user_buff ← map_buffer request_addr size;
  printf "Phase#1, no swap out " [];;
  fill_loop fuel user_buff 0 (words size) (λ i, i);;
  printf "#1 Check current swapped out pages num after init" [];;
  pages ← num_swap_out_pages request_addr size;
  printf "1 swapped out pages num 0x%lx " [pages];;
  print_cache_ration_of_each_region fuel request_addr size;;
  printf "Phase#2, trigger swap in." [];;
  sum ← sum_loop fuel user_buff 0 (words size) 1 0;
  printf "#2 Check current swapped out pages num after re-access these pages" [];;
  pages ← num_swap_out_pages request_addr size;
  printf "#2 swapped out pages num 0x%lx " [pages];;
  print_cache_ration_of_each_region fuel request_addr size;;
  printf "sum : 0x%lx " [sum];; mret 0.
Definition swap_out_ratio_info_main (fuel : nat) : VP Z := swap_out_ratio_info fuel 0x400100000000 0x20000000.

End Tests.

(** ** The content of the buffer across calls *)

(** [n] words at [a] with content [f]. *)
Definition keep (a n : Z) (f : Z → Z) (w : pstate vm vcall) : Prop := buffer (p_data w) a n ∧ holds (p_data w) a f 0 n.

Section Kept.
Context {E : vmenv}.
Implicit Types w : pstate vm vcall.

(** What the tests rely on: these calls leave the memory of the process alone. *)
Definition keeps_memory : Prop := ∀ cs c b, ve_fill cs c b = None.

Section Content.
Context (a n : Z) (f : Z → Z).

Definition kept {A} (m : VP A) : Prop := ∀ w, keep a n f w → runs m w (λ _ w', keep a n f w').

Lemma keep_data w w' :
  v_prot (p_data w') = v_prot (p_data w) → (∀ b, v_byte (p_data w') b = v_byte (p_data w) b) →
  keep a n f w → keep a n f w'.
Proof.
  intros Hp Hb [H1 H2]. split; [by eapply buffer_prot|]. intros j Hj. rewrite <- (H2 j Hj).
  by apply word_ext.
Qed.

(** A change elsewhere. *)
Lemma keep_apart b m w w' :
  apart b m (p_data w) (p_data w') → a + 8 * n <= b ∨ b + m <= a → keep a n f w → keep a n f w'.
Proof.
  intros Hp Hd [(H1 & H2 & H3) H4]. split; [split; [done|split; [done|]]|].
  - intros c Hc. rewrite (proj1 (Hp c ltac:(lia))). by apply H3.
  - intros j Hj. rewrite <- (H4 j Hj). apply word_ext. intros k Hk. apply Hp. lia.
Qed.

Lemma kept_ret {A} (x : A) : kept (mret x).
Proof. intros w Hw. by eexists _, _. Qed.

Lemma kept_bind {A B} (m : VP A) (k : A → VP B) : kept m → (∀ x, kept (k x)) → kept (m ≫= k).
Proof. intros Hm Hk w Hw. apply runs_bind. eapply runs_mono; [|by apply Hm]. intros x w' Hw'. by apply Hk. Qed.

Lemma kept_tell c : kept (tell c).
Proof. intros w Hw. eexists _, _. split; [done|]. by eapply keep_data; [| |exact Hw]. Qed.

Lemma kept_printf format args : kept (printf format args).
Proof. apply kept_tell. Qed.

Lemma kept_call_quiet c : (∀ cs b, ve_fill cs c b = None) → kept (kernel_call c).
Proof.
  intros Hm w Hw. eexists _, _. split; [reflexivity|]. eapply keep_data; [| |exact Hw]; [done|].
  intros b. cbn. by rewrite Hm.
Qed.

Lemma kept_call c : keeps_memory → kept (kernel_call c).
Proof. intros Hm. apply kept_call_quiet. intros cs b. apply Hm. Qed.

Lemma kept_runs {A B} (m : VP A) (k : A → VP B) w Q :
  kept m → keep a n f w → (∀ x w', keep a n f w' → runs (k x) w' Q) → runs (m ≫= k) w Q.
Proof. intros Hm Hw Hk. apply runs_bind. eapply runs_mono; [|by apply Hm]. intros x w' Hw'. by apply Hk. Qed.

Lemma kept_load i : 0 <= i < n → kept (load (Some a) i).
Proof. intros Hi w Hw. eexists _, _. split; [|exact Hw]. apply (load_ok a n); [apply Hw|done]. Qed.

Lemma kept_sum_print fuel i1 step x :
  0 <= i1 <= n → 0 < step → n + step <= 2 ^ 64 → 0 <= x < 2 ^ 64 → (Z.to_nat (rounds 0 i1 step) < fuel)%nat →
  ∀ w, keep a n f w →
    runs (sum_print_loop fuel (Some a) i1 step x) w (λ y w',
      keep a n f w' ∧ y = u64 (x + zsum (Z.to_nat (rounds 0 i1 step)) (λ k, f (step * k)))).
Proof.
  intros H1 H2 H3 H4 H5 w [Hb Hh]. eexists _, _. split.
  { apply (sum_print_loop_holds a n i1 step x f); try done. intros j Hj. apply Hh. lia. }
  done.
Qed.

End Content.

Lemma kept_for_lt {A} a n f m0 (body : Z → A → VP A) fuel x :
  0 <= m0 < 2 ^ 64 → (Z.to_nat m0 < fuel)%nat → (∀ i x, kept a n f (body i x)) → kept a n f (for_lt fuel 0 m0 1 body x).
Proof.
  intros Hm Hf Hb w Hw. eapply runs_mono; [|apply (for_lt_runs (λ _ _, keep a n f))]; [by intros; cbn in *|lia..| |done|].
  - intros k y w' _ _ Hw'. by apply Hb.
  - by rewrite rounds_one, Z.sub_0_r.
Qed.

End Kept.

Create HintDb kept.
#[export] Hint Resolve kept_ret kept_tell kept_printf kept_call : kept.
Ltac kept_go :=
  repeat first [ progress eauto with kept nocore | apply kept_bind; [|intros ?]
    | match goal with |- kept _ _ _ (match ?x with _ => _ end) => destruct x end ].

Section Steps.
Context {E : vmenv}.
Implicit Types w : pstate vm vcall.

Lemma kept_reset a n f x y : keeps_memory → kept a n f (swap_stat_reset x y).
Proof. intros H. unfold swap_stat_reset, syscall. kept_go. Qed.

Lemma kept_num a n f x y : keeps_memory → kept a n f (num_swap_out_pages x y).
Proof. intros H. unfold num_swap_out_pages, syscall. kept_go. Qed.

Lemma kept_demand a n f : keeps_memory → kept a n f on_demand_swapin_int ∧ kept a n f on_demand_swapin_ul.
Proof. intros H. unfold on_demand_swapin_int, on_demand_swapin_ul, syscall. split; kept_go. Qed.

Lemma kept_check a n f r : kept a n f (check_madvise r).
Proof. unfold check_madvise. kept_go. Qed.

Lemma kept_madvise a n f p len adv : keeps_memory → kept a n f (madvise p len adv).
Proof. intros H. unfold madvise. kept_go. Qed.

Lemma kept_regions a n f fuel start size :
  keeps_memory → 0 <= size < 2 ^ 64 → (Z.to_nat (size / HEAP_REGION_BYTE_SIZE) < fuel)%nat →
  kept a n f (print_cache_ration_of_each_region fuel start size).
Proof.
  intros H Hs Hf. unfold print_cache_ration_of_each_region.
  destruct (negb _); [kept_go|]. destruct (negb _); [kept_go|]. apply kept_for_lt; [|done|].
  - unfold HEAP_REGION_BYTE_SIZE, HEAP_REGION_BYTE_LOG in *. rewrite shiftl_mul by lia. dlia.
  - intros i []. unfold print_region, syscall. kept_go.
Qed.

End Steps.

#[export] Hint Resolve kept_reset kept_num kept_check kept_madvise kept_regions : kept.
#[export] Hint Extern 0 (kept _ _ _ on_demand_swapin_int) => eapply kept_demand; eassumption : kept.
#[export] Hint Extern 0 (kept _ _ _ on_demand_swapin_ul) => eapply kept_demand; eassumption : kept.

(** [keep_step] passes an operation that leaves the buffer as it is, up to the
    message with the sum. *)
Ltac keep_step :=
  lazymatch goal with
  | |- runs (printf "sum : 0x%lx " _ ≫= _) _ _ => fail "the last message"
  | H : keep ?a ?n ?f ?w |- runs _ ?w _ =>
      apply (kept_runs a n f); [solve [auto with kept nocore]|exact H|clear H; intros ? ? ?; cbv beta]
  end.

(** ** The results *)

Section Results.
Context {E : vmenv}.
Implicit Types w : pstate vm vcall.

Definition tri (n : Z) : Z := n * (n - 1) / 2.

Lemma zsum_tri m step : 0 <= m → zsum (Z.to_nat m) (λ k, step * k) = step * tri m.
Proof.
  intros Hm. pose proof (zsum_linear (Z.to_nat m) 0 1) as H. rewrite Z2Nat.id in H by done.
  assert (zsum (Z.to_nat m) (λ k, step * k) = step * zsum (Z.to_nat m) (λ k, 0 + 1 * k)) as ->.
  { clear. induction (Z.to_nat m) as [|k IH]; cbn [zsum]; [lia|]. rewrite IH. lia. }
  f_equal. unfold tri. rewrite <- (Z.div_mul (zsum _ _) 2) by done. f_equal. lia.
Qed.

(** The program returns 0, its last message being the sum [v]. *)
Definition prints_sum (v : Z) (r : Z) (w : pstate vm vcall) : Prop :=
  r = 0 ∧ last (p_calls w) = Some (V_print "sum : 0x%lx " [v]).

Lemma prints_sum_runs v w : runs (printf "sum : 0x%lx " [v];; mret 0) w (prints_sum v).
Proof. eexists _, _. split; [reflexivity|]. split; [done|]. apply last_snoc. Qed.

Lemma words_mul n : words (8 * n) = n.
Proof. unfold words. rewrite Z.mul_comm. by apply Z.div_mul. Qed.

(** Committing and filling: word [i] is [i]. *)
Lemma map_fill_runs {A} extra a n fuel phase (f : Z → Z) (k : option Z → VP A) w Q :
  0 <= a → 0 < n → a + 8 * n <= 2 ^ 64 → commit_ok extra a (8 * n) → (Z.to_nat n < fuel)%nat →
  (∀ w', keep a n f w' → runs (k (Some a)) w' Q) →
  runs (user_buff ← map_with extra a (8 * n); printf phase [];; fill_loop fuel user_buff 0 n f;; k user_buff) w Q.
Proof.
  intros Ha Hp Hn Hok Hf Hk. apply runs_bind. eapply runs_mono; [|by apply map_with_runs].
  intros p w1 (-> & Hb & _). cbn beta. apply print_runs, runs_bind.
  eapply runs_mono; [|apply (fill_loop_runs a n 0 n f fuel); [exact Hb|lia|lia|by rewrite Z.sub_0_r]].
  intros [] w2 (Ho & Hh & _). apply Hk. split; [|done]. by eapply buffer_prot; [apply Ho|].
Qed.

Lemma map_fill_null {A} extra a n fuel phase f (k : option Z → VP A) w :
  commit_no extra a (8 * n) → 0 < n →
  (user_buff ← map_with extra a (8 * n); printf phase [];; fill_loop (S fuel) user_buff 0 n f;; k user_buff) w = Fault NullDeref.
Proof.
  intros Hno Hn. destruct (map_with_fails extra a (8 * n) w Hno) as (p & w1 & H1 & -> & _).
  rewrite (prog_bind_step _ _ _ _ _ H1). cbv beta. erewrite prog_bind_step by reflexivity. cbv beta.
  apply prog_bind_fault. by apply fill_null.
Qed.

Lemma keep_sum_runs {A} a n fuel i1 step x f (k : Z → VP A) w Q :
  keep a n f w → 0 <= i1 <= n → 0 < step → n + step <= 2 ^ 64 → 0 <= x < 2 ^ 64 → (Z.to_nat (rounds 0 i1 step) < fuel)%nat →
  runs (k (u64 (x + zsum (Z.to_nat (rounds 0 i1 step)) (λ k, f (step * k))))) w Q →
  runs (sum_loop fuel (Some a) 0 i1 step x ≫= k) w Q.
Proof.
  intros [Hb Hh] H1 H2 H3 H4 H5 Hk. eapply runs_exact; [apply (sum_loop_holds a n 0 i1 step x f); try done|exact Hk]; [|lia|lia].
  intros j Hj. apply Hh. lia.
Qed.

End Results.

(** ** Properties *)

(** [swap_mmap.c] prints the sum of the indices of its buffer modulo 2^64
    whenever the commit succeeds: the result of the reservation does not
    matter, because [MAP_FIXED] replaces it, and nothing overflows on the way. *)
Theorem swap_mmap_sum {E : vmenv} fuel a n w :
  0 <= a → 0 < n → a + 8 * n <= 2 ^ 64 → commit_ok 0 a (8 * n) → (Z.to_nat n < fuel)%nat →
  runs (swap_mmap fuel a (8 * n)) w (prints_sum (u64 (tri n))).
Proof.
  intros Ha Hp Hn Hok Hf. unfold swap_mmap. rewrite words_mul. eapply map_fill_runs; try done.
  intros w1 H1. keep_step. eapply keep_sum_runs; [done|lia|lia|lia|lia|by rewrite rounds_one, Z.sub_0_r|].
  rewrite rounds_one, Z.sub_0_r, zsum_tri, Z.mul_1_l by lia. apply prints_sum_runs.
Qed.

(** A kernel that grants every [mmap] where it is asked for and does nothing
    else. *)
Definition good_kernel : vmenv := {|
  ve_ret := λ _ c, match c with V_mmap a _ _ _ => a | _ => 0 end;
  ve_fill := λ _ _ _, None;
  ve_lost := λ _ _, false;
  ve_drop := λ _, []
|}.
(** One that has no memory. *)
Definition full_kernel : vmenv := {|
  ve_ret := λ _ c, match c with V_mmap _ _ _ _ => MAP_FAILED | _ => 0 end;
  ve_fill := λ _ _ _, None;
  ve_lost := λ _ _, true;
  ve_drop := λ _, []
|}.
Definition vm_start : pstate vm vcall := mkPstate vm_empty [].

Lemma good_commit extra a size : @commit_ok good_kernel extra a size.
Proof. done. Qed.
Lemma full_commit extra a size : @commit_no full_kernel extra a size.
Proof. done. Qed.
Lemma good_keeps : @keeps_memory good_kernel.
Proof. done. Qed.

(** The program as it stands, 4 GB: the sum is not the one of its comment,
    0x7FFFFFE000000, which is that of 512 MB. *)
Lemma swap_mmap_sum_witness :
  runs (@swap_mmap_main good_kernel (S (Z.to_nat (2 ^ 29)))) vm_start (prints_sum 0x1fffffff0000000).
Proof.
  apply (@swap_mmap_sum good_kernel (S (Z.to_nat (2 ^ 29))) 0x400100000000 (2 ^ 29) vm_start);
    [lia|lia|lia|exact (good_commit _ _ _)|apply Nat.lt_succ_diag_r].
Defined.

Example swap_mmap_comment : u64 (tri (2 ^ 29)) = 0x1fffffff0000000 ∧ u64 (tri (2 ^ 26)) = 0x7fffffe000000.
Proof. split; reflexivity. Qed.

(** *** A failed commit *)

(** The program says that the commit failed and then writes through [NULL]. *)
Definition dies_on_null {E : vmenv} (prog : VP Z) (a size : Z) (w : pstate vm vcall) : Prop :=
  prog w = Fault NullDeref ∧
  runs (map_buffer a size) w (λ p w', p = None ∧ last (p_calls w') = Some (V_print "Commit user_buffer, 0x%lx failed. " [a])).

(** Every test of a committed buffer goes on after a failed commit: it has
    printed that the commit failed, and its first write is through [NULL]. *)
Theorem tests_ignore_failed_commit {E : vmenv} fuel a n w :
  commit_no 0 a (8 * n) → 0 < n →
  Forall (λ test : nat → Z → Z → VP Z, dies_on_null (test (S fuel) a (8 * n)) a (8 * n) w)
    [swap_mmap; add_page_to_inactive_list; flush_page_to_swap_imm; on_demand_swapin;
     swap_out_ratio_flush_based; swap_info_count].
Proof.
  intros Hno Hn. repeat (apply List.Forall_cons; [split; [|by apply map_with_fails]|]); [..|constructor].
  all: cbv beta delta [swap_mmap add_page_to_inactive_list flush_page_to_swap_imm on_demand_swapin
         swap_out_ratio_flush_based swap_info_count]; rewrite words_mul; by apply map_fill_null.
Qed.

Lemma tests_ignore_failed_commit_witness :
  @dies_on_null full_kernel (@swap_mmap full_kernel 1 0x400100000000 0x100000000) 0x400100000000 0x100000000 vm_start.
Proof.
  exact (Forall_inv (@tests_ignore_failed_commit full_kernel 0 0x400100000000 (2 ^ 29) vm_start
           (full_commit _ _ _) ltac:(lia))).
Defined.

(** *** Strided reads *)

Section Strides.
Context {E : vmenv}.
Implicit Types w : pstate vm vcall.

Lemma rounds_range i1 step : 0 < step → 0 <= i1 → 0 <= rounds 0 i1 step <= i1.
Proof.
  intros H1 H2. split; [apply rounds_nonneg; lia|]. unfold rounds. apply Z.lt_succ_r, Z.div_lt_upper_bound; nia.
Qed.

Lemma keep_sum_print_runs {A} a n fuel i1 step x (k : Z → VP A) w Q :
  keep a n id w → 0 <= i1 <= n → 0 < step → n + step <= 2 ^ 64 → 0 <= x < 2 ^ 64 → (Z.to_nat n < fuel)%nat →
  (∀ w', keep a n id w' → runs (k (u64 (x + step * tri (rounds 0 i1 step)))) w' Q) →
  runs (sum_print_loop fuel (Some a) i1 step x ≫= k) w Q.
Proof.
  intros Hw H1 H2 H3 H4 H5 Hk. pose proof (rounds_range i1 step H2 ltac:(lia)) as Hr. apply runs_bind.
  eapply runs_mono; [|apply (kept_sum_print a n id fuel i1 step x); [..|exact Hw]]; try done; [|lia].
  intros y w' [Hw' ->]. cbn beta. unfold id. rewrite zsum_tri by lia. by apply Hk.
Qed.

End Strides.

(** The tests that flush the buffer with [madvise] and then read one word
    in 8 KB print 1024 * (0 + 1 + ... + (m - 1)), m the number of those words:
    whatever [madvise] and the counters return. *)
Theorem flush_tests_sum {E : vmenv} fuel a n w :
  0 <= a → 0 < n → a + 8 * n <= 2 ^ 64 → commit_ok 0 a (8 * n) → keeps_memory → (Z.to_nat n < fuel)%nat →
  Forall (λ test : nat → Z → Z → VP Z,
      runs (test fuel a (8 * n)) w (prints_sum (u64 (1024 * tri (rounds 0 n 1024)))))
    [flush_page_to_swap_imm; on_demand_swapin; swap_out_ratio_flush_based].
Proof.
  intros Ha Hp Hn Hok Hm Hf.
  assert (n + 1024 <= 2 ^ 64) as Hb by lia.
  repeat (apply List.Forall_cons); [..|constructor].
  all: cbv beta delta [flush_page_to_swap_imm on_demand_swapin swap_out_ratio_flush_based]; rewrite words_mul.
  all: eapply map_fill_runs; try done; intros w1 H1; repeat keep_step.
  all: apply (keep_sum_print_runs a n); try done; try lia; intros w2 H2; repeat keep_step.
  all: rewrite Z.add_0_l; apply prints_sum_runs.
Qed.

(** 1 MB, where the comment of the source is right: 0x7f0000. *)
Lemma flush_tests_sum_witness :
  runs (@on_demand_swapin_main good_kernel (S (Z.to_nat (2 ^ 17)))) vm_start (prints_sum 0x7f0000) ∧
  runs (@flush_page_to_swap_imm_main good_kernel (S (Z.to_nat (2 ^ 26)))) vm_start (prints_sum 0x1fffe000000).
Proof.
  split.
  - exact (Forall_inv (Forall_inv_tail (@flush_tests_sum good_kernel (S (Z.to_nat (2 ^ 17))) 0x40000000 (2 ^ 17) vm_start
      ltac:(lia) ltac:(lia) ltac:(lia) (good_commit _ _ _) good_keeps ltac:(apply Nat.lt_succ_diag_r)))).
  - exact (Forall_inv (@flush_tests_sum good_kernel (S (Z.to_nat (2 ^ 26))) 0x400100000000 (2 ^ 26) vm_start
      ltac:(lia) ltac:(lia) ltac:(lia) (good_commit _ _ _) good_keeps ltac:(apply Nat.lt_succ_diag_r))).
Defined.

(** [swap_info_count.c] adds both passes up: 4096 and 512 times the sums of
    the numbers below the number of reads. *)
Theorem swap_info_count_sum {E : vmenv} fuel a n w :
  0 <= a → 0 < n → a + 8 * n <= 2 ^ 64 → commit_ok 0 a (8 * n) → keeps_memory → (Z.to_nat n < fuel)%nat →
  runs (swap_info_count fuel a (8 * n)) w
    (prints_sum (u64 (4096 * tri (rounds 0 n 4096) + 512 * tri (rounds 0 n 512)))).
Proof.
  intros Ha Hp Hn Hok Hm Hf. unfold swap_info_count. rewrite words_mul.
  eapply map_fill_runs; try done; intros w1 H1; repeat keep_step.
  apply (keep_sum_print_runs a n); try done; try lia; intros w2 H2; repeat keep_step.
  apply (keep_sum_print_runs a n); try done; try lia; [apply u64_range|]. intros w3 H3. repeat keep_step.
  rewrite Z.add_0_l, u64_add_l. apply prints_sum_runs.
Qed.

Lemma swap_info_count_sum_witness :
  runs (@swap_info_count_main good_kernel (S (Z.to_nat (2 ^ 27)))) vm_start
    (prints_sum (4096 * 536854528 + 512 * 34359607296)).
Proof.
  apply (@swap_info_count_sum good_kernel (S (Z.to_nat (2 ^ 27))) 0x40000000 (2 ^ 27) vm_start);
    [lia|lia|lia|exact (good_commit _ _ _)|exact good_keeps|apply Nat.lt_succ_diag_r].
Defined.

(** *** Bounds *)

Section Bounds.
Context {E : vmenv}.
Implicit Types w : pstate vm vcall.

(** A loop that adds [m] words, each at most [B], to a sum that starts at 0. *)
Lemma bounded_sum_runs (I : pstate vm vcall → Prop) (B : Z → Z) m fuel (body : Z → Z → VP Z) w :
  0 <= m → m + 1 <= 2 ^ 64 → (Z.to_nat m < fuel)%nat → zsum (Z.to_nat m) B < 2 ^ 64 → (∀ k, 0 <= k → 0 <= B k) →
  (∀ k x w, 0 <= k < m → I w → runs (body k x) w (λ y w', I w' ∧ ∃ v, 0 <= v <= B k ∧ y = u64 (x + v))) →
  I w → runs (for_lt fuel 0 m 1 body 0) w (λ y w', I w' ∧ 0 <= y <= zsum (Z.to_nat m) B).
Proof.
  intros H1 H2 H3 H4 HB Hbody Hw.
  assert (∀ k, 0 <= k <= m → zsum (Z.to_nat k) B <= zsum (Z.to_nat m) B) as Hmono.
  { intros k Hk. replace (Z.to_nat m) with (Z.to_nat k + Z.to_nat (m - k))%nat by lia. generalize (Z.to_nat (m - k)).
    clear -HB. induction n as [|n IH]; [by rewrite Nat.add_0_r|]. rewrite Nat.add_succ_r, zsum_S.
    specialize (HB (Z.of_nat (Z.to_nat k + n)) ltac:(lia)). lia. }
  eapply runs_mono; [|apply (for_lt_runs (λ k y w', I w' ∧ 0 <= y <= zsum (Z.to_nat k) B))]; [|lia..| | |].
  - intros y w'. by rewrite rounds_one, Z.sub_0_r.
  - intros k y w' Hk Hlt [Hw' Hy]. replace (0 + 1 * k) with k in * by lia.
    eapply runs_mono; [|by apply Hbody; [lia|]]. intros y' w'' (Hw'' & v & Hv & ->). split; [done|].
    specialize (Hmono (k + 1) ltac:(lia)). rewrite zsum_Zsucc in * by done. rewrite u64_id by lia. lia.
  - done.
  - by rewrite rounds_one, Z.sub_0_r.
Qed.

(** The words of a buffer that [MADV_FREE] may have cleared. *)
Definition thinned (a n : Z) (w : pstate vm vcall) : Prop :=
  buffer (p_data w) a n ∧ ∀ j, 0 <= j < n → word (p_data w) (a + 8 * j) = 0 ∨ word (p_data w) (a + 8 * j) = u64 j.

Lemma keep_thinned a n w : keep a n id w → thinned a n w.
Proof. intros [Hb Hh]. split; [done|]. intros j Hj. right. by apply Hh. Qed.

(** A page holds whole words. *)
Lemma drop_word a size pages s b :
  b mod 8 = 0 → a <= b → b + 8 <= a + size →
  word (drop_pages a size pages s) b = if existsb (Z.eqb (b / PAGE_SIZE)) pages then 0 else word s b.
Proof.
  intros Hb H1 H2. assert (∀ k, 0 <= k < 8 → in_range (b + k) a size = true ∧ (b + k) / PAGE_SIZE = b / PAGE_SIZE) as Hk.
  { intros k Hk. split; [apply in_range_true; lia|]. unfold PAGE_SIZE. dlia. }
  destruct (existsb (Z.eqb (b / PAGE_SIZE)) pages) eqn:Ee.
  - apply word_zero. intros k Hk'. unfold drop_pages. cbn. destruct (Hk k Hk') as [-> ->]. by rewrite Ee.
  - apply word_ext. intros k Hk'. unfold drop_pages. cbn. destruct (Hk k Hk') as [-> ->]. by rewrite Ee.
Qed.

Lemma thinned_drop a n pages w :
  a mod 8 = 0 → thinned a n w →
  thinned a n (mkPstate (drop_pages a (8 * n) pages (p_data w)) (p_calls w)).
Proof.
  intros Ha [Hb Hw]. split; [by eapply buffer_prot; [|exact Hb]|]. intros j Hj. cbn [p_data].
  rewrite drop_word by (try lia; dlia). destruct (existsb _ _); [by left|]. by apply Hw.
Qed.

Lemma zsum_id n : 0 <= n → zsum (Z.to_nat n) id = tri n.
Proof.
  intros Hn. rewrite <- (Z.mul_1_l (tri n)), <- (zsum_tri n 1) by done. apply zsum_ext. intros k Hk. unfold id. lia.
Qed.

Lemma runs_and {A} (m : VP A) w Q Q' : runs m w Q → runs m w Q' → runs m w (λ x w', Q x w' ∧ Q' x w').
Proof. intros (x & w' & H & HQ) (y & w'' & H' & HQ'). rewrite H in H'. injection H' as <- <-. by exists x, w'. Qed.

(** One round of [free_sum_loop]. *)
Lemma free_round_ok a n i x w :
  a mod 8 = 0 → thinned a n w → 0 <= i < n →
  (update (drop_pages a (8 * n) (ve_drop i));; y ← load (Some a) i; mret (u64 (x + y))) w =
    Done (u64 (x + if existsb (Z.eqb ((a + 8 * i) / PAGE_SIZE)) (ve_drop i) then 0 else word (p_data w) (a + 8 * i)))
         (mkPstate (drop_pages a (8 * n) (ve_drop i) (p_data w)) (p_calls w)).
Proof.
  intros Ha Hw Hi. erewrite prog_bind_step by reflexivity. cbv beta.
  erewrite prog_bind_step; [|by apply (load_ok a n); [apply (thinned_drop a n (ve_drop i)) in Hw as [Hw _]|]].
  cbn [p_data]. by rewrite drop_word by (try lia; dlia).
Qed.

Context (a n : Z) (fuel : nat).
Context (Ha : a mod 8 = 0) (Hn : 0 < n) (Hn64 : n + 1 <= 2 ^ 64) (Hf : (Z.to_nat n < fuel)%nat).

Lemma free_loop_rounds {A} (I : Z → Z → pstate vm vcall → Prop) (x : A) w :
  (∀ k y w, 0 <= k < n → I k y w → thinned a n w ∧
     I (k + 1) (u64 (y + if existsb (Z.eqb ((a + 8 * k) / PAGE_SIZE)) (ve_drop k) then 0 else word (p_data w) (a + 8 * k)))
       (mkPstate (drop_pages a (8 * n) (ve_drop k) (p_data w)) (p_calls w))) →
  I 0 0 w → runs (free_sum_loop fuel (Some a) (8 * n)) w (I n).
Proof using All.
  intros HI H0. unfold free_sum_loop. rewrite words_mul.
  eapply runs_mono; [|apply (for_lt_runs I)]; [|lia..| |exact H0|].
  - intros y w'. by rewrite rounds_one, Z.sub_0_r.
  - intros k y w' Hk Hlt Hw'. replace (0 + 1 * k) with k in * by lia. destruct (HI k y w' ltac:(lia) Hw') as [Ht HI'].
    eapply runs_done; [apply free_round_ok; [done|done|lia]|exact HI'].
  - by rewrite rounds_one, Z.sub_0_r.
Qed.

Lemma free_loop_bounds w :
  tri n < 2 ^ 64 → keep a n id w → runs (free_sum_loop fuel (Some a) (8 * n)) w (λ y _, 0 <= y <= tri n).
Proof using All.
  intros Ht Hw. eapply runs_mono; [|apply (free_loop_rounds (λ k y w, thinned a n w ∧ 0 <= y <= tri k) tt)].
  - by intros y w' [_ H].
  - intros k y w' Hk [Hw' Hy]. split; [done|]. split; [by apply thinned_drop|].
    assert (tri (k + 1) = tri k + k ∧ tri (k + 1) <= tri n) as [H1 H2].
    { clear -Hk. unfold tri. split; [dlia|]. apply Z.div_le_mono; nia. }
    destruct Hw' as [Hb Hw']. destruct (existsb _ _); [rewrite u64_id; lia|].
    destruct (Hw' k Hk) as [->| ->]; [rewrite u64_id; lia|]. rewrite (u64_id k) by lia. rewrite u64_id; lia.
  - split; [by apply keep_thinned|]. change (tri 0) with 0. lia.
Qed.

Lemma free_loop_kept w :
  tri n < 2 ^ 64 → (∀ i, ve_drop i = []) → keep a n id w →
  runs (free_sum_loop fuel (Some a) (8 * n)) w (λ y _, y = tri n).
Proof using All.
  intros Ht Hd Hw. eapply runs_mono; [|apply (free_loop_rounds (λ k y w, keep a n id w ∧ y = u64 (tri k)) tt)].
  - intros y w' [_ ->]. apply u64_id. split; [|done]. unfold tri. apply Z.div_pos; nia.
  - intros k y w' Hk [Hw' ->]. split; [by apply keep_thinned|]. rewrite Hd. cbn [existsb]. split.
    + eapply keep_data; [| |exact Hw']; [done|]. intros b. unfold drop_pages. cbn. by rewrite andb_false_r.
    + destruct Hw' as [_ Hh]. rewrite (Hh k Hk), u64_add_l, u64_add_r. f_equal. unfold tri, id. dlia.
  - by split.
Qed.

Lemma free_loop_dropped w :
  (∀ i, 0 <= i < n → In ((a + 8 * i) / PAGE_SIZE) (ve_drop i)) → keep a n id w →
  runs (free_sum_loop fuel (Some a) (8 * n)) w (λ y _, y = 0).
Proof using All.
  intros Hd Hw. eapply runs_mono; [|apply (free_loop_rounds (λ k y w, thinned a n w ∧ y = 0) tt)].
  - by intros y w' [_ ->].
  - intros k y w' Hk [Hw' ->]. split; [done|]. split; [by apply thinned_drop|].
    rewrite (proj2 (existsb_exists _ _)); [done|]. exists ((a + 8 * k) / PAGE_SIZE). split; [by apply Hd|by apply Z.eqb_refl].
  - split; [by apply keep_thinned|done].
Qed.

End Bounds.

(** C23. After [MADV_FREE] the kernel may drop pages at any time, so
    [add_page_to_inactive_list.c] prints some value between 0 and the sum of
    the indices: that sum itself when no page is dropped, and 0 when each page
    is dropped before it is read. *)
Theorem add_page_bounds {E : vmenv} fuel a n w :
  0 <= a → a mod 8 = 0 → 0 < n → a + 8 * n <= 2 ^ 64 → commit_ok 0 a (8 * n) → keeps_memory → (Z.to_nat n < fuel)%nat →
  tri n < 2 ^ 64 →
  runs (add_page_to_inactive_list fuel a (8 * n)) w (λ r w', ∃ v, 0 <= v <= tri n ∧ prints_sum v r w' ∧
    ((∀ i, ve_drop i = []) → v = tri n) ∧
    ((∀ i, 0 <= i < n → In ((a + 8 * i) / PAGE_SIZE) (ve_drop i)) → v = 0)).
Proof.
  intros Ha H8 Hp Hn Hok Hm Hf Ht. unfold add_page_to_inactive_list. rewrite words_mul.
  eapply map_fill_runs; try done; intros w1 H1; repeat keep_step. apply runs_bind.
  match goal with |- runs _ ?w _ => destruct (free_loop_bounds a n fuel H8 Hp ltac:(lia) Hf w Ht ltac:(done)) as (v & w2 & Hv & Hle) end.
  match goal with H : keep _ _ _ _ |- _ => rename H into Hk end.
  eapply runs_done; [exact Hv|]. eapply runs_mono; [|apply prints_sum_runs]. intros r w3 Hr. exists v.
  split; [done|split; [done|split]]; intros Hd.
  - destruct (free_loop_kept a n fuel H8 Hp ltac:(lia) Hf _ Ht Hd Hk) as (v' & w4 & Hv' & ->). congruence.
  - destruct (free_loop_dropped a n fuel H8 Hp ltac:(lia) Hf _ Hd Hk) as (v' & w4 & Hv' & ->). congruence.
Qed.

(** All pages dropped at the first read. *)
Definition dropping_kernel : vmenv := {|
  ve_ret := @ve_ret good_kernel; ve_fill := @ve_fill good_kernel; ve_lost := @ve_lost good_kernel;
  ve_drop := λ _, [0x40000]
|}.
Lemma add_page_bounds_witness :
  runs (@add_page_to_inactive_list dropping_kernel (S 512) 0x40000000 0x1000) vm_start (prints_sum 0).
Proof.
  eapply runs_mono; [|apply (@add_page_bounds dropping_kernel (S 512) 0x40000000 512 vm_start);
    [lia|reflexivity|lia|lia|intros ?; reflexivity|intros ? ? ?; reflexivity|apply Nat.lt_succ_diag_r|reflexivity]].
  intros r w' (v & _ & H & _ & Hv). rewrite Hv in H; [exact H|]. intros i Hi. left. unfold PAGE_SIZE. dlia.
Defined.

(** [swap_mmap_random.c] never leaves its buffer, whatever [rand] returns,
    and its sum is at most the largest index times the number of reads. *)
Theorem swap_mmap_random_bounds {E : vmenv} fuel a n w :
  0 <= a → 0 < n → a + 8 * n <= 2 ^ 64 → commit_ok 0 a (8 * n) → (Z.to_nat n < fuel)%nat →
  n / 32 * (n - 1) < 2 ^ 64 →
  runs (swap_mmap_random fuel a (8 * n)) w (λ r w', ∃ v, 0 <= v <= n / 32 * (n - 1) ∧ prints_sum v r w').
Proof.
  intros Ha Hp Hn Hok Hf Hb. unfold swap_mmap_random. rewrite words_mul.
  apply runs_bind. eapply runs_done; [reflexivity|]. eapply map_fill_runs; try done. intros w1 H1. keep_step.
  match goal with H : keep _ _ _ _ |- _ => rename H into Hk end.
  assert (0 <= n / 32 < n) as H32 by (split; [apply Z.div_pos|apply Z.div_lt]; lia).
  apply runs_bind. eapply runs_mono; [|apply (bounded_sum_runs (keep a n id) (λ _, n - 1)); [lia..| | | |exact Hk]].
  - intros v w3 [_ Hv]. cbn beta in Hv. rewrite zsum_const, Z2Nat.id in Hv by lia.
    eapply runs_mono; [|apply prints_sum_runs]. intros r w4 Hr. by exists v.
  - rewrite zsum_const, Z2Nat.id; lia.
  - lia.
  - intros k y w3 Hk' Hw3. apply runs_bind. eapply runs_done; [reflexivity|]. cbv beta.
    match goal with |- context [random_index ?r k n] => pose proof (Z.mod_pos_bound (u64 (r * k)) n Hp) as Hi; fold (random_index r k n) in Hi; generalize dependent (random_index r k n) end.
    intros j Hj. eapply runs_exact; [apply (load_ok a n); [apply Hw3|done]|]. eexists _, _. split; [reflexivity|].
    split; [by eapply keep_data; [| |exact Hw3]|]. exists j. split; [lia|]. cbn [p_data].
    destruct Hw3 as [_ Hh]. rewrite (Hh j Hj). apply u64_add_r.
Qed.

(** The program of the source: no sum above 5066549546811392. *)
Lemma swap_mmap_random_bounds_witness :
  runs (@swap_mmap_random_main good_kernel (S (Z.to_nat (3 * 2 ^ 27)))) vm_start
    (λ r w', ∃ v, 0 <= v <= 12582912 * 402653183 ∧ prints_sum v r w').
Proof.
  apply (@swap_mmap_random_bounds good_kernel (S (Z.to_nat (3 * 2 ^ 27))) (0x400000000000 - 5 * ONE_GB) (3 * 2 ^ 27) vm_start);
    [unfold ONE_GB; lia|lia|unfold ONE_GB; lia|exact (good_commit _ _ _)|apply Nat.lt_succ_diag_r|reflexivity].
Defined.

(** [swap_out_ratio_info.c] prints the sum of its indices; the counters it
    asks for in between, region by region, do not disturb it. *)
Theorem swap_out_ratio_info_sum {E : vmenv} fuel a n w :
  0 <= a → 0 < n → a + 8 * n <= 2 ^ 64 → 8 * n < 2 ^ 64 → commit_ok 0 a (8 * n) → keeps_memory → (Z.to_nat n < fuel)%nat →
  runs (swap_out_ratio_info fuel a (8 * n)) w (prints_sum (u64 (tri n))).
Proof.
  intros Ha Hp Hn Hn8 Hok Hm Hf. unfold swap_out_ratio_info. rewrite words_mul.
  assert ((Z.to_nat (8 * n / HEAP_REGION_BYTE_SIZE) < fuel)%nat) as Hr.
  { change HEAP_REGION_BYTE_SIZE with (2 ^ 20). assert (8 * n / 2 ^ 20 <= n) by (apply Z.div_le_upper_bound; lia). lia. }
  assert (kept a n id (print_cache_ration_of_each_region fuel a (8 * n))) as Hreg by (apply kept_regions; [done|lia|done]).
  apply runs_bind. eapply runs_done; [reflexivity|]. eapply map_fill_runs; try done. intros w1 H1. repeat keep_step.
  eapply keep_sum_runs; [eassumption|lia|lia|lia|lia|by rewrite rounds_one, Z.sub_0_r|]. repeat keep_step.
  unfold id. rewrite rounds_one, Z.sub_0_r, zsum_tri, Z.mul_1_l by lia. apply prints_sum_runs.
Qed.

(** *** Regions *)

(** The ranges the kernel is asked about. *)
Definition asked (cs : list vcall) : list (Z * Z) :=
  omap (λ c, match c with V_syscall 336 [a; len] => Some (a, len) | _ => None end) cs.

Lemma asked_app cs ds : asked (cs ++ ds) = asked cs ++ asked ds.
Proof. apply omap_app. Qed.

(** For an aligned heap inside the address space
    [print_cache_ration_of_each_region] asks about its regions in order, and
    every byte of the heap is in exactly one of them; for an unaligned one it
    asks nothing. *)
Theorem regions_partition {E : vmenv} fuel start size w :
  0 <= start → 0 <= size → start + size < 2 ^ 64 → (Z.to_nat (size / HEAP_REGION_BYTE_SIZE) < fuel)%nat →
  runs (print_cache_ration_of_each_region fuel start size) w (λ _ w', ∃ regions,
    asked (p_calls w') = asked (p_calls w) ++ regions ∧
    (start mod HEAP_REGION_BYTE_SIZE ≠ 0 ∨ size mod HEAP_REGION_BYTE_SIZE ≠ 0 → regions = []) ∧
    (start mod HEAP_REGION_BYTE_SIZE = 0 → size mod HEAP_REGION_BYTE_SIZE = 0 →
       regions = map (λ i, (start + i * HEAP_REGION_BYTE_SIZE, HEAP_REGION_BYTE_SIZE)) (seqZ 0 (size / HEAP_REGION_BYTE_SIZE)) ∧
       ∀ b, start <= b < start + size → exists! r, In r regions ∧ in_range b r.1 r.2 = true)).
Proof.
  intros H1 H2 H3 Hf. unfold print_cache_ration_of_each_region.
  change HEAP_REGION_BYTE_SIZE with (2 ^ 20) in *.
  destruct (Z.eqb_spec (start mod 2 ^ 20) 0) as [Hs|Hs]; cbn [negb].
  2: { eexists _, _. split; [reflexivity|]. exists []. cbn [p_calls]. rewrite asked_app. by split; [|split]. }
  destruct (Z.eqb_spec (size mod 2 ^ 20) 0) as [Hz|Hz]; cbn [negb].
  2: { eexists _, _. split; [reflexivity|]. exists []. cbn [p_calls]. rewrite asked_app. by split; [|split]. }
  assert (0 <= size / 2 ^ 20 <= size) as Hq by (split; [apply Z.div_pos; lia|apply Z.div_le_upper_bound; lia]).
  eapply runs_mono; [|apply (for_lt_runs (λ k _ w',
    asked (p_calls w') = asked (p_calls w) ++ map (λ i, (start + i * 2 ^ 20, 2 ^ 20)) (seqZ 0 k)))];
    [|lia..| |cbn; by rewrite app_nil_r|by rewrite rounds_one, Z.sub_0_r].
  - intros u w'. rewrite rounds_one, Z.sub_0_r. intros Hw'. eexists. split; [exact Hw'|].
    split; [by intros [?|?]|]. intros _ _. split; [done|]. intros b Hb.
    exists (start + (b - start) / 2 ^ 20 * 2 ^ 20, 2 ^ 20). split.
    + split; [|apply in_range_true; cbn; dlia]. apply in_map_iff. exists ((b - start) / 2 ^ 20). split; [done|].
      apply list_elem_of_In, elem_of_seqZ. split; [apply Z.div_pos; lia|]. apply Z.div_lt_upper_bound; [lia|].
      pose proof (Z_div_exact_full_2 size (2 ^ 20) ltac:(lia) Hz). lia.
    + intros r [(i & <- & Hi)%in_map_iff Hr%in_range_true]. cbn in Hr. f_equal. f_equal. f_equal.
      symmetry. apply (Z.div_unique _ _ _ (b - start - i * 2 ^ 20)); lia.
  - intros k [] w' Hk Hlt Hw'. replace (0 + 1 * k) with k in * by lia.
    unfold print_region. eexists _, _. split; [reflexivity|]. cbn [p_calls]. rewrite !asked_app, Hw'.
    rewrite (seqZ_app 0 k 1), map_app by lia. rewrite <- !app_assoc. do 2 f_equal. cbn.
    assert ((k + 1) * 2 ^ 20 <= size) by (pose proof (Z_div_exact_full_2 size (2 ^ 20) ltac:(lia) Hz); lia).
    change (HEAP_REGION_BYTE_SIZE) with (2 ^ 20). rewrite !u64_id by (rewrite ?u64_id; lia). done.
Qed.

Lemma regions_partition_witness :
  runs (@print_cache_ration_of_each_region good_kernel 3 0x100000 0x200000) vm_start
    (λ _ w', asked (p_calls w') = [(0x100000, 0x100000); (0x200000, 0x100000)]).
Proof.
  eapply runs_mono; [|apply (@regions_partition good_kernel 3 0x100000 0x200000 vm_start); [lia|lia|lia|vm_compute; lia]].
  intros u w' (rs & H & _ & Hr). destruct Hr as [-> _]; [reflexivity|reflexivity|]. exact H.
Defined.
