(* ===== verification/RdmaSyscalls.v ===== *)
(** * The tests of the control path

    The tests that hand a buffer to a system call of the authors' kernel:
    [control_path.c] and [control_path_after_data_path_flush.c] of
    [src/block_device/swap], [rdma_test.c], [force_swap_out.c],
    [user_kernel_copy.c] and [mremap.c] of [src/Kernel-dev/syscall],
    [hugeTable.c] of [src/Kernel-dev/hugePage] and
    [filled_tlb_entry_check.c] of [src/Kernel-dev/tlb], and
    [cp_scatter_gatehr_test.c] of [src/Semeru/CPUServer].

    System call 333 copies the buffer to a memory server (type 2) or back
    (type 1); what it writes into the buffer is the environment's choice.
    [mremap] moves the pages of a buffer as its manual says. *)

From Stdlib Require Import String.
From S2P Require Import Prelude BitOps OctTypes Kernel Prog VmArea SwapTests.

Definition SYS_test_syscall : Z := 334.
Definition NUM_OF_MEMORY_SERVER : Z := 2.
Definition MREMAP_MAYMOVE : Z := 1.
Definition MREMAP_FIXED : Z := 2.
Definition minus_one : Z := 2 ^ 64 - 1.

Section Tests.
Context {E : vmenv}.

(** [*(unsigned long * )(p + off)] of a [char *p]. *)
Definition load_at (p : option Z) (off : Z) : VP Z :=
  b ← nonnull p; let a := u64 (b + off) in
  access PROT_READ a;; data (λ s, word s a).

Definition do_semeru_rdma_ops (args : list Z) : VP Z := r ← syscall SYS_do_semeru_rdma_ops args; mret (i32 r).

(** ** [control_path.c] *)

(** Two writes to each server. *)
Definition control_write (p : option Z) (size mem_server_id : Z) : VP unit :=
  x ← load_at p 0;
  printf "Before syscall - memory server[%d] RDMA Write, first unsigned long of the user_buffer: 0x%lx " [mem_server_id; x];;
  r ← do_semeru_rdma_ops [0x2; mem_server_id; addr_of p; size];
  printf "Invoke#1, System call id SYS_do_semeru_rdma_ops, type 0x%x , memory server[%d], returned %d " [0x2; mem_server_id; r];;
  printf " memory server[%d]	Pressure test, write the data again." [mem_server_id];;
  r ← do_semeru_rdma_ops [0x2; mem_server_id; addr_of p; size];
  printf "Invoke#2, System call id SYS_do_semeru_rdma_ops, type 0x%x, memory server[%d], returned %d " [0x2; mem_server_id; r].

(** The buffer is cleared and read back from each server. *)
Definition control_read (fuel : nat) (p : option Z) (size mem_server_id : Z) : VP unit :=
  printf "reset the value on CPU server to 0. " [];;
  fill_loop fuel p 0 (words size) (λ _, 0);;
  x ← load_at p 0;
  printf "Before syscall - memory server[%d] RDMA read, first unsigned long of the user_buffer: 0x%lx " [mem_server_id; x];;
  r ← do_semeru_rdma_ops [0x1; mem_server_id; addr_of p; size];
  printf "System call id SYS_do_semeru_rdma_ops, type 0x%x, memory server[%d], returned %d " [0x1; mem_server_id; r];;
  tell (V_sleep 3);;
  x ← load_at p 0;
  printf "After syscall RDMA read,  memory server[%d], FIRST unsigned long of the user_buffer: 0x%lx " [mem_server_id; x];;
  x ← load_at p (words size - 1);
  printf "After syscall RDMA read, memory server[%d], LAST unsigned long of the user_buffer: 0x%lx " [mem_server_id; x].

Definition control_path (fuel : nat) (request_addr size : Z) : VP Z :=
  user_buff ← map_buffer request_addr size;
  fill_loop fuel user_buff 0 (words size) (λ _, minus_one);;
  pfor (Z.to_nat NUM_OF_MEMORY_SERVER) 0 (λ id, control_write user_buff size id;; mret true);;
  pfor (Z.to_nat NUM_OF_MEMORY_SERVER) 0 (λ id, control_read fuel user_buff size id;; mret true);;
  mret 0.
Definition control_path_main (fuel : nat) : VP Z := control_path fuel 0x400080000000 0x40000000.

(** ** [control_path_after_data_path_flush.c] *)

Definition control_path_after_flush (fuel : nat) (request_addr size : Z) : VP Z :=
  user_buff ← map_buffer request_addr size;
  fill_loop fuel user_buff 0 (words size) (λ _, minus_one);;
  printf "Phase#1	Reset the swap out statistics monitoring array" [];;
  r ← syscall SYS_SWAP_STAT_RESET [request_addr; size];
  printf "	SYS_SWAP_STAT_RESET returned %d " [i32 r];;
  printf "	Check current swapped out pages num" [];;
  pages ← num_swap_out_pages request_addr size;
  printf " [0x%lx, 0x%lx)	swapped out pages num 0x%lx " [request_addr; u64 (request_addr + size); pages];;
  tell (V_sleep 2);;
  printf "Phase#2, invoke madvice to flush 16 pages to swap partition " [];;
  r ← madvise user_buff 0x10000 MADV_FLUSH_RANGE_TO_REMOTE; check_madvise (i32 r);;
  tell (V_sleep 2);;
  pages ← num_swap_out_pages request_addr size;
  printf " [0x%lx, 0x%lx)	swapped out pages num 0x%lx " [request_addr; u64 (request_addr + size); pages];;
  printf "Phase#3, Control path RDMA Write. Only half of the pages can be sent by control path." [];;
  r ← do_semeru_rdma_ops [0x2; addr_of user_buff; size];
  printf " System call id SYS_do_semeru_rdma_ops, type 0x%x returned %d " [0x2; r];;
  tell (V_sleep 2);; mret 0.
Definition control_path_after_flush_main (fuel : nat) : VP Z := control_path_after_flush fuel 0x400100000000 0x14000.

(** ** [rdma_test.c], [force_swap_out.c], [user_kernel_copy.c] *)

Definition rdma_test (fuel : nat) (request_addr size : Z) : VP Z :=
  user_buff ← map_buffer request_addr size;
  fill_loop fuel user_buff 0 (words size) (λ _, minus_one);;
  x ← load_at user_buff 0; printf "Before syscall - RDMA Write, first size_t of the user_buffer: 0x%lx " [x];;
  r ← do_semeru_rdma_ops [0x2; 0; addr_of user_buff; size];
  printf "System call id SYS_do_semeru_rdma_ops, type 0x%x, memory server %d, returned %d " [0x2; 0; r];;
  printf "reset the value on current server to 0. " [];;
  fill_loop fuel user_buff 0 (words size) (λ _, 0);;
  x ← load_at user_buff 0; printf "Before syscall - RDMA read, first size_t of the user_buffer: 0x%lx " [x];;
  r ← do_semeru_rdma_ops [0x1; 0; addr_of user_buff; size];
  printf "System call id SYS_do_semeru_rdma_ops, type 0x%x , memory server %d returned %d " [0x1; 0; r];;
  tell (V_sleep 3);;
  x ← load_at user_buff 0; printf "After syscall RDMA read, first size_t of the user_buffer: 0x%lx " [x];; mret 0.
Definition rdma_test_main (fuel : nat) : VP Z := rdma_test fuel 0x400100000000 0x40000000.

Definition force_swap_out (fuel : nat) (request_addr size : Z) : VP Z :=
  user_buff ← map_buffer request_addr size;
  fill_loop fuel user_buff 0 (words size) (λ _, 999);;
  printf "Force swap out [0x%lx, 0x%lx]" [request_addr; u64 (request_addr + size)];;
  r ← do_semeru_rdma_ops [0x4; 0; addr_of user_buff; size];
  printf "System call id SYS_do_semeru_rdma_ops, type 0x%x, memory server %d, returned %d " [0x4; 0; r];;
  x ← load_at user_buff 0; printf "After force swap-out, read the first size_t of the user_buffer: 0x%lx " [x];; mret 0.
Definition force_swap_out_main (fuel : nat) : VP Z := force_swap_out fuel 0x400100000000 0x200000.

Definition user_kernel_copy (fuel : nat) (request_addr size : Z) : VP Z :=
  user_buff ← map_buffer request_addr size;
  fill_loop fuel user_buff 0 (words size) (λ _, minus_one);;
  x ← load_at user_buff 0; printf "Before syscall, first uint64_t of the user_buffer: 0x%llx " [x];;
  r ← syscall SYS_test_syscall [addr_of user_buff; size];
  printf "System call id SYS_do_semeru_rdma_ops, type 0x%x returned %d " [0x1; i32 r];;
  x ← load_at user_buff 0; printf "After syscall, first uint64_t of the user_buffer: 0x%llx " [x];; mret 0.
Definition user_kernel_copy_main (fuel : nat) : VP Z := user_kernel_copy fuel 0x400000000000 0x1000.

(** ** [cp_scatter_gatehr_test.c] of [src/Semeru/CPUServer] *)

Definition scatter_gather (fuel : nat) (request_addr size : Z) : VP Z :=
  user_buff ← map_buffer request_addr size;
  fill_loop fuel user_buff 0 (words size) (λ _, minus_one);;
  x ← load_at user_buff 0; printf "Before syscall - RDMA Write, first uint64_t of the user_buffer: 0x%llx " [x];;
  r ← do_semeru_rdma_ops [0x2; addr_of user_buff; size];
  printf "System call id SYS_do_semeru_rdma_ops, type 0x%x returned %d " [0x2; r];;
  printf "reset the value on current server to 0. " [];;
  fill_loop fuel user_buff 0 (words size) (λ _, 0);;
  x ← load_at user_buff 0; printf "Before syscall - RDMA read, first uint64_t of the user_buffer: 0x%llx " [x];;
  r ← do_semeru_rdma_ops [0x1; addr_of user_buff; size];
  printf "System call id SYS_do_semeru_rdma_ops, type 0x%x returned %d " [0x1; r];;
  tell (V_sleep 5);;
  x ← load_at user_buff 0; printf "After syscall RDMA read, first uint64_t of the user_buffer: 0x%llx " [x];; mret 0.
Definition scatter_gather_main (fuel : nat) : VP Z := scatter_gather fuel 0x400000000000 0x40000.

(** ** [hugeTable.c] *)

Definition huge_table (fuel : nat) (request_addr size : Z) : VP Z :=
  user_buff ← map_with MAP_HUGETLB request_addr size;
  fill_loop fuel user_buff 0 (words size) (λ _, minus_one);;
  x ← load user_buff 0; printf "First uint64_t is 0x%llx " [x];;
  printf "Please goto check the hugePage information by checking /proc/meminfo. " [];;
  tell (V_sleep 30);;
  printf "Returned." [];; mret 0.
Definition huge_table_main (fuel : nat) : VP Z := huge_table fuel 0x400000000000 0x400000.

(** ** [filled_tlb_entry_check.c] *)

Definition page_words : Z := PAGE_SIZE / 8.

(** The page of word [j]: the fill and the reads around it. *)
Definition tlb_page (fuel : nat) (p : option Z) (j : Z) : VP unit :=
  x ← load p j;
  printf "before write: read on page[%lu], unsigned long offset[%d] : %lu" [j / page_words; 0; x];;
  for_lt fuel 0 page_words 1 (λ i _, store p (j + i) (j / page_words)) tt;;
  (if page_words <=? j then
     x ← load p (j - page_words);
     printf "After write, Read on Prev Page[%lu], unsigned long offset[%d] : %lu " [j / page_words - 1; 0; x]
   else mret tt);;
  x ← load p j;
  printf "After write, Read on Page[%lu], unsigned long offset[%d] : %lu " [j / page_words; 0; x].

Definition filled_tlb (fuel : nat) (request_addr size : Z) : VP Z :=
  user_buff ← map_buffer request_addr size;
  printf "Phase #1, Initialize the content of each Page. " [];;
  for_lt fuel 0 (words size) page_words (λ j _, tlb_page fuel user_buff j) tt;;
  printf "Phase #2, avoid optimizing. Get the sum of the data" [];;
  sum ← sum_loop fuel user_buff 0 (words size) 1 0;
  printf "sum : 0x%lx " [sum];; mret 0.
Definition filled_tlb_main (fuel : nat) : VP Z := filled_tlb fuel 0x400100000000 0x100000.

(** ** [mremap.c] *)

(** [mremap(old, old_len, new_len, MREMAP_FIXED | MREMAP_MAYMOVE, new)]: on
    success the pages of [old] are at [new], with pages of zeros after them, and
    [old] is not mapped any more; a failed call may have unmapped [new]. *)
Definition move_range (old old_len new_len new : Z) (s : vm) : vm :=
  mkVm (λ b, if in_range b new (page_up new_len) then v_prot s old
             else if in_range b old (page_up old_len) then None else v_prot s b)
       (λ b, if in_range b new (page_up old_len) then v_byte s (old + (b - new))
             else if in_range b new (page_up new_len) then 0 else v_byte s b).
Definition mremap (old : option Z) (old_len new_len flags : Z) (new : option Z) : VP Z :=
  r ← ask (λ cs c, (ve_ret cs c, ve_lost cs c)) (V_mremap old old_len new_len flags new);
  (if r.1 =? MAP_FAILED then update (λ s, if r.2 : bool then unmap_range (addr_of new) new_len s else s)
   else update (move_range (addr_of old) old_len new_len r.1));;
  mret r.1.

Definition print_stride (fuel : nat) (format : string) (p : option Z) (n : Z) : VP unit :=
  for_lt fuel 0 n 512 (λ i _, x ← load p i; printf format [i; x]) tt.

(** [%s] of a pointer: the first byte is read. *)
Definition printf_string (format : string) (p : Z) : VP unit :=
  s ← data id; if allows PROT_READ (v_prot s p) then printf format [p] else crash BadPtr.

(** Steps 1) and 2) of [main]. *)
Definition user_buffer_addr : Z := 0x20000000.
Definition user_buffer_size : Z := 0x2000.
Definition target_request_addr : Z := 0x40000000.
Definition target_size : Z := 0x10000.

Definition mremap_setup (fuel : nat) : VP (option Z * option Z) :=
  user_buff ← commit_anon_memory user_buffer_addr user_buffer_size false;
  (match user_buff with
   | None => printf "Reserve user_buffer, 0x%lx failed. " [user_buffer_addr]
   | Some _ => printf "Reserve user_buffer: 0x%lx, bytes_len: 0x%lx " [user_buffer_addr; user_buffer_size]
   end);;
  target_buff ← commit_anon_memory target_request_addr target_size false;
  (match user_buff with
   | None => printf "Commit target, 0x%lx failed. " [target_request_addr]
   | Some _ => printf "Commit target: 0x%lx, bytes_len: 0x%lx " [target_request_addr; target_size]
   end);;
  fill_loop fuel user_buff 0 (words user_buffer_size) (λ _, 7);;
  printf "Check the initialized value of target buffer" [];;
  print_stride fuel "user_buff[%lu] %lu " user_buff (words user_buffer_size);;
  fill_loop fuel target_buff 0 (words target_size) (λ i, i);;
  printf "Check the initialized value of target buffer" [];;
  print_stride fuel "target_buff[%lu] %lu " target_buff (words target_size);;
  mret (user_buff, target_buff).

(** Step 3) *)
Definition mremap_check (fuel : nat) (user_buff target_buff : option Z) : VP Z :=
  ret ← mremap user_buff user_buffer_size target_size (Z.lor MREMAP_FIXED MREMAP_MAYMOVE) target_buff;
  (if ret =? MAP_FAILED then printf_string "mremap failed. with return %s " ret
   else printf "mremap success, return 0x%lx " [ret];;
        printf "user_buff start address 0x%lx " [addr_of user_buff];;
        printf "target_buff start address 0x%lx " [addr_of target_buff]);;
  printf "Check the remapped value of returned buffer 0x%lx " [ret];;
  print_stride fuel "ret[%lu] %lu " (Some ret) (words target_size);;
  printf "Check the remapped value of target buffer 0x%lx " [addr_of target_buff];;
  print_stride fuel "target_buff[%lu] %lu " target_buff (words target_size);;
  mret 0.

Definition mremap_main (fuel : nat) : VP Z := p ← mremap_setup fuel; mremap_check fuel p.1 p.2.

End Tests.

(** ** Safety: no test leaves its buffer *)

Section Safe.
Context {E : vmenv} (a n : Z).

(** The computation returns, whatever the memory holds, and leaves the buffer
    mapped. *)
Definition safe {A} (m : VP A) : Prop :=
  ∀ w, buffer (p_data w) a n → runs m w (λ _ w', buffer (p_data w') a n).

Lemma safe_ret {A} (x : A) : safe (mret x).
Proof. intros w Hw. by eexists _, _. Qed.

Lemma safe_bind {A B} (m : VP A) (k : A → VP B) : safe m → (∀ x, safe (k x)) → safe (m ≫= k).
Proof. intros Hm Hk w Hw. apply runs_bind. eapply runs_mono; [|by apply Hm]. intros x w' Hw'. by apply Hk. Qed.

Lemma safe_tell c : safe (tell c).
Proof. intros w Hw. by eexists _, _. Qed.

Lemma safe_ask {A} (env : list vcall → vcall → A) c : safe (ask env c).
Proof. intros w Hw. by eexists _, _. Qed.

Lemma safe_call c : safe (kernel_call c).
Proof. intros w Hw. eexists _, _. split; [reflexivity|]. by eapply buffer_prot; [|exact Hw]. Qed.

Lemma safe_drop size pages : safe (update (drop_pages a size pages)).
Proof. intros w Hw. eexists _, _. split; [reflexivity|]. by eapply buffer_prot; [|exact Hw]. Qed.

Lemma safe_load i : 0 <= i < n → safe (load (Some a) i).
Proof. intros Hi w Hw. eexists _, _. by split; [apply (load_ok a n)|]. Qed.

Lemma safe_store i v : 0 <= i < n → safe (store (Some a) i v).
Proof.
  intros Hi w Hw. eexists _, _. split; [by apply (store_ok a n)|]. by eapply buffer_prot; [|exact Hw].
Qed.

Lemma load_at_ok off w :
  buffer (p_data w) a n → 0 <= off → off + 8 <= 8 * n → load_at (Some a) off w = Done (word (p_data w) (a + off)) w.
Proof.
  intros (H1 & H2 & H3) H4 H5. unfold load_at.
  erewrite prog_bind_step by reflexivity. cbv zeta. rewrite u64_id by lia.
  erewrite (prog_bind_step (access _ _)); [done|]. apply access_ok. intros k Hk. apply rw_both, H3. lia.
Qed.

Lemma safe_load_at off : 0 <= off → off + 8 <= 8 * n → safe (load_at (Some a) off).
Proof. intros H1 H2 w Hw. eexists _, _. by split; [apply load_at_ok|]. Qed.

Lemma safe_for_lt {A} fuel i0 i1 step (body : Z → A → VP A) x :
  0 <= i0 <= i1 → 0 < step → i1 + step <= 2 ^ 64 → (Z.to_nat (i1 - i0) < fuel)%nat →
  (∀ k x, 0 <= k → i0 + step * k < i1 → safe (body (i0 + step * k) x)) → safe (for_lt fuel i0 i1 step body x).
Proof.
  intros H1 H2 H3 H4 Hb w Hw. eapply runs_mono; [|apply (for_lt_runs (λ _ _ w, buffer (p_data w) a n))]; try done; try lia.
  - intros k y w' Hk Hlt Hw'. by apply Hb.
  - assert (rounds i0 i1 step <= i1 - i0); [|lia]. unfold rounds. apply Z.lt_succ_r, Z.div_lt_upper_bound; nia.
Qed.

Lemma safe_pfor m i (body : Z → VP bool) : (∀ j, safe (body j)) → safe (pfor m i body).
Proof.
  intros Hb. revert i. induction m as [|m IH]; intros i; [apply safe_ret|]. cbn [pfor].
  apply safe_bind; [done|]. intros [|]; [apply IH|apply safe_ret].
Qed.

End Safe.

Create HintDb safe.
#[export] Hint Resolve safe_ret safe_tell safe_ask safe_call safe_drop : safe.
Lemma random_index_range r i n : 0 < n → 0 <= random_index r i n < n.
Proof. intros Hn. by apply Z.mod_pos_bound. Qed.

Ltac safe_side := first [lia|apply random_index_range; lia|nia].
Ltac safe_go :=
  repeat lazymatch goal with
  | |- safe _ _ (load _ _) => apply safe_load; safe_side
  | |- safe _ _ (store _ _ _) => apply safe_store; safe_side
  | |- safe _ _ (load_at _ _) => apply safe_load_at; safe_side
  | |- safe _ _ (for_lt _ _ _ _ _ _) => apply safe_for_lt; [safe_side|safe_side|safe_side|safe_side|intros ? ? ? ?]
  | |- safe _ _ (pfor _ _ _) => apply safe_pfor; intros ?
  | |- safe _ _ (_ ≫= _) => apply safe_bind; [|intros ?]
  | |- safe _ _ (match ?x with _ => _ end) => destruct x eqn:?
  | |- safe _ _ _ => solve [auto with safe nocore]
  end.

Section Complete.
Context {E : vmenv} (a n : Z).
Context (Ha : 0 <= a) (Hn : 0 < n) (Hend : a + 8 * n <= 2 ^ 64) (H512 : n mod 512 = 0).

Lemma safe_fill fuel f : (Z.to_nat n < fuel)%nat → safe a n (fill_loop fuel (Some a) 0 n f).
Proof using All. intros Hf. unfold fill_loop. safe_go. Qed.

Lemma safe_sum_print fuel step x : (Z.to_nat n < fuel)%nat → 0 < step <= 4096 → safe a n (sum_print_loop fuel (Some a) n step x).
Proof using All. intros Hf Hs. unfold sum_print_loop, printf. safe_go. Qed.

Lemma safe_sum fuel x : (Z.to_nat n < fuel)%nat → safe a n (sum_loop fuel (Some a) 0 n 1 x).
Proof using All. intros Hf. unfold sum_loop. safe_go. Qed.

Lemma safe_regions fuel : (Z.to_nat n < fuel)%nat → safe a n (print_cache_ration_of_each_region fuel a (8 * n)).
Proof using All.
  intros Hf. unfold print_cache_ration_of_each_region, print_region, printf, syscall.
  change HEAP_REGION_BYTE_SIZE with (2 ^ 20).
  assert (0 <= 8 * n / 2 ^ 20 <= n) by (split; [apply Z.div_pos; lia|apply Z.div_le_upper_bound; lia]).
  safe_go.
Qed.

Lemma safe_page fuel j :
  (512 < fuel)%nat → 0 <= j → j + 512 <= n → safe a n (tlb_page fuel (Some a) j).
Proof using All.
  intros Hf H1 H2. unfold tlb_page, printf. change page_words with 512.
  assert (∀ i, 0 <= i < 512 → 0 <= j + i < n) by lia. safe_go.
Qed.

(** With a commit that succeeds the test returns, its buffer still mapped. *)
Definition completes (test : VP Z) : Prop := ∀ w, runs test w (λ _ w', buffer (p_data w') a n).

Lemma completes_map extra (k : option Z → VP Z) :
  commit_ok extra a (8 * n) → safe a n (k (Some a)) → completes (map_with extra a (8 * n) ≫= k).
Proof using All.
  intros Hok Hk w. apply runs_bind. eapply runs_mono; [|by apply map_with_runs].
  intros p w1 (-> & Hb & _). by apply Hk.
Qed.

Lemma completes_any {A} (m : VP A) (k : A → VP Z) :
  (∀ w, runs m w (λ _ _, True)) → (∀ x, completes (k x)) → completes (m ≫= k).
Proof using Type. intros Hm Hk w. apply runs_bind. eapply runs_mono; [|apply Hm]. intros x w' _. apply Hk. Qed.

End Complete.

#[export] Hint Resolve safe_fill safe_sum_print safe_sum safe_regions : safe.
#[export] Hint Extern 5 (0 < _ <= 4096) => lia : safe.
Ltac safe_unfold :=
  cbv beta delta [swap_mmap swap_mmap_random add_page_to_inactive_list flush_page_to_swap_imm
    on_demand_swapin swap_out_ratio_flush_based swap_info_count swap_out_ratio_info control_path
    control_path_after_flush rdma_test force_swap_out user_kernel_copy huge_table filled_tlb
    scatter_gather].
Ltac safe_helpers :=
  cbv beta delta [printf syscall madvise check_madvise swap_stat_reset num_swap_out_pages
    on_demand_swapin_int on_demand_swapin_ul random_sum_loop free_sum_loop control_write control_read do_semeru_rdma_ops].

(** C18. When its commit succeeds every test of this file and of [SwapTests]
    returns, whatever its system calls return or write into its memory: none
    of their accesses is outside the buffer, and their loops end. *)
Theorem tests_complete {E : vmenv} fuel a n :
  0 <= a → 0 < n → a + 8 * n <= 2 ^ 64 → n mod 512 = 0 → (∀ extra, commit_ok extra a (8 * n)) → (Z.to_nat n < fuel)%nat →
  Forall (λ test : nat → Z → Z → VP Z, completes a n (test fuel a (8 * n)))
    [swap_mmap; swap_mmap_random; add_page_to_inactive_list; flush_page_to_swap_imm; on_demand_swapin;
     swap_out_ratio_flush_based; swap_info_count; swap_out_ratio_info; control_path; control_path_after_flush;
     rdma_test; force_swap_out; user_kernel_copy; huge_table; filled_tlb; scatter_gather].
Proof.
  intros Ha Hn Hend H512 Hok Hf.
  assert (512 <= n) as Hn512 by (clear -Hn H512; dlia).
  assert (0 <= n / 32 <= n) as H32 by (split; [apply Z.div_pos|apply Z.div_le_upper_bound]; lia).
  repeat apply List.Forall_cons; [..|constructor].
  all: safe_unfold; rewrite words_mul.
  all: try (eapply completes_map; [done..|]).
  all: try (eapply completes_any; [intros w; by eexists _, _|intros []; eapply completes_map; [done..|]]).
  all: safe_helpers; try rewrite words_mul; safe_go.
  all: try solve [apply safe_sum_print; try done; lia].
  change page_words with 512. apply safe_for_lt; [lia..|]. intros k u Hk Hlt. apply safe_page; try done; try lia.
  clear -H512 Hlt. dlia.
Qed.

(** A kernel that may do anything with the memory in a call that is not [mmap]. *)
Definition wild_kernel : vmenv := {|
  ve_ret := λ cs c, match c with V_mmap b _ _ _ => b | _ => - 7 end;
  ve_fill := λ cs c b, Some (b + 3);
  ve_lost := λ _ _, true;
  ve_drop := λ i, [i; 2 * i]
|}.
Lemma tests_complete_witness :
  runs (@control_path_main wild_kernel (S (Z.to_nat (2 ^ 27)))) vm_start (λ _ w', buffer (p_data w') 0x400080000000 (2 ^ 27)).
Proof.
  pose proof (@tests_complete wild_kernel (S (Z.to_nat (2 ^ 27))) 0x400080000000 (2 ^ 27) ltac:(lia) ltac:(lia)
    ltac:(lia) ltac:(reflexivity) ltac:(intros ? ?; reflexivity) ltac:(apply Nat.lt_succ_diag_r)) as H.
  do 8 apply Forall_inv_tail in H. apply Forall_inv in H. apply H.
Defined.

(** ** What [control_path.c] can see *)

Definition first_message : string :=
  "After syscall RDMA read,  memory server[%d], FIRST unsigned long of the user_buffer: 0x%lx ".
Definition last_message : string :=
  "After syscall RDMA read, memory server[%d], LAST unsigned long of the user_buffer: 0x%lx ".

(** The messages about the words read back: server and value. *)
Definition observed (cs : list vcall) : list (bool * Z * Z) :=
  omap (λ c, match c with
    | V_print f [id; x] =>
        if String.eqb f first_message then Some (false, id, x) else if String.eqb f last_message then Some (true, id, x) else None
    | _ => None
    end) cs.

Lemma observed_app cs ds : observed (cs ++ ds) = observed cs ++ observed ds.
Proof. apply omap_app. Qed.

Lemma word_ones s b : (∀ k, 0 <= k < 8 → v_byte s (b + k) = 255) → word s b = minus_one.
Proof. intros H. unfold word. rewrite seqZ8. cbn [map]. by rewrite !H by lia. Qed.

Lemma rdma_call_runs {E : vmenv} {A} args (k : Z → VP A) w Q :
  runs (k (i32 (ve_ret (p_calls w) (V_syscall SYS_do_semeru_rdma_ops args))))
    (mkPstate ((p_data w) <| v_byte := λ b, match ve_fill (p_calls w) (V_syscall SYS_do_semeru_rdma_ops args) b with
                                          | Some v => v mod 256 | None => v_byte (p_data w) b end |>)
       (p_calls w ++ [V_syscall SYS_do_semeru_rdma_ops args])) Q →
  runs (do_semeru_rdma_ops args ≫= k) w Q.
Proof. intros H. apply runs_bind. eapply runs_done; [reflexivity|]. exact H. Qed.

Section ControlPath.
Context {E : vmenv} (a n len : Z) (fuel : nat).
Context (Ha : 0 <= a) (Hn : 0 < n) (Hend : a + 8 * n <= 2 ^ 64) (Hf : (Z.to_nat n < fuel)%nat).
Context (Hlen : n + 7 <= len <= 8 * n).

(** The writes leave the buffer alone; a read brings back the first [len] bytes. *)
Context (Hwrite : ∀ cs id b, ve_fill cs (V_syscall SYS_do_semeru_rdma_ops [0x2; id; a; 8 * n]) b = None).
Context (Hread : ∀ cs id b, ve_fill cs (V_syscall SYS_do_semeru_rdma_ops [0x1; id; a; 8 * n]) b =
           if in_range b a len then Some 255 else None).

Ltac step_obs := repeat first [apply print_runs|apply rdma_call_runs].

Lemma control_write_runs f id w :
  keep a n f w → runs (control_write (Some a) (8 * n) id) w (λ _ w',
    keep a n f w' ∧ observed (p_calls w') = observed (p_calls w)).
Proof using All.
  intros Hw. unfold control_write. change (addr_of (Some a)) with a.
  eapply runs_exact; [apply (load_at_ok a n 0); [apply Hw|lia|lia]|]. step_obs.
  eexists tt, _. split; [reflexivity|]. split.
  - eapply keep_data; [| |exact Hw]; [done|]. intros b. cbn. by rewrite !Hwrite.
  - cbn [p_calls]. rewrite !observed_app. cbn -[first_message last_message]. by rewrite !app_nil_r.
Qed.

(** What a read leaves: ones where the kernel wrote, zeros after that. *)
Definition read_back (w : pstate vm vcall) : Prop :=
  buffer (p_data w) a n ∧ ∀ j, 0 <= j < n → len <= 8 * j → word (p_data w) (a + 8 * j) = 0.

Lemma control_read_runs id w :
  buffer (p_data w) a n → runs (control_read fuel (Some a) (8 * n) id) w (λ _ w',
    read_back w' ∧ observed (p_calls w') = observed (p_calls w) ++ [(false, id, minus_one); (true, id, minus_one)]).
Proof using All.
  intros Hb. unfold control_read. rewrite words_mul. apply print_runs, runs_bind.
  eapply runs_mono; [|apply (fill_loop_runs a n 0 n (λ _, 0) fuel); [exact Hb|lia|lia|by rewrite Z.sub_0_r]].
  intros [] w1 (Ho & Hh & Hc). cbn [p_calls p_data] in *.
  assert (buffer (p_data w1) a n) as Hb1 by (by eapply buffer_prot; [apply Ho|]).
  eapply runs_exact; [apply (load_at_ok a n 0); [exact Hb1|lia|lia]|]. step_obs. change (addr_of (Some a)) with a.
  apply runs_bind. eapply runs_done; [reflexivity|]. cbn [p_data p_calls].
  match goal with |- context [mkPstate ?s _] => set (s1 := s) end.
  assert (buffer s1 a n) as Hb2 by (by eapply buffer_prot; [|exact Hb1]).
  assert (∀ off, 0 <= off → off + 8 <= len → word s1 (a + off) = minus_one) as Hones.
  { intros off H1 H2. apply word_ones. intros k Hk. cbn. rewrite Hread.
    by rewrite (proj2 (in_range_true _ _ _)) by lia. }
  eapply runs_exact; [apply (load_at_ok a n 0); [exact Hb2|lia|lia]|]. step_obs.
  eapply runs_exact; [apply (load_at_ok a n (n - 1)); [exact Hb2|lia|lia]|].
  eexists tt, _. split; [reflexivity|]. cbn [p_data p_calls]. split; [split; [exact Hb2|]|].
  - intros j Hj Hl. rewrite <- (Hh j Hj : word (p_data w1) (a + 8 * j) = 0). apply word_ext. intros k Hk. cbn.
    rewrite Hread. by rewrite (proj2 (in_range_false _ _ _)) by lia.
  - rewrite !Hones by lia. rewrite !observed_app, Hc, observed_app.
    cbn -[minus_one]. by rewrite <- !app_assoc.
Qed.

(** The "LAST unsigned long" of [control_path.c] is at byte size/8 - 1 of
    the buffer and not at its end, so a transfer of any prefix from size/8 + 7
    bytes on looks complete: the test prints the value it wrote, for every
    server, although the words after the prefix were not read back. *)
Theorem control_path_prefix w :
  commit_ok 0 a (8 * n) →
  runs (control_path fuel a (8 * n)) w (λ r w', r = 0 ∧
    observed (p_calls w') = observed (p_calls w) ++
      [(false, 0, minus_one); (true, 0, minus_one); (false, 1, minus_one); (true, 1, minus_one)] ∧
    ∀ j, 0 <= j < n → len <= 8 * j → word (p_data w') (a + 8 * j) = 0).
Proof using All.
  intros Hok. unfold control_path. rewrite words_mul. apply runs_bind.
  eapply runs_mono; [|by apply map_with_runs]. intros p w1 (-> & Hb & _ & q & Hc). cbn beta.
  assert (observed (p_calls w1) = observed (p_calls w)) as Hc1.
  { rewrite Hc, observed_app. destruct q; cbn -[first_message last_message]; apply app_nil_r. }
  apply runs_bind. eapply runs_mono; [|apply (fill_loop_runs a n 0 n _ fuel); [exact Hb|lia|lia|by rewrite Z.sub_0_r]].
  intros [] w2 (Ho & Hh & Hc2). cbn beta.
  assert (keep a n (λ _, minus_one) w2) as Hk by (split; [by eapply buffer_prot; [apply Ho|]|done]).
  change (Z.to_nat NUM_OF_MEMORY_SERVER) with 2%nat. cbn [pfor Z.add].
  rewrite <- Hc1, <- Hc2. clear Hc Hc1 Hc2 Hb Hh Ho. cbn [Z.add] in Hk.
  apply runs_bind, runs_bind, runs_bind. eapply runs_mono; [|by apply (control_write_runs (λ _, minus_one))]. intros [] w3 (Hk3 & O3).
  eapply runs_done; [reflexivity|]. apply runs_bind, runs_bind.
  eapply runs_mono; [|by apply (control_write_runs (λ _, minus_one))]. intros [] w4 (Hk4 & O4).
  eapply runs_done; [reflexivity|]. eapply runs_done; [reflexivity|]. apply runs_bind, runs_bind, runs_bind.
  eapply runs_mono; [|apply control_read_runs; apply Hk4]. intros [] w5 ([Hb5 _] & O5).
  eapply runs_done; [reflexivity|]. apply runs_bind, runs_bind.
  eapply runs_mono; [|by apply control_read_runs]. intros [] w6 ([_ Hz] & O6).
  eapply runs_done; [reflexivity|]. eapply runs_done; [reflexivity|]. eapply runs_done; [reflexivity|].
  split; [done|split; [|exact Hz]]. rewrite O6, O5, O4, O3. by rewrite <- app_assoc.
Qed.

End ControlPath.

(** A kernel that brings back 519 of 4096 bytes. *)
Definition prefix_kernel : vmenv := {|
  ve_ret := λ _ c, match c with V_mmap b _ _ _ => b | _ => 0 end;
  ve_fill := λ _ c b, match c with
    | V_syscall 333 [1; _; a; _] => if in_range b a (512 + 7) then Some 255 else None | _ => None end;
  ve_lost := λ _ _, false;
  ve_drop := λ _, []
|}.
Lemma control_path_prefix_witness :
  runs (@control_path prefix_kernel 513 0x10000 0x1000) vm_start (λ r w', r = 0 ∧
    observed (p_calls w') = [(false, 0, minus_one); (true, 0, minus_one); (false, 1, minus_one); (true, 1, minus_one)] ∧
    ∀ j, 0 <= j < 512 → 512 + 7 <= 8 * j → word (p_data w') (0x10000 + 8 * j) = 0).
Proof.
  apply (@control_path_prefix prefix_kernel 0x10000 512 (512 + 7) 513 ltac:(lia) ltac:(lia) ltac:(lia)
    ltac:(vm_compute; lia) ltac:(lia) ltac:(intros ? ? ?; reflexivity) ltac:(intros ? ? ?; reflexivity) vm_start).
  intros cs. reflexivity.
Defined.

(** ** [filled_tlb_entry_check.c] *)

Lemma zsum_paged (p : nat) : zsum (512 * p) (λ j, j / 512) = 512 * tri (Z.of_nat p).
Proof.
  induction p as [|p IH]; [done|]. replace (512 * S p)%nat with (512 * p + 512)%nat by lia. rewrite zsum_app, IH.
  rewrite (zsum_ext 512 _ (λ _, Z.of_nat p)), zsum_const.
  - unfold tri. rewrite Nat2Z.inj_succ. dlia.
  - intros k Hk. symmetry. apply (Z.div_unique _ _ _ k); lia.
Qed.

Section Tlb.
Context {E : vmenv} (a P : Z) (fuel : nat).
Context (Ha : 0 <= a) (HP : 0 < P) (Hend : a + 8 * (512 * P) <= 2 ^ 64) (Hf : (Z.to_nat (512 * P) < fuel)%nat).

(** The first [m] words hold the number of their page, the others 0. *)
Definition paged (m j : Z) : Z := if j <? m then j / 512 else 0.

Lemma paged_store m i v w :
  keep a (512 * P) (paged m) w → i = m → 0 <= m < 512 * P → v = m / 512 →
  runs (store (Some a) i v) w (λ _ w', keep a (512 * P) (paged (m + 1)) w').
Proof using All.
  intros [Hb Hh] -> Hm ->. eexists _, _. split; [by apply (store_ok a (512 * P))|].
  split; [by eapply buffer_prot; [|exact Hb]|]. intros j Hj. cbn [p_data]. destruct (decide (j = m)) as [->|].
  - rewrite word_put_same. unfold paged. rewrite (proj2 (Z.ltb_lt _ _)) by lia. unfold u64. by rewrite Zmod_mod.
  - rewrite word_put_other, (Hh j Hj) by lia. unfold paged. repeat case_match; try done; lia.
Qed.

Lemma tlb_page_runs k w :
  0 <= k < P → keep a (512 * P) (paged (512 * k)) w →
  runs (tlb_page fuel (Some a) (512 * k)) w (λ _ w', keep a (512 * P) (paged (512 * (k + 1))) w').
Proof using All.
  intros Hk Hw. unfold tlb_page. change page_words with 512.
  eapply runs_exact; [apply (load_ok a (512 * P)); [apply Hw|lia]|]. apply print_runs, runs_bind.
  eapply runs_mono; [|apply (for_lt_runs (λ i _ w', keep a (512 * P) (paged (512 * k + i)) w')); [lia..| | |]].
  - intros [] w1. change (rounds 0 512 1) with 512. intros Hw1. cbn beta.
    replace (512 * k + 512) with (512 * (k + 1)) in Hw1 by lia.
    apply (kept_runs a (512 * P) (paged (512 * (k + 1)))); [|exact Hw1|intros [] w2 Hw2].
    { destruct (Z.leb_spec 512 (512 * k)); [apply kept_bind; [apply kept_load; lia|intros; apply kept_printf]|apply kept_ret]. }
    apply (kept_runs a (512 * P) (paged (512 * (k + 1)))); [apply kept_load; lia|exact Hw2|intros x w3 Hw3].
    by apply kept_printf.
  - intros i [] w1 Hi Hlt Hw1. cbn beta. replace (512 * k + (i + 1)) with (512 * k + i + 1) by lia. apply (paged_store (512 * k + i)); [done|lia|lia|]. clear -Hi Hlt. dlia.
  - by rewrite Z.add_0_r.
  - change (Z.to_nat (rounds 0 512 1)) with 512%nat. lia.
Qed.

(** [filled_tlb_entry_check.c] writes the number of each page into all its
    words and prints 512 times the sum of those numbers. *)
Theorem filled_tlb_sum w :
  commit_ok 0 a (8 * (512 * P)) →
  runs (filled_tlb fuel a (8 * (512 * P))) w (λ r w',
    prints_sum (u64 (512 * tri P)) r w' ∧ holds (p_data w') a (λ j, j / 512) 0 (512 * P)).
Proof using All.
  intros Hok. unfold filled_tlb. rewrite words_mul. change page_words with 512. apply runs_bind.
  eapply runs_mono; [|apply map_with_runs; [done|lia|done|done]]. intros p w1 (-> & Hb & Hh & _). cbn beta. apply print_runs, runs_bind.
  assert (rounds 0 (512 * P) 512 = P) as HrP.
  { unfold rounds. symmetry. apply (Z.div_unique _ _ _ 511); lia. }
  eapply runs_mono; [|apply (for_lt_runs (λ k _ w', keep a (512 * P) (paged (512 * k)) w')); [lia..| | |]].
  - intros [] w2. rewrite HrP. intros Hw2. cbn beta. apply print_runs.
    assert (keep a (512 * P) (λ j, j / 512) w2) as Hw3.
    { destruct Hw2 as [H1 H2]. split; [done|]. intros j Hj. rewrite (H2 j Hj). unfold paged. by rewrite (proj2 (Z.ltb_lt _ _)) by lia. }
    eapply keep_sum_runs; [exact Hw3|lia|lia|lia|lia|by rewrite rounds_one, Z.sub_0_r|]. cbn beta.
    rewrite rounds_one, Z.sub_0_r, Z.add_0_l. rewrite (zsum_ext _ _ (λ j, j / 512)) by (intros j Hj; f_equal; lia).
    replace (Z.to_nat (512 * P)) with (512 * Z.to_nat P)%nat by lia. rewrite zsum_paged, Z2Nat.id by lia.
    eexists _, _. split; [reflexivity|]. split; [split; [done|apply last_snoc]|]. apply Hw3.
  - intros k [] w2 Hk Hlt Hw2. apply tlb_page_runs; [lia|done].
  - split; [exact Hb|]. intros j Hj. cbn [p_data]. rewrite (Hh j Hj). unfold paged. by rewrite (proj2 (Z.ltb_ge _ _)) by lia.
  - rewrite HrP. lia.
Qed.

End Tlb.

(** 256 pages: 0xff0000, not the value of the comment. *)
Lemma filled_tlb_sum_witness :
  runs (@filled_tlb_main good_kernel (S (Z.to_nat (2 ^ 17)))) vm_start (λ r w', prints_sum 0xff0000 r w' ∧
    holds (p_data w') 0x400100000000 (λ j, j / 512) 0 (512 * 256)).
Proof.
  apply (@filled_tlb_sum good_kernel 0x400100000000 256 (S (Z.to_nat (2 ^ 17))));
    [lia|lia|lia|apply Nat.lt_succ_diag_r|exact (good_commit _ _ _)].
Defined.

(** ** [mremap.c] *)

Section Mremap.
Context {E : vmenv}.
Implicit Types w : pstate vm vcall.

Definition stride_messages (format : string) (m : Z) (f : Z → Z) : list vcall :=
  map (λ k, V_print format [512 * k; u64 (f (512 * k))]) (seqZ 0 m).

Lemma print_stride_ok a n m f fuel format w :
  keep a n f w → 0 <= m <= n → n + 512 <= 2 ^ 64 → (Z.to_nat m < fuel)%nat →
  print_stride fuel format (Some a) m w =
    Done tt (mkPstate (p_data w) (p_calls w ++ stride_messages format (rounds 0 m 512) f)).
Proof.
  intros [Hb Hh] Hm Hn Hf. unfold print_stride. pose proof (rounds_range m 512 ltac:(lia) ltac:(lia)) as Hr.
  destruct (for_lt_runs (λ k _ w', w' = mkPstate (p_data w) (p_calls w ++ stride_messages format k f))
    0 m 512 (λ i _, x ← load (Some a) i; printf format [i; x]) fuel tt w) as ([] & w' & He & ->); [lia..| | |lia|exact He].
  - intros k [] w' Hk Hlt ->. eexists tt, _. split.
    { erewrite prog_bind_step; [|apply (load_ok a n); [exact Hb|lia]]. reflexivity. }
    cbn [p_data p_calls]. rewrite !Z.add_0_l, (Hh (512 * k)) by lia. f_equal. rewrite <- app_assoc. f_equal.
    unfold stride_messages. rewrite (seqZ_app 0 k 1), map_app by lia. by rewrite Z.add_0_l.
  - cbn. rewrite app_nil_r. by destruct w.
Qed.

Lemma app_tail {A} (l m n : list A) x : ((l ++ m) ++ [x]) ++ n = l ++ m ++ x :: n.
Proof. by rewrite <- !app_assoc. Qed.

(** Both buffers before the call, which nothing else has touched. *)
Lemma mremap_setup_runs fuel w :
  commit_ok 0 user_buffer_addr user_buffer_size → commit_ok 0 target_request_addr target_size → (Z.to_nat 8192 < fuel)%nat →
  runs (mremap_setup fuel) w (λ p w', p = (Some user_buffer_addr, Some target_request_addr) ∧
    keep user_buffer_addr 1024 (λ _, 7) w' ∧ keep target_request_addr 8192 id w' ∧
    ∀ b, 0x50000000 <= b → v_prot (p_data w') b = v_prot (p_data w) b).
Proof.
  intros Hu Ht Hf. unfold mremap_setup.
  change user_buffer_size with (8 * 1024) in *. change target_size with (8 * 8192) in *. rewrite !words_mul.
  unfold commit_anon_memory. apply runs_bind. unfold user_buffer_addr, target_request_addr in *.
  eapply runs_mono; [|apply commit_runs; [lia..|exact Hu]]. intros p w1 (-> & Hb1 & Hh1 & _ & Ha1). cbn beta.
  apply print_runs, runs_bind. eapply runs_mono; [|apply commit_runs; [lia..|exact Ht]].
  intros p w2 (-> & Hb2 & _ & _ & Ha2). cbn beta. change (page_up (8 * 1024)) with (8 * 1024) in Ha1.
  change (page_up (8 * 8192)) with (8 * 8192) in Ha2. cbn [p_data] in Ha2.
  assert (buffer (p_data w2) 0x20000000 1024) as Hb3.
  { apply (keep_apart 0x20000000 1024 (λ _, 0) 0x40000000 (8 * 8192) w1); [done|lia|by split]. }
  apply print_runs, runs_bind.
  eapply runs_mono; [|apply (fill_loop_runs 0x20000000 1024 0 1024 _ fuel); [exact Hb3|lia..]].
  intros [] w3 (Ho3 & Hh3 & _). cbn beta. apply print_runs. cbn [p_data] in Ho3.
  assert (keep 0x20000000 1024 (λ _, 7) w3) as Hk3 by (split; [by eapply buffer_prot; [apply Ho3|]|done]).
  eapply runs_exact; [apply (print_stride_ok 0x20000000 1024 1024 (λ _, 7)); [exact Hk3|lia..]|].
  apply runs_bind. eapply runs_mono; [|apply (fill_loop_runs 0x40000000 8192 0 8192 id fuel); [|lia..]].
  2: { cbn [p_data]. eapply buffer_prot; [apply Ho3|exact Hb2]. }
  intros [] w4 (Ho4 & Hh4 & _). cbn beta. apply print_runs. cbn [p_data] in Ho4.
  assert (keep 0x40000000 8192 id w4) as Hk4.
  { split; [|done]. eapply buffer_prot; [apply Ho4|]. eapply buffer_prot; [apply Ho3|exact Hb2]. }
  eapply runs_exact; [apply (print_stride_ok 0x40000000 8192 8192 id); [exact Hk4|lia..]|].
  eexists _, _. split; [reflexivity|]. cbn [p_data]. split; [done|split; [|split; [exact Hk4|]]].
  - eapply keep_apart; [eapply only_apart, Ho4|lia|exact Hk3].
  - intros b Hb. rewrite (proj1 Ho4), (proj1 Ho3), (proj1 (Ha2 b ltac:(lia))). apply Ha1. lia.
Qed.

(** The words after [mremap]: those of the old buffer, then zeros. *)
Definition remapped (j : Z) : Z := if j <? 1024 then 7 else 0.

Lemma move_keep s calls :
  keep user_buffer_addr 1024 (λ _, 7) (mkPstate s calls) →
  ∀ calls', keep target_request_addr 8192 remapped
    (mkPstate (move_range user_buffer_addr user_buffer_size target_size target_request_addr s) calls').
Proof.
  unfold user_buffer_addr, target_request_addr. intros [(H1 & H2 & H3) H4] calls'.
  change (page_up 0x2000) with 0x2000. split; [split; [lia|split; [lia|]]|].
  - intros b Hb. cbn. rewrite (proj2 (in_range_true _ _ _)) by (change (page_up target_size) with 0x10000; lia).
    apply H3. lia.
  - intros j Hj. cbn [p_data]. unfold remapped. destruct (Z.ltb_spec j 1024) as [Hlt|Hge].
    + rewrite <- (H4 j ltac:(lia)). apply word_ext. intros k Hk. cbn.
      rewrite (proj2 (in_range_true _ _ _)) by (change (page_up user_buffer_size) with 0x2000; lia).
      f_equal. lia.
    + apply word_zero. intros k Hk. cbn.
      rewrite (proj2 (in_range_false _ _ _)) by (change (page_up user_buffer_size) with 0x2000; lia).
      by rewrite (proj2 (in_range_true _ _ _)) by (change (page_up target_size) with 0x10000; lia).
Qed.

Definition mremap_call : vcall :=
  V_mremap (Some user_buffer_addr) user_buffer_size target_size 3 (Some target_request_addr).

(** C26. When [mremap] succeeds the test prints the two pages of the old buffer
    and then zeros, twice: through the returned pointer and through
    [target_buff], whose own content is gone; and an access to the old buffer
    would end the program. *)
Theorem mremap_moves fuel w :
  commit_ok 0 user_buffer_addr user_buffer_size → commit_ok 0 target_request_addr target_size → (Z.to_nat 8192 < fuel)%nat →
  (∀ cs, ve_ret cs mremap_call = target_request_addr) →
  runs (mremap_main fuel) w (λ r w', r = 0 ∧ (∃ cs, p_calls w' = cs ++
      stride_messages "ret[%lu] %lu " 16 remapped ++
      V_print "Check the remapped value of target buffer 0x%lx " [target_request_addr] ::
      stride_messages "target_buff[%lu] %lu " 16 remapped) ∧
    load (Some user_buffer_addr) 0 w' = Fault BadPtr).
Proof.
  intros Hu Ht Hf Hr. unfold mremap_main. apply runs_bind. eapply runs_mono; [|by apply mremap_setup_runs].
  intros p w1 (-> & Hk & _ & _). cbn [fst snd]. unfold mremap_check.
  assert (mremap (Some user_buffer_addr) user_buffer_size target_size 3 (Some target_request_addr) w1 =
    Done target_request_addr (mkPstate (move_range user_buffer_addr user_buffer_size target_size target_request_addr (p_data w1))
      (p_calls w1 ++ [mremap_call]))) as Hm.
  { unfold mremap, mbind, prog_bind, ask. fold mremap_call. rewrite (Hr (p_calls w1)). reflexivity. }
  eapply runs_exact; [exact Hm|]. change (target_request_addr =? MAP_FAILED) with false. cbv iota.
  apply runs_bind. eapply runs_done; [reflexivity|]. apply print_runs. cbn [p_data p_calls].
  pose proof (move_keep (p_data w1) (p_calls w1) ltac:(destruct w1; exact Hk)) as Hmv.
  change (words target_size) with 8192.
  eapply runs_exact; [apply (print_stride_ok target_request_addr 8192 8192 remapped); [apply Hmv|lia..]|]. apply print_runs.
  eapply runs_exact; [apply (print_stride_ok target_request_addr 8192 8192 remapped); [apply Hmv|lia..]|].
  eexists _, _. split; [reflexivity|]. cbn [p_calls p_data]. split; [done|split].
  - change (rounds 0 8192 512) with 16. eexists. apply app_tail.
  - reflexivity.
Qed.

(** When [mremap] fails the test ends on its own error message: the
    format prints the returned pointer, [MAP_FAILED], as a string. *)
Theorem mremap_failure_crashes fuel w :
  commit_ok 0 user_buffer_addr user_buffer_size → commit_ok 0 target_request_addr target_size → (Z.to_nat 8192 < fuel)%nat →
  (∀ cs, ve_ret cs mremap_call = MAP_FAILED) → v_prot (p_data w) MAP_FAILED = None →
  mremap_main fuel w = Fault BadPtr.
Proof.
  intros Hu Ht Hf Hr Hnull. unfold mremap_main. eapply runs_fault; [by apply mremap_setup_runs|].
  intros p w1 (-> & _ & _ & Hp). cbn [fst snd]. unfold mremap_check.
  assert (∃ s, mremap (Some user_buffer_addr) user_buffer_size target_size 3 (Some target_request_addr) w1 =
    Done MAP_FAILED (mkPstate s (p_calls w1 ++ [mremap_call])) ∧ v_prot s MAP_FAILED = None) as (s & Hm & Hs).
  { unfold mremap, mbind, prog_bind, ask. fold mremap_call. cbv beta iota. cbn [fst snd]. rewrite (Hr (p_calls w1)), Z.eqb_refl.
    eexists. split; [reflexivity|]. cbn. by destruct (ve_lost _ _); cbn; rewrite Hp. }
  rewrite (prog_bind_step _ _ _ _ _ Hm). cbv beta. rewrite Z.eqb_refl.
  apply prog_bind_fault. unfold printf_string. erewrite prog_bind_step by reflexivity. cbn. by rewrite Hs.
Qed.

End Mremap.

Definition mremap_kernel (ret : Z) : vmenv := {|
  ve_ret := λ _ c, match c with V_mmap b _ _ _ => b | V_mremap _ _ _ _ _ => ret | _ => 0 end;
  ve_fill := λ _ _ _, None;
  ve_lost := λ _ _, false;
  ve_drop := λ _, []
|}.

Lemma mremap_moves_witness :
  runs (@mremap_main (mremap_kernel 0x40000000) (S (Z.to_nat 8192))) vm_start (λ r w', r = 0 ∧ (∃ cs, p_calls w' = cs ++
      stride_messages "ret[%lu] %lu " 16 remapped ++
      V_print "Check the remapped value of target buffer 0x%lx " [target_request_addr] ::
      stride_messages "target_buff[%lu] %lu " 16 remapped) ∧
    load (Some user_buffer_addr) 0 w' = Fault BadPtr).
Proof.
  apply (@mremap_moves (mremap_kernel 0x40000000) (S (Z.to_nat 8192)) vm_start);
    [intros ?; reflexivity|intros ?; reflexivity|lia|intros ?; reflexivity].
Defined.

Lemma mremap_failure_crashes_witness :
  @mremap_main (mremap_kernel MAP_FAILED) (S (Z.to_nat 8192)) vm_start = Fault BadPtr.
Proof.
  apply (@mremap_failure_crashes (mremap_kernel MAP_FAILED) (S (Z.to_nat 8192)) vm_start);
    [intros ?; reflexivity|intros ?; reflexivity|lia|intros ?; reflexivity|reflexivity].
Defined.
