(* ===== verification/SwapThreads.v ===== *)
(** * The swap tests with threads

    [src/block_device/swap/swap_mmap_multi_thread.cpp] and
    [swap_mmap_dual_path.c], and [src/Kernel-dev/syscall/cp_flush_and_send_flag.cpp]:
    [main] commits one or two buffers and creates threads that fill a buffer
    with its indices and then add words of it up.

    A thread is a state machine ([scan]); [scan_step] is one round of a loop of
    the thread functions, one access to the shared memory each (what a thread
    prints before its first loop is left out).  [threads_step]
    interleaves [main], which creates the threads one by one and may give up in
    the middle, with the threads it has created.

    The theorems: whatever the interleaving, and although the threads of the
    overlapping scans write the same words, no access faults, every thread ends
    and the sums are those of a thread alone; the slices of the disjoint scan
    make up the array. *)

From Stdlib Require Import String.
From S2P Require Import Prelude BitOps OctTypes Kernel Prog VmArea SwapTests.

Inductive scan :=
| Filling (i : Z)            (* first loop *)
| Flushing                   (* between the loops *)
| Summing (i sum : Z)        (* second loop *)
| Over (sum : Z).            (* pthread_exit *)

Section Threads.
Context {E : vmenv}.

(** What the thread functions differ in, by thread: the buffer, [array_start],
    [array_slice], the step of the second loop, the index it reads in a round
    and what is done between the loops. *)
Record scan_fun := mkScan {
  sf_buf : Z → option Z;
  sf_start : Z → Z;
  sf_slice : Z → Z;
  sf_stride : Z;
  sf_index : Z → Z → VP Z;
  sf_flush : Z → VP unit;
  sf_message : Z → Z → VP unit
}.

Definition scan_step (f : scan_fun) (tid : Z) (t : scan) : VP scan :=
  let array_end := u64 (sf_start f tid + sf_slice f tid) in
  match t with
  | Filling i =>
      if i <? array_end then store (sf_buf f tid) i i;; mret (Filling (u64 (i + 1))) else mret Flushing
  | Flushing => sf_flush f tid;; mret (Summing (sf_start f tid) 0)
  | Summing i sum =>
      if i <? array_end then
        j ← sf_index f tid i; x ← load (sf_buf f tid) j; mret (Summing (u64 (i + sf_stride f)) (u64 (sum + x)))
      else sf_message f tid sum;; mret (Over sum)
  | Over sum => mret (Over sum)
  end.

(** ** The thread functions *)

Definition online_cores : Z := 8.
Definition sum_message (tid sum : Z) : VP unit := printf "Thread[%lu] sum : 0x%lx " [tid; sum].
Definition slice_message (buf : Z) (slice tid sum : Z) : VP unit :=
  printf "Thread[%lu] sum : 0x%lx of array_slice[0x%lx, 0x%lx ]  " [tid; sum; buf; u64 (buf + 8 * slice)].
Definition no_flush (tid : Z) : VP unit := printf "Thread[%lu] Phase #2, trigger swap in." [tid].

(** [array_size] is [ARRAY_BYTE_SIZE]. *)
Definition scan_array_no_overleap (buf array_size : Z) : scan_fun :=
  let array_slice := words array_size / online_cores in
  mkScan (λ _, Some buf) (λ tid, u64 (array_slice * tid)) (λ _, array_slice) 1 (λ _ i, mret i) no_flush sum_message.

(** [dist] gives numbers from 1 to 1 GB. *)
Definition scan_array_random_overleap (buf array_size : Z) : scan_fun :=
  let array_slice := words array_size in
  mkScan (λ _, Some buf) (λ _, 0) (λ _, array_slice) 32
    (λ _ i, r ← ask ve_ret V_rand; mret (u64 (u64 r * i) mod (array_slice / 8))) no_flush (slice_message buf array_slice).

Definition scan_array_sequential_overleap (buf array_size : Z) : scan_fun :=
  let array_slice := words array_size in
  mkScan (λ _, Some buf) (λ _, 0) (λ _, array_slice) (PAGE_SIZE / 8) (λ _ i, mret i) no_flush (slice_message buf array_slice).

(** [cp_flush_and_send_flag.cpp]: the slice is swapped out between the loops. *)
Definition force_array_swapout_no_overleap (buf array_size : Z) : scan_fun :=
  let array_slice := words array_size / online_cores in
  let array_slice_byte := array_slice * 8 in
  mkScan (λ _, Some buf) (λ tid, u64 (array_slice * tid)) (λ _, array_slice) 1 (λ _ i, mret i)
    (λ tid,
      let flush_start := u64 (buf + tid * array_slice_byte) in
      printf "Thread[%lu] Phase#2, force swap out all the pages" [tid];;
      printf "Force swap out [0x%lx, 0x%lx]" [flush_start; u64 (flush_start + array_slice_byte)];;
      r ← syscall SYS_do_semeru_rdma_ops [0x4; 0; flush_start; array_slice_byte];
      printf "System call id SYS_do_semeru_rdma_ops, type 0x%x, memory server %d, returned %d " [0x4; 0; i32 r];;
      printf "Thread[%lu] Phase #3, trigger swap in." [tid])
    sum_message.

(** [swap_mmap_dual_path.c]: thread 0 works on the fast buffer, thread 1 on the
    slow one, another one on nothing. *)
Definition dual_scan (fast slow : option Z) (array_size : Z) : scan_fun :=
  mkScan (λ tid, if tid =? 0 then fast else if tid =? 1 then slow else None) (λ _, 0)
    (λ tid, if (tid =? 0) || (tid =? 1) then words array_size else 0) 1 (λ _ i, mret i) no_flush sum_message.

(** ** [main] *)

(** The buffer of [swap_mmap_multi_thread.cpp] and of [cp_flush_and_send_flag.cpp]. *)
Definition ARRAY_START_ADDR : Z := 0x400000000000 - 3 * ONE_GB - ONE_MB.
Definition ARRAY_BYTE_SIZE : Z := 11 * ONE_GB.
Definition flush_ARRAY_START_ADDR : Z := 0x400100000000.
Definition flush_ARRAY_BYTE_SIZE : Z := 128 * ONE_MB.
Definition multi_thread_setup (request_addr size : Z) : VP (option Z) := tell V_srand;; map_buffer request_addr size.

(** [cp_flush_and_send_flag.cpp] has the scans too, for its own array, and
    starts the one that swaps its slice out.  [flush_exit]: what its [main] does
    after its loop. *)
Definition flush_scan_array_no_overleap (buf : Z) : scan_fun := scan_array_no_overleap buf flush_ARRAY_BYTE_SIZE.
Definition flush_scan_array_random_overleap (buf : Z) : scan_fun := scan_array_random_overleap buf flush_ARRAY_BYTE_SIZE.
Definition flush_scan_array_sequential_overleap (buf : Z) : scan_fun := scan_array_sequential_overleap buf flush_ARRAY_BYTE_SIZE.
Definition flush_setup : VP (option Z) := multi_thread_setup flush_ARRAY_START_ADDR flush_ARRAY_BYTE_SIZE.
Definition flush_thread (buf : Z) : scan_fun := force_array_swapout_no_overleap buf flush_ARRAY_BYTE_SIZE.
Definition flush_exit : VP unit := tell (V_sleep 1).

(** [swap_mmap_dual_path.c]; the last check is of [user_buff] again. *)
Definition dual_path_setup (fast_addr slow_addr size : Z) : VP (option Z * option Z) :=
  user_buff ← reserve_anon_memory fast_addr size true; print_reserve user_buff fast_addr size;;
  user_buff_slow_path ← reserve_anon_memory slow_addr size true; print_reserve user_buff_slow_path slow_addr size;;
  user_buff ← commit_anon_memory fast_addr size false; print_commit user_buff fast_addr size;;
  user_buff_slow_path ← commit_anon_memory slow_addr size false;
  (match user_buff with
   | None => printf "Commit user_buffer, 0x%lx failed. " [fast_addr]
   | Some _ => printf "Commit user_buffer: 0x%lx, bytes_len: 0x%lx " [addr_of user_buff_slow_path; size]
   end);;
  mret (user_buff, user_buff_slow_path).
Definition dual_path_main_setup : VP (option Z * option Z) := dual_path_setup 0x400000000000 0x300000000000 0x80000000.

(** [main] is in its loop, has left by [pthread_exit], or has returned, which
    ends every thread. *)
Inductive main_state := Creating (i : Z) | Exiting | Returned.

(** One round of the loop over [n] threads: the new state, and whether a
    thread was created. *)
Definition create_step (n i : Z) : VP (main_state * bool) :=
  if i <? n then
    ret ← ask ve_ret (V_pthread_create i);
    if i32 ret =? 0 then mret (Creating (i + 1), true)
    else printf "ERROR; return code from pthread_create() is %d" [i32 ret];; mret (Returned, false)
  else mret (Exiting, false).

(** ** Interleavings *)

Record config := mkConfig { c_world : pstate vm vcall; c_main : main_state; c_threads : list scan }.

Definition started (f : scan_fun) (ts : list scan) : list scan := ts ++ [Filling (sf_start f (Z.of_nat (length ts)))].

Inductive threads_step (f : scan_fun) (n : Z) : config → config → Prop :=
| ts_create w w' i m new ts :
    create_step n i w = Done (m, new) w' →
    threads_step f n (mkConfig w (Creating i) ts) (mkConfig w' m (if new : bool then started f ts else ts))
| ts_thread w w' m ts k t t' :
    m ≠ Returned → ts !! k = Some t → (∀ sum, t ≠ Over sum) → scan_step f (Z.of_nat k) t w = Done t' w' →
    threads_step f n (mkConfig w m ts) (mkConfig w' m (<[k := t']> ts)).

End Threads.

(** ** All interleavings *)

Section Interleavings.
Context {E : vmenv} (f : scan_fun) (n : Z) (bufa : Z → Z) (sz : Z).

(** Thread [t] works on [sz] words at [bufa t]; two threads have the same
    buffer or disjoint ones. *)
Context (Hn : 0 <= n) (Hbuf : ∀ t, 0 <= t < n → sf_buf f t = Some (bufa t)).
Context (Hdisj : ∀ t u, 0 <= t < n → 0 <= u < n →
           bufa t = bufa u ∨ bufa t + 8 * sz <= bufa u ∨ bufa u + 8 * sz <= bufa t).
Context (Hslice : ∀ t, 0 <= t < n → 0 <= sf_start f t ∧ 0 <= sf_slice f t ∧ sf_start f t + sf_slice f t <= sz).
Context (Hstride : 0 < sf_stride f) (Hsz : 0 <= sz) (Hend : sz + sf_stride f < 2 ^ 64).

(** [P t k sum]: what [sum] can be after [k] rounds of the second loop. *)
Context (P : Z → Z → Z → Prop) (HP0 : ∀ t, 0 <= t < n → P t 0 0).

#[local] Abbreviation stop t := (sf_start f t + sf_slice f t).
#[local] Abbreviation total t := (rounds (sf_start f t) (stop t) (sf_stride f)).

(** Steps that do not touch the memory. *)
Definition undisturbed (w w' : pstate vm vcall) : Prop :=
  v_prot (p_data w') = v_prot (p_data w) ∧ ∀ b, v_byte (p_data w') b = v_byte (p_data w) b.
Definition quiet {A} (m : VP A) : Prop := ∀ w, runs m w (λ _ w', undisturbed w w').

Context (Hindex : ∀ t k sum w, 0 <= t < n → 0 <= k → sf_start f t + sf_stride f * k < stop t → P t k sum →
           runs (sf_index f t (sf_start f t + sf_stride f * k)) w (λ j w',
             undisturbed w w' ∧ sf_start f t <= j < stop t ∧ P t (k + 1) (u64 (sum + j)))).
Context (Hflush : ∀ t, 0 <= t < n → quiet (sf_flush f t)) (Hmessage : ∀ t sum, quiet (sf_message f t sum)).

Definition mapped (w : pstate vm vcall) : Prop := ∀ t, 0 <= t < n → buffer (p_data w) (bufa t) sz.

(** What any thread may do to the memory of the others: write an index to its
    place. *)
Definition harmless (w w' : pstate vm vcall) : Prop :=
  v_prot (p_data w') = v_prot (p_data w) ∧
  ∀ t j, 0 <= t < n → 0 <= j < sz →
    word (p_data w') (bufa t + 8 * j) = word (p_data w) (bufa t + 8 * j) ∨ word (p_data w') (bufa t + 8 * j) = u64 j.

Definition thread_ok (t : Z) (st : scan) (w : pstate vm vcall) : Prop :=
  match st with
  | Filling i => sf_start f t <= i <= stop t ∧ holds (p_data w) (bufa t) id (sf_start f t) i
  | Flushing => holds (p_data w) (bufa t) id (sf_start f t) (stop t)
  | Summing i sum => ∃ k, 0 <= k <= total t ∧ i = sf_start f t + sf_stride f * k ∧ P t k sum ∧
                       holds (p_data w) (bufa t) id (sf_start f t) (stop t)
  | Over sum => P t (total t) sum
  end.

(** Steps left. *)
Definition steps_left (t : Z) (st : scan) : nat :=
  match st with
  | Filling i => Z.to_nat (stop t - i) + Z.to_nat (sf_slice f t + sf_stride f) + 2
  | Flushing => Z.to_nat (sf_slice f t + sf_stride f) + 1
  | Summing i _ => Z.to_nat (stop t + sf_stride f - i)
  | Over _ => 0
  end.

Lemma undisturbed_harmless w w' : undisturbed w w' → harmless w w'.
Proof using Type. intros [H1 H2]. split; [done|]. intros t j _ _. left. apply word_ext. intros k _. apply H2. Qed.

Lemma undisturbed_holds w w' a g i m : undisturbed w w' → holds (p_data w) a g i m → holds (p_data w') a g i m.
Proof using Type. intros [_ Hb] H j Hj. rewrite <- (H j Hj). apply word_ext. intros k _. apply Hb. Qed.

Lemma harmless_holds w w' t i m :
  harmless w w' → 0 <= t < n → 0 <= i → m <= sz → holds (p_data w) (bufa t) id i m → holds (p_data w') (bufa t) id i m.
Proof using Type. intros [_ Hw] Ht Hi Hm H j Hj. destruct (Hw t j Ht ltac:(lia)) as [->| ->]; [by apply H|done]. Qed.

Lemma harmless_ok w w' t st : harmless w w' → 0 <= t < n → thread_ok t st w → thread_ok t st w'.
Proof using All.
  intros Hw Ht. destruct (Hslice t Ht) as (H1 & H2 & H3). destruct st as [i| |i sum|sum]; cbn; [| | |done].
  - intros [Hi Hh]. split; [done|]. by apply (harmless_holds w w'); try lia.
  - intros Hh. by apply (harmless_holds w w'); try lia.
  - intros (k & Hk & Hi & HP & Hh). exists k. do 3 (split; [done|]). by apply (harmless_holds w w'); try lia.
Qed.

Lemma harmless_mapped w w' : harmless w w' → mapped w → mapped w'.
Proof using Type. intros [Hp _] Hm t Ht. eapply buffer_prot; [exact Hp|by apply Hm]. Qed.

Lemma store_harmless w t i calls :
  0 <= t < n → 0 <= i < sz → harmless w (mkPstate (put_word (bufa t + 8 * i) (u64 i) (p_data w)) calls).
Proof using All.
  intros Ht Hi. split; [done|]. intros u j Hu Hj. cbn [p_data].
  destruct (Hdisj t u Ht Hu) as [He|Hd].
  - rewrite He. destruct (decide (i = j)) as [->|]; [right; rewrite word_put_same; unfold u64; by rewrite Zmod_mod|].
    left. apply word_put_other. lia.
  - left. apply word_put_other. lia.
Qed.

(** Every thread that is not over can make a step, which is harmless, keeps it
    in order and leaves fewer steps. *)
Lemma scan_step_ok t st w :
  0 <= t < n → mapped w → thread_ok t st w → (∀ sum, st ≠ Over sum) →
  runs (scan_step f t st) w (λ st' w', harmless w w' ∧ thread_ok t st' w' ∧ (steps_left t st' < steps_left t st)%nat).
Proof using All.
  intros Ht Hm Hok Hnot. destruct (Hslice t Ht) as (H1 & H2 & H3). unfold scan_step.
  rewrite (u64_id (stop t)) by lia. rewrite Hbuf by done. pose proof (Hm t Ht) as Hb.
  destruct st as [i| |i sum|sum]; cbn in Hok; [| | |by destruct (Hnot sum)].
  - destruct Hok as [Hi Hh]. destruct (Z.ltb_spec i (stop t)) as [Hlt|Hge].
    + eapply runs_exact; [apply (store_ok _ sz); [exact Hb|lia]|]. rewrite (u64_id (i + 1)) by lia.
      eexists _, _. split; [reflexivity|].
      assert (harmless w (mkPstate (put_word (bufa t + 8 * i) (u64 i) (p_data w)) (p_calls w))) as Hs by (apply store_harmless; lia).
      split; [exact Hs|split; [|cbn; lia]]. split; [lia|]. intros j Hj. destruct (decide (j = i)) as [->|].
      * cbn. rewrite word_put_same. unfold u64, id. by rewrite Zmod_mod.
      * apply (harmless_holds _ _ t (sf_start f t) i Hs Ht); try done; lia.
    + eexists _, _. split; [reflexivity|]. split; [by apply undisturbed_harmless|]. replace i with (stop t) in Hh by lia.
      split; [exact Hh|]. cbn. lia.
  - apply runs_bind. eapply runs_mono; [|by apply Hflush]. intros [] w1 Hw1. eexists _, _. split; [reflexivity|].
    split; [by apply undisturbed_harmless|split; [|cbn; lia]]. exists 0. split; [split; [lia|apply rounds_nonneg; lia]|].
    split; [lia|split; [by apply HP0|]]. by eapply undisturbed_holds.
  - destruct Hok as (k & Hk & -> & HP & Hh). pose proof (rounds_lt (sf_start f t) (stop t) (sf_stride f) k Hstride) as Hlt.
    destruct (Z.ltb_spec (sf_start f t + sf_stride f * k) (stop t)) as [Hk'|Hk'].
    + apply runs_bind. eapply runs_mono; [|apply Hindex; [done|lia|done|exact HP]]. intros j w1 (Hw1 & Hj & HP1). cbn beta.
      pose proof (undisturbed_harmless _ _ Hw1) as Hw1'.
      eapply runs_exact; [apply (load_ok _ sz); [by apply (harmless_mapped _ _ Hw1' Hm)|lia]|].
      eexists _, _. split; [reflexivity|]. split; [done|]. rewrite u64_id by nia.
      split; [|cbn; lia]. exists (k + 1). split; [lia|split; [lia|]].
      rewrite (undisturbed_holds _ _ _ _ _ _ Hw1 Hh j Hj), u64_add_r.
      split; [done|]. by eapply undisturbed_holds.
    + apply runs_bind. eapply runs_mono; [|by apply Hmessage]. intros [] w1 Hw1. eexists _, _. split; [reflexivity|].
      split; [by apply undisturbed_harmless|]. replace k with (total t) in * by lia. split; [exact HP|].
      cbn. pose proof (rounds_lt (sf_start f t) (stop t) (sf_stride f) (total t - 1) Hstride). destruct (decide (total t = 0)); nia.
Qed.

(** *** Configurations *)

Definition config_ok (c : config) : Prop :=
  mapped (c_world c) ∧ Z.of_nat (length (c_threads c)) <= n ∧
  match c_main c with
  | Creating i => i = Z.of_nat (length (c_threads c))
  | Exiting => Z.of_nat (length (c_threads c)) = n
  | Returned => True
  end ∧
  ∀ k st, c_threads c !! k = Some st → thread_ok (Z.of_nat k) st (c_world c).

(** What is left to do: for each thread, created or not, and for [main]. *)
Definition share (ts : list scan) (t : Z) : Z :=
  match ts !! Z.to_nat t with
  | Some st => Z.of_nat (steps_left t st)
  | None => Z.of_nat (steps_left t (Filling (sf_start f t))) + 1
  end.
Definition work_left (c : config) : Z :=
  zsum (Z.to_nat n) (share (c_threads c)) + match c_main c with Creating _ => 1 | _ => 0 end.

Lemma work_left_nonneg c : 0 <= work_left c.
Proof using Type.
  assert (0 <= zsum (Z.to_nat n) (share (c_threads c))); [|unfold work_left; destruct (c_main c); lia].
  induction (Z.to_nat n) as [|m IH]; [done|]. rewrite zsum_S. unfold share at 2. case_match; lia.
Qed.

Lemma share_insert ts k st t :
  (k < length ts)%nat → share (<[k := st]> ts) t = if decide (t = Z.of_nat k) then Z.of_nat (steps_left t st) else
    if decide (t < 0) then share (<[k := st]> ts) t else share ts t.
Proof using Type.
  intros Hk. destruct (decide (t = Z.of_nat k)) as [->|Hne].
  - unfold share. by rewrite Nat2Z.id, list_lookup_insert_eq.
  - destruct (decide (t < 0)); [done|]. unfold share. by rewrite list_lookup_insert_ne by lia.
Qed.

Lemma share_started ts t :
  0 <= t → share (started f ts) t = if decide (t = Z.of_nat (length ts)) then share ts t - 1 else share ts t.
Proof using Type.
  intros Ht. unfold share, started. destruct (decide (t = Z.of_nat (length ts))) as [->|Hne].
  - rewrite Nat2Z.id, lookup_app_r, Nat.sub_diag, (lookup_ge_None_2 ts) by lia. cbn [lookup list_lookup]. lia.
  - destruct (decide (Z.to_nat t < length ts)%nat); [by rewrite lookup_app_l|].
    rewrite !(lookup_ge_None_2 _ (Z.to_nat t)); rewrite ?length_app; cbn [length]; try done; lia.
Qed.

Lemma create_step_cases i w m new w' :
  create_step n i w = Done (m, new) w' → undisturbed w w' ∧
    ((i < n ∧ m = Creating (i + 1) ∧ new = true) ∨ (i < n ∧ m = Returned ∧ new = false) ∨ (n <= i ∧ m = Exiting ∧ new = false)).
Proof using Type.
  unfold create_step. destruct (Z.ltb_spec i n) as [Hi|Hi]; [|intros [= <- <- <-]; split; [done|tauto]].
  unfold mbind, prog_bind, ask. destruct (i32 _ =? 0); intros [= <- <- <-]; (split; [done|tauto]).
Qed.

Lemma config_step c c' : config_ok c → threads_step f n c c' → config_ok c' ∧ work_left c' < work_left c.
Proof using All.
  intros (Hm & Hlen & Hmain & Hts) Hstep. destruct Hstep as [w w' i m new ts Hc|w w' m ts k t t' Hret Hk Hnot Hs]; cbn in *.
  - apply create_step_cases in Hc as [Hw Hcase]. apply undisturbed_harmless in Hw.
    assert (mapped w') as Hm' by by eapply harmless_mapped.
    assert (∀ k st, ts !! k = Some st → thread_ok (Z.of_nat k) st w') as Hts'.
    { intros k st Hk. eapply harmless_ok; [exact Hw| |by apply Hts]. apply lookup_lt_Some in Hk. lia. }
    destruct Hcase as [(Hi & -> & ->)|[(Hi & -> & ->)|(Hi & -> & ->)]].
    + assert (0 <= Z.of_nat (length ts) < n) as Hnew by lia. split.
      * split; [exact Hm'|]. cbn. unfold started. rewrite length_app. cbn. split; [lia|split; [lia|]].
        intros k st [Hk|[Hk Hst]]%lookup_app_Some; [by apply Hts'|].
        destruct (k - length ts)%nat as [|j] eqn:Ek; [|by destruct j]. injection Hst as <-.
        replace k with (length ts) by lia. split; [destruct (Hslice _ Hnew); lia|]. intros j Hj. lia.
      * unfold work_left. cbn [c_threads c_main].
        enough (zsum (Z.to_nat n) (share (started f ts)) < zsum (Z.to_nat n) (share ts)) by lia.
        apply (zsum_lt _ _ _ (Z.of_nat (length ts))); [|lia|].
        -- intros k Hk. rewrite share_started by lia. case_decide; lia.
        -- rewrite share_started by lia. case_decide; [lia|done].
    + split; [split; [exact Hm'|split; [done|split; [done|exact Hts']]]|]. unfold work_left. cbn. lia.
    + split; [split; [exact Hm'|split; [done|split; [cbn; lia|exact Hts']]]|]. unfold work_left. cbn. lia.
  - pose proof (lookup_lt_Some _ _ _ Hk) as Hklt. assert (0 <= Z.of_nat k < n) as Hkn by lia.
    destruct (scan_step_ok (Z.of_nat k) t w Hkn Hm (Hts _ _ Hk) Hnot) as (t1 & w1 & Hs1 & Hw & Hok & Hless).
    rewrite Hs in Hs1. injection Hs1 as <- <-. split.
    + split; [by eapply harmless_mapped|]. cbn. rewrite length_insert. split; [done|split; [done|]].
      intros j st Hj. destruct (decide (j = k)) as [->|].
      * rewrite list_lookup_insert_eq in Hj by done. by injection Hj as <-.
      * rewrite list_lookup_insert_ne in Hj by done. eapply harmless_ok; [exact Hw| |by apply Hts].
        apply lookup_lt_Some in Hj. lia.
    + unfold work_left. cbn [c_threads c_main].
      enough (zsum (Z.to_nat n) (share (<[k:=t']> ts)) < zsum (Z.to_nat n) (share ts)) by lia.
      assert (share ts (Z.of_nat k) = Z.of_nat (steps_left (Z.of_nat k) t)) as Hsk by (unfold share; by rewrite Nat2Z.id, Hk).
      apply (zsum_lt _ _ _ (Z.of_nat k)); [|lia|].
      * intros j Hj. rewrite share_insert by done. case_decide; [subst; lia|]. case_decide; lia.
      * rewrite share_insert by done. case_decide; [lia|done].
Qed.

Lemma config_reach c c' : config_ok c → rtc (threads_step f n) c c' → config_ok c'.
Proof using All. intros Hc Hr. induction Hr as [|c c1 c' Hs _ IH]; [done|]. apply IH. by eapply config_step. Qed.

(** No run is infinite. *)
Lemma config_sn c : config_ok c → sn (threads_step f n) c.
Proof using All.
  intros Hc. pose proof (work_left_nonneg c) as H0. remember (work_left c) as m eqn:Em.
  revert c Hc Em. induction m as [m IH] using (well_founded_induction (Z.lt_wf 0)). intros c Hc ->.
  constructor. intros c' Hs. destruct (config_step c c' Hc Hs) as [Hc' Hlt].
  apply (IH (work_left c')); [split; [apply work_left_nonneg|done]|apply work_left_nonneg|done|done].
Qed.

(** A run stops only when [main] has returned, or when it has created all
    threads and each of them is over with a sum it can have. *)
Lemma config_final c :
  config_ok c → nf (threads_step f n) c →
  c_main c = Returned ∨
  (c_main c = Exiting ∧ Z.of_nat (length (c_threads c)) = n ∧
   ∀ k st, c_threads c !! k = Some st → ∃ sum, st = Over sum ∧ P (Z.of_nat k) (total (Z.of_nat k)) sum).
Proof using All.
  intros (Hm & Hlen & Hmain & Hts) Hnf. destruct c as [w m ts]; cbn in *. destruct m as [i| |]; [|right|by left].
  - exfalso. apply Hnf. destruct (create_step n i w) as [[m new] w'| |] eqn:Ec; [eexists; by eapply ts_create|..].
    all: unfold create_step, mbind, prog_bind, ask in Ec; destruct (i <? n); [|done]; by destruct (i32 _ =? 0).
  - split; [done|split; [done|]]. intros k st Hk. pose proof (lookup_lt_Some _ _ _ Hk) as Hklt.
    pose proof (Hts _ _ Hk) as Hok. assert (0 <= Z.of_nat k < n) as Hkn by lia.
    assert ((∃ sum, st = Over sum) ∨ ∀ sum, st ≠ Over sum) as [[sum ->]|Hnot]
      by (destruct st; [right; done..|left; by eexists]); [by exists sum|].
    destruct (scan_step_ok (Z.of_nat k) st w Hkn Hm Hok Hnot) as (t' & w' & Hs & _).
    exfalso. apply Hnf. eexists. by eapply ts_thread.
Qed.

(** All runs from the creation of the threads. *)
Lemma threads_finish w c :
  mapped w → rtc (threads_step f n) (mkConfig w (Creating 0) []) c →
  sn (threads_step f n) c ∧
  (∀ k sum, c_threads c !! k = Some (Over sum) → Z.of_nat k < n ∧ P (Z.of_nat k) (total (Z.of_nat k)) sum) ∧
  (nf (threads_step f n) c → c_main c = Returned ∨
    (c_main c = Exiting ∧ Z.of_nat (length (c_threads c)) = n ∧ ∀ k st, c_threads c !! k = Some st → ∃ sum, st = Over sum)).
Proof using All.
  intros Hm Hr. assert (config_ok c) as Hc.
  { eapply config_reach; [|exact Hr]. split; [exact Hm|]. cbn. split; [lia|split; [done|]]. intros k st Hk. done. }
  split; [by apply config_sn|split].
  - intros k sum Hk. split; [|by apply Hc in Hk]. apply lookup_lt_Some in Hk. destruct Hc as (_ & Hlen & _). lia.
  - intros Hnf. destruct (config_final c Hc Hnf) as [H|(H1 & H2 & H3)]; [by left|right].
    split; [done|split; [done|]]. intros k st Hk. destruct (H3 k st Hk) as (sum & -> & _). by exists sum.
Qed.

End Interleavings.

(** ** The programs *)

Section Programs.
Context {E : vmenv}.
Implicit Types w : pstate vm vcall.

Lemma quiet_printf format args : quiet (printf format args).
Proof. intros w. by eexists _, _. Qed.

Lemma quiet_ret {A} (x : A) : quiet (mret x).
Proof. intros w. by eexists _, _. Qed.

Lemma quiet_call c : keeps_memory → quiet (kernel_call c).
Proof. intros Hk w. eexists _, _. split; [reflexivity|]. split; [done|]. intros b. cbn. by rewrite Hk. Qed.

Lemma quiet_bind {A B} (m : VP A) (k : A → VP B) : quiet m → (∀ x, quiet (k x)) → quiet (m ≫= k).
Proof.
  intros Hm Hk w. apply runs_bind. eapply runs_mono; [|apply Hm]. intros x w1 [H1 H2].
  eapply runs_mono; [|apply Hk]. intros y w2 [H3 H4]. split; [by rewrite H3|]. intros b. by rewrite H4.
Qed.

(** The threads of a run that stops by itself, and their sums. *)
Definition all_over (c : config) (sums : list Z) : Prop := c_main c = Exiting ∧ c_threads c = map Over sums.

Lemma all_over_intro c n :
  c_main c = Exiting → Z.of_nat (length (c_threads c)) = n → (∀ k st, c_threads c !! k = Some st → ∃ sum, st = Over sum) →
  ∃ sums, all_over c sums ∧ Z.of_nat (length sums) = n.
Proof.
  intros Hm Hl Hall. assert (∃ sums, c_threads c = map Over sums) as [sums Hs].
  { clear -Hall. induction (c_threads c) as [|st ts IH]; [by exists []|].
    destruct (Hall 0%nat st eq_refl) as [sum ->]. destruct IH as [sums ->]; [|by exists (sum :: sums)].
    intros k st Hk. by apply (Hall (S k)). }
  exists sums. split; [done|]. rewrite <- Hl, Hs. by rewrite length_map.
Qed.

(** Threads that read index after index: their sums are those of the indices. *)
Lemma det_finish f n bufa sz w c :
  0 <= n → (∀ t, 0 <= t < n → sf_buf f t = Some (bufa t)) →
  (∀ t u, 0 <= t < n → 0 <= u < n → bufa t = bufa u ∨ bufa t + 8 * sz <= bufa u ∨ bufa u + 8 * sz <= bufa t) →
  (∀ t, 0 <= t < n → 0 <= sf_start f t ∧ 0 <= sf_slice f t ∧ sf_start f t + sf_slice f t <= sz) →
  0 < sf_stride f → 0 <= sz → sz + sf_stride f < 2 ^ 64 →
  (∀ t i, sf_index f t i = mret i) → (∀ t, quiet (sf_flush f t)) → (∀ t sum, quiet (sf_message f t sum)) →
  (∀ t, 0 <= t < n → buffer (p_data w) (bufa t) sz) →
  rtc (threads_step f n) (mkConfig w (Creating 0) []) c →
  sn (threads_step f n) c ∧
  (∀ k sum, c_threads c !! k = Some (Over sum) → Z.of_nat k < n ∧
     sum = u64 (zsum (Z.to_nat (rounds (sf_start f (Z.of_nat k)) (sf_start f (Z.of_nat k) + sf_slice f (Z.of_nat k)) (sf_stride f)))
                     (λ i, sf_start f (Z.of_nat k) + sf_stride f * i))) ∧
  (nf (threads_step f n) c → c_main c = Returned ∨ ∃ sums, all_over c sums ∧ Z.of_nat (length sums) = n).
Proof.
  intros Hn Hbuf Hdisj Hslice Hstride Hsz Hend Hindex Hflush Hmessage Hm Hr.
  set (P := λ t k sum, sum = u64 (zsum (Z.to_nat k) (λ i, sf_start f t + sf_stride f * i))).
  assert (∀ t k sum w, 0 <= t < n → 0 <= k → sf_start f t + sf_stride f * k < sf_start f t + sf_slice f t → P t k sum →
    runs (sf_index f t (sf_start f t + sf_stride f * k)) w (λ j w',
      undisturbed w w' ∧ sf_start f t <= j < sf_start f t + sf_slice f t ∧ P t (k + 1) (u64 (sum + j)))) as HP.
  { intros t k sum w1 Ht Hk Hlt ->. rewrite Hindex. eexists _, _. split; [reflexivity|].
    split; [done|split; [nia|]]. unfold P. by rewrite zsum_Zsucc, u64_add_l by done. }
  destruct (threads_finish f n bufa sz Hn Hbuf Hdisj Hslice Hstride Hsz Hend P (λ t _, eq_refl)
    HP (λ t _, Hflush t) Hmessage w c Hm Hr) as (H1 & H2 & H3).
  split; [done|split; [exact H2|]]. intros Hnf. destruct (H3 Hnf) as [?|(H4 & H5 & H6)]; [by left|right].
  by apply all_over_intro.
Qed.

(** *** Disjoint slices *)

(** The sum of the indices of slice [t] of [m] words. *)
Definition slice_sum (m t : Z) : Z := zsum (Z.to_nat m) (λ k, m * t + k).

Lemma slice_sum_double m t : 0 <= m → 2 * slice_sum m t = m * (2 * (m * t) + (m - 1)).
Proof.
  intros Hm. unfold slice_sum. rewrite (zsum_ext _ _ (λ k, m * t + 1 * k)) by (intros; lia).
  rewrite zsum_linear, Z2Nat.id by done. lia.
Qed.

Lemma tri_double n : 2 * tri n = n * (n - 1).
Proof.
  unfold tri. destruct (Z.Even_or_Odd n) as [[k ->]|[k ->]].
  - replace (2 * k * (2 * k - 1)) with (k * (2 * k - 1) * 2) by lia. rewrite Z.div_mul by done. lia.
  - replace ((2 * k + 1) * (2 * k + 1 - 1)) with ((2 * k + 1) * k * 2) by lia. rewrite Z.div_mul by done. lia.
Qed.

Lemma slice_sums m :
  0 <= m → slice_sum m (Z.of_nat 0) + slice_sum m (Z.of_nat 1) + slice_sum m (Z.of_nat 2) + slice_sum m (Z.of_nat 3) + slice_sum m (Z.of_nat 4) + slice_sum m (Z.of_nat 5) +
    slice_sum m (Z.of_nat 6) + slice_sum m (Z.of_nat 7) = tri (8 * m).
Proof.
  intros Hm. pose proof (tri_double (8 * m)). pose proof (slice_sum_double m (Z.of_nat 0) Hm). pose proof (slice_sum_double m (Z.of_nat 1) Hm).
  pose proof (slice_sum_double m (Z.of_nat 2) Hm). pose proof (slice_sum_double m (Z.of_nat 3) Hm). pose proof (slice_sum_double m (Z.of_nat 4) Hm).
  pose proof (slice_sum_double m (Z.of_nat 5) Hm). pose proof (slice_sum_double m (Z.of_nat 6) Hm). pose proof (slice_sum_double m (Z.of_nat 7) Hm). nia.
Qed.

Lemma slice_sum_range m t : 0 <= m → 0 <= t < 8 → 0 <= slice_sum m t <= tri (8 * m).
Proof.
  intros Hm Ht. pose proof (slice_sum_double m t Hm). pose proof (tri_double (8 * m)). split; [nia|].
  assert (2 * slice_sum m t <= 2 * slice_sum m (Z.of_nat 7)) by (rewrite !slice_sum_double by done; nia).
  pose proof (slice_sum_double m (Z.of_nat 7) Hm). nia.
Qed.

(** Eight threads on slices of [m] words each, whatever they do in between. *)
Lemma disjoint_scan_run a m w (f : scan_fun) :
  0 < m → a + 8 * (8 * m) < 2 ^ 64 → tri (8 * m) < 2 ^ 64 → buffer (p_data w) a (8 * m) →
  (∀ t, sf_buf f t = Some a) → (∀ t, sf_start f t = u64 (m * t)) → (∀ t, sf_slice f t = m) → sf_stride f = 1 →
  (∀ t i, sf_index f t i = mret i) → (∀ t, quiet (sf_flush f t)) → (∀ t sum, quiet (sf_message f t sum)) →
  ∀ c, rtc (threads_step f online_cores) (mkConfig w (Creating 0) []) c →
    sn (threads_step f online_cores) c ∧
    (∀ k sum, c_threads c !! k = Some (Over sum) → sum = slice_sum m (Z.of_nat k)) ∧
    (nf (threads_step f online_cores) c →
       c_main c = Returned ∨ ∃ sums, all_over c sums ∧ foldr Z.add 0 sums = tri (8 * m)).
Proof.
  intros Hm Ha Htri Hb Hbuf Hstart Hslice Hstride Hindex Hflush Hmessage c Hr. assert (0 <= a) as Ha0 by apply Hb.
  assert (∀ t, 0 <= t < 8 → sf_start f t = m * t) as Hstart' by (intros t Ht; rewrite Hstart; apply u64_id; nia).
  destruct (det_finish f online_cores (λ _, a) (8 * m) w c) as (H1 & H2 & H3); try done; try lia.
  { unfold online_cores. intros t Ht. rewrite Hstart', Hslice by lia. nia. }
  unfold online_cores in *.
  assert (∀ k sum, c_threads c !! k = Some (Over sum) → sum = slice_sum m (Z.of_nat k)) as Hsum.
  { intros k sum Hks. destruct (H2 k sum Hks) as [Hk8 ->]. rewrite Hstart', Hslice, Hstride, rounds_one by lia.
    replace (m * Z.of_nat k + m - m * Z.of_nat k) with m by lia.
    rewrite (zsum_ext _ _ (λ i, m * Z.of_nat k + i)) by (intros; lia). fold (slice_sum m (Z.of_nat k)).
    apply u64_id. pose proof (slice_sum_range m (Z.of_nat k) ltac:(lia) ltac:(lia)). lia. }
  split; [done|split; [done|]]. intros Hnf. destruct (H3 Hnf) as [?|(sums & Ho & Hl)]; [by left|right].
  exists sums. split; [done|]. rewrite <- slice_sums by lia.
  destruct sums as [|s0 [|s1 [|s2 [|s3 [|s4 [|s5 [|s6 [|s7 [|]]]]]]]]]; try (cbn in Hl; lia).
  destruct Ho as [_ Ho]. rewrite Ho in Hsum.
  rewrite <- (Hsum 0%nat s0 eq_refl), <- (Hsum 1%nat s1 eq_refl), <- (Hsum 2%nat s2 eq_refl), <- (Hsum 3%nat s3 eq_refl).
  rewrite <- (Hsum 4%nat s4 eq_refl), <- (Hsum 5%nat s5 eq_refl), <- (Hsum 6%nat s6 eq_refl), <- (Hsum 7%nat s7 eq_refl).
  cbn [foldr]. lia.
Qed.

Lemma words_slice m : words (8 * (8 * m)) / online_cores = m.
Proof. rewrite words_mul. unfold online_cores. rewrite Z.mul_comm. by apply Z.div_mul. Qed.

(** What the disjoint scans do between their loops and at their end leaves
    the memory alone. *)
Ltac quiet_go :=
  cbn [sf_buf sf_start sf_slice sf_stride sf_index sf_flush sf_message scan_array_no_overleap force_array_swapout_no_overleap];
  rewrite ?words_slice; try done; intros;
  cbv beta delta [no_flush sum_message syscall];
  repeat lazymatch goal with |- quiet (_ ≫= _) => apply quiet_bind; [|intros ?] end;
  first [apply quiet_printf|apply quiet_ret|by apply quiet_call].

(** C17. The disjoint scan of [swap_mmap_multi_thread.cpp] and the one of
    [cp_flush_and_send_flag.cpp] that swaps its slice out in between, with 8
    threads and in every interleaving: every run ends, a thread that is over
    has printed the sum of the indices of its slice, and when all are over
    their sums add up to the sum of the indices of the array. *)
Theorem disjoint_scans a m w :
  0 < m → a + 8 * (8 * m) < 2 ^ 64 → tri (8 * m) < 2 ^ 64 → buffer (p_data w) a (8 * m) → keeps_memory →
  Forall (λ f : Z → Z → scan_fun, ∀ c,
      rtc (threads_step (f a (8 * (8 * m))) online_cores) (mkConfig w (Creating 0) []) c →
      sn (threads_step (f a (8 * (8 * m))) online_cores) c ∧
      (∀ k sum, c_threads c !! k = Some (Over sum) → sum = slice_sum m (Z.of_nat k)) ∧
      (nf (threads_step (f a (8 * (8 * m))) online_cores) c →
         c_main c = Returned ∨ ∃ sums, all_over c sums ∧ foldr Z.add 0 sums = tri (8 * m)))
    [scan_array_no_overleap; force_array_swapout_no_overleap].
Proof.
  intros Hm Ha Htri Hb Hk. repeat apply List.Forall_cons; [..|constructor]; intros c Hr.
  all: revert c Hr; apply (disjoint_scan_run a m w _ Hm Ha Htri Hb).
  all: quiet_go.
Qed.

(** The comments at the loops give the sum 0x7,FFF,FFE,000,000, that of the
    first 2^26 numbers.  Neither a thread's sum nor the total is that number, in
    the array of 11 GB and in the one of 128 MB. *)
Lemma scan_comments m :
  m = ARRAY_BYTE_SIZE / 8 / online_cores ∨ m = flush_ARRAY_BYTE_SIZE / 8 / online_cores →
  tri (2 ^ 26) = 0x7FFFFFE000000 ∧ tri (8 * m) ≠ tri (2 ^ 26) ∧ ∀ k, 0 <= k < 8 → slice_sum m k ≠ tri (2 ^ 26).
Proof.
  change (ARRAY_BYTE_SIZE / 8 / online_cores) with (11 * 2 ^ 24).
  change (flush_ARRAY_BYTE_SIZE / 8 / online_cores) with (2 ^ 21). intros Hm.
  split; [reflexivity|]. split; [by destruct Hm as [-> | ->]|].
  intros k Hk Hs. pose proof (slice_sum_double m k ltac:(lia)) as H. rewrite Hs in H.
  change (tri (2 ^ 26)) with 0x7FFFFFE000000 in H. destruct Hm as [-> | ->]; lia.
Qed.

(** [cp_flush_and_send_flag.cpp] from its start: once the array of 128 MB is
    committed, every interleaving of [main] and its threads ends, and unless
    the creation of a thread has failed the printed sums add up to the sum of
    all 2^24 indices. *)
Theorem flush_program_sums w :
  commit_ok 0 flush_ARRAY_START_ADDR flush_ARRAY_BYTE_SIZE → keeps_memory →
  runs flush_setup w (λ p w', p = Some flush_ARRAY_START_ADDR ∧
    let buf := flush_ARRAY_START_ADDR in
    ∀ c, rtc (threads_step (flush_thread buf) online_cores) (mkConfig w' (Creating 0) []) c →
      sn (threads_step (flush_thread buf) online_cores) c ∧
      (nf (threads_step (flush_thread buf) online_cores) c →
         c_main c = Returned ∨ ∃ sums, all_over c sums ∧ foldr Z.add 0 sums = tri (2 ^ 24))).
Proof.
  intros Hok Hk. unfold flush_setup, multi_thread_setup. apply runs_bind. eapply runs_done; [reflexivity|].
  change flush_ARRAY_BYTE_SIZE with (8 * 2 ^ 24) in *. unfold map_buffer.
  eapply runs_mono; [|apply map_with_runs; [unfold flush_ARRAY_START_ADDR; lia..|exact Hok]].
  intros p w' (-> & Hb & _). split; [done|]. cbv zeta. intros c Hr.
  change (2 ^ 24) with (8 * 2 ^ 21) in Hb.
  destruct (disjoint_scan_run flush_ARRAY_START_ADDR (2 ^ 21) w' (flush_thread flush_ARRAY_START_ADDR)
    ltac:(lia) ltac:(unfold flush_ARRAY_START_ADDR; lia) ltac:(reflexivity) Hb) with (c := c) as (H1 & _ & H3); [..|done|].
  all: unfold flush_thread; change flush_ARRAY_BYTE_SIZE with (8 * (8 * 2 ^ 21)); try quiet_go.
Qed.

(** *** The overlapping scan that [main] starts *)

(** C24. The threads of [swap_mmap_multi_thread.cpp] fill the whole array over
    each other and then read every 32nd time at a random index: in every
    interleaving and for all random numbers each run ends, no access is outside
    the array, and a thread that is over has a sum of at most the number of its
    reads times the largest index of the first eighth of the array, the only
    part it reads. *)
Theorem random_scan_bounds a n w :
  8 <= n → a + 8 * n < 2 ^ 64 → rounds 0 n 32 * (n / 8 - 1) < 2 ^ 64 → buffer (p_data w) a n →
  ∀ c, rtc (threads_step (scan_array_random_overleap a (8 * n)) online_cores) (mkConfig w (Creating 0) []) c →
    sn (threads_step (scan_array_random_overleap a (8 * n)) online_cores) c ∧
    (∀ k sum, c_threads c !! k = Some (Over sum) → 0 <= sum <= rounds 0 n 32 * (n / 8 - 1)) ∧
    (nf (threads_step (scan_array_random_overleap a (8 * n)) online_cores) c →
       c_main c = Returned ∨ ∃ sums, all_over c sums ∧ Z.of_nat (length sums) = online_cores).
Proof.
  intros Hn Ha Hmax Hb c Hr. pose proof Hb as (Ha0 & _ & _).
  set (f := scan_array_random_overleap a (8 * n)) in *.
  assert (∀ t, sf_slice f t = n) as Hslice by (intros t; apply words_mul).
  assert (1 <= n / 8 <= n) as Hq by (split; [apply Z.div_le_lower_bound; lia|apply Z.div_le_upper_bound; lia]).
  set (P := λ _ k sum : Z, 0 <= sum <= k * (n / 8 - 1)).
  assert (∀ t k sum w, 0 <= t < online_cores → 0 <= k → sf_start f t + sf_stride f * k < sf_start f t + sf_slice f t →
    P t k sum → runs (sf_index f t (sf_start f t + sf_stride f * k)) w (λ j w',
      undisturbed w w' ∧ sf_start f t <= j < sf_start f t + sf_slice f t ∧ P t (k + 1) (u64 (sum + j)))) as HP.
  { intros t k sum w1 Ht Hk Hlt HPk. rewrite Hslice in *. cbn in Hlt |- *. rewrite !words_mul.
    eexists _, _. split; [reflexivity|]. split; [done|].
    match goal with |- context [?x mod (n / 8)] => pose proof (Z.mod_pos_bound x (n / 8) ltac:(lia)) end.
    split; [lia|]. unfold P in *. pose proof (proj2 (rounds_lt 0 n 32 k ltac:(lia)) ltac:(lia)). rewrite u64_id; nia. }
  destruct (threads_finish f online_cores (λ _, a) n ltac:(done) ltac:(done) ltac:(intros; by left)
    ltac:(intros t _; rewrite Hslice; cbn; lia) ltac:(done) ltac:(lia) ltac:(cbn; lia) P ltac:(unfold P; intros; lia)
    HP (λ t _, quiet_printf _ _) ltac:(intros; apply quiet_printf) w c ltac:(by intros t _) Hr) as (H1 & H2 & H3).
  split; [exact H1|split].
  - intros k sum Hks. destruct (H2 k sum Hks) as [_ Hs]. by rewrite Hslice in Hs.
  - intros Hnf. destruct (H3 Hnf) as [?|(H4 & H5 & H6)]; [by left|right]. by apply all_over_intro.
Qed.

(** The sequential overlapping scan: the same sum in every thread. *)
Lemma sequential_scan a n w :
  0 < n → a + 8 * n < 2 ^ 64 → n + 512 < 2 ^ 64 → buffer (p_data w) a n →
  ∀ c, rtc (threads_step (scan_array_sequential_overleap a (8 * n)) online_cores) (mkConfig w (Creating 0) []) c →
    sn (threads_step (scan_array_sequential_overleap a (8 * n)) online_cores) c ∧
    ∀ k sum, c_threads c !! k = Some (Over sum) → sum = u64 (512 * tri (rounds 0 n 512)).
Proof.
  intros Hn Ha Hn512 Hb c Hr. pose proof Hb as (Ha0 & _ & _).
  destruct (det_finish (scan_array_sequential_overleap a (8 * n)) online_cores (λ _, a) n w c) as (H1 & H2 & _); try done.
  - intros; by left.
  - intros t _. cbn. rewrite words_mul. lia.
  - lia.
  - intros t. apply quiet_printf.
  - intros t sum. apply quiet_printf.
  - split; [done|]. intros k sum Hks. destruct (H2 k sum Hks) as [_ ->]. cbn [sf_start sf_slice sf_stride scan_array_sequential_overleap].
    rewrite words_mul, Z.add_0_l. change (PAGE_SIZE / 8) with 512.
    rewrite (zsum_ext _ _ (λ i, 512 * i)) by (intros; lia). by rewrite zsum_tri by (apply rounds_nonneg; lia).
Qed.

(** *** The two paths *)

Lemma print_reserve_any {A} p a size (k : unit → VP A) w Q :
  (∀ w', runs (k tt) w' Q) → runs (print_reserve p a size ≫= k) w Q.
Proof. intros H. apply runs_bind. destruct p; (eapply runs_done; [reflexivity|]); apply H. Qed.

(** With both buffers of [swap_mmap_dual_path.c] committed and disjoint,
    every run of its two threads ends, and each prints the sum of the indices
    of its own buffer. *)
Theorem dual_path_sums fast slow n w :
  0 < n → fast + 8 * n < 2 ^ 64 → slow + 8 * n < 2 ^ 64 → fast + 8 * n <= slow ∨ slow + 8 * n <= fast →
  buffer (p_data w) fast n → buffer (p_data w) slow n →
  ∀ c, rtc (threads_step (dual_scan (Some fast) (Some slow) (8 * n)) 2) (mkConfig w (Creating 0) []) c →
    sn (threads_step (dual_scan (Some fast) (Some slow) (8 * n)) 2) c ∧
    (∀ k sum, c_threads c !! k = Some (Over sum) → sum = u64 (tri n)) ∧
    (nf (threads_step (dual_scan (Some fast) (Some slow) (8 * n)) 2) c →
       c_main c = Returned ∨ all_over c [u64 (tri n); u64 (tri n)]).
Proof.
  intros Hn Hf Hs Hd Hbf Hbs c Hr.
  pose proof Hbf as (Hf0 & _ & _). pose proof Hbs as (Hs0 & _ & _).
  assert (∀ t, 0 <= t < 2 → t = 0 ∨ t = 1) as H01 by lia.
  destruct (det_finish (dual_scan (Some fast) (Some slow) (8 * n)) 2 (λ t, if t =? 0 then fast else slow) n w c)
    as (H1 & H2 & H3); try done; try (intros; apply quiet_printf).
  - intros t [-> | ->]%H01; reflexivity.
  - intros t u [-> | ->]%H01 [-> | ->]%H01; cbn; lia.
  - intros t [-> | ->]%H01; cbn; rewrite words_mul; lia.
  - lia.
  - cbn. lia.
  - intros t [-> | ->]%H01; cbn; done.
  - assert (∀ k sum, c_threads c !! k = Some (Over sum) → sum = u64 (tri n)) as Hsum.
    { intros k sum Hks. destruct (H2 k sum Hks) as [Hk ->]. cbn [sf_start sf_slice sf_stride dual_scan].
      assert ((Z.of_nat k =? 0) || (Z.of_nat k =? 1) = true) as -> by (destruct (H01 (Z.of_nat k)) as [-> | ->]; [lia|done|done]).
      rewrite words_mul, rounds_one, Z.add_0_l, Z.sub_0_r.
      rewrite (zsum_ext _ _ (λ i, 1 * i)) by (intros; lia). by rewrite zsum_tri, Z.mul_1_l by lia. }
    split; [done|split; [done|]]. intros Hnf. destruct (H3 Hnf) as [?|(sums & [Hm Ho] & Hl)]; [by left|right]. split; [done|].
    rewrite Ho in Hsum |- *. destruct sums as [|s0 [|s1 [|]]]; try (cbn in Hl; lia).
    by rewrite <- (Hsum 0%nat s0 eq_refl), <- (Hsum 1%nat s1 eq_refl) at 1.
Qed.

(** [main] of [swap_mmap_dual_path.c] looks at the fast buffer when it
    should look at the slow one: with the slow commit refused it still reports
    a committed buffer, at address 0, and thread 1 dies on [NULL] in its first
    step. *)
Theorem dual_slow_failure_unseen fast slow n w :
  0 <= fast → 0 < n → fast + 8 * n <= 2 ^ 64 → commit_ok 0 fast (8 * n) → commit_no 0 slow (8 * n) →
  runs (dual_path_setup fast slow (8 * n)) w (λ p w', p = (Some fast, None) ∧
    last (p_calls w') = Some (V_print "Commit user_buffer: 0x%lx, bytes_len: 0x%lx " [0; 8 * n]) ∧
    scan_step (dual_scan p.1 p.2 (8 * n)) 1 (Filling 0) w' = Fault NullDeref).
Proof.
  intros Ha Hn Hend Hok Hno. unfold dual_path_setup.
  apply runs_bind. eapply runs_mono; [|apply reserve_runs]. intros p1 w1 _. cbn beta. apply print_reserve_any. intros w2.
  apply runs_bind. eapply runs_mono; [|apply reserve_runs]. intros p2 w3 _. cbn beta. apply print_reserve_any. intros w4.
  apply runs_bind. eapply runs_mono; [|by apply commit_runs]. intros p3 w5 (-> & _). cbn beta. apply print_runs.
  apply runs_bind. eapply runs_mono; [|by apply commit_fails]. intros p4 w6 (-> & _). cbn beta. apply print_runs.
  eexists _, _. split; [reflexivity|]. split; [done|split; [apply last_snoc|]]. cbn [fst snd].
  unfold scan_step. cbn [sf_buf sf_start sf_slice dual_scan Z.eqb Pos.eqb orb]. rewrite words_mul, Z.add_0_l, u64_id by lia.
  by rewrite (proj2 (Z.ltb_lt 0 n)) by lia.
Qed.

End Programs.

(** ** Witnesses *)

Definition RW : Z := Z.lor PROT_READ PROT_WRITE.

(** The process after a commit, and after two. *)
Definition committed (a n : Z) : pstate vm vcall := mkPstate (map_range a (8 * n) RW vm_empty) [].
Definition committed2 (a b n : Z) : pstate vm vcall := mkPstate (map_range b (8 * n) RW (map_range a (8 * n) RW vm_empty)) [].

Lemma disjoint_scans_witness :
  sn (@threads_step good_kernel (@force_array_swapout_no_overleap good_kernel flush_ARRAY_START_ADDR flush_ARRAY_BYTE_SIZE) online_cores)
    (mkConfig (committed flush_ARRAY_START_ADDR (2 ^ 24)) (Creating 0) []).
Proof.
  pose proof (@disjoint_scans good_kernel flush_ARRAY_START_ADDR (2 ^ 21) (committed flush_ARRAY_START_ADDR (2 ^ 24))
    ltac:(lia) ltac:(unfold flush_ARRAY_START_ADDR; lia) ltac:(reflexivity)
    (buffer_map vm_empty flush_ARRAY_START_ADDR (2 ^ 24) RW ltac:(unfold flush_ARRAY_START_ADDR; lia)
       ltac:(unfold flush_ARRAY_START_ADDR; lia) eq_refl) good_keeps) as H.
  apply Forall_inv_tail, Forall_inv in H. apply H. apply rtc_refl.
Defined.

Lemma random_scan_bounds_witness :
  sn (@threads_step good_kernel (@scan_array_random_overleap good_kernel ARRAY_START_ADDR ARRAY_BYTE_SIZE) online_cores)
    (mkConfig (committed ARRAY_START_ADDR (11 * 2 ^ 27)) (Creating 0) []).
Proof.
  apply (@random_scan_bounds good_kernel ARRAY_START_ADDR (11 * 2 ^ 27) (committed ARRAY_START_ADDR (11 * 2 ^ 27))
    ltac:(lia) ltac:(unfold ARRAY_START_ADDR, ONE_GB, ONE_MB; lia) ltac:(reflexivity)
    (buffer_map vm_empty ARRAY_START_ADDR (11 * 2 ^ 27) RW ltac:(unfold ARRAY_START_ADDR, ONE_GB, ONE_MB; lia)
       ltac:(unfold ARRAY_START_ADDR, ONE_GB, ONE_MB; lia) eq_refl) (mkConfig (committed ARRAY_START_ADDR (11 * 2 ^ 27)) (Creating 0) [])
    (rtc_refl _ _)).
Defined.

Lemma committed2_buffers a b n :
  0 <= a → 0 <= b → 0 <= n → a + page_up (8 * n) <= b → b + 8 * n <= 2 ^ 64 →
  buffer (p_data (committed2 a b n)) a n ∧ buffer (p_data (committed2 a b n)) b n.
Proof.
  intros Ha Hb Hn Hab Hend. pose proof (page_up_ge (8 * n)). split; (split; [lia|split; [lia|]]); intros c Hc; cbn.
  - rewrite (proj2 (in_range_false _ _ _)) by lia. by rewrite (proj2 (in_range_true _ _ _)) by lia.
  - by rewrite (proj2 (in_range_true _ _ _)) by lia.
Qed.

Lemma dual_path_sums_witness :
  sn (@threads_step good_kernel (dual_scan (Some 0x400000000000) (Some 0x300000000000) 0x80000000) 2)
    (mkConfig (committed2 0x300000000000 0x400000000000 (2 ^ 28)) (Creating 0) []).
Proof.
  destruct (committed2_buffers 0x300000000000 0x400000000000 (2 ^ 28)) as [H1 H2]; [lia|lia|lia|vm_compute; discriminate|lia|].
  apply (@dual_path_sums good_kernel 0x400000000000 0x300000000000 (2 ^ 28)
    (committed2 0x300000000000 0x400000000000 (2 ^ 28)) ltac:(lia) ltac:(lia) ltac:(lia) ltac:(lia) H2 H1
    (mkConfig (committed2 0x300000000000 0x400000000000 (2 ^ 28)) (Creating 0) []) (rtc_refl _ _)).
Defined.

(** A kernel that refuses to commit the slow buffer. *)
Definition slow_full_kernel : vmenv := {|
  ve_ret := λ _ c, match c with
    | V_mmap a _ prot _ => if (a =? 0x300000000000) && negb (prot =? 0) then MAP_FAILED else a | _ => 0 end;
  ve_fill := λ _ _ _, None;
  ve_lost := λ _ _, false;
  ve_drop := λ _, []
|}.
Lemma dual_slow_failure_unseen_witness :
  runs (@dual_path_main_setup slow_full_kernel) vm_start (λ p w', p = (Some 0x400000000000, None) ∧
    last (p_calls w') = Some (V_print "Commit user_buffer: 0x%lx, bytes_len: 0x%lx " [0; 0x80000000]) ∧
    scan_step (dual_scan p.1 p.2 0x80000000) 1 (Filling 0) w' = Fault NullDeref).
Proof.
  apply (@dual_slow_failure_unseen slow_full_kernel 0x400000000000 0x300000000000 (2 ^ 28) vm_start);
    [lia|lia|lia|intros ?; reflexivity|intros ?; reflexivity].
Defined.

Lemma flush_program_sums_witness :
  runs (@flush_setup good_kernel) (mkPstate vm_empty []) (λ p w', p = Some flush_ARRAY_START_ADDR ∧
    sn (@threads_step good_kernel (@flush_thread good_kernel flush_ARRAY_START_ADDR) online_cores) (mkConfig w' (Creating 0) [])).
Proof.
  eapply runs_mono; [|apply (@flush_program_sums good_kernel); [intros cs; reflexivity|exact good_keeps]].
  intros p w' [-> H]. split; [reflexivity|]. apply (H (mkConfig w' (Creating 0) [])). apply rtc_refl.
Defined.
