(* ===== verification/UserFault.v ===== *)
(** * User-level page faults

    The tests of [src/Kernel-dev/user_fault_handler]: [main] maps a buffer,
    registers it with [userfaultfd], starts a thread that answers page faults
    and touches every page; the thread polls the descriptor, reads a message,
    asks the kernel for a prefetch (a call of the authors' kernel,
    [UFFDIO_SWAP_PREFETCH]) and copies a page into the place of the fault.

    [handler_round] is one round of the loop of the handler; the four files
    differ in the fields of [handler] (messages that print the address of a
    local variable are left out).  An access of [main] to a page that is
    registered and missing queues a message and blocks [main] until a round of
    the handler has filled the page ([answer]); when the handler is over, or
    was never started, [main] stays blocked for ever ([Blocked]); [Spin] is a
    handler that has not come to the end of its rounds.

    What the kernel does is the environment's choice, except what the manual of
    [userfaultfd] fixes: the order of the messages, the effect of
    [UFFDIO_COPY], the loss of a registration when its range is mapped anew. *)

From Stdlib Require Import String.
From S2P Require Import Prelude BitOps OctTypes Kernel Prog VmArea SwapTests.

Definition POLLIN : Z := 0x1.
Definition POLLERR : Z := 0x8.
Definition POLLNVAL : Z := 0x20.
Definition EAGAIN : Z := 11.
Definition UFFD_EVENT_PAGEFAULT : Z := 0x12.
Definition UFFDIO_REGISTER_MODE_MISSING : Z := 1.
Definition UFFDIO_REGISTER_MODE_WP : Z := 2.
Definition sizeof_uffd_msg : Z := 32.

(** [struct uffd_msg], as far as it is read. *)
Record uffd_msg := mkMsg { m_event : Z; m_address : Z; m_reserved1 : Z }.

Record ufs := mkUf {
  u_vm : vm;
  u_missing : Z → bool;          (* pages that are registered and not filled *)
  u_queue : list uffd_msg;       (* messages not read yet *)
  u_handler : bool               (* the handler is in its loop *)
}.
#[export] Instance ufs_eta : Eta ufs := λ s, mkUf (u_vm s) (u_missing s) (u_queue s) (u_handler s).

Inductive ucall :=
| U_vm (c : vcall)
| U_userfaultfd | U_api | U_register (start len mode : Z)
| U_malloc | U_pthread_create | U_sleep
| U_poll (timeout : Z) | U_read
| U_swap_prefetch (start page_len vma : Z) | U_copy (dst len : Z)
| U_free
| U_perror (text : string) | U_print (format : string) (args : list Z) | U_string (addr : Z) (text : list Z).

Class ufenv := {
  uf_vm :: vmenv;
  uf_int : list ucall → ucall → Z;
  uf_poll : list ucall → ucall → Z * Z;     (* result and [revents] *)
  uf_read : list ucall → ucall → Z * Z      (* result and [errno], with a message waiting *)
}.

Abbreviation UP := (prog ufs ucall).

Section Ops.
Context {E : ufenv}.

Definition uprint (format : string) (args : list Z) : UP unit := tell (U_print format args).
Definition perror (text : string) : UP unit := tell (U_perror text).

(** A computation on the address space. *)
Definition vm_calls (cs : list ucall) : list vcall := omap (λ c, match c with U_vm c => Some c | _ => None end) cs.
Definition in_vm {A} (m : VP A) : UP A := λ w,
  let cs := vm_calls (p_calls w) in
  match m (mkPstate (u_vm (p_data w)) cs) with
  | Done x v => Done x (mkPstate ((p_data w) <| u_vm := p_data v |>) (p_calls w ++ map U_vm (drop (length cs) (p_calls v))))
  | Exited c v => Exited c (mkPstate ((p_data w) <| u_vm := p_data v |>) (p_calls w ++ map U_vm (drop (length cs) (p_calls v))))
  | Fault f => Fault f
  end.

Definition page (a : Z) : Z := a / PAGE_SIZE.
Definition in_pages (p a len : Z) : bool := (page a <=? p) && (p <? page (a + page_up len)).

(** A new mapping is not registered. *)
Definition unregister (a len : Z) : UP unit :=
  update (λ s, s <| u_missing := λ p, if in_pages p a len then false else u_missing s p |>).
Definition u_reserve (a len : Z) : UP (option Z) := r ← in_vm (reserve_anon_memory a len true); unregister a len;; mret r.
Definition u_commit (a len : Z) : UP (option Z) := r ← in_vm (commit_anon_memory a len true); unregister a len;; mret r.

(** ** The handler *)

(** [hd_prefetch]: the offset of the page asked for from the one of the fault,
    and whether the message carries the area; [hd_free]: the handler frees its
    argument. *)
Record handler := mkHandler {
  hd_timeout : Z;
  hd_check_nval : bool;
  hd_prefetch : option (Z * bool);
  hd_copy : bool;
  hd_free : bool
}.

Definition handler_vma_merge : handler := mkHandler (-1) true (Some (0, false)) true false.
Definition handler_multi_commit : handler := mkHandler (-1) true (Some (0, false)) true false.
Definition handler_poll : handler := mkHandler 2000 false None true true.
Definition handler_swap_prefetch : handler := mkHandler (-1) true (Some (PAGE_SIZE, true)) false true.

(** [char buf[PAGE_SIZE] = "test buffer";] *)
Definition buf (k : Z) : Z :=
  match list_ascii_of_string "test buffer" !! Z.to_nat k with Some c => Z.of_nat (Ascii.nat_of_ascii c) | None => 0 end.

Definition leave (h : handler) : UP bool :=
  (if hd_free h then tell U_free else mret tt);; update (λ s, s <| u_handler := false |>);; mret false.

(** [read(fd, &msg, sizeof(msg))] of a non-blocking descriptor. *)
Definition read_msg : UP (Z * Z * uffd_msg) :=
  r ← ask uf_read U_read; q ← data u_queue;
  match q with
  | [] => mret (-1, EAGAIN, mkMsg 0 0 0)
  | m :: q =>
      (if fst r =? sizeof_uffd_msg then update (λ s, s <| u_queue := q |>) else mret tt);;
      mret (fst r, snd r, m)
  end.

(** [UFFDIO_COPY] of [buf] to [dst]. *)
Definition copy_page (dst : Z) (s : ufs) : ufs :=
  s <| u_vm := (u_vm s) <| v_byte := λ b, if in_range b dst PAGE_SIZE then buf (b - dst) else v_byte (u_vm s) b |> |>
    <| u_missing := λ p, if p =? page dst then false else u_missing s p |>.
Definition uffdio_copy (h : handler) (dst : Z) : UP bool :=
  r ← ask uf_int (U_copy dst PAGE_SIZE);
  if r =? -1 then perror "ioctl/copy";; leave h else update (copy_page dst);; mret true.

Definition swap_prefetch (h : handler) (m : uffd_msg) (off : Z) (vma : bool) : UP bool :=
  (if vma && (m_reserved1 m =? 0)
   then uprint "UFFDIO_SWAP_PREFETCH get a NULL vma field from uffd_msg message." [] else mret tt);;
  r ← ask uf_int (U_swap_prefetch (u64 (m_address m + off)) 1 (if vma then m_reserved1 m else 0));
  if r =? -1 then perror "ioctl/swap_prefetch";; leave h else mret true.

(** What is done for a message. *)
Definition answer_msg (h : handler) (m : uffd_msg) : UP bool :=
  if Z.land (m_event m) UFFD_EVENT_PAGEFAULT =? 0 then mret true
  else
    uprint "Received page fault at 0x%lx " [m_address m];;
    go ← (match hd_prefetch h with Some (off, vma) => swap_prefetch h m off vma | None => mret true end);
    if go : bool then (if hd_copy h then uffdio_copy h (m_address m) else mret true) else mret false.

(** One round of [for (;;)]: [true] to go on. *)
Definition handler_round (h : handler) : UP bool :=
  uprint "poll on fd" [];;
  p ← ask uf_poll (U_poll (hd_timeout h)); let pollres := fst p in let revents := snd p in
  if pollres =? -1 then perror "poll/userfaultfd";; mret true
  else if pollres =? 0 then mret true
  else if negb (pollres =? 1) then uprint "unexpected poll result" [];; leave h
  else
    uprint "Get uffd event %d " [revents];;
    if negb (Z.land revents POLLERR =? 0) then uprint "POLLERR" [];; leave h
    else if hd_check_nval h && negb (Z.land revents POLLNVAL =? 0) then uprint "POLLNVAL" [];; leave h
    else if negb (Z.land (if revents =? 0 then 1 else 0) POLLIN =? 0) then uprint "return %d, NOT POLLIN" [revents];; mret true
    else
      r ← read_msg; let '(readres, errno, msg) := r in
      if readres =? -1 then if errno =? EAGAIN then mret true else perror "read/userfaultfd";; leave h
      else if negb (readres =? sizeof_uffd_msg) then uprint "invalid msg size" [];; leave h
      else answer_msg h msg.

(** ** An access of [main] *)

(** Rounds of the handler until page [p] is filled. *)
Fixpoint answer (h : handler) (fuel : nat) (p : Z) : UP unit :=
  match fuel with
  | O => crash Spin
  | S fuel =>
      on ← data u_handler;
      if negb on then crash Blocked
      else handler_round h;; missing ← data (λ s, u_missing s p); if missing : bool then answer h fuel p else mret tt
  end.

(** A byte is read: the page is filled first, if it has to be. *)
Definition touch (h : handler) (fuel : nat) (a : Z) : UP Z :=
  s ← data id;
  if negb (allows PROT_READ (v_prot (u_vm s) a)) then crash BadPtr
  else
    (if u_missing s (page a) then
       update (λ s, s <| u_queue := u_queue s ++ [mkMsg UFFD_EVENT_PAGEFAULT (page a * PAGE_SIZE) 0] |>);; answer h fuel (page a)
     else mret tt);;
    data (λ s, v_byte (u_vm s) a).

(** [%s]: the bytes up to the first 0. *)
Fixpoint read_string (h : handler) (fuel len : nat) (a : Z) : UP (list Z) :=
  match len with
  | O => mret []
  | S len => c ← touch h fuel a; if c =? 0 then mret [] else l ← read_string h fuel len (a + 1); mret (c :: l)
  end.
Definition print_string (h : handler) (fuel : nat) (a : Z) : UP unit :=
  l ← read_string h fuel 4096 a; tell (U_string a l).

(** [for (i = 8; i < size; i += PAGE_SIZE) fprintf(... ptr + i)] *)
Fixpoint print_pages (h : handler) (fuel n : nat) (a : Z) : UP unit :=
  match n with
  | O => mret tt
  | S n => print_string h fuel a;; print_pages h fuel n (a + PAGE_SIZE)
  end.
Definition pages_of (size : Z) : nat := Z.to_nat ((size - 8 + PAGE_SIZE - 1) / PAGE_SIZE).

(** ** The programs *)

(** 1) of [main]; [goto out] ends the program. *)
Definition open_uffd : UP unit :=
  fd ← ask uf_int U_userfaultfd;
  (if fd =? -1 then uprint "++ userfaultfd failed " [];; exit 0 else mret tt);;
  r ← ask uf_int U_api;
  if negb (r =? 0) then uprint "++ ioctl(fd, UFFDIO_API, ...) failed " [];; exit 0 else mret tt.

Definition print_result (what : string) (p : option Z) (a size : Z) : UP unit :=
  match p with None => uprint (what ++ ", 0x%lx failed. ") [a] | Some _ => uprint (what ++ ": 0x%lx, bytes_len: 0x%lx ") [a; size] end.

Definition register (start len mode : Z) : UP unit :=
  r ← ask uf_int (U_register start len mode);
  if negb (r =? 0) then uprint "++ ioctl(fd, UFFDIO_REGISTER, ...) failed" [];; exit 0
  else if mode =? UFFDIO_REGISTER_MODE_MISSING then
    update (λ s, s <| u_missing := λ p, if in_pages p start len then true else u_missing s p |>)
  else mret tt.

(** The result of [pthread_create] is not looked at. *)
Definition start_handler : UP unit :=
  r ← ask uf_int U_pthread_create; update (λ s, s <| u_handler := r =? 0 |>);; tell U_sleep.

(** Where the argument of the handler comes from [malloc], unchecked. *)
Definition malloc_args : UP unit := p ← ask uf_int U_malloc; if p =? 0 then crash NullDeref else mret tt.

Definition user_buffer_size : Z := 0x2000.

(** [user_fault_vma_merge.c], up to the start of the handler and after it. *)
Definition user_buffer_addr_1 : Z := 0x20000000.
Definition user_buffer_addr_2 : Z := u64 (user_buffer_addr_1 + user_buffer_size).
Definition user_buffer_addr_3 : Z := u64 (user_buffer_addr_2 + user_buffer_size).
Definition vma_merge_setup : UP unit :=
  open_uffd;;
  uprint "Phase2, Register [0x%lx, 0x%lx) as range for user page fault handling. "
    [user_buffer_addr_1; u64 (user_buffer_addr_1 + 3 * user_buffer_size)];;
  p ← u_commit user_buffer_addr_1 user_buffer_size; print_result "Commit user_buffer_addr_1" p user_buffer_addr_1 user_buffer_size;;
  p ← u_commit user_buffer_addr_2 user_buffer_size; print_result "Commit user_buffer_addr_2" p user_buffer_addr_2 user_buffer_size;;
  p ← u_commit user_buffer_addr_3 user_buffer_size; print_result "Commit user_buffer_addr_3" p user_buffer_addr_3 user_buffer_size;;
  register user_buffer_addr_1 (user_buffer_size * 3) UFFDIO_REGISTER_MODE_MISSING;;
  start_handler.
Definition vma_merge_touch (fuel : nat) : UP Z :=
  uprint "Phase3, trigger page fault." [];;
  print_pages handler_vma_merge fuel (pages_of user_buffer_size) (user_buffer_addr_1 + 8);;
  uprint "access uffd range" [];;
  print_pages handler_vma_merge fuel (pages_of user_buffer_size) (user_buffer_addr_2 + 8);;
  print_pages handler_vma_merge fuel (pages_of user_buffer_size) (user_buffer_addr_3 + 8);;
  mret 0.
Definition vma_merge_main (fuel : nat) : UP Z := vma_merge_setup;; vma_merge_touch fuel.

(** [user_fault_swap_prefetch_multi_commit.c] *)
Definition multi_commit_main (fuel : nat) : UP Z :=
  let user_buffer_addr := 0x20000000 in
  open_uffd;;
  uprint "Phase2, Register [0x%lx, 0x%lx) as range for user page fault handling. "
    [user_buffer_addr; u64 (user_buffer_addr + user_buffer_size)];;
  user_buf ← u_reserve user_buffer_addr user_buffer_size; print_result "Reserve user_buffer" user_buf user_buffer_addr user_buffer_size;;
  register (addr_of user_buf) user_buffer_size UFFDIO_REGISTER_MODE_MISSING;;
  start_handler;;
  user_buf ← u_commit user_buffer_addr user_buffer_size; print_result "Commit user_buffer" user_buf user_buffer_addr user_buffer_size;;
  uprint "Phase3, trigger page fault." [];;
  print_pages handler_multi_commit fuel (pages_of user_buffer_size) (addr_of user_buf + 8);;
  mret 0.

(** [user_fault_handler_poll.c] *)
Definition handler_poll_main (fuel : nat) : UP Z :=
  let user_buffer_addr := 0x20000000 in
  open_uffd;;
  uprint "Phase2, Register [0x%lx, 0x%lx) as range for user page fault handling. "
    [user_buffer_addr; u64 (user_buffer_addr + user_buffer_size)];;
  user_buf ← u_commit user_buffer_addr user_buffer_size; print_result "Commit user_buffer" user_buf user_buffer_addr user_buffer_size;;
  register (addr_of user_buf) user_buffer_size UFFDIO_REGISTER_MODE_MISSING;;
  malloc_args;; start_handler;;
  uprint "Phase3, trigger page fault." [];;
  print_pages handler_poll fuel (pages_of user_buffer_size) (addr_of user_buf + 8);;
  tell U_sleep;;
  print_pages handler_poll fuel (pages_of user_buffer_size) (addr_of user_buf + 8);;
  mret 0.

(** [user_fault_swap_prefetch.cpp]: the buffer is registered for write
    protection, which blocks no access; it is filled and read at random. *)
Definition prefetch_user_buffer_size : Z := 0x10000000.
Definition prefetch_random_loop (fuel : nat) (p : option Z) (n : Z) : VP Z :=
  for_lt fuel 0 128 1 (λ _ sum,
    r ← ask ve_ret V_rand; x ← load p (u64 r / 8 mod n); mret (u64 (sum + x))) 0.
Definition swap_prefetch_main (fuel : nat) : UP Z :=
  let user_buffer_addr := 0x400000000000 in
  open_uffd;;
  uprint "Phase2, Register [0x%lx, 0x%lx) as range for user page fault handling. "
    [user_buffer_addr; u64 (user_buffer_addr + prefetch_user_buffer_size)];;
  user_buf ← u_reserve user_buffer_addr prefetch_user_buffer_size;
  print_result "Reserve user_buffer" user_buf user_buffer_addr prefetch_user_buffer_size;;
  user_buf ← u_commit user_buffer_addr prefetch_user_buffer_size;
  print_result "Commit user_buffer" user_buf user_buffer_addr prefetch_user_buffer_size;;
  register (addr_of user_buf) prefetch_user_buffer_size UFFDIO_REGISTER_MODE_WP;;
  malloc_args;; start_handler;;
  uprint "Phase3, trigger page fault." [];;
  uprint "access uffd range in sequential pattern " [];;
  in_vm (fill_loop fuel user_buf 0 (prefetch_user_buffer_size / 8) (λ i, i));;
  uprint "access uffd range in random pattern " [];;
  sum ← in_vm (prefetch_random_loop fuel user_buf (prefetch_user_buffer_size / 8));
  uprint "main, sum %lu " [sum];; mret 0.

End Ops.

(** ** What the handler takes for what *)

(** The events of the interface: the mask of a page fault, taken as a bit
    test, holds for all of them. *)
Example every_event_is_a_fault :
  Forall (λ event, Z.land event UFFD_EVENT_PAGEFAULT ≠ 0) [0x12; 0x13; 0x14; 0x15; 0x16].
Proof. repeat constructor; discriminate. Qed.

Section Rounds.
Context {E : ufenv}.
Implicit Types w : pstate ufs ucall.

(** The strings [main] has printed. *)
Definition texts (cs : list ucall) : list (Z * list Z) :=
  omap (λ c, match c with U_string a l => Some (a, l) | _ => None end) cs.

Lemma texts_app cs ds : texts (cs ++ ds) = texts cs ++ texts ds.
Proof. apply omap_app. Qed.

Lemma texts_vm cs : texts (map U_vm cs) = [].
Proof. by induction cs. Qed.

(** An interrupted or idle [poll] changes nothing. *)
Lemma idle_round h w r :
  uf_poll (p_calls w ++ [U_print "poll on fd" []]) (U_poll (hd_timeout h)) = r → fst r = -1 ∨ fst r = 0 →
  runs (handler_round h) w (λ go w', go = true ∧ p_data w' = p_data w ∧ texts (p_calls w') = texts (p_calls w)).
Proof.
  intros Hr H. unfold handler_round. apply runs_bind. eapply runs_done; [reflexivity|]. cbv beta.
  apply runs_bind. eapply runs_done; [reflexivity|]. cbn [p_data p_calls]. rewrite Hr.
  destruct H as [-> | ->]; eexists _, _; (split; [reflexivity|]); cbn [p_data p_calls]; rewrite !texts_app; cbn;
    by rewrite !app_nil_r.
Qed.

(** The test of the poll result, [!revents & POLLIN], holds only when no
    event at all was reported: for every other result without an error bit the
    handler reads the descriptor, input or not. *)
Theorem not_pollin_reads h w revents :
  uf_poll (p_calls w ++ [U_print "poll on fd" []]) (U_poll (hd_timeout h)) = (1, revents) →
  revents ≠ 0 → Z.land revents POLLERR = 0 → Z.land revents POLLNVAL = 0 →
  handler_round h w =
    (r ← read_msg; let '(readres, errno, msg) := r in
      if readres =? -1 then if errno =? EAGAIN then mret true else perror "read/userfaultfd";; leave h
      else if negb (readres =? sizeof_uffd_msg) then uprint "invalid msg size" [];; leave h
      else answer_msg h msg)
      (mkPstate (p_data w) (((p_calls w ++ [U_print "poll on fd" []]) ++ [U_poll (hd_timeout h)]) ++ [U_print "Get uffd event %d " [revents]])).
Proof.
  intros Hp Hr He Hn. unfold handler_round. erewrite prog_bind_step by reflexivity. cbv beta.
  erewrite prog_bind_step by reflexivity. cbv beta zeta. cbn [p_data p_calls]. rewrite Hp. cbn [fst snd].
  change (1 =? -1) with false. change (1 =? 0) with false. change (negb (1 =? 1)) with false. cbv iota.
  erewrite prog_bind_step by reflexivity. cbv beta. rewrite He, Hn, (proj2 (Z.eqb_neq _ _) Hr).
  change (0 =? 0) with true. cbn [negb]. rewrite andb_false_r. reflexivity.
Qed.

End Rounds.

(** ** Answered and unanswered faults *)

Section Granting.
Context {E : ufenv}.
Implicit Types w : pstate ufs ucall.

(** A kernel that grants what the tests ask for; [prefetch]: it has the
    authors' prefetch call. *)
Record granting (prefetch : bool) : Prop := {
  g_mmap : ∀ cs a len prot flags, ve_ret cs (V_mmap a len prot flags) = a;
  g_open : ∀ cs, uf_int cs U_userfaultfd ≠ -1;
  g_api : ∀ cs, uf_int cs U_api = 0;
  g_register : ∀ cs a len mode, uf_int cs (U_register a len mode) = 0;
  g_malloc : ∀ cs, uf_int cs U_malloc ≠ 0;
  g_thread : ∀ cs, uf_int cs U_pthread_create = 0;
  g_copy : ∀ cs a len, uf_int cs (U_copy a len) ≠ -1;
  g_prefetch : ∀ cs a len vma, if prefetch then uf_int cs (U_swap_prefetch a len vma) ≠ -1
                               else uf_int cs (U_swap_prefetch a len vma) = -1;
  g_poll : ∀ cs c, uf_poll cs c = (1, POLLIN);
  g_read : ∀ cs c, fst (uf_read cs c) = sizeof_uffd_msg
}.

(** [step_ask] passes a call whose result a hypothesis gives. *)
Ltac ustep := apply runs_bind; eapply runs_done; [reflexivity|]; cbn [p_data p_calls].

(** The common part of a round: the message is taken and answered. *)
Lemma round_reads h prefetch w m q Q :
  granting prefetch → u_queue (p_data w) = m :: q →
  (∀ cs, texts cs = texts (p_calls w) → runs (answer_msg h m) (mkPstate ((p_data w) <| u_queue := q |>) cs) Q) →
  runs (handler_round h) w Q.
Proof.
  intros G Hq HQ. unfold handler_round. ustep. ustep. rewrite (g_poll _ G). cbn [fst snd].
  change (1 =? -1) with false. change (1 =? 0) with false. change (negb (1 =? 1)) with false. cbv iota. ustep.
  change (Z.land POLLIN POLLERR =? 0) with true. change (Z.land POLLIN POLLNVAL =? 0) with true.
  cbn [negb]. rewrite andb_false_r. change (Z.land (if POLLIN =? 0 then 1 else 0) POLLIN =? 0) with true. cbn [negb].
  unfold read_msg. apply runs_bind. ustep. ustep. cbv beta. rewrite Hq, (g_read _ G).
  change (sizeof_uffd_msg =? sizeof_uffd_msg) with true. cbv iota. ustep.
  eexists _, _. split; [reflexivity|]. change (sizeof_uffd_msg =? -1) with false.
  change (negb (sizeof_uffd_msg =? sizeof_uffd_msg)) with false. cbv iota. apply HQ.
  rewrite !texts_app. cbn. by rewrite !app_nil_r.
Qed.

Definition page_fault (a : Z) : uffd_msg := mkMsg UFFD_EVENT_PAGEFAULT (page a * PAGE_SIZE) 0.

(** The handler fills a page under such a kernel. *)
Definition answers (prefetch : bool) (h : handler) : Prop :=
  hd_copy h = true ∧ (prefetch = true ∨ hd_prefetch h = None).

Lemma round_copies h prefetch w a q :
  granting prefetch → answers prefetch h → u_queue (p_data w) = page_fault a :: q →
  runs (handler_round h) w (λ _ w',
    p_data w' = copy_page (page a * PAGE_SIZE) ((p_data w) <| u_queue := q |>) ∧ texts (p_calls w') = texts (p_calls w)).
Proof.
  intros G [Hc Hpf] Hq. eapply round_reads; [exact G|exact Hq|]. intros cs Hcs. unfold answer_msg.
  change (Z.land (m_event (page_fault a)) UFFD_EVENT_PAGEFAULT =? 0) with false. cbv iota. ustep. apply runs_bind.
  apply (runs_mono _ _ (λ go w', go = true ∧ p_data w' = (p_data w) <| u_queue := q |> ∧ texts (p_calls w') = texts (p_calls w))).
  - intros go w1 (-> & Hd & Ht). rewrite Hc. unfold uffdio_copy. ustep. rewrite (proj2 (Z.eqb_neq _ _) (g_copy _ G _ _ _)).
    ustep. eexists _, _. split; [reflexivity|]. cbn [p_data p_calls]. rewrite Hd. split; [done|].
    rewrite texts_app, Ht. cbn. by rewrite app_nil_r.
  - destruct (hd_prefetch h) as [[off vma]|]; [|eexists _, _; split; [reflexivity|]; cbn [p_data p_calls]; split; [done|split; [done|]]; rewrite texts_app, Hcs; by rewrite app_nil_r].
    destruct Hpf as [-> | ?]; [|done]. unfold swap_prefetch. apply runs_bind.
    apply (runs_mono _ _ (λ _ w', p_data w' = (p_data w) <| u_queue := q |> ∧ texts (p_calls w') = texts (p_calls w))).
    + intros [] w1 [Hd Ht]. ustep. rewrite (proj2 (Z.eqb_neq _ _) (g_prefetch _ G _ _ _ _)).
      eexists _, _. split; [reflexivity|]. cbn [p_data p_calls]. split; [done|split; [done|]].
      rewrite texts_app, Ht. cbn. by rewrite app_nil_r.
    + destruct (vma && _); eexists _, _; (split; [reflexivity|]); cbn [p_data p_calls]; (split; [done|]);
        rewrite ?texts_app, Hcs; cbn; by rewrite ?app_nil_r.
Qed.

(** Without the prefetch call the handler leaves, the page still missing. *)
Lemma round_gives_up h w a q off :
  granting false → hd_prefetch h = Some (off, false) → u_queue (p_data w) = page_fault a :: q →
  runs (handler_round h) w (λ _ w', u_handler (p_data w') = false ∧ u_missing (p_data w') = u_missing (p_data w)).
Proof.
  intros G Hp Hq. eapply round_reads; [exact G|exact Hq|]. intros cs Hcs. unfold answer_msg.
  change (Z.land (m_event (page_fault a)) UFFD_EVENT_PAGEFAULT =? 0) with false. cbv iota. ustep. rewrite Hp.
  unfold swap_prefetch. cbn [andb]. apply runs_bind. ustep. ustep. rewrite (g_prefetch _ G).
  change (-1 =? -1) with true. cbv iota. ustep. unfold leave.
  destruct (hd_free h); ustep; ustep; eexists _, _; (split; [reflexivity|]); eexists _, _; by split.
Qed.

(** Pages [lo, hi) of [main]'s buffers: the first ones filled by the handler,
    those from [next] on registered and missing. *)
Record registered (lo next hi : Z) (s : ufs) : Prop := {
  r_read : ∀ b, lo * PAGE_SIZE <= b < hi * PAGE_SIZE → allows PROT_READ (v_prot (u_vm s) b) = true;
  r_missing : ∀ p, lo <= p < hi → u_missing s p = negb (p <? next);
  r_filled : ∀ b, lo * PAGE_SIZE <= b < next * PAGE_SIZE → v_byte (u_vm s) b = buf (b mod PAGE_SIZE);
  r_queue : u_queue s = [];
  r_handler : u_handler s = true
}.

Lemma page_bounds b : page b * PAGE_SIZE <= b < (page b + 1) * PAGE_SIZE.
Proof. unfold page, PAGE_SIZE. dlia. Qed.

Lemma page_of b p : p * PAGE_SIZE <= b < (p + 1) * PAGE_SIZE → page b = p.
Proof. unfold page, PAGE_SIZE. intros. dlia. Qed.

Lemma registered_copy lo p hi s :
  lo <= p < hi → registered lo p hi s → registered lo (p + 1) hi (copy_page (p * PAGE_SIZE) s).
Proof.
  intros Hp H. assert (page (p * PAGE_SIZE) = p) as Hpage by (apply page_of; unfold PAGE_SIZE; lia). split.
  - apply (r_read _ _ _ _ H).
  - intros q Hq. cbn. rewrite Hpage, (r_missing _ _ _ _ H q Hq). destruct (Z.eqb_spec q p) as [->|Hne].
    + by rewrite (proj2 (Z.ltb_lt _ _)) by lia.
    + f_equal. destruct (Z.ltb_spec q p), (Z.ltb_spec q (p + 1)); try done; lia.
  - intros b Hb. cbn. destruct (in_range b (p * PAGE_SIZE) PAGE_SIZE) eqn:Er.
    + apply in_range_true in Er. f_equal. apply Z.mod_unique with (q := p); unfold PAGE_SIZE in *; lia.
    + apply in_range_false in Er. apply (r_filled _ _ _ _ H). unfold PAGE_SIZE in *. lia.
  - apply (r_queue _ _ _ _ H).
  - apply (r_handler _ _ _ _ H).
Qed.

Lemma touch_filled h fuel lo next hi b w :
  registered lo next hi (p_data w) → lo * PAGE_SIZE <= b < next * PAGE_SIZE → next <= hi →
  touch h fuel b w = Done (buf (b mod PAGE_SIZE)) w.
Proof.
  intros H Hb Hn. unfold touch. erewrite prog_bind_step by reflexivity. cbv beta.
  change (id (p_data w)) with (p_data w).
  rewrite (r_read _ _ _ _ H) by (unfold PAGE_SIZE in *; lia). cbn [negb].
  pose proof (page_bounds b) as Hp. rewrite (r_missing _ _ _ _ H) by (unfold PAGE_SIZE in *; lia).
  rewrite (proj2 (Z.ltb_lt _ _)) by (unfold PAGE_SIZE in *; lia). cbn [negb].
  erewrite prog_bind_step by reflexivity. unfold data. by rewrite (r_filled _ _ _ _ H).
Qed.

(** The first access to the next page is answered in one round. *)
Lemma touch_next h prefetch fuel lo p hi b w :
  granting prefetch → answers prefetch h → registered lo p hi (p_data w) → lo <= p < hi → page b = p →
  runs (touch h (S fuel) b) w (λ c w', c = buf (b mod PAGE_SIZE) ∧ registered lo (p + 1) hi (p_data w') ∧
    texts (p_calls w') = texts (p_calls w)).
Proof.
  intros G Hc H Hp Hb. pose proof (page_bounds b) as Hpb. rewrite Hb in Hpb.
  unfold touch. apply runs_bind. eapply runs_done; [reflexivity|].
  change (id (p_data w)) with (p_data w).
  rewrite (r_read _ _ _ _ H) by (unfold PAGE_SIZE in *; lia). cbn [negb].
  rewrite Hb, (r_missing _ _ _ _ H), (proj2 (Z.ltb_ge _ _)) by lia. cbn [negb].
  apply runs_bind, runs_bind. eapply runs_done; [reflexivity|]. cbn [answer].
  apply runs_bind. eapply runs_done; [reflexivity|]. cbn [p_data p_calls].
  match goal with |- context [negb ?o] => change o with (u_handler (p_data w)) end. rewrite (r_handler _ _ _ _ H). cbn [negb].
  apply runs_bind. eapply runs_mono; [|apply (round_copies h prefetch _ b []); [done|done|]].
  2: { cbn [p_data]. cbn. rewrite (r_queue _ _ _ _ H). unfold page_fault. by rewrite Hb. }
  intros go w1 [Hd Ht]. cbn [p_data p_calls] in Hd, Ht. rewrite Hb in Hd.
  assert (registered lo (p + 1) hi (p_data w1)) as H1.
  { rewrite Hd. apply registered_copy; [done|]. destruct H. by split. }
  apply runs_bind. eapply runs_done; [reflexivity|]. cbv beta.
  rewrite (r_missing _ _ _ _ H1), (proj2 (Z.ltb_lt _ _)) by lia. cbn [negb].
  eapply runs_done; [reflexivity|]. eapply runs_done; [reflexivity|].
  split; [|done]. apply (r_filled _ _ _ _ H1). unfold PAGE_SIZE in *. lia.
Qed.

(** What [main] prints of a page: the buffer of the handler from offset 8. *)
Definition fer : list Z := [102; 101; 114].

Lemma print_next h prefetch fuel lo p hi w :
  granting prefetch → answers prefetch h → registered lo p hi (p_data w) → lo <= p < hi →
  runs (print_string h (S fuel) (p * PAGE_SIZE + 8)) w (λ _ w', registered lo (p + 1) hi (p_data w') ∧
    texts (p_calls w') = texts (p_calls w) ++ [(p * PAGE_SIZE + 8, fer)]).
Proof.
  intros G Hc H Hp. set (a := p * PAGE_SIZE + 8).
  assert (∀ k, 0 <= k < 4 → (a + k) mod PAGE_SIZE = 8 + k ∧ page (a + k) = p) as Ha.
  { intros k Hk. unfold a. split; [symmetry; apply Z.mod_unique with (q := p); unfold PAGE_SIZE; lia|apply page_of; unfold PAGE_SIZE; lia]. }
  unfold print_string. apply runs_bind.
  assert (∃ m, 4096%nat = S (S (S (S m)))) as [m ->] by (by exists 4092%nat). cbn [read_string].
  replace (a + 1 + 1 + 1) with (a + 3) by lia. replace (a + 1 + 1) with (a + 2) by lia.
  apply runs_bind. eapply runs_mono; [|apply (touch_next h prefetch fuel lo p hi); [done|done|exact H|done|]].
  2: { rewrite <- (Z.add_0_r a). by apply Ha. }
  intros c w1 (-> & H1 & Ht).
  assert (a mod PAGE_SIZE = 8) as -> by (rewrite <- (Z.add_0_r a); by apply Ha). change (buf 8) with 102. cbn [Z.eqb].
  assert (∀ k, 0 <= k < 4 → touch h (S fuel) (a + k) w1 = Done (buf (8 + k)) w1) as Htouch.
  { intros k Hk. destruct (Ha k Hk) as [<- _]. apply (touch_filled h _ lo (p + 1) hi); [done|unfold a, PAGE_SIZE; lia|lia]. }
  apply runs_bind. eapply runs_exact; [apply (Htouch 1); lia|]. change (buf (8 + 1)) with 101. cbn [Z.eqb].
  apply runs_bind. eapply runs_exact; [apply (Htouch 2); lia|]. change (buf (8 + 2)) with 114. cbn [Z.eqb].
  apply runs_bind. eapply runs_exact; [apply (Htouch 3); lia|]. change (buf (8 + 3)) with 0. cbn [Z.eqb].
  do 4 (eapply runs_done; [reflexivity|]). eexists _, _. split; [reflexivity|]. split; [exact H1|].
  cbn [p_calls]. rewrite texts_app, Ht. done.
Qed.

(** The strings of [n] pages from [p] on. *)
Fixpoint page_texts (text : list Z) (p : Z) (n : nat) : list (Z * list Z) :=
  match n with O => [] | S n => (p * PAGE_SIZE + 8, text) :: page_texts text (p + 1) n end.

Lemma print_pages_next h prefetch fuel lo hi n p w :
  granting prefetch → answers prefetch h → registered lo p hi (p_data w) → lo <= p → p + Z.of_nat n <= hi →
  runs (print_pages h (S fuel) n (p * PAGE_SIZE + 8)) w (λ _ w', registered lo (p + Z.of_nat n) hi (p_data w') ∧
    texts (p_calls w') = texts (p_calls w) ++ page_texts fer p n).
Proof.
  intros G Hc. revert p w. induction n as [|n IH]; intros p w H Hlo Hp.
  - eexists _, _. split; [reflexivity|]. rewrite Z.add_0_r. split; [done|]. by rewrite app_nil_r.
  - cbn [print_pages]. apply runs_bind. eapply runs_mono; [|apply (print_next h prefetch fuel lo p hi); [done|done|done|lia]].
    intros [] w1 [H1 Ht]. replace (p * PAGE_SIZE + 8 + PAGE_SIZE) with ((p + 1) * PAGE_SIZE + 8) by lia.
    eapply runs_mono; [|apply IH; [exact H1|lia|lia]]. intros [] w2 [H2 Ht2].
    replace (p + 1 + Z.of_nat n) with (p + Z.of_nat (S n)) in H2 by lia. split; [done|].
    by rewrite Ht2, Ht, <- app_assoc.
Qed.

(** Pages whose bytes can be read without a fault. *)
Lemma print_still h fuel text p w :
  (∀ k, 0 <= k < 4 → ∃ c, touch h fuel (p * PAGE_SIZE + 8 + k) w = Done c w ∧ c = nth (Z.to_nat k) (text ++ [0]) 0) →
  text = fer ∨ text = [] →
  runs (print_string h fuel (p * PAGE_SIZE + 8)) w (λ _ w', p_data w' = p_data w ∧
    texts (p_calls w') = texts (p_calls w) ++ [(p * PAGE_SIZE + 8, text)]).
Proof.
  intros Ht Htext. unfold print_string. apply runs_bind. set (a := p * PAGE_SIZE + 8) in *.
  assert (∃ m, 4096%nat = S (S (S (S m)))) as [m ->] by (by exists 4092%nat). cbn [read_string].
  replace (a + 1 + 1 + 1) with (a + 3) by lia. replace (a + 1 + 1) with (a + 2) by lia.
  destruct (Ht 0 ltac:(lia)) as (c0 & H0 & E0). rewrite Z.add_0_r in H0. eapply runs_exact; [exact H0|].
  destruct Htext as [-> | ->]; cbn in E0; rewrite E0; cbn [Z.eqb].
  - destruct (Ht 1 ltac:(lia)) as (c1 & H1 & E1), (Ht 2 ltac:(lia)) as (c2 & H2 & E2), (Ht 3 ltac:(lia)) as (c3 & H3 & E3).
    cbn in E1, E2, E3. subst. apply runs_bind. eapply runs_exact; [exact H1|]. cbn [Z.eqb].
    apply runs_bind. eapply runs_exact; [exact H2|]. cbn [Z.eqb]. apply runs_bind. eapply runs_exact; [exact H3|]. cbn [Z.eqb].
    do 4 (eapply runs_done; [reflexivity|]). eexists _, _. split; [reflexivity|]. split; [done|]. cbn [p_calls]. by rewrite texts_app.
  - eapply runs_done; [reflexivity|]. eexists _, _. split; [reflexivity|]. split; [done|]. cbn [p_calls]. by rewrite texts_app.
Qed.

Lemma print_pages_still h fuel text n p w :
  (∀ q k w', p <= q < p + Z.of_nat n → 0 <= k < 4 → p_data w' = p_data w →
     ∃ c, touch h fuel (q * PAGE_SIZE + 8 + k) w' = Done c w' ∧ c = nth (Z.to_nat k) (text ++ [0]) 0) →
  text = fer ∨ text = [] →
  runs (print_pages h fuel n (p * PAGE_SIZE + 8)) w (λ _ w', p_data w' = p_data w ∧
    texts (p_calls w') = texts (p_calls w) ++ page_texts text p n).
Proof.
  intros Ht Htext. revert p w Ht. induction n as [|n IH]; intros p w Ht.
  - eexists _, _. split; [reflexivity|]. split; [done|]. by rewrite app_nil_r.
  - cbn [print_pages]. apply runs_bind. eapply runs_mono; [|apply (print_still h fuel text p w); [|exact Htext]].
    2: { intros k Hk. by apply Ht; [lia| |]. }
    intros [] w1 [H1 Ht1]. replace (p * PAGE_SIZE + 8 + PAGE_SIZE) with ((p + 1) * PAGE_SIZE + 8) by lia.
    eapply runs_mono; [|apply IH]. 2: { intros q k w' Hq Hk Hw'. apply Ht; [lia|done|by rewrite Hw']. }
    intros [] w2 [H2 Ht2]. rewrite H2, H1. split; [done|]. by rewrite Ht2, Ht1, <- app_assoc.
Qed.

(** *** The calls of [main] before it touches its pages *)

Definition quiet_step {A} (m : UP A) (Q : A → Prop) : Prop :=
  ∀ w, runs m w (λ x w', Q x ∧ p_data w' = p_data w ∧ texts (p_calls w') = texts (p_calls w)).

Lemma open_runs prefetch : granting prefetch → quiet_step open_uffd (λ _, True).
Proof.
  intros G w. unfold open_uffd. ustep. rewrite (proj2 (Z.eqb_neq _ _) (g_open _ G _)). ustep. ustep. rewrite (g_api _ G).
  eexists _, _. split; [reflexivity|]. cbn [p_data p_calls]. split; [done|split; [done|]].
  rewrite !texts_app. cbn. by rewrite !app_nil_r.
Qed.

Lemma uprint_runs format args : quiet_step (uprint format args) (λ _, True).
Proof.
  intros w. eexists _, _. split; [reflexivity|]. split; [done|split; [done|]]. cbn [p_calls]. rewrite texts_app. apply app_nil_r.
Qed.

Lemma result_runs what p a size : quiet_step (print_result what p a size) (λ _, True).
Proof. destruct p; apply uprint_runs. Qed.

Lemma malloc_runs prefetch : granting prefetch → quiet_step malloc_args (λ _, True).
Proof.
  intros G w. unfold malloc_args. ustep. rewrite (proj2 (Z.eqb_neq _ _) (g_malloc _ G _)). eexists _, _. split; [reflexivity|].
  cbn [p_data p_calls]. split; [done|split; [done|]]. rewrite texts_app. apply app_nil_r.
Qed.

Lemma quiet_step_runs {A B} (m : UP A) P (k : A → UP B) w Q :
  quiet_step m P → (∀ x w', P x → p_data w' = p_data w → texts (p_calls w') = texts (p_calls w) → runs (k x) w' Q) →
  runs (m ≫= k) w Q.
Proof. intros Hm Hk. apply runs_bind. eapply runs_mono; [|apply Hm]. intros x w' (H1 & H2 & H3). by apply Hk. Qed.

Lemma in_vm_runs {A} (m : VP A) w (Q : A → vm → Prop) :
  runs m (mkPstate (u_vm (p_data w)) (vm_calls (p_calls w))) (λ x v, Q x (p_data v)) →
  runs (in_vm m) w (λ x w', ∃ v, Q x v ∧ p_data w' = (p_data w) <| u_vm := v |> ∧ texts (p_calls w') = texts (p_calls w)).
Proof.
  intros (x & v & Hm & HQ). unfold in_vm. eexists x, _. split; [by rewrite Hm|].
  exists (p_data v). split; [done|split; [done|]]. cbn [p_calls]. rewrite texts_app, texts_vm. apply app_nil_r.
Qed.

(** A commit of [n] words: readable zeros there, nothing registered there, the
    rest as it was. *)
Definition committed_at (a n : Z) (s t : ufs) : Prop :=
  buffer (u_vm t) a n ∧ (∀ b, a <= b < a + 8 * n → v_byte (u_vm t) b = 0) ∧ apart a (page_up (8 * n)) (u_vm s) (u_vm t) ∧
  (∀ p, u_missing t p = if in_pages p a (8 * n) then false else u_missing s p) ∧
  u_queue t = u_queue s ∧ u_handler t = u_handler s.

Lemma u_commit_runs prefetch a n w :
  granting prefetch → 0 <= a → 0 < n → a + 8 * n <= 2 ^ 64 →
  runs (u_commit a (8 * n)) w (λ p w', p = Some a ∧ committed_at a n (p_data w) (p_data w') ∧
    texts (p_calls w') = texts (p_calls w)).
Proof.
  intros G Ha Hn Hend. unfold u_commit. apply runs_bind.
  eapply runs_mono; [|apply (in_vm_runs _ w (λ p v, p = Some a ∧ buffer v a n ∧ (∀ b, a <= b < a + 8 * n → v_byte v b = 0) ∧
     apart a (page_up (8 * n)) (u_vm (p_data w)) v))].
  - intros p w1 (v & (-> & H1 & H2 & H3) & Hd & Ht). apply runs_bind. eapply runs_done; [reflexivity|].
    eexists _, _. split; [reflexivity|]. cbn [p_data p_calls]. rewrite Hd. split; [done|split; [|done]].
    split; [exact H1|split; [exact H2|split; [exact H3|done]]].
  - eapply runs_mono; [|apply commit_any_runs; [done|done|done|apply G]]. intros p v (H1 & H2 & _ & _ & H4 & H3). done.
Qed.

Lemma u_reserve_runs prefetch a len w :
  granting prefetch → a ≠ MAP_FAILED →
  runs (u_reserve a len) w (λ p w', p = Some a ∧ u_queue (p_data w') = u_queue (p_data w) ∧
    texts (p_calls w') = texts (p_calls w)).
Proof.
  intros G Ha. unfold u_reserve. apply runs_bind. eapply runs_mono; [|apply (in_vm_runs _ w (λ p _, p = Some a))].
  - intros p w1 (v & -> & Hd & Ht). apply runs_bind. eapply runs_done; [reflexivity|].
    eexists _, _. split; [reflexivity|]. cbn [p_data p_calls]. rewrite Hd. done.
  - unfold reserve_anon_memory, reserve_anon. apply runs_bind. eapply runs_done; [reflexivity|].
    match goal with |- runs (mmap ?a0 ?l ?pr ?fl ≫= _) ?w0 _ => destruct (mmap_done a0 l pr fl w0) as (s & H & _) end.
    eapply runs_exact; [exact H|]. rewrite (g_mmap _ G), (proj2 (Z.eqb_neq _ _) Ha). by eexists _, _.
Qed.

Lemma register_runs prefetch a len w :
  granting prefetch →
  runs (register a len UFFDIO_REGISTER_MODE_MISSING) w (λ _ w', texts (p_calls w') = texts (p_calls w) ∧
    p_data w' = (p_data w) <| u_missing := λ p, if in_pages p a len then true else u_missing (p_data w) p |>).
Proof.
  intros G. unfold register. ustep. rewrite (g_register _ G). change (negb (0 =? 0)) with false. cbv iota.
  eexists _, _. split; [reflexivity|]. cbn [p_data p_calls]. rewrite texts_app. split; [apply app_nil_r|done].
Qed.

Lemma start_runs prefetch w :
  granting prefetch →
  runs start_handler w (λ _ w', texts (p_calls w') = texts (p_calls w) ∧ p_data w' = (p_data w) <| u_handler := true |>).
Proof.
  intros G. unfold start_handler. ustep. rewrite (g_thread _ G). ustep.
  eexists _, _. split; [reflexivity|]. cbn [p_data p_calls]. rewrite !texts_app. cbn. rewrite !app_nil_r. done.
Qed.

End Granting.

Section Mains.
Context {E : ufenv}.
Implicit Types w : pstate ufs ucall.

(** One buffer of two pages, from page [p] on. *)
#[local] Abbreviation size := (8 * 1024).

Lemma committed_read p s t b :
  committed_at (p * PAGE_SIZE) 1024 s t → p * PAGE_SIZE <= b < (p + 2) * PAGE_SIZE → allows PROT_READ (v_prot (u_vm t) b) = true.
Proof. intros ((_ & _ & H) & _) Hb. apply rw_both, H. unfold PAGE_SIZE in *. lia. Qed.

Lemma committed_apart p s t b :
  committed_at (p * PAGE_SIZE) 1024 s t → ¬ p * PAGE_SIZE <= b < (p + 2) * PAGE_SIZE →
  v_prot (u_vm t) b = v_prot (u_vm s) b.
Proof.
  intros (_ & _ & H & _) Hb. apply H. change (page_up size) with size. unfold PAGE_SIZE in *. lia.
Qed.

Lemma in_pages_true p lo hi : in_pages p (lo * PAGE_SIZE) ((hi - lo) * PAGE_SIZE) = (lo <=? p) && (p <? hi).
Proof.
  unfold in_pages. assert (page_up ((hi - lo) * PAGE_SIZE) = (hi - lo) * PAGE_SIZE) as ->.
  { unfold page_up, PAGE_SIZE. dlia. }
  replace (lo * PAGE_SIZE + (hi - lo) * PAGE_SIZE) with (hi * PAGE_SIZE) by lia.
  assert (∀ q, page (q * PAGE_SIZE) = q) as Hq by (intros q; apply page_of; unfold PAGE_SIZE; lia). by rewrite !Hq.
Qed.

Lemma registered_intro lo hi s t :
  (∀ b, lo * PAGE_SIZE <= b < hi * PAGE_SIZE → allows PROT_READ (v_prot (u_vm s) b) = true) → u_queue s = [] →
  t = (s <| u_missing := λ p, if in_pages p (lo * PAGE_SIZE) ((hi - lo) * PAGE_SIZE) then true else u_missing s p |>)
        <| u_handler := true |> →
  registered lo lo hi t.
Proof.
  intros Hr Hq ->. split; [exact Hr| |intros b Hb; lia|exact Hq|done].
  intros p Hp. cbn -[in_pages]. rewrite in_pages_true. rewrite (proj2 (Z.leb_le lo p)), (proj2 (Z.ltb_lt p hi)) by lia.
  by rewrite (proj2 (Z.ltb_ge p lo)) by lia.
Qed.

(** [quiet] calls, one after the other. *)
Ltac uskip L := eapply quiet_step_runs; [eapply L; eassumption || apply L|intros ? ? _ ? ?; cbv beta].

(** [user_fault_handler_poll.c] under a kernel with [userfaultfd]: each
    page [main] touches is filled by the handler with its buffer, so both
    passes print "fer", the rest of "test buffer" from offset 8. *)
Theorem poll_main_prints fuel prefetch w :
  granting prefetch → u_queue (p_data w) = [] →
  runs (handler_poll_main (S fuel)) w (λ r w', r = 0 ∧
    texts (p_calls w') = texts (p_calls w) ++ page_texts fer 0x20000 2 ++ page_texts fer 0x20000 2).
Proof.
  intros G Hq. unfold handler_poll_main. change user_buffer_size with size.
  eapply quiet_step_runs; [by eapply open_runs|intros _ w1 _ D1 T1].
  eapply quiet_step_runs; [apply uprint_runs|intros _ w2 _ D2 T2]. apply runs_bind.
  eapply runs_mono; [|apply (u_commit_runs prefetch 0x20000000 1024); [exact G|lia..]].
  intros p w3 (-> & C3 & T3). cbn beta. eapply quiet_step_runs; [apply result_runs|intros _ w4 _ D4 T4].
  apply runs_bind. eapply runs_mono; [|by eapply register_runs]. intros [] w5 (T5 & D5).
  eapply quiet_step_runs; [by eapply malloc_runs|intros _ w6 _ D6 T6].
  apply runs_bind. eapply runs_mono; [|by eapply start_runs]. intros [] w7 (T7 & D7).
  eapply quiet_step_runs; [apply uprint_runs|intros _ w8 _ D8 T8].
  assert (registered 0x20000 0x20000 0x20002 (p_data w8)) as R8.
  { apply (registered_intro _ _ (p_data w4)); [| |by rewrite D8, D7, D6, D5].
    - intros b Hb. rewrite D4. by apply (committed_read 0x20000 (p_data w2)).
    - rewrite D4. destruct C3 as (_ & _ & _ & _ & -> & _). by rewrite D2, D1. }
  change (pages_of size) with 2%nat. change (addr_of (Some 0x20000000) + 8) with (0x20000 * PAGE_SIZE + 8).
  apply runs_bind. eapply runs_mono; [|apply (print_pages_next handler_poll prefetch fuel 0x20000 0x20002 2); [done|split; [done|by right]|done|done|done]].
  intros [] w9 [R9 T9]. apply runs_bind. eapply runs_done; [reflexivity|].
  apply runs_bind. eapply runs_mono; [|apply (print_pages_still handler_poll (S fuel) fer 2 0x20000); [|by left]].
  - intros [] w10 [D10 T10]. eexists _, _. split; [reflexivity|]. split; [done|]. rewrite T10. cbn [p_calls].
    rewrite texts_app. cbn [texts omap list_omap]. rewrite app_nil_r, T9, T8, T7, T6, T5, T4, T3, T2, T1. by rewrite <- app_assoc.
  - intros q k w' Hq' Hk Hw'. eexists. split.
    + apply (touch_filled handler_poll _ 0x20000 0x20002 0x20002); [by rewrite Hw'|unfold PAGE_SIZE; lia|lia].
    + assert ((q * PAGE_SIZE + 8 + k) mod PAGE_SIZE = 8 + k) as ->
        by (symmetry; apply Z.mod_unique with (q := q); unfold PAGE_SIZE; lia).
      assert (k = 0 ∨ k = 1 ∨ k = 2 ∨ k = 3) as [-> | [-> | [-> | ->]]] by lia; reflexivity.
Qed.

Lemma vma_merge_setup_runs prefetch w :
  granting prefetch → u_queue (p_data w) = [] →
  runs vma_merge_setup w (λ _ w', registered 0x20000 0x20000 0x20006 (p_data w') ∧ texts (p_calls w') = texts (p_calls w)).
Proof.
  intros G Hq. unfold vma_merge_setup. change user_buffer_size with size.
  change user_buffer_addr_3 with 0x20004000. change user_buffer_addr_2 with 0x20002000. change user_buffer_addr_1 with 0x20000000.
  eapply quiet_step_runs; [by eapply open_runs|intros _ w1 _ D1 T1].
  eapply quiet_step_runs; [apply uprint_runs|intros _ w2 _ D2 T2]. apply runs_bind.
  eapply runs_mono; [|apply (u_commit_runs prefetch 0x20000000 1024); [exact G|lia..]].
  intros p w3 (-> & C3 & T3). cbn beta. eapply quiet_step_runs; [apply result_runs|intros _ w4 _ D4 T4]. apply runs_bind.
  eapply runs_mono; [|apply (u_commit_runs prefetch 0x20002000 1024); [exact G|lia..]].
  intros p w5 (-> & C5 & T5). cbn beta. eapply quiet_step_runs; [apply result_runs|intros _ w6 _ D6 T6]. apply runs_bind.
  eapply runs_mono; [|apply (u_commit_runs prefetch 0x20004000 1024); [exact G|lia..]].
  intros p w7 (-> & C7 & T7). cbn beta. eapply quiet_step_runs; [apply result_runs|intros _ w8 _ D8 T8].
  apply runs_bind. eapply runs_mono; [|by eapply register_runs]. intros [] w9 (T9 & D9).
  eapply runs_mono; [|by eapply start_runs]. intros [] w10 (T10 & D10).
  split; [|by rewrite T10, T9, T8, T7, T6, T5, T4, T3, T2, T1].
  rewrite D6 in C7. rewrite D4 in C5. apply (registered_intro _ _ (p_data w8)); [| |by rewrite D10, D9].
  - intros b Hb. rewrite D8. unfold PAGE_SIZE in Hb.
    assert (∀ p, p * PAGE_SIZE <= b < (p + 2) * PAGE_SIZE ∨ ¬ p * PAGE_SIZE <= b < (p + 2) * PAGE_SIZE) as Hdec by (intros p; lia).
    destruct (Hdec 0x20004) as [H4|H4]; [by apply (committed_read 0x20004 _ _ b C7)|].
    rewrite (committed_apart 0x20004 _ _ b C7 H4).
    destruct (Hdec 0x20002) as [H2|H2]; [by apply (committed_read 0x20002 _ _ b C5)|].
    rewrite (committed_apart 0x20002 _ _ b C5 H2).
    apply (committed_read 0x20000 _ _ b C3). unfold PAGE_SIZE in *. lia.
  - rewrite D8. destruct C7 as (_ & _ & _ & _ & -> & _), C5 as (_ & _ & _ & _ & -> & _), C3 as (_ & _ & _ & _ & -> & _).
    by rewrite D2, D1.
Qed.

(** C20. Under a kernel with the authors' prefetch call
    [user_fault_vma_merge.c] has every page of its three buffers, registered
    as one range, filled by the handler. *)
Theorem vma_merge_prints fuel w :
  granting true → u_queue (p_data w) = [] →
  runs (vma_merge_main (S fuel)) w (λ r w', r = 0 ∧ texts (p_calls w') = texts (p_calls w) ++ page_texts fer 0x20000 6).
Proof.
  intros G Hq. unfold vma_merge_main, vma_merge_touch. change (pages_of user_buffer_size) with 2%nat.
  change (user_buffer_addr_1 + 8) with (0x20000 * PAGE_SIZE + 8). change (user_buffer_addr_2 + 8) with (0x20002 * PAGE_SIZE + 8).
  change (user_buffer_addr_3 + 8) with (0x20004 * PAGE_SIZE + 8).
  assert (answers true handler_vma_merge) as An by (split; [done|by left]).
  apply runs_bind. eapply runs_mono; [|by apply (vma_merge_setup_runs true)]. intros [] w0 [R0 T0].
  eapply quiet_step_runs; [apply uprint_runs|intros _ w1 _ D1 T1]. rewrite <- D1 in R0.
  apply runs_bind. eapply runs_mono; [|apply (print_pages_next _ true fuel 0x20000 0x20006 2 0x20000); try done; lia]. intros [] w2 [R2 T2].
  eapply quiet_step_runs; [apply uprint_runs|intros _ w3 _ D3 T3]. rewrite <- D3 in R2.
  apply runs_bind. eapply runs_mono; [|apply (print_pages_next _ true fuel 0x20000 0x20006 2 0x20002); try done; lia]. intros [] w4 [R4 T4].
  apply runs_bind. eapply runs_mono; [|apply (print_pages_next _ true fuel 0x20000 0x20006 2 0x20004); try done; lia]. intros [] w5 [R5 T5].
  eexists _, _. split; [reflexivity|]. split; [done|]. rewrite T5, T4, T3, T2, T1, T0, <- !app_assoc. reflexivity.
Qed.

(** C21. On a kernel without that call the first round of the handler ends it
    before it has filled the page: the page stays missing, no handler is left,
    and [main] waits for ever. *)
Theorem unpatched_kernel_blocks fuel w :
  granting false → u_queue (p_data w) = [] → (2 <= fuel)%nat → vma_merge_main fuel w = Fault Blocked.
Proof.
  intros G Hq Hfuel. unfold vma_merge_main. eapply runs_fault; [by apply (vma_merge_setup_runs false)|].
  intros [] w0 [R0 _]. unfold vma_merge_touch. erewrite prog_bind_step by reflexivity. cbv beta.
  change (pages_of user_buffer_size) with 2%nat. change (user_buffer_addr_1 + 8) with (0x20000 * PAGE_SIZE + 8).
  apply prog_bind_fault. cbn [print_pages]. apply prog_bind_fault, prog_bind_fault.
  assert (∃ m, 4096%nat = S m) as [m ->] by (by exists 4095%nat). cbn [read_string]. apply prog_bind_fault.
  unfold touch. erewrite prog_bind_step by reflexivity. cbv beta. cbn [p_data].
  change (id (p_data w0)) with (p_data w0). rewrite (r_read _ _ _ _ R0) by (unfold PAGE_SIZE; lia). cbn [negb].
  change (page (0x20000 * PAGE_SIZE + 8)) with 0x20000. rewrite (r_missing _ _ _ _ R0) by lia. cbn [negb Z.ltb Z.compare Pos.compare Pos.compare_cont].
  apply prog_bind_fault. erewrite prog_bind_step by reflexivity. cbv beta.
  destruct fuel as [|fuel]; [lia|]. cbn [answer]. erewrite prog_bind_step by reflexivity. cbv beta.
  match goal with |- context [negb ?o] => change o with (u_handler (p_data w0)) end. rewrite (r_handler _ _ _ _ R0). cbn [negb].
  eapply runs_fault.
  { apply (round_gives_up handler_vma_merge _ (0x20000 * PAGE_SIZE + 8) [] 0 G eq_refl).
    cbn [p_data]. cbn. by rewrite (r_queue _ _ _ _ R0). }
  intros go w1 [H1 H2]. erewrite prog_bind_step by reflexivity. cbv beta. rewrite H2.
  match goal with |- context [u_missing ?s 0x20000] => change (u_missing s) with (u_missing (p_data w0)) end.
  rewrite (r_missing _ _ _ _ R0) by lia. cbn [negb Z.ltb Z.compare Pos.compare Pos.compare_cont].
  destruct fuel as [|fuel]; [lia|]. cbn [answer]. erewrite prog_bind_step by reflexivity. cbv beta. by rewrite H1.
Qed.

(** [user_fault_swap_prefetch_multi_commit.c] commits its buffer after
    registering it.  The commit maps the range anew and the registration is
    gone: no fault is reported, the handler is never asked, and the pages print
    as the empty strings of a fresh mapping. *)
Theorem multi_commit_unregisters fuel prefetch w :
  granting prefetch → u_queue (p_data w) = [] →
  runs (multi_commit_main fuel) w (λ r w', r = 0 ∧ u_queue (p_data w') = [] ∧
    (∀ p, 0x20000 <= p < 0x20002 → u_missing (p_data w') p = false) ∧
    texts (p_calls w') = texts (p_calls w) ++ page_texts [] 0x20000 2).
Proof.
  intros G Hq. unfold multi_commit_main. change user_buffer_size with size.
  eapply quiet_step_runs; [by eapply open_runs|intros _ w1 _ D1 T1].
  eapply quiet_step_runs; [apply uprint_runs|intros _ w2 _ D2 T2]. apply runs_bind.
  eapply runs_mono; [|by apply (u_reserve_runs prefetch)]. intros p w3 (-> & Q3 & T3). cbn beta.
  eapply quiet_step_runs; [apply result_runs|intros _ w4 _ D4 T4].
  apply runs_bind. eapply runs_mono; [|by eapply register_runs]. intros [] w5 (T5 & D5).
  apply runs_bind. eapply runs_mono; [|by eapply start_runs]. intros [] w6 (T6 & D6). apply runs_bind.
  eapply runs_mono; [|apply (u_commit_runs prefetch 0x20000000 1024); [exact G|lia..]].
  intros p w7 (-> & C7 & T7). cbn beta. eapply quiet_step_runs; [apply result_runs|intros _ w8 _ D8 T8].
  eapply quiet_step_runs; [apply uprint_runs|intros _ w9 _ D9 T9].
  assert (∀ p, 0x20000 <= p < 0x20002 → u_missing (p_data w7) p = false) as Hmiss.
  { destruct C7 as (_ & _ & _ & Hm & _). intros p Hp. rewrite Hm.
    change (in_pages p 0x20000000 size) with ((0x20000 <=? p) && (p <? 0x20002)).
    by rewrite (proj2 (Z.leb_le _ _)), (proj2 (Z.ltb_lt _ _)) by lia. }
  change (pages_of size) with 2%nat. change (addr_of (Some 0x20000000) + 8) with (0x20000 * PAGE_SIZE + 8).
  apply runs_bind. eapply runs_mono; [|apply (print_pages_still handler_multi_commit fuel [] 2 0x20000); [|by right]].
  - intros [] w10 [D10 T10]. eexists _, _. split; [reflexivity|]. split; [done|]. rewrite D10, D9, D8. split; [|split; [exact Hmiss|]].
    + destruct C7 as (_ & _ & _ & _ & -> & _). rewrite D6, D5. cbn. by rewrite D4, Q3, D2, D1.
    + by rewrite T10, T9, T8, T7, T6, T5, T4, T3, T2, T1.
  - intros q k w' Hq' Hk Hw'. exists 0. split; [|assert (k = 0 ∨ k = 1 ∨ k = 2 ∨ k = 3) as [-> | [-> | [-> | ->]]] by lia; reflexivity].
    unfold touch. erewrite prog_bind_step by reflexivity. cbv beta. change (id (p_data w')) with (p_data w').
    rewrite Hw', D9, D8. rewrite (committed_read 0x20000 _ _ _ C7) by (unfold PAGE_SIZE; lia). cbn [negb].
    rewrite (page_of _ q) by (unfold PAGE_SIZE; lia). rewrite Hmiss by lia. erewrite prog_bind_step by reflexivity.
    unfold data. rewrite Hw', D9, D8. destruct C7 as (_ & Hz & _). rewrite Hz by (unfold PAGE_SIZE; lia). done.
Qed.

End Mains.

(** *** [user_fault_swap_prefetch.cpp] *)

Section Prefetch.
Context {E : ufenv}.

(** [user_fault_swap_prefetch.cpp] stays inside its buffer, whatever the
    random numbers, and its sum is at most 128 times the largest index. *)
Theorem swap_prefetch_bounds prefetch fuel (w : pstate ufs ucall) :
  granting prefetch → (Z.to_nat (prefetch_user_buffer_size / 8) < fuel)%nat →
  runs (swap_prefetch_main fuel) w (λ r w', r = 0 ∧ ∃ sum,
    last (p_calls w') = Some (U_print "main, sum %lu " [sum]) ∧ 0 <= sum <= 128 * (prefetch_user_buffer_size / 8 - 1)).
Proof.
  change prefetch_user_buffer_size with (8 * 2 ^ 25). change (8 * 2 ^ 25 / 8) with (2 ^ 25). intros G Hf.
  unfold swap_prefetch_main. change prefetch_user_buffer_size with (8 * 2 ^ 25). change (8 * 2 ^ 25 / 8) with (2 ^ 25).
  eapply quiet_step_runs; [by eapply open_runs|intros _ w1 _ _ _].
  eapply quiet_step_runs; [apply uprint_runs|intros _ w2 _ _ _]. apply runs_bind.
  eapply runs_mono; [|by apply (u_reserve_runs prefetch)]. intros p w3 (-> & _). cbn beta.
  eapply quiet_step_runs; [apply result_runs|intros _ w4 _ _ _]. apply runs_bind.
  eapply runs_mono; [|apply (u_commit_runs prefetch 0x400000000000 (2 ^ 25)); [exact G|lia..]].
  intros p w5 (-> & (Hb & _) & _). cbn beta.
  eapply quiet_step_runs; [apply result_runs|intros _ w6 _ D6 _]. unfold register.
  apply runs_bind, runs_bind. eapply runs_done; [reflexivity|]. rewrite (g_register _ G).
  change (negb (0 =? 0)) with false. change (UFFDIO_REGISTER_MODE_WP =? UFFDIO_REGISTER_MODE_MISSING) with false. cbv iota.
  eapply runs_done; [reflexivity|]. eapply quiet_step_runs; [by eapply malloc_runs|intros _ w7 _ D7 _].
  apply runs_bind. eapply runs_mono; [|by eapply start_runs]. intros [] w8 (_ & D8).
  eapply quiet_step_runs; [apply uprint_runs|intros _ w9 _ D9 _].
  eapply quiet_step_runs; [apply uprint_runs|intros _ w10 _ D10 _].
  apply runs_bind. eapply runs_mono; [|apply (in_vm_runs _ w10 (λ _ v, keep 0x400000000000 (2 ^ 25) id (mkPstate v [])))].
  2: { eapply runs_mono; [|apply (fill_loop_runs 0x400000000000 (2 ^ 25) 0 (2 ^ 25) _ fuel); [|lia|lia|by rewrite Z.sub_0_r]].
       - intros [] v (Ho & Hh & _). split; [|exact Hh]. eapply buffer_prot; [apply Ho|].
         cbn [p_data]. rewrite D10, D9, D8. cbn. rewrite D7. cbn. by rewrite D6.
       - cbn [p_data]. rewrite D10, D9, D8. cbn. rewrite D7. cbn. by rewrite D6. }
  intros [] w11 (v & Hv & D11 & _). cbn beta.
  eapply quiet_step_runs; [apply uprint_runs|intros _ w12 _ D12 _].
  apply runs_bind. eapply runs_mono; [|apply (in_vm_runs _ w12 (λ sum _, 0 <= sum <= 128 * (2 ^ 25 - 1)))].
  - intros sum w13 (v' & Hs & _). apply runs_bind. eapply runs_done; [reflexivity|]. eexists _, _. split; [reflexivity|].
    split; [done|]. exists sum. split; [apply last_snoc|done].
  - eapply runs_mono; [|apply (bounded_sum_runs (λ w, keep 0x400000000000 (2 ^ 25) id (mkPstate (p_data w) [])) (λ _, 2 ^ 25 - 1));
      [lia|lia| | |lia| |]].
    + intros sum v' [_ Hs]. by rewrite zsum_const in Hs.
    + change (Z.to_nat 128) with 128%nat. assert (128 < 2 ^ 25) by lia. lia.
    + by rewrite zsum_const.
    + intros k x v' Hk [Hb' Hh']. apply runs_bind. eapply runs_done; [reflexivity|].
      match goal with |- context [?r mod 2 ^ 25] => pose proof (Z.mod_pos_bound r (2 ^ 25) ltac:(lia)) as Hi; generalize dependent (r mod 2 ^ 25) end.
      intros j Hj. eapply runs_exact; [apply (load_ok 0x400000000000 (2 ^ 25)); [exact Hb'|done]|].
      eexists _, _. split; [reflexivity|]. split; [done|]. exists j. split; [lia|]. cbn [p_data].
      rewrite (Hh' j Hj : word (p_data v') _ = _). apply u64_add_r.
    + cbn [p_data]. by rewrite D12, D11.
Qed.

End Prefetch.

(** ** Witnesses *)

Definition uffd_kernel (prefetch : bool) : ufenv := {|
  uf_vm := good_kernel;
  uf_int := λ _ c, match c with
    | U_userfaultfd => 3 | U_malloc => 0x1000 | U_swap_prefetch _ _ _ => if prefetch then 0 else -1 | _ => 0 end;
  uf_poll := λ _ _, (1, POLLIN);
  uf_read := λ _ _, (sizeof_uffd_msg, 0)
|}.
Definition uf_start : pstate ufs ucall := mkPstate (mkUf vm_empty (λ _, false) [] false) [].

Lemma uffd_granting prefetch : @granting (uffd_kernel prefetch) prefetch.
Proof. by destruct prefetch. Qed.

Lemma poll_main_prints_witness :
  runs (@handler_poll_main (uffd_kernel false) 1) uf_start (λ r w', r = 0 ∧
    texts (p_calls w') = [(0x20000008, fer); (0x20001008, fer); (0x20000008, fer); (0x20001008, fer)]).
Proof. apply (@poll_main_prints (uffd_kernel false) 0 false uf_start (uffd_granting false) eq_refl). Defined.

Lemma vma_merge_prints_witness :
  runs (@vma_merge_main (uffd_kernel true) 1) uf_start (λ r w', r = 0 ∧
    texts (p_calls w') = [(0x20000008, fer); (0x20001008, fer); (0x20002008, fer); (0x20003008, fer); (0x20004008, fer); (0x20005008, fer)]).
Proof. apply (@vma_merge_prints (uffd_kernel true) 0 uf_start (uffd_granting true) eq_refl). Defined.

Lemma unpatched_kernel_blocks_witness : @vma_merge_main (uffd_kernel false) 1000 uf_start = Fault Blocked.
Proof. apply (@unpatched_kernel_blocks (uffd_kernel false) 1000 uf_start (uffd_granting false) eq_refl). lia. Defined.

Lemma multi_commit_unregisters_witness :
  runs (@multi_commit_main (uffd_kernel true) 5) uf_start (λ r w', r = 0 ∧ u_queue (p_data w') = [] ∧
    (∀ p, 0x20000 <= p < 0x20002 → u_missing (p_data w') p = false) ∧
    texts (p_calls w') = [(0x20000008, []); (0x20001008, [])]).
Proof. apply (@multi_commit_unregisters (uffd_kernel true) 5 true uf_start (uffd_granting true) eq_refl). Defined.

Lemma swap_prefetch_bounds_witness :
  runs (@swap_prefetch_main (uffd_kernel true) (S (Z.to_nat (prefetch_user_buffer_size / 8)))) uf_start (λ r w', r = 0 ∧ ∃ sum,
    last (p_calls w') = Some (U_print "main, sum %lu " [sum]) ∧ 0 <= sum <= 128 * (prefetch_user_buffer_size / 8 - 1)).
Proof.
  apply (@swap_prefetch_bounds (uffd_kernel true) true (S (Z.to_nat (prefetch_user_buffer_size / 8))) uf_start
    (uffd_granting true) (Nat.lt_succ_diag_r _)).
Defined.

