(* ===== verification/Ratio.v ===== *)
(** * The ratio of pages in memory

    [src/block_device/swap_ratio]: [ratio.cpp] and [ratio.h] read the entries
    of a range of pages from [/proc/<pid>/pagemap] and count those whose
    present bit is set.

    The file is a parameter: the byte at an offset, or nothing at its end.
    [getc] and the conversion of its result to [unsigned char] are those of C,
    so that the end of the file reads as 255.  The returned quotient is the
    pair of its operands.  The loop counts with an [int], which leaves its range
    on 2^31 pages or more; what happens then the language leaves undefined
    ([Overflow]). *)

From S2P Require Import Prelude BitOps.

Definition PAGE_SIZE : Z := 4096.
Definition PAGEMAP_ENTRY : Z := 8.

(** [GET_BIT], [PG_PRESENT], [PG_SWAPPED] *)
Definition GET_BIT (x y : Z) : Z := Z.shiftr (Z.land x (Z.shiftl 1 y)) y.
Definition PG_PRESENT (x : Z) : Z := GET_BIT x 63.
Definition PG_SWAPPED (x : Z) : Z := GET_BIT x 62.

(** What [pages_inmem_ratio] returns: -1, or [double(num_pages_in) / num_pages];
    or it overflows. *)
Inductive ratio := Cannot_open | Cannot_seek | Quotient (num_pages_in num_pages : Z) | Overflow.

Section Ratio.
Context (file : option (Z → option Z)) (seek_ok : Z → bool) (IS_BIG_ENDIAN : bool).

Definition EOF : Z := -1.
Definition getc (bytes : Z → option Z) (pos : Z) : Z := match bytes pos with Some b => b | None => EOF end.

(** [c_buf] after the inner loop. *)
Definition c_buf (bytes : Z → option Z) (pos idx : Z) : Z :=
  u8 (getc bytes (pos + if IS_BIG_ENDIAN then idx else PAGEMAP_ENTRY - idx - 1)).

Fixpoint shift_in (n : nat) (c : Z → Z) (i read_val : Z) : Z :=
  match n with
  | O => read_val
  | S n => shift_in n c (i + 1) (u64 (Z.shiftl read_val 8 + c i))
  end.
Definition read_entry (bytes : Z → option Z) (pos : Z) : Z :=
  shift_in (Z.to_nat PAGEMAP_ENTRY) (c_buf bytes pos) 0 0.

(** The loop: pages present and swapped; [j] is an [int]. *)
Definition count_entry (read_val : Z) (c : Z * Z) : Z * Z :=
  (if PG_PRESENT read_val =? 0 then c.1 else c.1 + 1, if PG_SWAPPED read_val =? 0 then c.2 else c.2 + 1).
Fixpoint count_pages (n : nat) (bytes : Z → option Z) (pos j : Z) (c : Z * Z) : option (Z * Z) :=
  match n with
  | O => Some c
  | S n =>
      let c := count_entry (read_entry bytes pos) c in
      if j + 1 <? 2 ^ 31 then count_pages n bytes (pos + PAGEMAP_ENTRY) (j + 1) c else None
  end.

Definition pages_inmem_ratio (addr_start addr_end : Z) : ratio :=
  let num_pages := u64 (addr_end - addr_start) / 0x1000 in
  match file with
  | None => Cannot_open
  | Some bytes =>
      let base_offset := u64 (addr_start / PAGE_SIZE * PAGEMAP_ENTRY) in
      if seek_ok base_offset then
        match count_pages (Z.to_nat num_pages) bytes base_offset 0 (0, 0) with
        | Some c => Quotient c.1 num_pages
        | None => Overflow
        end
      else Cannot_seek
  end.

End Ratio.

(** ** Entries *)

(** The entry of page [p]: 8 bytes at [8 * p], the least significant first; none
    beyond the end of the file. *)
Definition entry (bytes : Z → option Z) (p : Z) : option Z :=
  of_le_bytes <$> mapM (λ k, bytes (8 * p + k)) (seqZ 0 8).
(** Bytes, and nothing behind the first that is missing. *)
Definition file_ok (bytes : Z → option Z) : Prop :=
  (∀ i b, bytes i = Some b → 0 <= b < 256) ∧ ∀ i k, i <= k → bytes i = None → bytes k = None.

(** The number that is read in the place of the entry. *)
Definition raw (bytes : Z → option Z) (p : Z) : Z :=
  of_le_bytes (map (λ k, default 255 (bytes (8 * p + k))) (seqZ 0 8)).

Lemma get_bit_testbit x y : 0 <= y → GET_BIT x y = Z.b2z (Z.testbit x y).
Proof.
  intros Hy. unfold GET_BIT. apply Z.bits_inj'. intros k Hk.
  rewrite Z.shiftr_spec, Z.land_spec, Z.shiftl_spec by lia.
  replace (k + y - y) with k by lia. destruct (decide (k = 0)) as [->|Hne].
  - rewrite Z.add_0_l, Z.b2z_bit0. by rewrite andb_true_r.
  - rewrite (Z.bits_above_log2 1 k), andb_false_r by (cbn; lia). destruct (Z.testbit x y); symmetry; [|apply Z.bits_0].
    apply Z.bits_above_log2; cbn; lia.
Qed.

Lemma getc_u8 bytes i : file_ok bytes → u8 (getc bytes i) = default 255 (bytes i) ∧ 0 <= default 255 (bytes i) < 256.
Proof.
  intros [Hb _]. unfold getc. destruct (bytes i) as [b|] eqn:E; cbn; [|done]. specialize (Hb i b E).
  split; [|done]. unfold u8. by apply Z.mod_small.
Qed.

Lemma shift_in_value n c i v :
  (∀ k, 0 <= c k < 256) → 0 <= v → (v + 1) * 256 ^ Z.of_nat n <= 2 ^ 64 →
  shift_in n c i v = v * 256 ^ Z.of_nat n + of_le_bytes (rev (map c (seqZ i (Z.of_nat n)))).
Proof.
  intros Hc. revert i v. induction n as [|n IH]; intros i v Hv Hmax;
    [change (Z.of_nat 0) with 0; rewrite Z.pow_0_r; change (seqZ i 0) with (@nil Z); cbn [shift_in map rev of_le_bytes]; lia|].
  rewrite Nat2Z.inj_succ, Z.pow_succ_r in * by lia. cbn [shift_in]. specialize (Hc i).
  assert (0 < 256 ^ Z.of_nat n) by (apply Z.pow_pos_nonneg; lia).
  rewrite shiftl_mul by lia. change (2 ^ 8) with 256. rewrite u64_id by nia. rewrite IH by nia.
  rewrite (seqZ_cons i (Z.succ (Z.of_nat n))) by lia. rewrite Z.pred_succ. cbn [map rev].
  rewrite of_le_bytes_app, length_rev, length_map, length_seqZ, Nat2Z.id. cbn [of_le_bytes]. change (Z.succ i) with (i + 1). lia.
Qed.

(** On a little-endian machine the shifts put the bytes together again. *)
Lemma read_entry_little bytes p : file_ok bytes → read_entry false bytes (8 * p) = raw bytes p.
Proof.
  intros Hb. unfold read_entry. change (Z.to_nat PAGEMAP_ENTRY) with 8%nat.
  assert (∀ k, c_buf false bytes (8 * p) k = default 255 (bytes (8 * p + (7 - k))) ∧ 0 <= c_buf false bytes (8 * p) k < 256) as Hc.
  { intros k. unfold c_buf, PAGEMAP_ENTRY. destruct (getc_u8 bytes (8 * p + (8 - k - 1)) Hb) as [-> ?].
    by replace (8 - k - 1) with (7 - k) in * by lia. }
  rewrite shift_in_value; [|intros k; apply Hc|lia|cbn; lia]. rewrite Z.mul_0_l, Z.add_0_l.
  rewrite (map_ext _ (λ k, default 255 (bytes (8 * p + (7 - k))))) by (intros k; apply Hc).
  unfold raw. rewrite <- map_rev, <- (map_map (λ k, 7 - k) (λ k, default 255 (bytes (8 * p + k)))). by rewrite map_rev, <- map_rev.
Qed.

(** An entry of which a byte is missing lacks the last one, which reads as 255. *)
Lemma raw_present bytes p :
  file_ok bytes → Z.testbit (raw bytes p) 63 = match entry bytes p with Some v => Z.testbit v 63 | None => true end.
Proof.
  intros [Hb Hend]. unfold entry. destruct (mapM _ _) as [l|] eqn:E; cbn [fmap option_fmap option_map].
  - apply mapM_Some in E. f_equal. unfold raw. f_equal. induction E as [|k x ks l Hk _ IH]; [done|].
    cbn [map]. by rewrite IH, Hk.
  - apply mapM_None, Exists_exists in E as (k & Hk%elem_of_seqZ & Hnone).
    assert (bytes (8 * p + 7) = None) as Hlast by (by apply (Hend (8 * p + k)); [lia|]).
    unfold raw. change (seqZ 0 8) with (seqZ 0 7 ++ [7]). rewrite map_app, of_le_bytes_app, length_map, length_seqZ.
    cbn [map of_le_bytes]. rewrite Hlast. cbn [default].
    assert (0 <= of_le_bytes (map (λ k, default 255 (bytes (8 * p + k))) (seqZ 0 7)) < 256 ^ Z.of_nat (length (seqZ 0 7))) as Hlow.
    { rewrite <- (length_map (λ k, default 255 (bytes (8 * p + k)))). apply of_le_bytes_range.
      apply Forall_map, Forall_forall. intros i _. by apply getc_u8. }
    rewrite length_seqZ in Hlow. revert Hlow. generalize (of_le_bytes (map (λ k, default 255 (bytes (8 * p + k))) (seqZ 0 7))).
    intros x Hx. change (256 ^ Z.of_nat (Z.to_nat 7)) with (2 ^ 56) in *.
    rewrite Z.testbit_odd, Z.shiftr_div_pow2 by lia. assert ((x + 2 ^ 56 * 255) / 2 ^ 63 = 1) as H1 by dlia.
    rewrite Z.mul_0_r, Z.add_0_r. by rewrite H1.
Qed.

(** ** The count *)

(** Pages of [p, p + n) with a property of their entry. *)
Definition count_of (P : option Z → bool) (bytes : Z → option Z) (p n : Z) : Z :=
  Z.of_nat (length (filter (λ q, P (entry bytes q) = true) (seqZ p n))).
(** Those whose entry has bit [y], and those beyond the end of the file. *)
Definition with_bit (y : Z) : (Z → option Z) → Z → Z → Z :=
  count_of (λ e, match e with Some v => Z.testbit v y | None => false end).
Definition beyond : (Z → option Z) → Z → Z → Z := count_of (λ e, match e with Some _ => false | None => true end).

Lemma count_of_cons P bytes p (n : nat) :
  count_of P bytes p (Z.of_nat (S n)) = Z.b2z (P (entry bytes p)) + count_of P bytes (p + 1) (Z.of_nat n).
Proof.
  unfold count_of. rewrite (seqZ_cons p (Z.of_nat (S n))) by lia. rewrite filter_cons.
  replace (Z.pred (Z.of_nat (S n))) with (Z.of_nat n) by lia. change (Z.succ p) with (p + 1).
  case_decide as Hd; [rewrite Hd; cbn [length Z.b2z]; lia|]. apply not_true_is_false in Hd. rewrite Hd. cbn [Z.b2z]. lia.
Qed.

Lemma count_entry_bits v c : count_entry v c = (c.1 + Z.b2z (Z.testbit v 63), c.2 + Z.b2z (Z.testbit v 62)).
Proof.
  unfold count_entry, PG_PRESENT, PG_SWAPPED. rewrite !get_bit_testbit by lia.
  f_equal; destruct (Z.testbit _ _); cbn; lia.
Qed.

Lemma count_pages_spec bytes n : ∀ p j c,
  file_ok bytes → j + Z.of_nat n < 2 ^ 31 →
  ∃ k, count_pages false n bytes (8 * p) j c = Some (c.1 + with_bit 63 bytes p (Z.of_nat n) + beyond bytes p (Z.of_nat n), k).
Proof.
  induction n as [|n IH]; intros p j c Hb Hj; [exists c.2; unfold with_bit, beyond, count_of; cbn; rewrite !Z.add_0_r; by destruct c|].
  cbn [count_pages]. destruct (Z.ltb_spec (j + 1) (2 ^ 31)); [|lia].
  rewrite read_entry_little, count_entry_bits by done.
  replace (8 * p + PAGEMAP_ENTRY) with (8 * (p + 1)) by (unfold PAGEMAP_ENTRY; lia).
  edestruct (IH (p + 1) (j + 1)) as [k ->]; [done|lia|]. exists k. unfold with_bit, beyond. rewrite !count_of_cons. cbn [fst snd].
  rewrite raw_present by done. do 2 f_equal. destruct (entry bytes p); cbn [Z.b2z]; lia.
Qed.

(** The 2^31-th page is one too many. *)
Lemma count_pages_overflow big bytes n : ∀ pos j c,
  j < 2 ^ 31 → 2 ^ 31 <= j + Z.of_nat n → count_pages big n bytes pos j c = None.
Proof.
  induction n as [|n IH]; intros pos j c Hj Hn; [lia|]. cbn [count_pages].
  destruct (Z.ltb_spec (j + 1) (2 ^ 31)); [apply IH; lia|done].
Qed.

(** What the function computes of a range that is in order. *)
Lemma ratio_run bytes seek_ok big addr_start addr_end :
  0 <= addr_start <= addr_end → addr_end < 2 ^ 64 → seek_ok (addr_start / 4096 * 8) = true →
  let n := (addr_end - addr_start) / 4096 in
  pages_inmem_ratio (Some bytes) seek_ok big addr_start addr_end =
    match count_pages big (Z.to_nat n) bytes (8 * (addr_start / 4096)) 0 (0, 0) with Some c => Quotient c.1 n | None => Overflow end.
Proof.
  intros Ha He Hs n. unfold pages_inmem_ratio. change PAGE_SIZE with 4096. change PAGEMAP_ENTRY with 8.
  rewrite (u64_id (addr_end - addr_start)) by lia.
  rewrite u64_id by (split; [apply Z.mul_nonneg_nonneg; [apply Z.div_pos|]; lia|dlia]).
  rewrite Hs. by replace (addr_start / 4096 * 8) with (8 * (addr_start / 4096)) by lia.
Qed.

(** C28. On a little-endian machine, for fewer than 2^31 pages,
    [pages_inmem_ratio] counts the pages of the range whose entry, its bytes
    taken least significant first, has bit 63, and with them, wrongly, the pages
    whose entry is beyond the end of the file (the result of [getc] is not
    compared with EOF); the swapped pages it counts too are not used.  From 2^31
    pages on its [int] loop variable overflows. *)
Theorem pages_inmem_ratio_spec bytes seek_ok addr_start addr_end :
  file_ok bytes → 0 <= addr_start <= addr_end → addr_end < 2 ^ 64 → seek_ok (addr_start / 4096 * 8) = true →
  let p := addr_start / 4096 in let n := (addr_end - addr_start) / 4096 in
  pages_inmem_ratio (Some bytes) seek_ok false addr_start addr_end =
    if n <? 2 ^ 31 then Quotient (with_bit 63 bytes p n + beyond bytes p n) n else Overflow.
Proof.
  intros Hb Ha He Hs p n. rewrite ratio_run by done. fold p n.
  assert (0 <= n) by (apply Z.div_pos; lia). destruct (Z.ltb_spec n (2 ^ 31)).
  - edestruct (count_pages_spec bytes (Z.to_nat n) p 0 (0, 0)) as [k ->]; [done|lia|]. cbn [fst]. by rewrite Z2Nat.id, Z.add_0_l.
  - by rewrite count_pages_overflow by lia.
Qed.

(** Three pages: one present, one swapped out, one beyond the end. *)
Definition two_pages (i : Z) : option Z :=
  if i <? 16 then Some (if i =? 7 then 0x81 else if i =? 15 then 0x40 else 1) else None.
Lemma two_pages_ok : file_ok two_pages.
Proof.
  unfold two_pages. split.
  - intros i b H. destruct (i <? 16); [|discriminate]. injection H as <-. destruct (i =? 7), (i =? 15); lia.
  - intros i k Hk. destruct (Z.ltb_spec i 16); [discriminate|]. destruct (Z.ltb_spec k 16); [lia|done].
Qed.
Lemma pages_inmem_ratio_spec_witness :
  pages_inmem_ratio (Some two_pages) (λ _, true) false 0 0x2000 = Quotient 1 2 ∧
  pages_inmem_ratio (Some two_pages) (λ _, true) false 0 0x3000 = Quotient 2 3 ∧
  pages_inmem_ratio (Some two_pages) (λ _, true) false 0 0x80000000000 = Overflow.
Proof.
  split; [|split]; (rewrite pages_inmem_ratio_spec; [reflexivity|exact two_pages_ok|lia|lia|reflexivity]).
Defined.

(** The end of the file is not looked for: a range of which the file says
    nothing is reported as wholly in memory. *)
Theorem pages_past_end_present seek_ok big addr_start addr_end :
  0 <= addr_start <= addr_end → addr_end < 2 ^ 64 → seek_ok (addr_start / 4096 * 8) = true →
  (addr_end - addr_start) / 4096 < 2 ^ 31 →
  pages_inmem_ratio (Some (λ _, None)) seek_ok big addr_start addr_end =
    Quotient ((addr_end - addr_start) / 4096) ((addr_end - addr_start) / 4096).
Proof.
  intros Ha He Hs Hn. rewrite ratio_run by done.
  assert (0 <= (addr_end - addr_start) / 4096) by (apply Z.div_pos; lia).
  assert (∀ n pos j c, j + Z.of_nat n < 2 ^ 31 →
    count_pages big n (λ _, None) pos j c = Some (c.1 + Z.of_nat n, c.2 + Z.of_nat n)) as Hc.
  { induction n as [|n IH]; intros pos j c Hj; [cbn; rewrite !Z.add_0_r; by destruct c|]. cbn [count_pages].
    destruct (Z.ltb_spec (j + 1) (2 ^ 31)); [|lia].
    assert (read_entry big (λ _, None) pos = 2 ^ 64 - 1) as -> by (by destruct big).
    rewrite count_entry_bits, IH by lia. change (Z.testbit (2 ^ 64 - 1) 63) with true. change (Z.testbit (2 ^ 64 - 1) 62) with true.
    cbn [fst snd Z.b2z]. do 2 f_equal; lia. }
  rewrite Hc by lia. cbn [fst]. by rewrite Z2Nat.id, Z.add_0_l.
Qed.

Lemma pages_past_end_present_witness :
  pages_inmem_ratio (Some (λ _, None)) (λ _, true) false 0x400000000000 0x400010000000 = Quotient 0x10000 0x10000.
Proof. apply pages_past_end_present; [lia|lia|reflexivity|reflexivity]. Defined.
