(* ===== verification/SharedBuf.v ===== *)
(** * Memory shared with the kernel

    The two programs of [src/Kernel-dev/user-kernel-shared-mem]:
    [register_user_kernel_shared_buf.c] hands 1 GB to system call 457 and
    writes some words of it; [read_page_swap_status.c] registers 512 KB in
    which the kernel keeps the state of the pages of a heap (an epoch, the
    length of the array that follows, one byte for each page), prints the
    array, writes the heap, and prints the array again.

    The kernel writes into the registered memory at any time, so each read of
    it sees what the environment says ([sh_now]).  [int]s, [unsigned int]s and
    bytes are read and written at their width; the [unsigned long] square that
    is stored into an [int] is cut to 32 bits and read back with its sign.

    Shown: the length that the kernel stores decides whether the program stays
    in the buffer, and what the printed sum of the heap is. *)

From Stdlib Require Import String.
From S2P Require Import Prelude BitOps OctTypes Kernel Prog VmArea SwapTests.

Definition SYS_USER_KERNEL_BUF : Z := 457.
Definition K : Z := 1024.
Definition M : Z := 1024 * 1024.

(** ** Numbers of [k] bytes *)

Definition num (s : vm) (a : Z) (k : nat) : Z := of_le_bytes (map (λ j, v_byte s (a + j)) (seqZ 0 (Z.of_nat k))).
Definition put_num (k : nat) (a v : Z) (s : vm) : vm :=
  s <| v_byte := λ b, if in_range b a (Z.of_nat k) then Z.shiftr v (8 * (b - a)) mod 256 else v_byte s b |>.

Class sharedenv := { sh_now : list vcall → Z → Z → option Z }.

(** The memory when the number at [a] is read. *)
Definition seen `{sharedenv} (cs : list vcall) (a : Z) (s : vm) : vm :=
  s <| v_byte := λ b, match sh_now cs a b with Some v => v mod 256 | None => v_byte s b end |>.

Section Tests.
Context {E : vmenv} {N : sharedenv}.

Definition access_bytes (k : nat) (need a : Z) : VP unit :=
  s ← data id;
  if forallb (λ j, allows need (v_prot s (a + j))) (seqZ 0 (Z.of_nat k)) then mret tt else crash BadPtr.
Definition load_num (k : nat) (p : option Z) (off : Z) : VP Z :=
  b ← nonnull p; let a := u64 (b + off) in
  access_bytes k PROT_READ a;; data (λ s, num s a k).
Definition store_num (k : nat) (p : option Z) (off v : Z) : VP unit :=
  b ← nonnull p; let a := u64 (b + off) in
  access_bytes k PROT_WRITE a;; update (put_num k a v).

(** [p[i]] of an [int *p]. *)
Definition load_int (p : option Z) (i : Z) : VP Z := x ← load_num 4 p (4 * i); mret (i32 x).
Definition store_int (p : option Z) (i v : Z) : VP unit := store_num 4 p (4 * i) v.

(** ** [register_user_kernel_shared_buf.c] *)

Definition register_buf (fuel : nat) (request_addr size : Z) : VP Z :=
  user_buf ← map_buffer request_addr size;
  r ← syscall SYS_USER_KERNEL_BUF [addr_of user_buf; size];
  if negb (i32 r =? 0) then printf "syscall error, with code %d" [i32 r];; mret 0
  else
    for_lt fuel 0 (size / 4) (16 * M) (λ i _, x ← load_int user_buf i; printf "#3 user_buf[%lu]: 0x%x" [i; u32 x]) tt;;
    for_lt fuel 0 (size / 4) (16 * M) (λ i _,
      store_int user_buf i 1;; x ← load_int user_buf i; printf "#4 user_buf[%lu]: 0x%x" [i; u32 x]) tt;;
    mret 0.
Definition register_buf_main (fuel : nat) : VP Z := register_buf fuel 0x400000000000 0x40000000.

(** ** [read_page_swap_status.c] *)

(** A field of [struct epoch_struct], with what the kernel has written by now. *)
Definition look (a : Z) : VP unit := λ w, Done tt (mkPstate (seen (p_calls w) a (p_data w)) (p_calls w)).
Definition load_shared (k : nat) (p : option Z) (off : Z) : VP Z :=
  b ← nonnull p; look (u64 (b + off));; load_num k p off.
Definition epoch (p : option Z) : VP Z := load_shared 4 p 0.
Definition length_of (p : option Z) : VP Z := load_shared 4 p 4.
Definition page_stats (p : option Z) (i : Z) : VP Z := load_shared 1 p (8 + i).

(** [for (i = 0; i < user_buf->length; i += step) printf(...)] *)
Fixpoint status_loop (fuel : nat) (p : option Z) (i step : Z) : VP unit :=
  match fuel with
  | O => crash Spin
  | S fuel =>
      n ← length_of p;
      if i <? n then
        x ← page_stats p i; printf "page_stat[%lu] %u " [i; x];; status_loop fuel p (u64 (i + step)) step
      else mret tt
  end.

(** The heap, with its messages. *)
Definition map_heap (request_addr size : Z) : VP (option Z) :=
  semeru_heap ← reserve_anon_memory request_addr size true;
  (match semeru_heap with
   | None => printf "Reserve semeru_heap, 0x%lx failed. " [request_addr]
   | Some a => printf "Reserve semeru_heap: 0x%lx, bytes_len: 0x%lx " [a; size]
   end);;
  semeru_heap ← commit_anon_memory request_addr size false;
  (match semeru_heap with
   | None => printf "Commit semeru_heap, 0x%lx failed. " [request_addr]
   | Some a => printf "Commit semeru_heap: 0x%lx, bytes_len: 0x%lx " [a; size]
   end);;
  mret semeru_heap.

(** [semeru_heap[i] = i*i; sum += semeru_heap[i];] *)
Definition square_loop (fuel : nat) (heap : option Z) (n : Z) : VP Z :=
  for_lt fuel 0 n 1 (λ i sum, store_int heap i (u64 (i * i));; x ← load_int heap i; mret (u64 (sum + x))) 0.

(** The fields before the array. *)
Definition show_header (user_buf : option Z) : VP unit :=
  x ← epoch user_buf; printf "epoch %d " [i32 x];;
  x ← length_of user_buf; printf "array length %x " [x].

(** The array, the heap, the array again. *)
Definition status_phases (fuel : nat) (user_buf : option Z) (heap_addr heap_size : Z) : VP Z :=
  status_loop fuel user_buf 0 (256 * K);;
  semeru_heap ← map_heap heap_addr heap_size;
  sum ← square_loop fuel semeru_heap (heap_size / 4);
  printf "Sum is %lu" [sum];;
  status_loop fuel user_buf 0 (2 * K);;
  mret 0.

Definition read_status (fuel : nat) (buf_addr buf_size heap_addr heap_size : Z) : VP Z :=
  user_buf ← map_buffer buf_addr buf_size;
  r ← syscall SYS_USER_KERNEL_BUF [addr_of user_buf; buf_size];
  if negb (i32 r =? 0) then printf "syscall error, with code %d" [i32 r];; mret 0
  else show_header user_buf;; status_phases fuel user_buf heap_addr heap_size.
Definition read_status_main (fuel : nat) : VP Z := read_status fuel 0x100000000000 0x80000 0x400000000000 0x40000000.

End Tests.

(** ** Numbers in the memory *)

Lemma num_put s a v : num (put_num 4 a v s) a 4 = u32 v.
Proof.
  unfold num, put_num, u32. change (Z.of_nat 4) with 4. cbn -[seqZ].
  erewrite (map_ext_in _ (λ k, Z.shiftr v (8 * k) mod 256)).
  - assert (map (λ k, Z.shiftr v (8 * k) mod 256) (seqZ 0 4) = le_bytes 4 v) as ->; [|apply of_le_bytes_of].
    change (seqZ 0 4) with [0; 1; 2; 3]. cbn [map le_bytes].
    rewrite !Z.shiftr_div_pow2 by lia. rewrite !Z.div_div by lia. by rewrite Z.div_1_r.
  - intros k Hk%list_elem_of_In%elem_of_seqZ.
    rewrite (proj2 (in_range_true (a + k) a 4)) by lia. by replace (a + k - a) with k by lia.
Qed.

Lemma i32_u64 z : i32 (u32 (u64 z)) = i32 z.
Proof.
  unfold i32, u32, u64. rewrite Z.mod_mod_divide by (by exists (2 ^ 32)). by rewrite Zplus_mod_idemp_l.
Qed.

Lemma u32_u64 z : u32 (u64 z) = u32 z.
Proof. unfold u32, u64. apply Z.mod_mod_divide. by exists (2 ^ 32). Qed.

Lemma u32_add x y : u32 (u32 x + u32 y) = u32 (x + y).
Proof. unfold u32. by rewrite Zplus_mod_idemp_l, Zplus_mod_idemp_r. Qed.

Lemma zsum_u32 m g h : (∀ k, u32 (g k) = u32 (h k)) → u32 (zsum m g) = u32 (zsum m h).
Proof.
  intros H. induction m as [|m IH]; [done|]. cbn [zsum]. by rewrite <- u32_add, IH, H, u32_add.
Qed.

(** [0 + 1 + 4 + ... + (m - 1)^2] *)
Lemma zsum_squares m : 6 * zsum m (λ i, i * i) = Z.of_nat m * (Z.of_nat m - 1) * (2 * Z.of_nat m - 1).
Proof. induction m as [|m IH]; [done|]. rewrite zsum_S, Z.mul_add_distr_l, IH, Nat2Z.inj_succ. ring. Qed.

Section Rules.
Context {E : vmenv} {N : sharedenv}.
Implicit Types w : pstate vm vcall.

Lemma access_bytes_ok k need a w :
  (∀ j, 0 <= j < Z.of_nat k → allows need (v_prot (p_data w) (a + j)) = true) → access_bytes k need a w = Done tt w.
Proof.
  intros H. unfold access_bytes. rewrite (prog_bind_step _ _ _ _ _ (eq_refl : data id w = Done (p_data w) w)).
  rewrite (proj2 (forallb_forall _ _)); [done|]. intros j Hj%list_elem_of_In%elem_of_seqZ. apply H. lia.
Qed.

Lemma load_num_ok k p m off w :
  buffer (p_data w) p m → 0 <= off → off + Z.of_nat k <= 8 * m → (0 < k)%nat →
  load_num k (Some p) off w = Done (num (p_data w) (p + off) k) w.
Proof.
  intros (H1 & H2 & H3) Ho Hk Hp. unfold load_num. erewrite prog_bind_step by reflexivity. cbv zeta. rewrite u64_id by lia.
  erewrite (prog_bind_step (access_bytes _ _ _)); [done|]. apply access_bytes_ok. intros j Hj. apply rw_both, H3. lia.
Qed.

Lemma store_num_ok k p m off v w :
  buffer (p_data w) p m → 0 <= off → off + Z.of_nat k <= 8 * m → (0 < k)%nat →
  store_num k (Some p) off v w = Done tt (mkPstate (put_num k (p + off) v (p_data w)) (p_calls w)).
Proof.
  intros (H1 & H2 & H3) Ho Hk Hp. unfold store_num. erewrite prog_bind_step by reflexivity. cbv zeta. rewrite u64_id by lia.
  erewrite (prog_bind_step (access_bytes _ _ _)); [done|]. apply access_bytes_ok. intros j Hj. apply rw_both, H3. lia.
Qed.

(** The number the kernel shows at an offset, at this point of the run. *)
Definition shown (k : nat) (p off : Z) w : Z := num (seen (p_calls w) (p + off) (p_data w)) (p + off) k.

Lemma load_shared_ok k p m off w :
  buffer (p_data w) p m → 0 <= off → off + Z.of_nat k <= 8 * m → (0 < k)%nat →
  load_shared k (Some p) off w =
    Done (shown k p off w) (mkPstate (seen (p_calls w) (p + off) (p_data w)) (p_calls w)).
Proof.
  intros Hb Ho Hk Hp. pose proof Hb as (H1 & H2 & _). unfold load_shared. erewrite prog_bind_step by reflexivity. cbv beta.
  erewrite prog_bind_step by reflexivity. cbv beta. rewrite u64_id by lia. by rewrite (load_num_ok _ _ m).
Qed.

(** *** The squares *)

Lemma square_loop_runs h m n fuel w :
  buffer (p_data w) h m → 0 <= n → 4 * n <= 8 * m → (Z.to_nat n < fuel)%nat →
  runs (square_loop fuel (Some h) n) w (λ sum w',
    sum = u64 (zsum (Z.to_nat n) (λ i, i32 (i * i))) ∧ v_prot (p_data w') = v_prot (p_data w) ∧ p_calls w' = p_calls w).
Proof.
  intros Hb Hn Hm Hf. pose proof Hb as (H1 & H2 & _). unfold square_loop. eapply runs_mono; [|apply (for_lt_runs (λ k sum w',
    sum = u64 (zsum (Z.to_nat k) (λ i, i32 (i * i))) ∧ v_prot (p_data w') = v_prot (p_data w) ∧ p_calls w' = p_calls w))];
    [|lia..| | |by rewrite rounds_one, Z.sub_0_r].
  - intros sum w'. by rewrite rounds_one, Z.sub_0_r.
  - intros k sum w' Hk Hlt (-> & Hp & Hc). replace (0 + 1 * k) with k in * by lia.
    assert (buffer (p_data w') h m) as Hb' by by eapply buffer_prot.
    eapply runs_exact; [apply (store_num_ok 4 h m); [done|lia|lia|lia]|].
    eapply runs_exact.
    { unfold load_int. erewrite prog_bind_step; [reflexivity|].
      apply (load_num_ok 4 h m); [by eapply buffer_prot; [|exact Hb']|lia|lia|lia]. }
    eexists _, _. split; [reflexivity|]. cbn [p_data p_calls]. split; [|by split].
    rewrite num_put, i32_u64, u64_add_l. by rewrite zsum_Zsucc by done.
  - done.
Qed.

(** *** Reserving at a fixed address *)

Definition reserve_ok (a size : Z) : Prop :=
  ∀ cs, let r := ve_ret cs (V_mmap a size PROT_NONE 0x4032) in r = a ∨ r = MAP_FAILED.

Lemma reserve_apart a size w :
  reserve_ok a size →
  runs (reserve_anon_memory a size true) w (λ _ w', apart a (page_up size) (p_data w) (p_data w')).
Proof.
  intros Hok. unfold reserve_anon_memory, reserve_anon. apply runs_bind. eapply runs_done; [reflexivity|]. cbv beta zeta.
  apply runs_bind. unfold mmap. apply runs_bind. eapply runs_done; [reflexivity|]. cbn [fst snd].
  match goal with |- context [ve_ret ?cs ?c] => destruct (Hok cs) as [Hr|Hr]; unfold PROT_NONE in Hr; change (ve_ret cs c) with (ve_ret cs (V_mmap a size 0 0x4032)); rewrite Hr end.
  - destruct (Z.eqb_spec a MAP_FAILED); eexists _, _; (split; [reflexivity|]); eexists _, _; (split; [reflexivity|]).
    + intros b Hb%in_range_false. cbn. case_match; cbn; by rewrite ?Hb.
    + intros b Hb%in_range_false. cbn. by rewrite Hb.
  - rewrite Z.eqb_refl. eexists _, _. split; [reflexivity|]. eexists _, _. split; [reflexivity|].
    intros b Hb%in_range_false. cbn. case_match; cbn; by rewrite ?Hb.
Qed.

End Rules.

(** ** Printing the states of the pages *)

Section Status.
Context {E : vmenv} {N : sharedenv} (p m : Z) (fuel : nat).
Context (Hm : 0 < m).
Implicit Types w : pstate vm vcall.

(** Rounds from [i] to the end of the buffer. *)
Definition rounds_left (i step : Z) : nat := Z.to_nat ((8 * m - i) / step).

Definition same_prot w w' : Prop := v_prot (p_data w') = v_prot (p_data w) ∧ ∃ cs, p_calls w' = p_calls w ++ cs.

Lemma same_prot_trans w1 w2 w3 : same_prot w1 w2 → same_prot w2 w3 → same_prot w1 w3.
Proof. intros [H1 (cs & H2)] [H3 (ds & H4)]. split; [by rewrite H3|]. exists (cs ++ ds). by rewrite H4, H2, app_assoc. Qed.

Lemma status_length k off w :
  buffer (p_data w) p m → 0 <= off → off + Z.of_nat k <= 8 * m → (0 < k)%nat →
  ∃ w', load_shared k (Some p) off w = Done (shown k p off w) w' ∧ same_prot w w' ∧ p_calls w' = p_calls w.
Proof.
  intros Hb H1 H2 H3. eexists. split; [by apply (load_shared_ok k p m)|]. split; [|done].
  split; [done|]. exists []. by rewrite app_nil_r.
Qed.

Lemma left_step i step : 8 < step → (step | 8 * m) → (step | i) → 0 <= i < 8 * m →
  rounds_left i step = S (rounds_left (i + step) step) ∧ i + step <= 8 * m.
Proof.
  intros Hs (a & Ha) (b & Hb) Hi. unfold rounds_left. subst i. rewrite Ha in *.
  assert (b < a) by nia. replace (a * step - b * step) with ((a - b) * step) by lia.
  replace (a * step - (b * step + step)) with ((a - b - 1) * step) by lia. rewrite !Z.div_mul by lia. split; [lia|nia].
Qed.

(** One round: the state of page [i] is printed. *)
Lemma status_round f i step w :
  buffer (p_data w) p m → 0 <= i → 8 + i < 8 * m → i < shown 4 p 4 w →
  ∃ w', same_prot w w' ∧ status_loop (S f) (Some p) i step w = status_loop f (Some p) (u64 (i + step)) step w'.
Proof using All.
  intros Hb Hi Hlt Hlen. destruct (status_length 4 4 w) as (w1 & H1 & Hs1 & Hc1); [done|lia|lia|lia|].
  assert (buffer (p_data w1) p m) as Hb1 by (eapply buffer_prot; [apply Hs1|done]).
  destruct (status_length 1 (8 + i) w1) as (w2 & H2 & Hs2 & _); [done|lia|lia|lia|].
  eexists. split; [eapply same_prot_trans; [exact Hs1|eapply same_prot_trans; [exact Hs2|]]|].
  2:{ cbn [status_loop]. unfold length_of. rewrite (prog_bind_step _ _ _ _ _ H1).
      rewrite (proj2 (Z.ltb_lt _ _)) by done. unfold page_stats. rewrite (prog_bind_step _ _ _ _ _ H2).
      erewrite prog_bind_step by reflexivity. reflexivity. }
  split; [done|]. by eexists.
Qed.

(** A length within the buffer, all the time: the loop ends, with no access
    outside. *)
Lemma status_loop_runs step : 8 < step → (step | 8 * m) → 16 < m → p + 8 * m <= 2 ^ 64 → step <= 2 ^ 32 → 8 * m <= 2 ^ 32 →
  (∀ w, shown 4 p 4 w <= 8 * m) →
  ∀ f i w, buffer (p_data w) p m → (step | i) → 0 <= i <= 8 * m → (rounds_left i step < f)%nat →
  runs (status_loop f (Some p) i step) w (λ _ w', same_prot w w').
Proof using All.
  intros Hs Hdiv H16 Hend Hs32 Hm32 Hlen. induction f as [|f IH]; intros i w Hb Hi Hr Hf; [lia|].
  destruct (Z.ltb_spec i (shown 4 p 4 w)) as [Hlt|Hge].
  - pose proof (Hlen w). destruct (left_step i step) as [Hl Hnext]; [done..|lia|].
    destruct (status_round f i step w) as (w1 & Hw1 & He); [done|lia|lia|done|].
    unfold runs. rewrite He, u64_id by lia.
    destruct (IH (i + step) w1) as ([] & w2 & H2 & Hw2); [by eapply buffer_prot; [apply Hw1|]| |lia|lia|].
    { apply Z.divide_add_r; [done|apply Z.divide_refl]. }
    exists tt, w2. split; [done|]. by eapply same_prot_trans.
  - destruct (status_length 4 4 w) as (w1 & H1 & Hs1 & _); [done|lia|lia|lia|].
    exists tt, w1. split; [|done]. cbn [status_loop]. unfold length_of. rewrite (prog_bind_step _ _ _ _ _ H1).
    by rewrite (proj2 (Z.ltb_ge _ _)).
Qed.

(** A length beyond the buffer, all the time: the loop goes on to the first byte
    behind the buffer's pages. *)
Lemma status_loop_overruns step : 8 < step → (step | 8 * m) → 16 < m → p + 8 * m + 9 <= 2 ^ 64 → step <= 2 ^ 32 → 8 * m <= 2 ^ 32 →
  (∀ w, 8 * m < shown 4 p 4 w) →
  ∀ f i w, buffer (p_data w) p m → allows PROT_READ (v_prot (p_data w) (p + 8 * m + 8)) = false →
  (step | i) → 0 <= i <= 8 * m → (rounds_left i step < f)%nat →
  status_loop f (Some p) i step w = Fault BadPtr.
Proof using All.
  intros Hs Hdiv H16 Hend Hs32 Hm32 Hlen. induction f as [|f IH]; intros i w Hb Hp Hi Hr Hf; [lia|].
  pose proof (Hlen w). pose proof Hb as (Ha & _). destruct (decide (i = 8 * m)) as [->|Hne].
  - destruct (status_length 4 4 w) as (w1 & H1 & [Hs1 _] & _); [done|lia|lia|lia|].
    cbn [status_loop]. unfold length_of. rewrite (prog_bind_step _ _ _ _ _ H1), (proj2 (Z.ltb_lt _ _)) by done.
    apply prog_bind_fault. unfold page_stats, load_shared. erewrite prog_bind_step by reflexivity.
    erewrite prog_bind_step by reflexivity. unfold load_num. erewrite prog_bind_step by reflexivity. cbv beta zeta.
    apply prog_bind_fault. rewrite u64_id by lia. unfold access_bytes. erewrite prog_bind_step by reflexivity.
    cbn [id p_data]. change (seqZ 0 (Z.of_nat 1)) with [0]. cbn [forallb].
    match goal with |- context [v_prot (seen ?cs ?a ?s)] => change (v_prot (seen cs a s)) with (v_prot s) end. rewrite Hs1.
    by replace (p + (8 + 8 * m) + 0) with (p + 8 * m + 8) by lia; rewrite Hp.
  - destruct (left_step i step) as [Hl Hnext]; [done..|lia|].
    destruct (status_round f i step w) as (w1 & [Hw1 ?] & ->); [done|lia|lia|lia|]. rewrite u64_id by lia.
    apply IH; [by eapply buffer_prot|by rewrite Hw1| |lia|lia]. apply Z.divide_add_r; [done|apply Z.divide_refl].
Qed.

End Status.

(** ** The programs *)

Section Programs.
Context {E : vmenv} {N : sharedenv}.
Implicit Types w : pstate vm vcall.

Lemma apart_trans a n s t u : apart a n s t → apart a n t u → apart a n s u.
Proof. intros H1 H2 b Hb. destruct (H1 b Hb) as [<- <-]. by apply H2. Qed.

Lemma buffer_apart a n b m s t : apart a n s t → b + 8 * m <= a ∨ a + n <= b → buffer s b m → buffer t b m.
Proof. intros Ha Hd (H1 & H2 & H3). split_and!; [done|done|]. intros c Hc. rewrite (proj1 (Ha c ltac:(lia))). by apply H3. Qed.

(** The range is committed, and nothing else has changed. *)
Definition mapped (a n : Z) w (q : option Z) w' : Prop :=
  q = Some a ∧ buffer (p_data w') a n ∧ apart a (page_up (8 * n)) (p_data w) (p_data w').

Lemma commit_mapped {A} a n w0 w (k : option Z → VP A) Q :
  0 <= a → 0 < n → a + 8 * n <= 2 ^ 64 → commit_ok 0 a (8 * n) → apart a (page_up (8 * n)) (p_data w0) (p_data w) →
  (∀ w', mapped a n w0 (Some a) w' → runs (k (Some a)) w' Q) → runs (commit_anon_memory a (8 * n) false ≫= k) w Q.
Proof.
  intros Ha Hn He Hok Hp Hk. apply runs_bind. eapply runs_mono; [|by apply commit_runs].
  intros q w1 (-> & Hb & _ & _ & H1). apply Hk. split; [done|split; [done|]]. by eapply apart_trans.
Qed.

Lemma map_buffer_mapped a n w :
  0 <= a → 0 < n → a + 8 * n <= 2 ^ 64 → reserve_ok a (8 * n) → commit_ok 0 a (8 * n) →
  runs (map_buffer a (8 * n)) w (mapped a n w).
Proof.
  intros Ha Hn He Hr Hc. unfold map_buffer, map_with. apply runs_bind. eapply runs_mono; [|by apply reserve_apart].
  intros q w1 H1. cbn beta. apply runs_bind. destruct q; (eapply runs_done; [reflexivity|]);
    (apply (commit_mapped a n w); [done..|exact H1|]); intros w2 (_ & H2 & H3); apply print_runs; by eexists _, _.
Qed.

Lemma map_heap_mapped a n w :
  0 <= a → 0 < n → a + 8 * n <= 2 ^ 64 → reserve_ok a (8 * n) → commit_ok 0 a (8 * n) →
  runs (map_heap a (8 * n)) w (mapped a n w).
Proof.
  intros Ha Hn He Hr Hc. unfold map_heap. apply runs_bind. eapply runs_mono; [|by apply reserve_apart].
  intros q w1 H1. cbn beta. apply runs_bind. destruct q; (eapply runs_done; [reflexivity|]);
    (apply (commit_mapped a n w); [done..|exact H1|]); intros w2 (_ & H2 & H3); apply print_runs; by eexists _, _.
Qed.

Lemma page_up_mul n : (PAGE_SIZE | n) → page_up n = n.
Proof. intros (k & ->). unfold page_up, PAGE_SIZE. dlia. Qed.

(** Up to the array. *)
Lemma status_prefix fuel p m heap heap_size w :
  0 <= p → 16 < m → p + 8 * m <= 2 ^ 64 → (PAGE_SIZE | 8 * m) → reserve_ok p (8 * m) → commit_ok 0 p (8 * m) →
  (∀ cs, i32 (ve_ret cs (V_syscall SYS_USER_KERNEL_BUF [p; 8 * m])) = 0) →
  ∃ w', read_status fuel p (8 * m) heap heap_size w = status_phases fuel (Some p) heap heap_size w' ∧
    buffer (p_data w') p m ∧ ∀ b, ¬ p <= b < p + 8 * m → v_prot (p_data w') b = v_prot (p_data w) b.
Proof.
  intros Hp Hm He Hpg Hr Hc Hsys. destruct (map_buffer_mapped p m w) as (q & w1 & H1 & -> & Hb & Ha); [done|lia|done..|].
  unfold read_status. rewrite (prog_bind_step _ _ _ _ _ H1). erewrite prog_bind_step by reflexivity. cbv beta.
  cbn [fst snd addr_of default]. rewrite Hsys. cbn [Z.eqb negb]. unfold show_header.
  match goal with |- context [mkPstate ?s ?cs] => set (w2 := mkPstate s cs) end.
  assert (buffer (p_data w2) p m) as Hb2 by (by eapply buffer_prot; [|exact Hb]).
  destruct (status_length p m 4 0 w2) as (w3 & H3 & Hs3 & _); [done|lia|lia|lia|].
  assert (buffer (p_data w3) p m) as Hb3 by (eapply buffer_prot; [apply Hs3|done]).
  set (w3' := mkPstate (p_data w3) (p_calls w3 ++ [V_print "epoch %d " [i32 (shown 4 p 0 w2)]])).
  destruct (status_length p m 4 4 w3') as (w4 & H4 & Hs4 & _); [done|lia|lia|lia|].
  eexists. split; [|split].
  - erewrite prog_bind_step; [reflexivity|]. unfold epoch, length_of. rewrite (prog_bind_step _ _ _ _ _ H3).
    erewrite prog_bind_step by reflexivity. fold w3'. rewrite (prog_bind_step _ _ _ _ _ H4). reflexivity.
  - eapply buffer_prot; [apply Hs4|done].
  - intros b Hn. cbn [p_data]. rewrite (proj1 Hs4). cbn [p_data w3']. rewrite (proj1 Hs3).
    change (v_prot (p_data w2)) with (v_prot (p_data w1)). apply Ha. by rewrite page_up_mul.
Qed.

Lemma fuel_left m i step fuel : 0 <= i <= 8 * m → 0 < step → (Z.to_nat (8 * m) < fuel)%nat → (rounds_left m i step < fuel)%nat.
Proof.
  intros Hi Hs Hf. unfold rounds_left. assert ((8 * m - i) / step <= 8 * m - i); [|lia]. apply Z.div_le_upper_bound; nia.
Qed.

(** C25. As long as the length the kernel stores stays within the 512 KB, the
    program reads the array within the buffer, however often the kernel changes
    it, ends with 0, and prints a sum of the heap that agrees with the sum of
    the squares modulo 2^32: each square is cut to an [int] and added with its
    sign. *)
Theorem read_status_sums fuel p m h n w :
  0 <= p → 16 < m → p + 8 * m <= 2 ^ 64 → 8 * m <= 2 ^ 32 → (256 * K | 8 * m) →
  0 <= h → 0 < n → h + 8 * n <= 2 ^ 64 → p + 8 * m <= h ∨ h + page_up (8 * n) <= p →
  reserve_ok p (8 * m) → commit_ok 0 p (8 * m) → reserve_ok h (8 * n) → commit_ok 0 h (8 * n) →
  (∀ cs, i32 (ve_ret cs (V_syscall SYS_USER_KERNEL_BUF [p; 8 * m])) = 0) →
  (∀ w, shown 4 p 4 w <= 8 * m) → (Z.to_nat (8 * m) < fuel)%nat → (Z.to_nat (2 * n) < fuel)%nat →
  runs (read_status fuel p (8 * m) h (8 * n)) w (λ r w', r = 0 ∧ ∃ sum, V_print "Sum is %lu" [sum] ∈ p_calls w' ∧
    sum = u64 (zsum (Z.to_nat (2 * n)) (λ i, i32 (i * i))) ∧
    u32 sum = u32 (2 * n * (2 * n - 1) * (4 * n - 1) / 6)).
Proof.
  intros Hp Hm He Hm32 Hd Hh Hn Hhe Hdis Hr Hc Hr' Hc' Hsys Hlen Hf Hf'.
  assert (2 * K | 8 * m) as Hd2 by (eapply Z.divide_trans; [|exact Hd]; by exists 128).
  destruct (status_prefix fuel p m h (8 * n) w) as (w1 & Hw1 & Hb1 & _); [done..| |done|done|done|].
  { eapply Z.divide_trans; [|exact Hd]. by exists 64. }
  unfold runs. rewrite Hw1. change (runs (status_phases fuel (Some p) h (8 * n)) w1
    (λ r w', r = 0 ∧ ∃ sum, V_print "Sum is %lu" [sum] ∈ p_calls w' ∧
      sum = u64 (zsum (Z.to_nat (2 * n)) (λ i, i32 (i * i))) ∧ u32 sum = u32 (2 * n * (2 * n - 1) * (4 * n - 1) / 6))).
  unfold status_phases. apply runs_bind. eapply runs_mono; [|apply (status_loop_runs p m); try done; try lia].
  2:{ apply Z.divide_0_r. } 2:{ by apply fuel_left; [lia| |]. }
  intros [] w2 [Hs2 _]. cbn beta. apply runs_bind. eapply runs_mono; [|by apply map_heap_mapped].
  intros q w3 (-> & Hb3 & Ha3). cbn beta. assert (buffer (p_data w3) p m) as Hp3.
  { eapply buffer_apart; [exact Ha3|lia|]. by eapply buffer_prot. }
  apply runs_bind. assert (8 * n / 4 = 2 * n) as -> by (clear; dlia).
  eapply runs_mono; [|apply (square_loop_runs h n); [done|lia|lia|done]]. intros sum w4 (Hsum & Hs4 & _). cbn beta.
  apply print_runs, runs_bind. eapply runs_mono; [|apply (status_loop_runs p m); try done; try lia].
  2:{ by eapply buffer_prot. } 2:{ apply Z.divide_0_r. } 2:{ by apply fuel_left; [lia| |]. }
  intros [] w5 [_ (cs & Hc5)]. eexists _, _. split; [reflexivity|]. split; [done|]. exists sum. split_and!; [|done|].
  - rewrite Hc5. cbn [p_calls]. rewrite !elem_of_app. left. right. by apply list_elem_of_singleton.
  - rewrite Hsum, u32_u64. rewrite (zsum_u32 _ _ (λ i, i * i)) by (intros k; apply u32_i32). f_equal.
    apply (Z.div_unique _ _ _ 0); [lia|]. rewrite Z.add_0_r, zsum_squares, Z2Nat.id by lia. ring.
Qed.

(** Nothing compares the length with the size of the buffer: when the kernel
    stores a larger one the program is killed at the first byte it reads behind
    the buffer. *)
Theorem read_status_overruns fuel p m h n w :
  0 <= p → 16 < m → p + 8 * m + 9 <= 2 ^ 64 → 8 * m <= 2 ^ 32 → (256 * K | 8 * m) →
  reserve_ok p (8 * m) → commit_ok 0 p (8 * m) →
  (∀ cs, i32 (ve_ret cs (V_syscall SYS_USER_KERNEL_BUF [p; 8 * m])) = 0) →
  allows PROT_READ (v_prot (p_data w) (p + 8 * m + 8)) = false →
  (∀ w, 8 * m < shown 4 p 4 w) → (Z.to_nat (8 * m) < fuel)%nat →
  read_status fuel p (8 * m) h n w = Fault BadPtr.
Proof.
  intros Hp Hm He Hm32 Hd Hr Hc Hsys Hno Hlen Hf.
  destruct (status_prefix fuel p m h n w) as (w1 & -> & Hb1 & Hout); [done|done|lia| |done|done|done|].
  { eapply Z.divide_trans; [|exact Hd]. by exists 64. }
  unfold status_phases. apply prog_bind_fault. apply (status_loop_overruns p m); try done; try lia.
  - by rewrite Hout by lia.
  - apply Z.divide_0_r.
  - by apply fuel_left; [lia| |].
Qed.

(** The messages of the second loop: each of the words is 1. *)
Definition ones_messages (m : Z) : list vcall :=
  map (λ k, V_print "#4 user_buf[%lu]: 0x%x" [16 * M * k; 1]) (seqZ 0 m).

Lemma print_ints_runs fuel a n w :
  buffer (p_data w) a n → 0 <= n → 2 * n + 16 * M <= 2 ^ 64 → (Z.to_nat (rounds 0 (2 * n) (16 * M)) < fuel)%nat →
  runs (for_lt fuel 0 (2 * n) (16 * M) (λ i _, x ← load_int (Some a) i; printf "#3 user_buf[%lu]: 0x%x" [i; u32 x]) tt) w
    (λ _ w', buffer (p_data w') a n).
Proof.
  intros Hb Hn Hs Hf. eapply runs_mono; [|apply (for_lt_runs (λ _ _ w', buffer (p_data w') a n))]; [done|lia|done|lia| |done|done].
  intros k [] w' Hk Hlt Hb'. unfold M in *. eapply runs_exact; [|by eexists _, _].
  unfold load_int. erewrite prog_bind_step; [reflexivity|]. apply (load_num_ok 4 a n); [done|lia|lia|lia].
Qed.

(** When its buffer is committed and the kernel accepts it, the registering
    program returns 0, and the words it rewrites, one every 64 MB, read as 1. *)
Theorem register_rewrites fuel a n w :
  0 <= a → 0 < n → a + 8 * n <= 2 ^ 64 → 2 * n + 16 * M <= 2 ^ 64 → commit_ok 0 a (8 * n) →
  (∀ cs, i32 (ve_ret cs (V_syscall SYS_USER_KERNEL_BUF [a; 8 * n])) = 0) →
  (Z.to_nat (rounds 0 (2 * n) (16 * M)) < fuel)%nat →
  runs (register_buf fuel a (8 * n)) w (λ r w', r = 0 ∧
    ∃ cs, p_calls w' = cs ++ ones_messages (rounds 0 (2 * n) (16 * M))).
Proof.
  intros Ha Hn He Hs Hc Hsys Hf. unfold register_buf. apply runs_bind. eapply runs_mono; [|by apply map_with_runs].
  intros p w1 (-> & Hb & _). cbn beta. apply runs_bind. eapply runs_done; [reflexivity|]. cbn [fst snd addr_of default].
  rewrite Hsys. cbn [Z.eqb negb]. assert (8 * n / 4 = 2 * n) as -> by (clear; dlia).
  apply runs_bind. eapply runs_mono; [|apply (print_ints_runs fuel a n); [by eapply buffer_prot; [|exact Hb]|lia|done|done]].
  intros [] w2 Hb2. cbn beta. apply runs_bind. eapply runs_mono; [|apply (for_lt_runs (λ k _ w',
    buffer (p_data w') a n ∧ p_calls w' = p_calls w2 ++ ones_messages k)); [lia|done|lia| | |done]].
  - intros [] w3 [_ Hc3]. eexists _, _. split; [reflexivity|]. split; [done|]. by eexists.
  - intros k [] w3 Hk Hlt [Hb3 Hc3]. unfold M in *. eapply runs_exact; [apply (store_num_ok 4 a n); [done|lia|lia|lia]|].
    eapply runs_exact.
    { unfold load_int. erewrite prog_bind_step; [reflexivity|].
      apply (load_num_ok 4 a n); [by eapply buffer_prot; [|exact Hb3]|lia|lia|lia]. }
    eexists _, _. split; [reflexivity|]. cbn [p_data p_calls]. split; [by eapply buffer_prot; [|exact Hb3]|].
    rewrite num_put, Hc3, <- app_assoc. f_equal. unfold ones_messages, M. rewrite (seqZ_app 0 k 1), map_app by lia. by rewrite Z.add_0_l.
  - split; [done|]. by rewrite app_nil_r.
Qed.

(** Neither program takes notice of a failure: one of the system call ends
    them with 0, and one of the commit is only printed, the null pointer being
    handed to the kernel and, when that accepts it, read. *)
Theorem failures_unreported fuel a n h hn w :
  0 <= a → 0 < n → a + 8 * n <= 2 ^ 64 → 0 < (8 * n) / 4 →
  (commit_ok 0 a (8 * n) → (∀ cs, i32 (ve_ret cs (V_syscall SYS_USER_KERNEL_BUF [a; 8 * n])) ≠ 0) →
    runs (register_buf fuel a (8 * n)) w (λ r _, r = 0) ∧ runs (read_status fuel a (8 * n) h hn) w (λ r _, r = 0)) ∧
  (commit_no 0 a (8 * n) → (∀ cs, i32 (ve_ret cs (V_syscall SYS_USER_KERNEL_BUF [0; 8 * n])) = 0) →
    register_buf (S fuel) a (8 * n) w = Fault NullDeref ∧ read_status fuel a (8 * n) h hn w = Fault NullDeref).
Proof.
  intros Ha Hn He Hpos. split; intros Hc Hsys.
  - unfold register_buf, read_status. split; apply runs_bind; (eapply runs_mono; [|by apply map_with_runs]);
      intros p w1 (-> & _); apply runs_bind; (eapply runs_done; [reflexivity|]); cbn [fst snd addr_of default];
      rewrite (proj2 (Z.eqb_neq _ _) (Hsys _)); apply print_runs; by eexists _, _.
  - destruct (map_with_fails 0 a (8 * n) w Hc) as (p & w1 & H1 & -> & _).
    unfold register_buf, read_status. unfold map_buffer. rewrite !(prog_bind_step _ _ _ _ _ H1). cbv beta.
    split; (erewrite prog_bind_step by reflexivity); cbn [fst snd addr_of default]; rewrite Hsys; cbn [Z.eqb negb].
    + apply prog_bind_fault. cbn [for_lt]. by rewrite (proj2 (Z.ltb_lt _ _) Hpos).
    + by apply prog_bind_fault.
Qed.

End Programs.

(** ** Instances *)

(** A kernel that puts [v] into the length, in its lowest three bytes. *)
Definition length_kernel (p v : Z) : sharedenv :=
  {| sh_now := λ _ _ b, if in_range b (p + 4) 4 then Some (Z.shiftr v (8 * (b - (p + 4)))) else None |}.

Lemma length_kernel_shown p v w : 0 <= v < 2 ^ 32 → @shown (length_kernel p v) 4 p 4 w = v.
Proof.
  intros Hv. rewrite <- (u32_id v) at 2 by done. rewrite <- (num_put (p_data w) (p + 4) v). unfold shown, num. f_equal.
  apply map_ext_in. intros k Hk%list_elem_of_In%elem_of_seqZ. change (Z.of_nat 4) with 4 in Hk |- *. unfold seen, put_num. cbn -[in_range].
  change (Z.of_nat 4) with 4. rewrite !(proj2 (in_range_true (p + 4 + k) (p + 4) 4)) by lia. done.
Qed.

Lemma good_reserve a size : @reserve_ok good_kernel a size.
Proof. intros cs. by left. Qed.

(** The program as it is: 2^28 integers. *)
Lemma read_status_sums_witness :
  runs (@read_status_main good_kernel (length_kernel 0x100000000000 0x80000) (S (Z.to_nat (2 ^ 28)))) vm_start (λ r w', r = 0 ∧
    ∃ sum, V_print "Sum is %lu" [sum] ∈ p_calls w' ∧ u32 sum = 0x58000000).
Proof.
  eapply runs_mono; [|apply (@read_status_sums good_kernel (length_kernel 0x100000000000 0x80000) (S (Z.to_nat (2 ^ 28)))
    0x100000000000 0x10000 0x400000000000 (2 ^ 27) vm_start ltac:(lia) ltac:(lia) ltac:(lia) ltac:(lia) ltac:(by exists 2)
    ltac:(lia) ltac:(lia) ltac:(lia) ltac:(left; lia) (good_reserve _ _) (good_commit _ _ _) (good_reserve _ _) (good_commit _ _ _)
    ltac:(intros cs; reflexivity))].
  - intros r w' (H1 & sum & H2 & _ & H3). split; [done|]. exists sum. split; [done|]. rewrite H3. vm_compute. reflexivity.
  - intros w. by rewrite length_kernel_shown by lia.
  - apply Nat.lt_succ_r, Z2Nat.inj_le; lia.
  - apply Nat.lt_succ_diag_r.
Defined.

Lemma read_status_overruns_witness :
  @read_status_main good_kernel (length_kernel 0x100000000000 0x80001) (S (Z.to_nat 0x80000)) vm_start = Fault BadPtr.
Proof.
  apply (@read_status_overruns good_kernel (length_kernel 0x100000000000 0x80001) (S (Z.to_nat 0x80000)) 0x100000000000 0x10000);
    [lia|lia|lia|lia|by exists 2|apply good_reserve|apply good_commit|intros cs; reflexivity|reflexivity| |apply Nat.lt_succ_diag_r].
  intros w. by rewrite length_kernel_shown by lia.
Defined.

Lemma register_rewrites_witness :
  runs (@register_buf_main good_kernel 17) vm_start (λ r w', r = 0 ∧ ∃ cs, p_calls w' = cs ++ ones_messages 16).
Proof.
  apply (@register_rewrites good_kernel 17 0x400000000000 (2 ^ 27) vm_start);
    [lia|lia|lia|vm_compute; congruence|apply good_commit|intros cs; reflexivity|].
  change (Z.to_nat (rounds 0 (2 * 2 ^ 27) (16 * M))) with 16%nat. lia.
Defined.

Definition refusing_kernel (r c : Z) : vmenv :=
  {| ve_ret := λ _ call, match call with V_mmap a _ prot _ => if prot =? 0 then a else if c =? 0 then a else MAP_FAILED | _ => r end;
     ve_fill := λ _ _ _, None; ve_lost := λ _ _, false; ve_drop := λ _, [] |}.
Lemma failures_unreported_witness :
  runs (@register_buf_main (refusing_kernel 38 0) 17) vm_start (λ r _, r = 0) ∧
  @register_buf_main (refusing_kernel 0 1) 17 vm_start = Fault NullDeref.
Proof.
  split.
  - apply (@failures_unreported (refusing_kernel 38 0) (length_kernel 0 0) 16 0x400000000000 (2 ^ 27) 0 0 vm_start);
      [lia|lia|lia|reflexivity|intros cs; reflexivity|intros cs; discriminate].
  - apply (@failures_unreported (refusing_kernel 0 1) (length_kernel 0 0) 16 0x400000000000 (2 ^ 27) 0 0 vm_start);
      [lia|lia|lia|reflexivity|intros cs; reflexivity|intros cs; reflexivity].
Defined.
