(* ===== verification/SwapCounters.v ===== *)
(** * The swap counters of the remote-swap kernel

    Four programs of [src/block_device/swap] that read or reset the counters a
    patched kernel keeps: [remoteswap_read_counter.c] and
    [remoteswap_reset_counter.c] hand the kernel pointers to three local
    [int]s, [remoteswap_read_latency_counter.c] and
    [remoteswap_reset_latency_counter.c] only look at the result of the call.

    The three variables live at addresses of the stack ([locals]); the kernel
    may write anything during a call.  Shown: the programs print exactly what
    the kernel stored, and 0 for a variable it did not store, whatever the
    call returns: on a kernel without the call they report that nothing was
    swapped in. *)

From Stdlib Require Import String.
From S2P Require Import Prelude BitOps OctTypes Kernel Prog VmArea SwapTests SharedBuf.

Definition SYS_REMOTE_STAT_RESET : Z := 451.
Definition SYS_REMOTE_STAT_READ : Z := 452.

(** Where the stack has [ondemand_swapin_num], [prefetch_swapin_num] and
    [hit_on_prefetch_num]. *)
Record locals := mkLocals { at_ondemand : Z; at_prefetch : Z; at_hit : Z }.

Section Counters.
Context {E : vmenv}.

(** A local [int] is set and read. *)
Definition set_local (a v : Z) : VP unit := update (put_num 4 a v).
Definition get_local (a : Z) : VP Z := data (λ s, i32 (num s a 4)).

Definition init_locals (l : locals) : VP unit :=
  set_local (at_ondemand l) 0;; set_local (at_prefetch l) 0;; set_local (at_hit l) 0.

Definition counters_message : string :=
  "#1 on-demand swapin pages %d , prefetch swapin pages %d, hit-on swap cache pages %d ".

(** From the message about the check on. *)
Definition read_counters (l : locals) : VP Z :=
  printf "#1 Check current swapped out pages num" [];;
  _ ← syscall SYS_REMOTE_STAT_READ [at_ondemand l; at_prefetch l; at_hit l];
  x ← get_local (at_ondemand l); y ← get_local (at_prefetch l); z ← get_local (at_hit l);
  printf counters_message [x; y; z];; mret 0.

Definition remoteswap_read_counter (l : locals) : VP Z := init_locals l;; read_counters l.

Definition remoteswap_reset_counter (l : locals) : VP Z :=
  init_locals l;;
  printf "Reset the swap out statistics monitoring array" [];;
  _ ← syscall SYS_REMOTE_STAT_RESET [];
  printf "SYS_SWAP_STAT_RESET done." [];;
  read_counters l.

Definition get_swap_stats : VP Z :=
  printf "#1 Check current swapped out pages num" [];;
  ret ← syscall SYS_REMOTE_STAT_READ [];
  printf "SYS_GET_SWAP_STATS returned %d " [i32 ret];; mret 0.

Definition remoteswap_read_latency_counter : VP Z := get_swap_stats.

Definition remoteswap_reset_latency_counter : VP Z :=
  printf "Reset the swap out latency statistics" [];;
  ret ← syscall SYS_REMOTE_STAT_RESET [];
  printf "SYS_SWAP_STAT_RESET returned %d " [i32 ret];;
  get_swap_stats.

(** ** What is printed *)

(** Three variables that do not overlap. *)
Definition disjoint_locals (l : locals) : Prop :=
  (at_ondemand l + 4 <= at_prefetch l ∨ at_prefetch l + 4 <= at_ondemand l) ∧
  (at_ondemand l + 4 <= at_hit l ∨ at_hit l + 4 <= at_ondemand l) ∧
  (at_prefetch l + 4 <= at_hit l ∨ at_hit l + 4 <= at_prefetch l).

(** What the kernel does to the variable at [a] in a call: it stores the number
    [v], or leaves it alone. *)
Definition stores (cs : list vcall) (c : vcall) (a : Z) (v : option Z) : Prop :=
  match v with
  | Some x => ∀ k, 0 <= k < 4 → ve_fill cs c (a + k) = Some (Z.shiftr x (8 * k))
  | None => ∀ k, 0 <= k < 4 → ve_fill cs c (a + k) = None
  end.

Definition filled (f : Z → option Z) (s : vm) : vm :=
  s <| v_byte := λ b, match f b with Some v => v mod 256 | None => v_byte s b end |>.

Lemma num_ext s t a : (∀ k, 0 <= k < 4 → v_byte s (a + k) = v_byte t (a + k)) → num s a 4 = num t a 4.
Proof.
  intros H. unfold num. change (seqZ 0 (Z.of_nat 4)) with [0; 1; 2; 3]. cbn [map]. by rewrite !H by lia.
Qed.

Lemma num_put_other s a b v : a + 4 <= b ∨ b + 4 <= a → num (put_num 4 b v s) a 4 = num s a 4.
Proof.
  intros H. apply num_ext. intros k Hk. unfold put_num. cbn -[in_range].
  by rewrite (proj2 (in_range_false (a + k) b (Z.of_nat 4))) by lia.
Qed.

Lemma num_filled cs c a v s :
  stores cs c a v → num s a 4 = 0 → i32 (num (filled (ve_fill cs c) s) a 4) = i32 (default 0 v).
Proof.
  intros Hv H0. destruct v as [x|]; cbn [stores default] in *.
  - assert (num (filled (ve_fill cs c) s) a 4 = num (put_num 4 a x s) a 4) as ->.
    { apply num_ext. intros k Hk. unfold filled, put_num. cbn -[in_range].
      rewrite Hv by done. rewrite (proj2 (in_range_true (a + k) a (Z.of_nat 4))) by lia. by replace (a + k - a) with k by lia. }
    rewrite num_put. unfold u32, i32. by rewrite Zplus_mod_idemp_l.
  - rewrite (num_ext _ s); [rewrite H0; reflexivity|]. intros k Hk. unfold filled. cbn. by rewrite Hv.
Qed.

(** [last_print]: the numbers of the last message. *)
Definition last_counters (cs : list vcall) : option (list Z) :=
  match last cs with Some (V_print f xs) => if String.eqb f counters_message then Some xs else None | _ => None end.

Lemma read_counters_runs l x y z w :
  num (p_data w) (at_ondemand l) 4 = 0 → num (p_data w) (at_prefetch l) 4 = 0 → num (p_data w) (at_hit l) 4 = 0 →
  let cs := p_calls w ++ [V_print "#1 Check current swapped out pages num" []] in
  let c := V_syscall SYS_REMOTE_STAT_READ [at_ondemand l; at_prefetch l; at_hit l] in
  stores cs c (at_ondemand l) x → stores cs c (at_prefetch l) y → stores cs c (at_hit l) z →
  ∃ w', read_counters l w = Done 0 w' ∧
    last_counters (p_calls w') = Some [i32 (default 0 x); i32 (default 0 y); i32 (default 0 z)].
Proof.
  intros Hx Hy Hz cs c Sx Sy Sz. eexists. split; [reflexivity|]. cbn [p_calls]. unfold last_counters.
  rewrite last_snoc, String.eqb_refl.
  pose proof (num_filled cs c _ _ _ Sx Hx) as <-. pose proof (num_filled cs c _ _ _ Sy Hy) as <-.
  pose proof (num_filled cs c _ _ _ Sz Hz) as <-. reflexivity.
Qed.

Lemma init_locals_run l w :
  disjoint_locals l →
  ∃ s, init_locals l w = Done tt (mkPstate s (p_calls w)) ∧
    num s (at_ondemand l) 4 = 0 ∧ num s (at_prefetch l) 4 = 0 ∧ num s (at_hit l) 4 = 0.
Proof.
  intros (H1 & H2 & H3). eexists. split; [reflexivity|]. cbn [p_data].
  split_and!; rewrite ?num_put_other, ?num_put by lia; rewrite ?num_put_other, ?num_put by lia; done.
Qed.

(** Both programs print, for each counter, what the kernel stored in the call
    that reads them (whether they were reset before or not), and 0 for one it
    did not store; what the calls return makes no difference. *)
Theorem counters_printed l x y z w :
  disjoint_locals l →
  (∀ cs, let c := V_syscall SYS_REMOTE_STAT_READ [at_ondemand l; at_prefetch l; at_hit l] in
    stores cs c (at_ondemand l) x ∧ stores cs c (at_prefetch l) y ∧ stores cs c (at_hit l) z) →
  (∀ cs b, ve_fill cs (V_syscall SYS_REMOTE_STAT_RESET []) b = None) →
  Forall (λ main : locals → VP Z, ∃ w', main l w = Done 0 w' ∧
    last_counters (p_calls w') = Some [i32 (default 0 x); i32 (default 0 y); i32 (default 0 z)])
    [remoteswap_read_counter; remoteswap_reset_counter].
Proof.
  intros Hl Hst Hreset. destruct (init_locals_run l w Hl) as (s & Hi & Hx & Hy & Hz).
  repeat apply List.Forall_cons; [..|constructor].
  - unfold remoteswap_read_counter. rewrite (prog_bind_step _ _ _ _ _ Hi). apply read_counters_runs; try done; apply Hst.
  - unfold remoteswap_reset_counter. rewrite (prog_bind_step _ _ _ _ _ Hi). gstep.
    erewrite (prog_bind_step (syscall _ _)) by reflexivity. gstep. apply read_counters_runs; cbn [p_data]; try apply Hst.
    all: etrans; [apply num_ext|eassumption]; intros k Hk; cbn; by rewrite Hreset.
Qed.

End Counters.

(** ** Witness: a kernel that counts, and one without the call *)

Definition demo_locals : locals := mkLocals 0x7ffd00001000 0x7ffd00001004 0x7ffd00001008.
Definition counting_kernel : vmenv := {|
  ve_ret := λ _ _, 0;
  ve_fill := λ _ c b, match c with
    | V_syscall 452 _ =>
        if in_range b 0x7ffd00001000 4 then Some (Z.shiftr 70000 (8 * (b - 0x7ffd00001000)))
        else if in_range b 0x7ffd00001008 4 then Some (Z.shiftr 12 (8 * (b - 0x7ffd00001008))) else None
    | _ => None end;
  ve_lost := λ _ _, false;
  ve_drop := λ _, []
|}.

Lemma counters_printed_witness :
  ∃ w', @remoteswap_reset_counter counting_kernel demo_locals (mkPstate vm_empty []) = Done 0 w' ∧
    last_counters (p_calls w') = Some [70000; 0; 12].
Proof.
  assert (∀ P : Z → Prop, P 0 → P 1 → P 2 → P 3 → ∀ k, 0 <= k < 4 → P k) as H4.
  { intros P P0 P1 P2 P3 k Hk. assert (k = 0 ∨ k = 1 ∨ k = 2 ∨ k = 3) as [->|[->|[->| ->]]] by lia; done. }
  assert (Forall (λ main : locals → VP Z, ∃ w', main demo_locals (mkPstate vm_empty []) = Done 0 w' ∧
    last_counters (p_calls w') = Some [70000; 0; 12])
    [@remoteswap_read_counter counting_kernel; @remoteswap_reset_counter counting_kernel]) as H.
  { apply (@counters_printed counting_kernel demo_locals (Some 70000) None (Some 12)).
    - unfold disjoint_locals. cbn. lia.
    - intros cs. split; [|split]; cbn [stores]; apply H4; reflexivity.
    - intros cs b. reflexivity. }
  apply Forall_inv_tail, Forall_inv in H. exact H.
Defined.

(** Without the system call every counter is reported as 0. *)
Example no_such_call :
  match @remoteswap_read_counter full_kernel demo_locals (mkPstate vm_empty []) with
  | Done r w => Some (r, last_counters (p_calls w))
  | _ => None
  end = Some (0, Some [0; 0; 0]).
Proof. vm_compute. reflexivity. Qed.
