(* ===== verification/ArrayLoops.v ===== *)
(** * Loops over arrays of doubles

    Programs that allocate one or two arrays of [double] and run over them with
    an [int]: [swap_streaming.c], [user_pagefault.c], [mem_usage.c] and
    [offcoreTest_single_node.c].

    An array has its length and, for each element, the value stored last; an
    element that was never written holds what the environment says, and an
    access outside the array is a fault.  Doubles are IEEE numbers of 53 bits
    as in [Evict].  An [int] that leaves its range in [++], [+=] or [*] is a
    fault ([SignedOverflow]): the language leaves the result undefined.

    Shown: [user_pagefault.c] prints only elements it has written, with their
    values; [mem_usage.c] stays inside its arrays; the loops of the two others
    overflow before they end, with the lengths of the source. *)

From Stdlib Require Import String Floats.SpecFloat.
From S2P Require Import Prelude BitOps OctTypes Kernel Prog.
From S2P Require VmArea Evict.

(** ** Doubles *)

Definition dmul (x y : spec_float) : spec_float := SFmul 53 1024 x y.
Definition dadd (x y : spec_float) : spec_float := SFadd 53 1024 x y.
Definition dzero : spec_float := S754_zero false.
(** 3.14: the nearest number of 53 bits. *)
Definition d314 : spec_float := S754_finite false 7070651414971679 (-51).
(** [i * 3.14] *)
Definition times314 (i : Z) : spec_float := dmul (Evict.double_of_int i) d314.

(** ** The heap *)

Record darray := mkDarray { da_len : Z; da_elem : Z → option spec_float }.

Inductive dcall :=
| D_malloc (bytes : Z)
| D_open (name : string)
| D_print (format : string) (i : Z) (x : spec_float)
| D_text (format : string).

(** The allocator, and what memory that was never written holds. *)
Class denv := {
  d_malloc : list dcall → dcall → bool;
  d_junk : nat → Z → spec_float;
  d_fd : list dcall → dcall → Z
}.

Abbreviation DP := (prog (list darray) dcall).

Section Ops.
Context {E : denv}.

Definition malloc (len : Z) : DP (option nat) :=
  ok ← ask d_malloc (D_malloc (8 * len));
  if ok : bool then
    p ← data length; update (λ h, h ++ [mkDarray len (λ _, None)]);; mret (Some p)
  else mret None.

Definition array (p : option nat) : DP (nat * darray) :=
  p ← nonnull p; h ← data id; a ← inside (h !! p); mret (p, a).

Definition load (p : option nat) (i : Z) : DP spec_float :=
  a ← array p;
  if (0 <=? i) && (i <? da_len a.2) then mret (default (d_junk a.1 i) (da_elem a.2 i)) else crash OutOfBounds.

Definition store (p : option nat) (i : Z) (x : spec_float) : DP unit :=
  a ← array p;
  if (0 <=? i) && (i <? da_len a.2) then
    update (λ h, <[a.1 := mkDarray (da_len a.2) (λ j, if j =? i then Some x else da_elem a.2 j)]> h)
  else crash OutOfBounds.

(** An [int] result. *)
Definition int (x : Z) : DP Z := if (- 2 ^ 31 <=? x) && (x <? 2 ^ 31) then mret x else crash SignedOverflow.

(** [for (i = i0; i < n; i += step) x = body(i, x)] with an [int i]; [fuel]
    rounds. *)
Fixpoint for_int {A} (fuel : nat) (i n step : Z) (body : Z → A → DP A) (x : A) : DP A :=
  match fuel with
  | O => crash Spin
  | S fuel =>
      if i <? n then x ← body i x; i ← int (i + step); for_int fuel i n step body x else mret x
  end.

(** ** [swap_streaming.c] *)

Definition swap_streaming (fuel : nat) (len : Z) : DP Z :=
  d_array ← malloc len;
  tell (D_text "Phase #1, trigger swap out. ");;
  for_int fuel 0 len 1 (λ i _, store d_array i (times314 i)) tt;;
  tell (D_text "Phase #2, trigger swap in.");;
  sum ← for_int fuel 0 len 1 (λ i sum, x ← load d_array i; mret (dadd sum x)) dzero;
  tell (D_print "Sum : %f " 0 sum);; mret 0.
Definition streaming_LENGTH : Z := 1024 * 1024 * 1024 * 2.

(** ** [user_pagefault.c] *)

(** The last message passes the double to a [%d]. *)
Definition user_pagefault (fuel : nat) (len : Z) : DP Z :=
  a ← malloc len;
  tell (D_text "Stage 1: Trigger anoymous page fault ");;
  sum ← for_int fuel 0 len 8 (λ i sum, store a i (times314 i);; x ← load a i; mret (dadd sum x)) dzero;
  tell (D_text "State 2 : try to access the paged out pages. ");;
  fd ← ask d_fd (D_open "foo.txt");
  tell (D_print "Syscall at start of state 2, open- fd : %d " fd dzero);;
  for_int fuel 0 len (1024 * 1024) (λ j _, x ← load a j; tell (D_print "a[%d] : %f " j x)) tt;;
  tell (D_print "Sum is : %d " 0 sum);; mret 0.
Definition pagefault_LENGTH : Z := 512 * 1024 * 1024.

(** ** [mem_usage.c] *)

(** [i*3.14*1] and [i*3.14*2]; [sum] is not initialised. *)
Definition usage_round (fuel : nat) (a b : option nat) (len : Z) (sum : spec_float) : DP spec_float :=
  for_int fuel 0 len 1 (λ i _,
    store a i (dmul (times314 i) (Evict.double_of_int 1));; store b i (dmul (times314 i) (Evict.double_of_int 2))) tt;;
  sum ← for_int fuel 0 len 8 (λ i sum, x ← load a i; y ← load b i; mret (dadd (dadd sum x) y)) sum;
  for_int fuel 0 len (1024 * 1024 * 64) (λ i _,
    x ← load a i; tell (D_print "a[%d] : %f " i x);;
    y ← load b i; tell (D_print "b[%d] : %f " i y)) tt;;
  mret sum.

Definition mem_usage (fuel : nat) (len : Z) (uninit : spec_float) : DP Z :=
  a ← malloc len; b ← malloc len;
  _ ← for_int fuel 0 5 1 (λ _ sum, usage_round fuel a b len sum) uninit;
  mret 0.
Definition usage_LENGTH : Z := 1024 * 1024 * 1024 * 1.

(** ** [offcoreTest_single_node.c] *)

Definition offcore_round (fuel : nat) (arr_1 : option nat) (size : Z) (sum : spec_float) : DP spec_float :=
  sum ← for_int fuel 0 size 8 (λ i sum, x ← load arr_1 i; mret (dadd sum (dmul x (Evict.double_of_int i)))) sum;
  for_int fuel 0 size 1 (λ i _, q ← int (i * i); store arr_1 i (Evict.double_of_int q)) tt;;
  mret sum.

Definition offcore (fuel : nat) (size : Z) : DP Z :=
  arr_1 ← malloc size;
  for_int fuel 0 size 1 (λ i _, store arr_1 i (Evict.double_of_int i)) tt;;
  sum ← for_int fuel 0 16 1 (λ _ sum, offcore_round fuel arr_1 size sum) dzero;
  tell (D_print "Sum is %f " 0 sum);; mret 0.
Definition offcore_SIZE : Z := 1024 * 1024 * 64.

(** ** Rules *)

Implicit Types w : pstate (list darray) dcall.

Lemma int_ok x w : - 2 ^ 31 <= x < 2 ^ 31 → int x w = Done x w.
Proof.
  intros H. unfold int. destruct (Z.leb_spec (- 2 ^ 31) x); [|lia]. by destruct (Z.ltb_spec x (2 ^ 31)); [|lia].
Qed.

Lemma int_overflows x w : 2 ^ 31 <= x → int x w = Fault SignedOverflow.
Proof. intros H. unfold int. rewrite andb_comm. by destruct (Z.ltb_spec x (2 ^ 31)); [lia|]. Qed.

Lemma for_int_runs {A} (I : Z → A → pstate (list darray) dcall → Prop) i0 n step (body : Z → A → DP A) fuel x w :
  0 <= i0 <= n → 0 < step → n + step <= 2 ^ 31 →
  (∀ k x w, 0 <= k → i0 + step * k < n → I k x w → runs (body (i0 + step * k) x) w (I (k + 1))) →
  I 0 x w → (Z.to_nat (VmArea.rounds i0 n step) < fuel)%nat →
  runs (for_int fuel i0 n step body x) w (I (VmArea.rounds i0 n step)).
Proof.
  intros Hi Hs Hn Hbody H0 Hf.
  enough (∀ fuel k x w, 0 <= k <= VmArea.rounds i0 n step → I k x w →
            (Z.to_nat (VmArea.rounds i0 n step - k) < fuel)%nat →
            runs (for_int fuel (i0 + step * k) n step body x) w (I (VmArea.rounds i0 n step))) as Hgen.
  { specialize (Hgen fuel 0 x w). rewrite Z.mul_0_r, Z.add_0_r, Z.sub_0_r in Hgen.
    apply Hgen; [split; [done|by apply VmArea.rounds_nonneg; lia]|done|done]. }
  clear -Hs Hn Hbody Hi. induction fuel as [|fuel IH]; intros k x w Hk HI Hf; [lia|]. cbn [for_int].
  pose proof (VmArea.rounds_lt i0 n step k Hs) as Hlt. destruct (Z.ltb_spec (i0 + step * k) n) as [H|H].
  - apply runs_bind. eapply runs_mono; [|apply Hbody; [lia|done|done]]. intros x' w' HI'. cbn beta.
    apply runs_bind. eapply runs_done; [apply int_ok; nia|].
    replace (i0 + step * k + step) with (i0 + step * (k + 1)) by lia. apply IH; [lia|done|lia].
  - replace (VmArea.rounds i0 n step) with k by lia. by exists x, w.
Qed.

Lemma rounds_le n step : 0 <= n → 0 < step → VmArea.rounds 0 n step <= n.
Proof.
  intros Hn Hs. pose proof (VmArea.rounds_lt 0 n step (VmArea.rounds 0 n step - 1) Hs).
  pose proof (VmArea.rounds_nonneg 0 n step Hs Hn). nia.
Qed.

(** A loop in steps of 1 whose bound is outside [int] overflows. *)
Lemma for_int_overflows {A} (I : Z → A → pstate (list darray) dcall → Prop) n (body : Z → A → DP A) fuel x w :
  2 ^ 31 <= n → (∀ k x w, 0 <= k < 2 ^ 31 → I k x w → runs (body k x) w (I (k + 1))) →
  I 0 x w → (Z.to_nat (2 ^ 31) < fuel)%nat → for_int fuel 0 n 1 body x w = Fault SignedOverflow.
Proof.
  intros Hn Hbody H0 Hf.
  enough (∀ fuel k x w, 0 <= k < 2 ^ 31 → I k x w → (Z.to_nat (2 ^ 31 - k) < fuel)%nat →
            for_int fuel k n 1 body x w = Fault SignedOverflow) as Hgen by (apply Hgen; [lia|done|lia]).
  clear -Hn Hbody. induction fuel as [|fuel IH]; intros k x w Hk HI Hf; [lia|]. cbn [for_int].
  destruct (Z.ltb_spec k n); [|lia]. destruct (Hbody k x w Hk HI) as (x' & w' & Hb & HI').
  rewrite (prog_bind_step _ _ _ _ _ Hb). destruct (decide (k + 1 < 2 ^ 31)).
  - rewrite (prog_bind_step _ _ _ _ _ (int_ok (k + 1) w' ltac:(lia))). apply IH; [lia|done|lia].
  - apply prog_bind_fault, int_overflows. lia.
Qed.

(** Array [p] has the length [len] and the content [e]. *)
Definition arr_at (h : list darray) (p : nat) (len : Z) (e : Z → option spec_float) : Prop :=
  h !! p = Some (mkDarray len e).
Definition put (i : Z) (x : spec_float) (e : Z → option spec_float) : Z → option spec_float :=
  λ j, if j =? i then Some x else e j.

Lemma array_run p len e w : arr_at (p_data w) p len e → array (Some p) w = Done (p, mkDarray len e) w.
Proof. intros Ha. unfold array. do 2 gstep. cbn [id]. by rewrite Ha. Qed.

Lemma load_run p len e i w :
  arr_at (p_data w) p len e → 0 <= i < len → load (Some p) i w = Done (default (d_junk p i) (e i)) w.
Proof.
  intros Ha Hi. unfold load. rewrite (prog_bind_step _ _ _ _ _ (array_run _ _ _ _ Ha)). cbn [da_len da_elem fst snd].
  destruct (Z.leb_spec 0 i); [|lia]. by destruct (Z.ltb_spec i len); [|lia].
Qed.

Lemma store_run p len e i x w :
  arr_at (p_data w) p len e → 0 <= i < len →
  store (Some p) i x w = Done tt (mkPstate (<[p := mkDarray len (put i x e)]> (p_data w)) (p_calls w)).
Proof.
  intros Ha Hi. unfold store. rewrite (prog_bind_step _ _ _ _ _ (array_run _ _ _ _ Ha)). cbn [da_len da_elem fst snd].
  destruct (Z.leb_spec 0 i); [|lia]. by destruct (Z.ltb_spec i len); [|lia].
Qed.

Lemma arr_at_put h p len e e' : arr_at h p len e → arr_at (<[p := mkDarray len e']> h) p len e'.
Proof. intros Ha. apply list_lookup_insert_eq. by eapply lookup_lt_Some. Qed.

Lemma arr_at_other h p q len e d : p ≠ q → arr_at h p len e → arr_at (<[q := d]> h) p len e.
Proof. intros Hne Ha. unfold arr_at. by rewrite list_lookup_insert_ne. Qed.

Lemma put_same i x e : put i x e i = Some x.
Proof. unfold put. by rewrite Z.eqb_refl. Qed.
Lemma put_other i j x e : i ≠ j → put i x e j = e j.
Proof. intros H. unfold put. by destruct (Z.eqb_spec j i); [lia|]. Qed.

(** The allocation of an array. *)
Definition mallocs : Prop := ∀ cs c, d_malloc cs c = true.

Lemma malloc_run len w :
  mallocs → ∃ w', malloc len w = Done (Some (length (p_data w))) w' ∧
    p_data w' = p_data w ++ [mkDarray len (λ _, None)] ∧ p_calls w' = p_calls w ++ [D_malloc (8 * len)].
Proof. intros Hm. unfold malloc. gstep. rewrite Hm. by eexists. Qed.

(** ** [user_pagefault.c] *)

(** The elements the program prints. *)
Definition elements (cs : list dcall) : list (Z * spec_float) :=
  omap (λ c, match c with D_print f i x => if String.eqb f "a[%d] : %f " then Some (i, x) else None | _ => None end) cs.

Lemma elements_app cs ds : elements (cs ++ ds) = elements cs ++ elements ds.
Proof. apply omap_app. Qed.

(** Array [p] has every eighth element below [m]. *)
Definition eighths (p : nat) (len m : Z) (h : list darray) : Prop :=
  ∃ e, arr_at h p len e ∧ ∀ j, 0 <= j < m → j mod 8 = 0 → e j = Some (times314 j).

Lemma stage1_step p len k w sum :
  0 <= k → 8 * k < len → eighths p len (8 * k) (p_data w) →
  runs (store (Some p) (8 * k) (times314 (8 * k));; x ← load (Some p) (8 * k); mret (dadd sum x)) w (λ _ w',
    eighths p len (8 * (k + 1)) (p_data w') ∧ p_calls w' = p_calls w).
Proof.
  intros Hk Hlt (e & Ha & He). apply runs_bind. eapply runs_done; [by apply (store_run _ len e); [|lia]|].
  set (w1 := mkPstate _ _). assert (arr_at (p_data w1) p len (put (8 * k) (times314 (8 * k)) e)) as Ha1 by by eapply arr_at_put.
  apply runs_bind. eapply runs_done; [apply (load_run _ len _ _ _ Ha1); lia|].
  eapply runs_done; [reflexivity|]. split; [|done]. eexists. split; [exact Ha1|].
  intros j Hj H8. destruct (decide (j = 8 * k)) as [->|Hne]; [apply put_same|].
  rewrite put_other by done. apply He; [|done]. split; [lia|]. 
  assert (j < 8 * k ∨ 8 * k < j) as [?|?] by lia; [done|]. exfalso. clear -Hj H8 H. dlia.
Qed.

(** [user_pagefault.c] with [len] elements: what it prints of the array in its
    second stage, one element in each 2^20, are elements it has written in
    the first stage, with their values; it ends with 0. *)
Theorem user_pagefault_prints fuel len w :
  mallocs → 0 <= len → len + 1024 * 1024 <= 2 ^ 31 → (Z.to_nat len < fuel)%nat →
  runs (user_pagefault fuel len) w (λ r w', r = 0 ∧
    elements (p_calls w') = elements (p_calls w) ++
      map (λ k, (1024 * 1024 * k, times314 (1024 * 1024 * k))) (seqZ 0 (VmArea.rounds 0 len (1024 * 1024)))).
Proof.
  intros Hm H0 Hlen Hf. unfold user_pagefault. set (p := length (p_data w)).
  destruct (malloc_run len w Hm) as (w1 & H1 & Hd1 & Hc1). apply runs_bind. eapply runs_done; [exact H1|]. fold p.
  apply runs_bind. eapply runs_done; [reflexivity|]. apply runs_bind.
  pose proof (rounds_le len 8 H0 ltac:(lia)). pose proof (rounds_le len (1024 * 1024) H0 ltac:(lia)).
  eapply runs_mono; [|apply (for_int_runs (λ k _ w', eighths p len (8 * k) (p_data w') ∧ elements (p_calls w') = elements (p_calls w)))].
  2,3,4,7: lia.
  2: { intros k x w2 Hk Hlt [He Hp]. rewrite Z.add_0_l in *. eapply runs_mono; [|by apply (stage1_step p len k w2 x)].
       intros u w3 [He3 ->]. by split. }
  2: { split.
       - eexists. split; [cbn [p_data]; rewrite Hd1; by apply (list_lookup_middle _ [])|]. lia.
       - cbn [p_calls]. rewrite Hc1, !elements_app. cbn. by rewrite !app_nil_r. }
  intros sum w2 [(e & Ha & He) Hp]. cbn beta.
  apply runs_bind. eapply runs_done; [reflexivity|]. apply runs_bind. eapply runs_done; [reflexivity|].
  apply runs_bind. eapply runs_done; [reflexivity|]. apply runs_bind.
  eapply runs_mono; [|apply (for_int_runs (λ k _ w', arr_at (p_data w') p len e ∧ elements (p_calls w') = elements (p_calls w) ++
    map (λ k, (1024 * 1024 * k, times314 (1024 * 1024 * k))) (seqZ 0 k)))].
  2,3,4,7: lia.
  - intros [] w3 [_ Hp3]. apply runs_bind. eapply runs_done; [reflexivity|]. eapply runs_done; [reflexivity|].
    split; [done|]. cbn [p_calls]. rewrite elements_app, Hp3. cbn [elements omap list_omap]. by rewrite app_nil_r.
  - intros k [] w3 Hk Hlt [Ha3 Hp3]. rewrite Z.add_0_l in *. apply runs_bind.
    eapply runs_done; [apply (load_run _ len e _ _ Ha3); lia|]. eapply runs_done; [reflexivity|].
    split; [done|]. cbn [p_calls]. rewrite elements_app, Hp3, (seqZ_app 0 k 1), map_app, <- app_assoc by lia.
    rewrite He; [by rewrite Z.add_0_l| |clear; dlia].
    split; [lia|]. pose proof (VmArea.rounds_lt 0 len 8 (VmArea.rounds 0 len 8)). lia.
  - split; [done|]. cbn [p_calls]. rewrite !elements_app, Hp. cbn. by rewrite !app_nil_r.
Qed.

(** ** [swap_streaming.c] and [offcoreTest_single_node.c] *)

(** A write loop over the whole array keeps it in place. *)
Definition allocated (p : nat) (len : Z) (h : list darray) : Prop := ∃ e, arr_at h p len e.

Lemma store_keeps p len i x w :
  allocated p len (p_data w) → 0 <= i < len → runs (store (Some p) i x) w (λ _ w', allocated p len (p_data w')).
Proof.
  intros [e Ha] Hi. eapply runs_done; [by apply (store_run _ len e)|]. eexists. by eapply arr_at_put.
Qed.

Lemma load_keeps p len i w :
  allocated p len (p_data w) → 0 <= i < len → runs (load (Some p) i) w (λ _ w', allocated p len (p_data w')).
Proof. intros [e Ha] Hi. eapply runs_done; [by apply (load_run _ len e)|]. by exists e. Qed.

Lemma malloc_keeps len w :
  mallocs → ∃ w', malloc len w = Done (Some (length (p_data w))) w' ∧ allocated (length (p_data w)) len (p_data w').
Proof.
  intros Hm. destruct (malloc_run len w Hm) as (w' & H & Hd & _). exists w'. split; [done|].
  eexists. rewrite Hd. by apply (list_lookup_middle _ []).
Qed.

(** With 2^31 elements or more, as the source has them, the counter of
    [swap_streaming.c] leaves its type before the first loop ends. *)
Theorem swap_streaming_overflows fuel len w :
  mallocs → 2 ^ 31 <= len → (Z.to_nat (2 ^ 31) < fuel)%nat → swap_streaming fuel len w = Fault SignedOverflow.
Proof.
  intros Hm Hlen Hf. unfold swap_streaming. destruct (malloc_keeps len w Hm) as (w1 & H1 & Ha).
  rewrite (prog_bind_step _ _ _ _ _ H1). gstep. apply prog_bind_fault.
  apply (for_int_overflows (λ _ _ w', allocated (length (p_data w)) len (p_data w'))); [done| |exact Ha|done].
  intros k x w2 Hk HI. apply store_keeps; [done|lia].
Qed.

(** The loop that writes squares: 46341 is the first whose square is too large. *)
Lemma square_overflows p size fuel w :
  allocated p size (p_data w) → 46342 <= size → (Z.to_nat size < fuel)%nat →
  for_int fuel 0 size 1 (λ i _, q ← int (i * i); store (Some p) i (Evict.double_of_int q)) tt w = Fault SignedOverflow.
Proof.
  intros Ha Hs Hf.
  enough (∀ fuel k w, 0 <= k <= 46341 → allocated p size (p_data w) → (Z.to_nat (46341 - k) < fuel)%nat →
    for_int fuel k size 1 (λ i _, q ← int (i * i); store (Some p) i (Evict.double_of_int q)) tt w = Fault SignedOverflow)
    as Hgen by (apply Hgen; [lia|done|lia]).
  clear -Hs. induction fuel as [|fuel IH]; intros k w Hk Ha Hf; [lia|]. cbn [for_int].
  destruct (Z.ltb_spec k size); [|lia]. destruct (decide (k = 46341)) as [->|Hne].
  { by apply prog_bind_fault, prog_bind_fault, int_overflows. }
  destruct (store_keeps p size k (Evict.double_of_int (k * k)) w Ha ltac:(lia)) as ([] & w' & Hb & Ha').
  rewrite (prog_bind_step _ _ w tt w') by (rewrite (prog_bind_step _ _ _ _ _ (int_ok (k * k) w ltac:(nia))); exact Hb).
  rewrite (prog_bind_step _ _ _ _ _ (int_ok (k + 1) w' ltac:(lia))). apply IH; [lia|done|lia].
Qed.

(** [offcoreTest_single_node.c] with more than 46341 elements (it has 2^26):
    the square of the counter leaves [int] in the first round. *)
Theorem offcore_overflows fuel size w :
  mallocs → 46342 <= size → size + 8 <= 2 ^ 31 → (Z.to_nat size < fuel)%nat →
  offcore fuel size w = Fault SignedOverflow.
Proof.
  intros Hm Hlo Hhi Hf. unfold offcore. set (p := length (p_data w)).
  destruct (malloc_keeps size w Hm) as (w1 & H1 & Ha). rewrite (prog_bind_step _ _ _ _ _ H1). fold p in Ha |- *.
  set (I := λ (_ : Z) (_ : unit) w', allocated p size (p_data w')).
  pose proof (rounds_le size 1 ltac:(lia) ltac:(lia)). pose proof (rounds_le size 8 ltac:(lia) ltac:(lia)).
  destruct (for_int_runs I 0 size 1 (λ i _, store (Some p) i (Evict.double_of_int i)) fuel tt w1)
    as ([] & w2 & H2 & Ha2); [lia|lia|lia| |exact Ha|lia|].
  { intros k [] w' Hk Hlt HI. apply store_keeps; [done|lia]. }
  rewrite (prog_bind_step _ _ _ _ _ H2). apply prog_bind_fault.
  destruct fuel as [|fuel']; [lia|]. cbn [for_int]. change (0 <? 16) with true. cbn iota.
  apply prog_bind_fault. unfold offcore_round.
  destruct (for_int_runs (λ _ _ w', allocated p size (p_data w')) 0 size 8
      (λ i sum, x ← load (Some p) i; mret (dadd sum (dmul x (Evict.double_of_int i)))) (S fuel') dzero w2)
    as (sum & w3 & H3 & Ha3); [lia|lia|lia| |exact Ha2|lia|].
  { intros k x w' Hk Hlt HI. apply runs_bind. eapply runs_mono; [|apply (load_keeps p size); [done|lia]].
    intros y w'' HI'. by eapply runs_done. }
  rewrite (prog_bind_step _ _ _ _ _ H3). apply prog_bind_fault. by apply square_overflows.
Qed.

(** ** [mem_usage.c] *)

Definition usage_a (i : Z) : spec_float := dmul (times314 i) (Evict.double_of_int 1).
Definition usage_b (i : Z) : spec_float := dmul (times314 i) (Evict.double_of_int 2).

(** What the messages with an element show, with their format. *)
Definition shown (cs : list dcall) : list (string * Z * spec_float) :=
  omap (λ c, match c with D_print f i x => Some (f, i, x) | _ => None end) cs.
Lemma shown_app cs ds : shown (cs ++ ds) = shown cs ++ shown ds.
Proof. apply omap_app. Qed.

(** The two messages of an index, and those of one round over [n] indices. *)
Definition shown_at (k : Z) : list (string * Z * spec_float) :=
  let i := 1024 * 1024 * 64 * k in [("a[%d] : %f "%string, i, usage_a i); ("b[%d] : %f "%string, i, usage_b i)].
Definition shown_round (n : Z) : list (string * Z * spec_float) := seqZ 0 n ≫= shown_at.

Lemma shown_round_next n : 0 <= n → shown_round (n + 1) = shown_round n ++ shown_at n.
Proof.
  intros Hn. unfold shown_round. rewrite (seqZ_app 0 n 1), bind_app by lia.
  by rewrite Z.add_0_l, (seqZ_cons n 1) by lia.
Qed.

(** The first [m] elements of the two arrays are written. *)
Definition filled (pa pb : nat) (len m : Z) (h : list darray) : Prop :=
  ∃ ea eb, arr_at h pa len ea ∧ arr_at h pb len eb ∧
    ∀ j, 0 <= j < m → ea j = Some (usage_a j) ∧ eb j = Some (usage_b j).

Lemma filled_none pa pb len m h : filled pa pb len m h → filled pa pb len 0 h.
Proof. intros (ea & eb & Ha & Hb & _). exists ea, eb. repeat split; try done; lia. Qed.

Lemma fill_step pa pb len k w :
  pa ≠ pb → 0 <= k < len → filled pa pb len k (p_data w) →
  runs (store (Some pa) k (usage_a k);; store (Some pb) k (usage_b k)) w (λ _ w',
    filled pa pb len (k + 1) (p_data w') ∧ p_calls w' = p_calls w).
Proof.
  intros Hne Hk (ea & eb & Ha & Hb & He). apply runs_bind.
  eapply runs_done; [by apply (store_run _ len ea)|]. eapply runs_done; [by apply (store_run _ len eb), Hk; apply arr_at_other|].
  split; [|done]. exists (put k (usage_a k) ea), (put k (usage_b k) eb). cbn [p_data].
  repeat apply conj; [apply arr_at_other; [done|]|eapply arr_at_put, arr_at_other; done|]; [by eapply arr_at_put|].
  intros j Hj. destruct (decide (k = j)) as [->|]; [by rewrite !put_same|]. rewrite !put_other by done. apply He. lia.
Qed.

Lemma filled_load pa pb len m i w :
  filled pa pb len m (p_data w) → 0 <= i < m → m <= len →
  load (Some pa) i w = Done (usage_a i) w ∧ load (Some pb) i w = Done (usage_b i) w.
Proof.
  intros (ea & eb & Ha & Hb & He) Hi Hm. destruct (He i Hi) as [Hia Hib].
  rewrite (load_run pa len ea) by (done || lia). rewrite (load_run pb len eb) by (done || lia). by rewrite Hia, Hib.
Qed.

Lemma usage_round_runs fuel pa pb len sum w :
  pa ≠ pb → 0 <= len → len + 1024 * 1024 * 64 <= 2 ^ 31 → (Z.to_nat len < fuel)%nat →
  filled pa pb len 0 (p_data w) →
  runs (usage_round fuel (Some pa) (Some pb) len sum) w (λ _ w', filled pa pb len 0 (p_data w') ∧
    shown (p_calls w') = shown (p_calls w) ++ shown_round (VmArea.rounds 0 len (1024 * 1024 * 64))).
Proof.
  intros Hne H0 Hlen Hf Hfill. unfold usage_round.
  pose proof (rounds_le len 1 H0 ltac:(lia)). pose proof (rounds_le len 8 H0 ltac:(lia)).
  pose proof (rounds_le len (1024 * 1024 * 64) H0 ltac:(lia)).
  pose proof (VmArea.rounds_lt 0 len 1 (VmArea.rounds 0 len 1) ltac:(lia)).
  apply runs_bind. eapply runs_mono; [|apply (for_int_runs (λ k _ w', filled pa pb len k (p_data w') ∧ p_calls w' = p_calls w))];
    [|lia..| |done|lia].
  2: { intros k x w' Hk Hlt [HI Hc]. replace (0 + 1 * k) with k in * by lia.
       eapply runs_mono; [|apply (fill_step pa pb len); [done|lia|done]]. intros [] w'' [HI' Hc']. split; [done|congruence]. }
  intros [] w1 [(ea & eb & Ha & Hb & He) Hc1]. assert (filled pa pb len len (p_data w1)) as Hall.
  { exists ea, eb. repeat split; try done; apply He; lia. }
  clear He. apply runs_bind. eapply runs_mono; [|apply (for_int_runs (λ _ _ w', w' = w1))]; [|lia..| |done|lia].
  2: { intros k x w' Hk Hlt ->. destruct (filled_load pa pb len len (0 + 8 * k) w1 Hall ltac:(lia) ltac:(lia)) as [Hla Hlb].
       apply runs_bind. eapply runs_done; [exact Hla|]. apply runs_bind. eapply runs_done; [exact Hlb|]. by eapply runs_done. }
  intros sum' w2 ->. apply runs_bind.
  eapply runs_mono; [|apply (for_int_runs (λ k _ w', 0 <= k ∧ p_data w' = p_data w1 ∧ shown (p_calls w') = shown (p_calls w) ++ shown_round k))];
    [|lia..| | |lia].
  - intros [] w3 (_ & Hd & Hs). eapply runs_done; [done|]. rewrite Hd. split; [by eapply filled_none|done].
  - intros k [] w' Hk Hlt (_ & Hd & Hs). rewrite <- Hd in Hall.
    destruct (filled_load _ _ _ _ (0 + 1024 * 1024 * 64 * k) w' Hall ltac:(lia) ltac:(lia)) as [Hla Hlb].
    apply runs_bind. eapply runs_done; [exact Hla|]. apply runs_bind. eapply runs_done; [reflexivity|].
    apply runs_bind. eapply runs_done; [|eapply runs_done; [reflexivity|]].
    { exact (proj2 (filled_load pa pb len len (0 + 1024 * 1024 * 64 * k) (mkPstate (p_data w') _) Hall ltac:(lia) ltac:(lia))). }
    cbn [p_data p_calls]. split; [lia|split; [done|]].
    rewrite !shown_app, Hs, shown_round_next, <- !app_assoc by done. reflexivity.
  - rewrite Hc1. unfold shown_round. cbn [seqZ]. split; [lia|]. split; [done|]. by rewrite app_nil_r.
Qed.

(** [mem_usage.c] with [len] elements (2^30 in the source): whatever the
    allocator leaves in the arrays and [sum] holds at first, each of its five
    rounds writes both arrays and prints what it has just written; every
    access is inside the arrays and the program ends with 0. *)
Theorem mem_usage_rounds fuel len uninit w :
  mallocs → 0 <= len → len + 1024 * 1024 * 64 <= 2 ^ 31 → (Z.to_nat len < fuel)%nat → (5 < fuel)%nat →
  runs (mem_usage fuel len uninit) w (λ r w', r = 0 ∧
    shown (p_calls w') = shown (p_calls w) ++ concat (replicate 5 (shown_round (VmArea.rounds 0 len (1024 * 1024 * 64))))).
Proof.
  intros Hm H0 Hlen Hf H5. unfold mem_usage. set (pa := length (p_data w)). set (rd := shown_round _).
  destruct (malloc_run len w Hm) as (w1 & H1 & Hd1 & Hc1). apply runs_bind. eapply runs_done; [exact H1|]. fold pa.
  destruct (malloc_run len w1 Hm) as (w2 & H2 & Hd2 & Hc2). apply runs_bind. eapply runs_done; [exact H2|].
  set (pb := length (p_data w1)). assert (pa ≠ pb) as Hne by (subst pa pb; rewrite Hd1, length_app; cbn; lia).
  assert (filled pa pb len 0 (p_data w2)) as Hfill.
  { exists (λ _, None), (λ _, None). split; [|split; [|lia]]; unfold arr_at; rewrite Hd2.
    - rewrite Hd1, <- app_assoc. by apply list_lookup_middle.
    - by apply (list_lookup_middle _ []). }
  apply runs_bind. eapply runs_mono; [|apply (for_int_runs (λ k _ w', filled pa pb len 0 (p_data w') ∧
      shown (p_calls w') = shown (p_calls w) ++ concat (replicate (Z.to_nat k) rd)))]; [|lia..| | |exact H5].
  - intros sum w' [_ Hs]. by eapply runs_done.
  - intros k x w' Hk Hlt [HI Hs]. eapply runs_mono; [|by apply (usage_round_runs fuel pa pb len)].
    intros y w'' [HI' Hs']. split; [done|]. rewrite Hs', Hs, Z2Nat.inj_add, replicate_add by lia.
    rewrite concat_app, <- app_assoc. change (concat (replicate (Z.to_nat 1) rd)) with (rd ++ []). by rewrite app_nil_r.
  - split; [done|]. rewrite Hc2, Hc1, !shown_app. cbn. by rewrite !app_nil_r.
Qed.

End Ops.

(** ** Witnesses *)

(** Every allocation succeeds; memory holds zero. *)
#[local] Instance plain : denv := {| d_malloc := λ _ _, true; d_junk := λ _ _, dzero; d_fd := λ _ _, 3 |}.
Definition w0 : pstate (list darray) dcall := mkPstate [] [].

Lemma user_pagefault_prints_witness :
  runs (user_pagefault 30 20) w0 (λ r w', r = 0 ∧ elements (p_calls w') = [(0, times314 0)]).
Proof.
  refine (runs_mono _ _ _ _ _ (user_pagefault_prints 30 20 w0 _ _ _ _)); [|done|lia|lia|vm_compute; lia].
  intros r w' [Hr Hp]. split; [exact Hr|]. rewrite Hp. reflexivity.
Defined.

Lemma swap_streaming_overflows_witness :
  ∃ fuel, swap_streaming fuel streaming_LENGTH w0 = Fault SignedOverflow.
Proof.
  exists (Z.to_nat (2 ^ 31 + 1)). apply (swap_streaming_overflows _ streaming_LENGTH w0); [done|discriminate|].
  apply Z2Nat.inj_lt; done || lia.
Defined.

Lemma offcore_overflows_witness : ∃ fuel, offcore fuel offcore_SIZE w0 = Fault SignedOverflow.
Proof.
  exists (Z.to_nat (offcore_SIZE + 1)). apply (offcore_overflows _ offcore_SIZE w0); [done|discriminate|discriminate|].
  apply Z2Nat.inj_lt; done || lia.
Defined.

Lemma mem_usage_rounds_witness :
  runs (mem_usage 30 20 dzero) w0 (λ r w', r = 0 ∧ length (shown (p_calls w')) = 10%nat).
Proof.
  refine (runs_mono _ _ _ _ _ (mem_usage_rounds 30 20 dzero w0 _ _ _ _ _)); [|done|lia|lia|vm_compute; lia|lia].
  intros r w' [Hr Hp]. split; [exact Hr|]. rewrite Hp. reflexivity.
Defined.
