(* ===== verification/JvmAgent.v ===== *)
(** * The JVM agent that instruments methods

    [src/jvmti/ClassInstrumentWithRescribo/jvmti_class_instrument.cpp]: an
    agent of the Java virtual machine that puts a call in front of each method
    it loads, with up to five of the object parameters of the method as
    arguments.  To know which local variables these are, it parses the
    descriptor of the method; this parser is the core of the file.

    The class-file library (project Rescribo) and the virtual machine are not
    part of the repository.  What the agent asks of them is recorded ([jcall]):
    the instructions it inserts, in order; their answers come from an
    environment.  A read behind the end of a descriptor is the fault
    [OutOfBounds].  The macros [DEBUG_INSTRUMENT_BRIEF] and
    [DEBUG_INSTRUMENT_DETAIL] are not defined, as in the header file.

    The reference is the grammar of descriptors ([jparam], [print_param]) and
    the layout of local variables that the virtual machine prescribes
    ([slots], [object_slots]).  The theorems: on a well-formed descriptor the
    inserted code calls the prefetch method with exactly the first five object
    parameters, and leaves the stack as it was; on an unterminated class name
    the parser runs off the end. *)

From Stdlib Require Import Ascii String.
From S2P Require Import Prelude OctTypes Kernel Prog.

(** ** Calls of the library *)

Inductive instr :=
| aload_0 | aload_1 | aload_2 | aload_3
| aload (index : Z)
| aconst_null
| sipush (n : Z)
| invokestatic (index : Z).

Inductive jcall :=
| J_get_methodref                 (* get_or_create_methodref_index *)
| J_get_code | J_set_max_stack (n : Z) | J_front_inserter
| J_insert (i : instr)
| J_sync | J_fix_offsets
| J_write (* get_byte_size, Allocate, write_buffer *).

Class jenv := {
  je_methodref : Z;
  je_fix : list jcall → bool      (* fix_offsets *)
}.

Abbreviation JP := (prog unit jcall).

(** A method of the class file; [m_code] is its [max_stack], [None] for a
    method without code. *)
Record jmethod := mkMethod {
  m_name : string;
  m_is_static : bool;
  m_descriptor : list ascii;
  m_code : option Z
}.

Definition PARAM_NUM : Z := 5.

(** ** Parsing *)

(** [descriptor->get_data()[i]] *)
Definition char_at (d : list ascii) (i : Z) : JP ascii := inside (arr_get d i).

Definition is_primive_type (c : ascii) : bool :=
  match c with
  | "S" | "I" | "F" | "Z" | "B" | "C" | "J" | "D" => true
  | _ => false
  end%char.

(** [do { i++ } while (!stop(d[i]))]; there are no more rounds than characters. *)
Fixpoint skip_loop (fuel : nat) (d : list ascii) (stop : ascii → bool) (i : Z) : JP Z :=
  match fuel with
  | O => crash Spin
  | S fuel => c ← char_at d (i + 1); if stop c then mret (i + 1) else skip_loop fuel d stop (i + 1)
  end.
Definition skip_until (d : list ascii) (stop : ascii → bool) (i : Z) : JP Z := skip_loop (S (length d)) d stop i.

(** Both return whether there is an object, and the index of the last character
    they have consumed. *)
Definition parse_object_array (d : list ascii) (i : Z) : JP (bool * Z) :=
  i ← skip_until d (λ c, negb (Ascii.eqb c "[")) i;
  c ← char_at d i;
  if is_primive_type c then mret (false, i)
  else i ← skip_until d (λ c, Ascii.eqb c ";") i; mret (true, i).

Definition parse_object_instance (d : list ascii) (i : Z) : JP (bool * Z) :=
  i ← skip_until d (λ c, Ascii.eqb c ";") (i + 1); mret (true, i).

(** Local variables a primitive type takes; nothing for other characters. *)
Definition primitive_slots (c : ascii) : Z :=
  match c with
  | "D" | "J" => 2
  | "I" | "S" | "F" | "Z" | "C" | "B" => 1
  | _ => 0
  end%char.

Definition load_instr (local_val_index : Z) : instr :=
  match local_val_index with
  | 0 => aload_0 | 1 => aload_1 | 2 => aload_2 | 3 => aload_3 | _ => aload local_val_index
  end.
Definition insert_reference_load_instruction (param_count non_static_local_val_offset : Z) : JP unit :=
  tell (J_insert (load_instr (u8 (param_count + non_static_local_val_offset)))).

(** One round of the loop over the descriptor: the index of the last character,
    [param_count], [inserted_obj_ref_count], and whether to break. *)
Definition object_found (off param_count inserted : Z) (r : bool * Z) : JP (Z * Z * Z * bool) :=
  (if r.1 then insert_reference_load_instruction param_count off else mret tt);;
  mret (r.2, u8 (param_count + 1), if r.1 then inserted + 1 else inserted, false).
Definition scan_param (d : list ascii) (off i param_count inserted : Z) : JP (Z * Z * Z * bool) :=
  c ← char_at d i;
  if Ascii.eqb c "[" then r ← parse_object_array d i; object_found off param_count inserted r
  else
    instance ← (if Ascii.eqb c "L" then p ← char_at d (i - 1); mret (negb (Ascii.eqb p "[")) else mret false);
    if instance : bool then r ← parse_object_instance d i; object_found off param_count inserted r
    else mret (i, u8 (param_count + primitive_slots c), inserted, Ascii.eqb c ")").

(** [for (i = 1; i < descriptor_size && inserted < PARAM_NUM; i++)] *)
Fixpoint scan_params (fuel : nat) (d : list ascii) (off i param_count inserted : Z) : JP Z :=
  match fuel with
  | O => crash Spin
  | S fuel =>
      if (i <? Z.of_nat (length d)) && (inserted <? PARAM_NUM) then
        r ← scan_param d off i param_count inserted;
        let '(i, param_count, inserted, over) := r in
        if over : bool then mret inserted else scan_params fuel d off (i + 1) param_count inserted
      else mret inserted
  end.

(** ** Instrumenting *)

Definition function_filtered (name : string) : bool :=
  bool_decide (name ∈ ["<clinit>"; "<init>"; "main"; "linkToTargetMethod"]%string).

Section Agent.
Context {E : jenv}.

(** [while (code->fix_offsets()) code->sync()] *)
Fixpoint fix_loop (fuel : nat) : JP unit :=
  match fuel with
  | O => crash Spin
  | S fuel => again ← ask (λ cs _, je_fix cs) J_fix_offsets; if again : bool then tell J_sync;; fix_loop fuel else mret tt
  end.

(** The end of the body of the loop over the methods, [n] being
    [inserted_obj_ref_count]. *)
Definition insert_call (fuel : nat) (prefetch_method_index n : Z) : JP unit :=
  if n =? 0 then mret tt
  else
    pfor (Z.to_nat (PARAM_NUM - n)) n (λ _, tell (J_insert aconst_null);; mret true);;
    tell (J_insert (sipush n));;
    tell (J_insert (invokestatic prefetch_method_index));;
    tell J_sync;; fix_loop fuel.

(** The body of the loop over the methods. *)
Definition instrument_method (fuel : nat) (prefetch_method_index : Z) (m : jmethod) : JP unit :=
  if function_filtered (m_name m) then mret tt
  else
    c ← char_at (m_descriptor m) 1;
    if Ascii.eqb c ")" then mret tt
    else
      tell J_get_code;;
      match m_code m with
      | None => mret tt
      | Some max_stack =>
          tell (J_set_max_stack (max_stack + 6));;
          tell J_front_inserter;;
          let non_static_local_val_offset := if m_is_static m then 0 else 1 in
          n ← scan_params (S (length (m_descriptor m))) (m_descriptor m) non_static_local_val_offset 1 0 0;
          insert_call fuel prefetch_method_index n
      end.

Fixpoint instrument_methods (fuel : nat) (prefetch_method_index : Z) (ms : list jmethod) : JP unit :=
  match ms with
  | [] => mret tt
  | m :: ms => instrument_method fuel prefetch_method_index m;; instrument_methods fuel prefetch_method_index ms
  end.

(** [ms] are the methods that the library finds in the class file. *)
Definition ClassFileLoadHook (fuel : nat) (ms : list jmethod) : JP unit :=
  i ← ask (λ _ _, je_methodref) J_get_methodref;
  instrument_methods fuel i ms;;
  tell J_write.

End Agent.

(** ** Descriptors *)

Inductive prim := Byte | Char | Double | Float | Int | Long | Short | Boolean.
Inductive jbase := JPrim (p : prim) | JClass (name : list ascii).
(** A parameter: [dims] times array of [base]. *)
Record jparam := mkParam { dims : nat; base : jbase }.

Definition print_prim (p : prim) : ascii :=
  match p with
  | Byte => "B" | Char => "C" | Double => "D" | Float => "F" | Int => "I" | Long => "J" | Short => "S" | Boolean => "Z"
  end%char.
Definition print_base (b : jbase) : list ascii :=
  match b with JPrim p => [print_prim p] | JClass name => "L"%char :: name ++ [";"%char] end.
Definition print_param (p : jparam) : list ascii := replicate (dims p) "["%char ++ print_base (base p).
Definition print_descriptor (ps : list jparam) (ret : list ascii) : list ascii :=
  "("%char :: concat (map print_param ps) ++ ")"%char :: ret.

Definition wf_param (p : jparam) : Prop :=
  match base p with JClass name => name ≠ [] ∧ ";"%char ∉ name | JPrim _ => True end.

(** Local variables of a parameter. *)
Definition slots (p : jparam) : Z :=
  match dims p, base p with O, JPrim Double | O, JPrim Long => 2 | _, _ => 1 end.
Definition all_slots (ps : list jparam) : Z := foldr Z.add 0 (map slots ps).
(** Objects, and arrays of objects. *)
Definition is_object (p : jparam) : bool := match base p with JClass _ => true | JPrim _ => false end.
Fixpoint object_slots (i : Z) (ps : list jparam) : list Z :=
  match ps with
  | [] => []
  | p :: ps => (if is_object p then [i] else []) ++ object_slots (i + slots p) ps
  end.

(** ** What the inserted code does *)

Inductive value := VLocal (index : Z) | VNull | VInt (n : Z).

(** The prefetch method takes five objects and an [int]. *)
Definition prefetch_arity : nat := 6.

(** The stack (top first), the calls made and the highest stack. *)
Record jstate := mkJ { j_stack : list value; j_calls : list (Z * list value); j_depth : nat }.
Definition push (v : value) (s : jstate) : jstate :=
  mkJ (v :: j_stack s) (j_calls s) (Nat.max (j_depth s) (S (length (j_stack s)))).
Definition step_instr (i : instr) (s : jstate) : jstate :=
  match i with
  | aload_0 => push (VLocal 0) s | aload_1 => push (VLocal 1) s
  | aload_2 => push (VLocal 2) s | aload_3 => push (VLocal 3) s
  | aload n => push (VLocal n) s
  | aconst_null => push VNull s
  | sipush n => push (VInt n) s
  | invokestatic m =>
      mkJ (drop prefetch_arity (j_stack s)) (j_calls s ++ [(m, rev (take prefetch_arity (j_stack s)))]) (j_depth s)
  end.
Definition run_code (code : list instr) (s : jstate) : jstate := foldl (λ s i, step_instr i s) s code.

(** ** The scanner on well-formed text *)

Implicit Types (d pre mid rest : list ascii) (w : pstate unit jcall).

Lemma char_at_app d pre c rest i w :
  d = pre ++ c :: rest → i = Z.of_nat (length pre) → char_at d i w = Done c w.
Proof. intros -> ->. unfold char_at, inside. by rewrite arr_get_lookup, list_lookup_middle. Qed.

Lemma char_at_end d i w : Z.of_nat (length d) <= i → char_at d i w = Fault OutOfBounds.
Proof.
  intros Hi. unfold char_at, inside. destruct (arr_get d i) eqn:E; [|done]. apply arr_get_Some in E. lia.
Qed.

(** The scan goes over [mid] and ends on the first character that stops it. *)
Lemma skip_loop_finds fuel d pre x mid c rest stop i w :
  d = pre ++ x :: mid ++ c :: rest → i = Z.of_nat (length pre) → (length mid < fuel)%nat →
  Forall (λ y, stop y = false) mid → stop c = true →
  skip_loop fuel d stop i w = Done (i + 1 + Z.of_nat (length mid)) w.
Proof.
  intros Hd Hi Hf Hm Hc. revert fuel pre x i Hd Hi Hf. induction mid as [|y mid IH]; intros fuel pre x i Hd Hi Hf.
  all: destruct fuel as [|fuel]; [cbn in Hf; lia|]; cbn [skip_loop].
  - erewrite prog_bind_step by (apply (char_at_app _ (pre ++ [x]) c rest); [by rewrite Hd, <- app_assoc|rewrite length_app; cbn; lia]).
    rewrite Hc. cbn. f_equal. lia.
  - inversion_clear Hm as [|? ? Hy Hm'].
    erewrite prog_bind_step by (apply (char_at_app _ (pre ++ [x]) y (mid ++ c :: rest)); [by rewrite Hd, <- app_assoc|rewrite length_app; cbn; lia]).
    rewrite Hy. rewrite (IH Hm' fuel (pre ++ [x]) y); [cbn [length]; f_equal; lia|by rewrite Hd, <- app_assoc|rewrite length_app; cbn; lia|cbn in Hf; lia].
Qed.

(** A scan for a character that is not there leaves the text. *)
Lemma skip_loop_off d stop n : ∀ fuel i w,
  -1 <= i → Z.of_nat (length d) - i <= Z.of_nat n → (n < fuel)%nat →
  (∀ j c, i < j → arr_get d j = Some c → stop c = false) →
  skip_loop fuel d stop i w = Fault OutOfBounds.
Proof.
  induction n as [|n IH]; intros fuel i w Hi Hn Hf Hs; (destruct fuel as [|fuel]; [lia|]); cbn [skip_loop].
  { apply prog_bind_fault, char_at_end. lia. }
  unfold char_at at 1, inside. destruct (arr_get d (i + 1)) as [c|] eqn:E; [|done].
  erewrite prog_bind_step by reflexivity. rewrite (Hs (i + 1) c) by (done || lia).
  apply IH; [lia|lia|lia|]. intros j c' Hj. apply Hs. lia.
Qed.

Lemma skip_until_finds d pre x mid c rest stop i w :
  d = pre ++ x :: mid ++ c :: rest → i = Z.of_nat (length pre) →
  Forall (λ y, stop y = false) mid → stop c = true →
  skip_until d stop i w = Done (i + 1 + Z.of_nat (length mid)) w.
Proof.
  intros Hd Hi Hm Hc. eapply skip_loop_finds; try done. rewrite Hd, length_app. cbn. rewrite length_app. cbn. lia.
Qed.


Lemma skip_until_off d stop i w :
  0 <= i → (∀ j c, i < j → arr_get d j = Some c → stop c = false) → skip_until d stop i w = Fault OutOfBounds.
Proof. intros Hi Hs. apply (skip_loop_off _ _ (length d)); [lia|lia|lia|done]. Qed.

Lemma is_primive_type_print p : is_primive_type (print_prim p) = true.
Proof. by destruct p. Qed.

Lemma name_no_semicolon name : ";"%char ∉ name → Forall (λ c, Ascii.eqb c ";" = false) name.
Proof.
  intros Hn. apply Forall_forall. intros c Hc. apply Ascii.eqb_neq. intros ->. done.
Qed.

Lemma brackets_pass n : Forall (λ c, negb (Ascii.eqb c "[") = false) (replicate n "["%char).
Proof. by apply Forall_replicate. Qed.

(** Equal texts, up to the association of their parts. *)
Ltac text_eq := subst; unfold print_param, print_base; cbn [dims base]; repeat progress (cbn [app replicate]; rewrite <- ?app_assoc); reflexivity.

(** An array is consumed up to its last character. *)
Lemma parse_array_ok n b d pre rest i w :
  d = pre ++ print_param (mkParam (S n) b) ++ rest → i = Z.of_nat (length pre) → wf_param (mkParam (S n) b) →
  parse_object_array d i w =
    Done (is_object (mkParam (S n) b), i + Z.of_nat (length (print_param (mkParam (S n) b))) - 1) w.
Proof.
  intros Hd Hi Hwf. unfold parse_object_array. destruct b as [p|name]; cbn in Hwf.
  - erewrite prog_bind_step.
    2:{ apply (skip_until_finds d pre "["%char (replicate n "["%char) (print_prim p) rest);
        [text_eq|done|apply brackets_pass|by destruct p]. }
    erewrite prog_bind_step.
    2:{ apply (char_at_app d (pre ++ replicate (S n) "["%char) (print_prim p) rest);
        [text_eq|rewrite length_app, !length_replicate; lia]. }
    rewrite is_primive_type_print. unfold print_param. cbn. rewrite length_app, !length_replicate. cbn. do 2 f_equal. lia.
  - erewrite prog_bind_step.
    2:{ apply (skip_until_finds d pre "["%char (replicate n "["%char) "L"%char ((name ++ [";"%char]) ++ rest));
        [text_eq|done|apply brackets_pass|done]. }
    erewrite prog_bind_step.
    2:{ apply (char_at_app d (pre ++ replicate (S n) "["%char) "L"%char ((name ++ [";"%char]) ++ rest));
        [text_eq|rewrite length_app, !length_replicate; lia]. }
    cbn [is_primive_type]. destruct Hwf as [_ Hn].
    erewrite prog_bind_step.
    2:{ apply (skip_until_finds d (pre ++ replicate (S n) "["%char) "L"%char name ";"%char rest);
        [text_eq
        |rewrite length_app, !length_replicate; lia|by apply name_no_semicolon|done]. }
    unfold print_param. cbn. rewrite length_app, !length_replicate. cbn. rewrite length_app. cbn. do 2 f_equal. lia.
Qed.

Lemma parse_instance_ok name d pre rest i w :
  d = pre ++ print_param (mkParam 0 (JClass name)) ++ rest → i = Z.of_nat (length pre) → wf_param (mkParam 0 (JClass name)) →
  parse_object_instance d i w = Done (true, i + Z.of_nat (length (print_param (mkParam 0 (JClass name)))) - 1) w.
Proof.
  intros Hd Hi [Hne Hn]. cbn in Hne, Hn. unfold parse_object_instance. destruct name as [|x name]; [done|].
  erewrite prog_bind_step.
  2:{ apply (skip_until_finds d (pre ++ ["L"%char]) x name ";"%char rest);
      [text_eq|rewrite length_app; cbn; lia
      |apply name_no_semicolon; set_solver|done]. }
  cbn. rewrite length_app. cbn. do 2 f_equal. lia.
Qed.

Definition add_calls (cs : list jcall) (w : pstate unit jcall) : pstate unit jcall := mkPstate (p_data w) (p_calls w ++ cs).

Lemma jcalls_nil w : add_calls [] w = w.
Proof. destruct w. unfold add_calls. cbn. by rewrite app_nil_r. Qed.

Lemma jcalls_app cs ds w : add_calls ds (add_calls cs w) = add_calls (cs ++ ds) w.
Proof. unfold add_calls. cbn. by rewrite <- app_assoc. Qed.

Lemma tell_step {B} c (k : unit → JP B) w : (tell c ≫= k) w = k tt (add_calls [c] w).
Proof. reflexivity. Qed.

(** One round consumes one parameter. *)
Definition loads (off pc : Z) (p : jparam) : list jcall :=
  if is_object p then [J_insert (load_instr (u8 (pc + off)))] else [].

Lemma object_found_ok off pc ins p j w :
  object_found off pc ins (is_object p, j) w =
    Done (j, u8 (pc + 1), if is_object p then ins + 1 else ins, false) (add_calls (loads off pc p) w).
Proof. unfold object_found, loads. cbn. destruct (is_object p); [done|]. by rewrite jcalls_nil. Qed.

Lemma scan_param_ok p d pre x rest off i pc ins w :
  d = (pre ++ [x]) ++ print_param p ++ rest → i = Z.of_nat (length (pre ++ [x])) → x ≠ "["%char → wf_param p →
  scan_param d off i pc ins w =
    Done (i + Z.of_nat (length (print_param p)) - 1, u8 (pc + slots p), if is_object p then ins + 1 else ins, false)
      (add_calls (loads off pc p) w).
Proof.
  intros Hd Hi Hx Hwf. unfold scan_param. destruct p as [[|n] [q|name]].
  - erewrite prog_bind_step by (apply (char_at_app d (pre ++ [x]) (print_prim q) rest); [text_eq|done]).
    unfold loads. cbn [is_object base]. rewrite jcalls_nil. change (length (print_param (mkParam 0 (JPrim q)))) with 1%nat.
    replace (i + Z.of_nat 1 - 1) with i by lia. by destruct q.
  - erewrite prog_bind_step by (apply (char_at_app d (pre ++ [x]) "L"%char ((name ++ [";"%char]) ++ rest)); [text_eq|done]).
    cbn [Ascii.eqb Bool.eqb]. erewrite prog_bind_step.
    2:{ erewrite prog_bind_step; [reflexivity|]. apply (char_at_app d pre x (print_param (mkParam 0 (JClass name)) ++ rest)); [text_eq|].
        rewrite Hi, length_app. cbn. lia. }
    rewrite (proj2 (Ascii.eqb_neq x "["%char) Hx). cbn [negb].
    erewrite prog_bind_step by (apply (parse_instance_ok name d (pre ++ [x]) rest); done).
    by rewrite (object_found_ok _ _ _ (mkParam 0 (JClass name))).
  - erewrite prog_bind_step by (apply (char_at_app d (pre ++ [x]) "["%char (replicate n "["%char ++ [print_prim q] ++ rest)); [text_eq|done]).
    cbn [Ascii.eqb Bool.eqb]. erewrite prog_bind_step by (apply (parse_array_ok n (JPrim q) d (pre ++ [x]) rest); done).
    rewrite object_found_ok. done.
  - erewrite prog_bind_step by (apply (char_at_app d (pre ++ [x]) "["%char (replicate n "["%char ++ print_base (JClass name) ++ rest)); [text_eq|done]).
    cbn [Ascii.eqb Bool.eqb]. erewrite prog_bind_step by (apply (parse_array_ok n (JClass name) d (pre ++ [x]) rest); done).
    rewrite object_found_ok. done.
Qed.

(** The last character of a parameter is no bracket. *)
Lemma print_param_last p : wf_param p → ∃ s y, print_param p = s ++ [y] ∧ y ≠ "["%char.
Proof.
  intros Hwf. unfold print_param. destruct p as [n [q|name]]; cbn.
  - exists (replicate n "["%char), (print_prim q). split; [done|]. by destruct q.
  - exists (replicate n "["%char ++ "L"%char :: name), ";"%char. split; [by rewrite <- app_assoc|done].
Qed.

Lemma print_param_pos p : wf_param p → (0 < length (print_param p))%nat.
Proof. intros Hwf. destruct (print_param_last p Hwf) as (s & y & -> & _). rewrite length_app. cbn. lia. Qed.

Definition print_params (ps : list jparam) : list ascii := concat (map print_param ps).

Lemma u8_id z : 0 <= z < 256 → u8 z = z.
Proof. apply Z.mod_small. Qed.

Lemma slots_range p : 1 <= slots p <= 2.
Proof. unfold slots. destruct (dims p), (base p) as [[]|]; lia. Qed.

Lemma all_slots_nonneg ps : 0 <= all_slots ps.
Proof. induction ps as [|p ps IH]; cbn; [done|]. pose proof (slots_range p). unfold all_slots in IH. lia. Qed.

Definition load_calls (ks : list Z) : list jcall := map (λ k, J_insert (load_instr k)) ks.

Definition object_count (p : jparam) : Z := if is_object p then 1 else 0.

Lemma print_params_cons p ps : print_params (p :: ps) = print_param p ++ print_params ps.
Proof. reflexivity. Qed.

(** A round of the loop, with what the next round needs. *)
Lemma scan_params_go p ps fuel d pre x rest off pc ins w :
  d = (pre ++ [x]) ++ print_params (p :: ps) ++ rest → x ≠ "["%char → wf_param p → ins < PARAM_NUM →
  0 <= pc → 0 <= off → off + pc + slots p <= 255 →
  ∃ pre' y, d = (pre' ++ [y]) ++ print_params ps ++ rest ∧ y ≠ "["%char ∧
    scan_params (S fuel) d off (Z.of_nat (length (pre ++ [x]))) pc ins w =
    scan_params fuel d off (Z.of_nat (length (pre' ++ [y]))) (pc + slots p) (ins + object_count p)
      (add_calls (if is_object p then [J_insert (load_instr (off + pc))] else []) w).
Proof.
  intros Hd Hx Hp Hlt Hpc Ho Hs. rewrite print_params_cons, <- (app_assoc (print_param p)) in Hd.
  pose proof (print_param_pos p Hp). pose proof (slots_range p). destruct (print_param_last p Hp) as (s & y & Hl & Hy).
  exists ((pre ++ [x]) ++ s), y. split; [by rewrite Hd, Hl, <- !app_assoc|split; [done|]]. cbn [scan_params].
  rewrite (proj2 (Z.ltb_lt ins _) Hlt), andb_true_r, (proj2 (Z.ltb_lt _ _)) by (rewrite Hd, !length_app; lia).
  erewrite prog_bind_step by (apply (scan_param_ok p d pre x (print_params ps ++ rest)); [exact Hd|reflexivity|exact Hx|exact Hp]).
  cbv beta iota zeta. rewrite u8_id by lia.
  replace (Z.of_nat (length (pre ++ [x])) + Z.of_nat (length (print_param p)) - 1 + 1)
    with (Z.of_nat (length (((pre ++ [x]) ++ s) ++ [y]))) by (rewrite Hl, !length_app; cbn; lia).
  unfold loads, object_count. replace (pc + off) with (off + pc) by lia. rewrite u8_id by lia. by destruct (is_object p); rewrite ?Z.add_0_r.
Qed.

(** The loop ends at the closing parenthesis or with a full list of arguments. *)
Lemma scan_params_ok ps : ∀ fuel d pre x ret off pc ins w,
  d = (pre ++ [x]) ++ print_params ps ++ ")"%char :: ret → x ≠ "["%char → Forall wf_param ps →
  (length ps < fuel)%nat → 0 <= off → 0 <= pc → off + pc + all_slots ps <= 255 → 0 <= ins <= PARAM_NUM →
  let ks := take (Z.to_nat (PARAM_NUM - ins)) (object_slots (off + pc) ps) in
  scan_params fuel d off (Z.of_nat (length (pre ++ [x]))) pc ins w =
    Done (ins + Z.of_nat (length ks)) (add_calls (load_calls ks) w).
Proof.
  induction ps as [|p ps IH]; intros fuel d pre x ret off pc ins w Hd Hx Hwf Hf Ho Hpc Hs Hi; cbv zeta; (destruct fuel as [|fuel]; [lia|]).
  - cbn [scan_params object_slots]. rewrite take_nil. cbn [load_calls map length]. rewrite jcalls_nil, Z.add_0_r.
    destruct (Z.ltb_spec ins PARAM_NUM); [|by rewrite andb_false_r]. rewrite andb_true_r.
    rewrite (proj2 (Z.ltb_lt _ _)) by (rewrite Hd, !length_app; cbn; lia).
    unfold scan_param. rewrite prog_bind_unfold. by erewrite prog_bind_step by (apply (char_at_app d (pre ++ [x]) ")"%char ret); [text_eq|done]).
  - inversion_clear Hwf as [|? ? Hp Hps]. cbn in Hs, Hf. fold (all_slots ps) in Hs. pose proof (slots_range p). pose proof (all_slots_nonneg ps).
    destruct (decide (ins < PARAM_NUM)) as [Hlt|Hge].
    2:{ cbn [scan_params]. rewrite (proj2 (Z.ltb_ge ins _)), andb_false_r by lia. replace (Z.to_nat (PARAM_NUM - ins)) with 0%nat by lia.
        cbn. by rewrite jcalls_nil, Z.add_0_r. }
    destruct (scan_params_go p ps fuel d pre x (")"%char :: ret) off pc ins w) as (pre' & y & Hd' & Hy & ->); try done; [lia|].
    unfold object_count. rewrite (IH fuel d pre' y ret); try done; [|lia|lia|lia|destruct (is_object p); lia].
    cbn [object_slots]. rewrite jcalls_app, (Z.add_assoc off pc). destruct (is_object p); cbn [app]; [|by rewrite Z.add_0_r].
    replace (Z.to_nat (PARAM_NUM - ins)) with (S (Z.to_nat (PARAM_NUM - (ins + 1)))) by lia. cbn [firstn length load_calls map].
    f_equal; lia.
Qed.

(** A class name without its semicolon, before the list of arguments is full. *)
Lemma scan_params_off ps : ∀ fuel d pre x name off pc ins w,
  d = (pre ++ [x]) ++ print_params ps ++ "L"%char :: name → x ≠ "["%char → ";"%char ∉ name → Forall wf_param ps →
  (length ps < fuel)%nat → 0 <= off → 0 <= pc → off + pc + all_slots ps <= 255 → 0 <= ins →
  ins + Z.of_nat (length (object_slots (off + pc) ps)) < PARAM_NUM →
  scan_params fuel d off (Z.of_nat (length (pre ++ [x]))) pc ins w = Fault OutOfBounds.
Proof.
  induction ps as [|p ps IH]; intros fuel d pre x name off pc ins w Hd Hx Hn Hwf Hf Ho Hpc Hs Hi Hc; (destruct fuel as [|fuel]; [lia|]).
  - cbn in Hc. cbn [scan_params]. rewrite (proj2 (Z.ltb_lt ins _)), andb_true_r, (proj2 (Z.ltb_lt _ _)) by (rewrite ?Hd, ?length_app; cbn; lia).
    apply prog_bind_fault. unfold scan_param.
    erewrite prog_bind_step by (apply (char_at_app d (pre ++ [x]) "L"%char name); [text_eq|done]). cbn [Ascii.eqb Bool.eqb].
    erewrite prog_bind_step.
    2:{ erewrite prog_bind_step; [reflexivity|]. apply (char_at_app d pre x ("L"%char :: name)); [text_eq|]. rewrite length_app. cbn. lia. }
    rewrite (proj2 (Ascii.eqb_neq x "["%char) Hx). cbn [negb]. apply prog_bind_fault, prog_bind_fault, skip_until_off; [lia|].
    intros j c Hj Hc'. apply Ascii.eqb_neq. intros ->. apply Hn. unfold arr_get in Hc'. rewrite decide_True in Hc' by lia.
    rewrite Hd, lookup_app_r in Hc' by lia. cbn [print_params map concat app] in Hc'.
    destruct (Z.to_nat j - length (pre ++ [x]))%nat as [|k] eqn:Ek; [lia|]. cbn in Hc'. by eapply list_elem_of_lookup_2.
  - inversion_clear Hwf as [|? ? Hp Hps]. cbn in Hs, Hf, Hc. fold (all_slots ps) in Hs. rewrite length_app in Hc. pose proof (slots_range p). pose proof (all_slots_nonneg ps).
    destruct (scan_params_go p ps fuel d pre x ("L"%char :: name) off pc ins w) as (pre' & y & Hd' & Hy & ->); try done; [lia|lia|].
    unfold object_count. apply (IH fuel d pre' y name); try done; try lia; [destruct (is_object p); lia|].
    rewrite (Z.add_assoc off pc). destruct (is_object p); cbn in Hc; lia.
Qed.

(** ** The inserted code *)

Definition prefetch_args (objs : list Z) : list value :=
  map VLocal objs ++ replicate (5 - length objs) VNull ++ [VInt (Z.of_nat (length objs))].
Definition inserted_code (idx : Z) (objs : list Z) : list instr :=
  map load_instr objs ++ replicate (5 - length objs) aconst_null ++ [sipush (Z.of_nat (length objs)); invokestatic idx].

Lemma step_load k s : step_instr (load_instr k) s = push (VLocal k) s.
Proof. destruct k as [|[[]|[]|]|]; reflexivity. Qed.

Lemma run_code_app c c' s : run_code (c ++ c') s = run_code c' (run_code c s).
Proof. apply foldl_app. Qed.

Lemma run_pushes code vs s :
  length code = length vs → (∀ k i v, code !! k = Some i → vs !! k = Some v → ∀ t, step_instr i t = push v t) →
  run_code code s = mkJ (rev vs ++ j_stack s) (j_calls s) (if decide (vs = []) then j_depth s else Nat.max (j_depth s) (length vs + length (j_stack s))).
Proof.
  revert vs s. induction code as [|i code IH]; intros [|v vs] s Hl Hs; try done; [by destruct s|].
  cbn [run_code foldl]. fold (run_code code (step_instr i s)). rewrite (Hs 0%nat i v) by done.
  rewrite (IH vs); [|by injection Hl|by intros k; apply (Hs (S k))]. cbn [push j_stack j_calls j_depth rev]. f_equal; [by rewrite <- app_assoc|].
  rewrite (decide_False (P := v :: vs = [])) by done. case_decide as Hv; [subst vs; cbn; lia|]. cbn [length]. lia.
Qed.

Lemma run_inserted idx objs st :
  (length objs <= 5)%nat →
  run_code (inserted_code idx objs) (mkJ st [] (length st)) = mkJ st [(idx, prefetch_args objs)] (length st + 6).
Proof.
  intros Hl. unfold inserted_code. change [sipush ?n; invokestatic idx] with ([sipush n] ++ [invokestatic idx]).
  rewrite !app_assoc, run_code_app.
  assert (length (prefetch_args objs) = 6%nat) as Hp.
  { unfold prefetch_args. rewrite !length_app, length_map, length_replicate. cbn. lia. }
  rewrite (run_pushes ((map load_instr objs ++ _) ++ _) (prefetch_args objs)).
  - rewrite decide_False by (intros Hn; by rewrite Hn in Hp). cbn [run_code foldl step_instr j_stack j_calls j_depth].
    unfold prefetch_arity. rewrite Hp. f_equal.
    + rewrite drop_app_length'; [done|]. by rewrite length_rev.
    + rewrite take_app_length' by (by rewrite length_rev). by rewrite rev_involutive.
    + lia.
  - rewrite Hp, !length_app, length_map, length_replicate. cbn. lia.
  - intros k i v. unfold prefetch_args. rewrite <- app_assoc. intros Hi Hv t.
    destruct (decide (k < length objs)%nat) as [Hk|Hk].
    + rewrite lookup_app_l in Hi by (by rewrite length_map). rewrite lookup_app_l in Hv by (by rewrite length_map).
      change (map load_instr objs) with (load_instr <$> objs) in Hi. change (map VLocal objs) with (VLocal <$> objs) in Hv.
      rewrite list_lookup_fmap in Hi. rewrite list_lookup_fmap in Hv. destruct (objs !! k); [|done]. simplify_eq/=. apply step_load.
    + rewrite lookup_app_r in Hi by (rewrite length_map; lia). rewrite lookup_app_r in Hv by (rewrite length_map; lia).
      rewrite length_map in Hi, Hv. destruct (decide (k - length objs < 5 - length objs)%nat) as [Hm|Hm].
      * rewrite lookup_app_l in Hi by (by rewrite length_replicate). rewrite lookup_app_l in Hv by (by rewrite length_replicate).
        apply lookup_replicate in Hi as [-> _]. apply lookup_replicate in Hv as [-> _]. done.
      * rewrite lookup_app_r in Hi by (rewrite length_replicate; lia). rewrite lookup_app_r in Hv by (rewrite length_replicate; lia).
        destruct (k - length objs - length (replicate (5 - length objs) aconst_null))%nat as [|k'] eqn:E1; [|done].
        rewrite length_replicate in E1. rewrite length_replicate, E1 in Hv. simplify_eq/=. done.
Qed.

(** The locals loaded are parameters of the method. *)
Lemma object_slots_range ps : ∀ i, Forall (λ k, i <= k < i + all_slots ps) (object_slots i ps).
Proof.
  induction ps as [|p ps IH]; intros i; [constructor|]. cbn [object_slots]. pose proof (slots_range p). pose proof (all_slots_nonneg ps).
  unfold all_slots. cbn [map foldr]. fold (all_slots ps).
  assert (Forall (λ k, i <= k < i + (slots p + all_slots ps)) (object_slots (i + slots p) ps)).
  { eapply Forall_impl; [apply IH|]. cbn. lia. }
  destruct (is_object p); [|done]. cbn. constructor; [lia|done].
Qed.

(** ** Methods and classes *)

Section Methods.
Context {E : jenv}.

(** After at most [k] rounds [fix_offsets] has nothing left to fix. *)
Definition rounds (r : nat) : list jcall := concat (replicate r [J_fix_offsets; J_sync]).
Definition settles (k : nat) : Prop := ∀ cs, ∃ r, (r < k)%nat ∧ je_fix (cs ++ rounds r) = false.

Lemma rounds_snoc r : rounds (S r) = [J_fix_offsets; J_sync] ++ rounds r.
Proof. reflexivity. Qed.

Lemma fix_loop_ok r : ∀ fuel w, (r < fuel)%nat → je_fix (p_calls w ++ rounds r) = false →
  ∃ r', (r' <= r)%nat ∧ fix_loop fuel w = Done tt (add_calls (rounds r' ++ [J_fix_offsets]) w).
Proof.
  induction r as [|r IH]; intros fuel w Hf Hr; (destruct fuel as [|fuel]; [lia|]); cbn [fix_loop].
  - exists 0%nat. split; [done|]. erewrite prog_bind_step by reflexivity. cbn in Hr. rewrite app_nil_r in Hr. by rewrite Hr.
  - destruct (je_fix (p_calls w)) eqn:Ew.
    + destruct (IH fuel (add_calls [J_fix_offsets; J_sync] w)) as (r' & Hr' & Hl); [lia| |].
      { cbn. rewrite <- app_assoc, <- rounds_snoc. exact Hr. }
      exists (S r'). split; [lia|]. erewrite prog_bind_step by reflexivity. rewrite Ew, tell_step.
      unfold add_calls at 1. cbn [p_data p_calls]. rewrite <- app_assoc.
      change (mkPstate (p_data w) (p_calls w ++ [J_fix_offsets] ++ [J_sync])) with (add_calls [J_fix_offsets; J_sync] w).
      by rewrite Hl, jcalls_app.
    + exists 0%nat. split; [lia|]. erewrite prog_bind_step by reflexivity. by rewrite Ew.
Qed.

Definition this_offset (m : jmethod) : Z := if m_is_static m then 0 else 1.

(** A method as the virtual machine allows it: a well-formed descriptor with at
    most 255 local variables for the parameters. *)
Definition wf_method (m : jmethod) (ps : list jparam) : Prop :=
  (∃ ret, m_descriptor m = print_descriptor ps ret) ∧ Forall wf_param ps ∧ this_offset m + all_slots ps <= 255.

Lemma wf_second m ps w : wf_method m ps →
  ∃ c, char_at (m_descriptor m) 1 w = Done c w ∧ Ascii.eqb c ")" = bool_decide (ps = []).
Proof.
  intros ((ret & Hd) & Hwf & _). rewrite Hd. unfold print_descriptor. destruct ps as [|p ps].
  - exists ")"%char. split; [|done]. by apply (char_at_app _ ["("%char] ")"%char ret).
  - inversion_clear Hwf as [|? ? Hp _]. cbn [map concat].
    assert (∃ c t, print_param p = c :: t ∧ c ≠ ")"%char) as (c & t & -> & Hc).
    { destruct p as [[|n] [q|name]]; eexists _, _; (split; [reflexivity|]); try done. by destruct q. }
    exists c. rewrite bool_decide_false by done. split; [|by apply Ascii.eqb_neq].
    by apply (char_at_app _ ["("%char] c (t ++ concat (map print_param ps) ++ ")"%char :: ret)); [cbn; rewrite <- app_assoc|].
Qed.

Lemma all_slots_length ps : Z.of_nat (length ps) <= all_slots ps.
Proof.
  induction ps as [|p ps IH]; [done|]. unfold all_slots in *. cbn. pose proof (slots_range p). lia.
Qed.

Lemma print_params_length ps : Forall wf_param ps → (length ps <= length (print_params ps))%nat.
Proof.
  induction 1 as [|p ps Hp _ IH]; [done|]. rewrite print_params_cons, length_app. cbn. pose proof (print_param_pos p Hp). lia.
Qed.

Lemma nulls_ok n i w : pfor n i (λ _, tell (J_insert aconst_null);; mret true) w =
  Done tt (add_calls (map J_insert (replicate n aconst_null)) w).
Proof.
  revert i w. induction n as [|n IH]; intros i w; [by rewrite jcalls_nil|].
  erewrite pfor_go by reflexivity. by rewrite (IH _ (add_calls [J_insert aconst_null] w)), jcalls_app.
Qed.

Definition prelude_calls (max_stack : Z) : list jcall := [J_get_code; J_set_max_stack (max_stack + 6); J_front_inserter].

Lemma instrument_runs fuel idx m ps max_stack w :
  wf_method m ps → ps ≠ [] → m_code m = Some max_stack → function_filtered (m_name m) = false → settles fuel →
  let objs := take 5 (object_slots (this_offset m) ps) in
  ∃ r, instrument_method fuel idx m w =
    Done tt (add_calls (prelude_calls max_stack ++
      if decide (objs = []) then [] else map J_insert (inserted_code idx objs) ++ J_sync :: rounds r ++ [J_fix_offsets]) w).
Proof.
  intros Hm Hne Hc Hname Hfix objs. pose proof Hm as ((ret & Hd) & Hwf & Hslots).
  unfold instrument_method, insert_call. rewrite Hname. destruct (wf_second m ps w Hm) as (c & Hc1 & Hc2).
  rewrite (prog_bind_step _ _ _ _ _ Hc1), Hc2, bool_decide_false, tell_step, Hc, !tell_step, !jcalls_app by done. cbv zeta.
  pose proof (print_params_length ps Hwf).
  pose proof (scan_params_ok ps (S (length (m_descriptor m))) (m_descriptor m) [] "("%char ret (this_offset m) 0 0) as Hscan.
  cbv zeta in Hscan. rewrite Z.add_0_r in Hscan. change (Z.to_nat (PARAM_NUM - 0)) with 5%nat in Hscan. fold objs in Hscan.
  fold (this_offset m). assert (length objs <= 5)%nat as Hl by (unfold objs; rewrite length_take; lia).
  erewrite prog_bind_step.
  2:{ apply Hscan; try done; [|unfold this_offset; destruct (m_is_static m); lia].
      rewrite Hd. unfold print_descriptor. cbn [length]. rewrite length_app. cbn [length]. fold (print_params ps). lia. }
  rewrite Z.add_0_l, jcalls_app. destruct (decide (objs = [])) as [->|Ho].
  { exists 0%nat. done. }
  assert (0 < length objs)%nat by (destruct objs; [done|cbn; lia]). rewrite (proj2 (Z.eqb_neq _ _)) by lia.
  replace (Z.to_nat (PARAM_NUM - Z.of_nat (length objs))) with (5 - length objs)%nat by (unfold PARAM_NUM; lia).
  rewrite (prog_bind_step _ _ _ _ _ (nulls_ok _ _ _)), !tell_step, !jcalls_app.
  match goal with |- context [fix_loop fuel ?w1] => destruct (Hfix (p_calls w1)) as (r & Hr & Hr'); destruct (fix_loop_ok r fuel w1 Hr Hr') as (r' & _ & ->) end.
  exists r'. rewrite jcalls_app. do 2 f_equal. unfold prelude_calls, inserted_code, load_calls.
  rewrite !map_app, map_map, <- !app_assoc. reflexivity.
Qed.

End Methods.

(** Lists of calls without an insertion, and without the final write. *)
Lemma rounds_only r c : c ∈ rounds r → c = J_fix_offsets ∨ c = J_sync.
Proof.
  induction r as [|r IH]; [by intros ?%not_elem_of_nil|]. rewrite rounds_snoc.
  intros [->|[->|?]%elem_of_cons]%elem_of_cons; [by left|by right|auto].
Qed.

Lemma rounds_no_insert r i : J_insert i ∉ rounds r.
Proof. intros [?|?]%rounds_only; discriminate. Qed.

Lemma print_param_head p : ∃ c t, print_param p = c :: t ∧ c ≠ ")"%char.
Proof. destruct p as [[|n] [q|name]]; eexists _, _; (split; [reflexivity|]); try done. by destruct q. Qed.

Lemma instrument_any {E : jenv} fuel idx m ps w :
  wf_method m ps → settles fuel →
  runs (instrument_method fuel idx m) w (λ _ w', ∃ cs, p_calls w' = p_calls w ++ cs ∧ J_write ∉ cs).
Proof.
  intros Hm Hf. assert (∀ v : pstate unit jcall, ∃ cs, p_calls v = p_calls v ++ cs ∧ J_write ∉ cs) as Hnil.
  { intros v. exists []. split; [by rewrite app_nil_r|by intros ?%not_elem_of_nil]. }
  destruct (function_filtered (m_name m)) eqn:Hn.
  { eapply runs_done; [unfold instrument_method, insert_call; by rewrite Hn|apply Hnil]. }
  destruct (wf_second m ps w Hm) as (c & Hc1 & Hc2).
  destruct (decide (ps = [])) as [->|Hne].
  { eapply runs_done; [unfold instrument_method, insert_call; by rewrite Hn, (prog_bind_step _ _ _ _ _ Hc1), Hc2|apply Hnil]. }
  destruct (m_code m) as [max_stack|] eqn:Hc.
  - destruct (instrument_runs fuel idx m ps max_stack w Hm Hne Hc Hn Hf) as (r & Hr). eapply runs_done; [exact Hr|].
    eexists. split; [reflexivity|]. intros Hi. apply elem_of_app in Hi as [Hi|Hi]; [by repeat (apply elem_of_cons in Hi as [Hi|Hi]; [discriminate|]); apply not_elem_of_nil in Hi|].
    case_decide; [by apply not_elem_of_nil in Hi|]. apply elem_of_app in Hi as [(x & Hx & _)%list_elem_of_fmap|[Hi|Hi]%elem_of_cons]; [discriminate|discriminate|].
    apply elem_of_app in Hi as [[?|?]%rounds_only|Hi%list_elem_of_singleton]; discriminate.
  - eapply runs_done; [unfold instrument_method, insert_call; by rewrite Hn, (prog_bind_step _ _ _ _ _ Hc1), Hc2, bool_decide_false, tell_step, Hc|].
    exists [J_get_code]. split; [done|]. by intros ?%list_elem_of_singleton.
Qed.

Lemma instrument_methods_runs {E : jenv} fuel idx ms w :
  Forall (λ m, ∃ ps, wf_method m ps) ms → settles fuel →
  runs (instrument_methods fuel idx ms) w (λ _ w', ∃ cs, p_calls w' = p_calls w ++ cs ∧ J_write ∉ cs).
Proof.
  intros Hms Hf. revert w. induction Hms as [|m ms (ps & Hm) _ IH]; intros w; cbn [instrument_methods].
  { eapply runs_done; [reflexivity|]. exists []. split; [by rewrite app_nil_r|by intros ?%not_elem_of_nil]. }
  apply runs_bind. eapply runs_mono; [|by eapply instrument_any]. intros [] w1 (cs & Hw1 & Hc). cbn beta.
  eapply runs_mono; [|apply IH]. intros u w2 (ds & Hw2 & Hd). exists (cs ++ ds). split; [by rewrite Hw2, Hw1, <- app_assoc|].
  by intros [?|?]%elem_of_app.
Qed.

(** ** Properties *)

(** C19. On a method with parameters as the virtual machine allows them the
    agent inserts code that calls the prefetch method once, with the first five
    object parameters (the references and the arrays of references, each from
    its own local variable, where a [long] or a [double] takes two), padded
    with nulls, and with their number; the code leaves the stack as it found it
    and needs at most the six places the agent has added to [max_stack].  A
    method without object parameters gets no code. *)
Theorem prefetches_first_objects {E : jenv} fuel idx m ps max_stack w :
  wf_method m ps → ps ≠ [] → m_code m = Some max_stack → function_filtered (m_name m) = false → settles fuel →
  let objs := take 5 (object_slots (this_offset m) ps) in
  runs (instrument_method fuel idx m) w (λ _ w', ∃ code tail,
    p_calls w' = p_calls w ++ prelude_calls max_stack ++ map J_insert code ++ tail ∧
    (∀ i, J_insert i ∉ tail) ∧
    (objs = [] → code = []) ∧
    (objs ≠ [] → ∀ st, run_code code (mkJ st [] (length st)) = mkJ st [(idx, prefetch_args objs)] (length st + 6)) ∧
    Forall (λ k, 0 <= k < this_offset m + all_slots ps) objs).
Proof.
  intros Hm Hne Hc Hn Hf objs. destruct (instrument_runs fuel idx m ps max_stack w Hm Hne Hc Hn Hf) as (r & Hr).
  fold objs in Hr. assert (length objs <= 5)%nat by (unfold objs; rewrite length_take; lia).
  eapply runs_done; [exact Hr|]. destruct (decide (objs = [])) as [Ho|Ho].
  - exists [], []. split_and!; [done|by intros ? ?%not_elem_of_nil|done|done|by rewrite Ho].
  - exists (inserted_code idx objs), (J_sync :: rounds r ++ [J_fix_offsets]). split_and!; [done| |done| |].
    + intros i [?|Hi]%elem_of_cons; [done|]. apply elem_of_app in Hi as [Hi|Hi%list_elem_of_singleton]; [|done]. by eapply rounds_no_insert.
    + intros _ st. by apply run_inserted.
    + eapply Forall_impl; [apply Forall_take, (object_slots_range ps (this_offset m))|]. cbn. unfold this_offset. destruct (m_is_static m); lia.
Qed.

(** [static void f(long n, String[] a, int[] b, Object c)]: variables 2 and 4. *)
Definition quiet_library : jenv := {| je_methodref := 17; je_fix := λ _, false |}.
Definition demo_params : list jparam :=
  [mkParam 0 (JPrim Long); mkParam 1 (JClass (list_ascii_of_string "java/lang/String"));
   mkParam 1 (JPrim Int); mkParam 0 (JClass (list_ascii_of_string "A"))].
Definition demo_method : jmethod :=
  mkMethod "f" true (list_ascii_of_string "(J[Ljava/lang/String;[ILA;)V") (Some 3).
Definition jvm_start : pstate unit jcall := mkPstate tt [].

Lemma demo_wf : wf_method demo_method demo_params.
Proof.
  split; [by exists ["V"%char]|]. split; [|vm_compute; congruence].
  repeat constructor; cbn; try discriminate; intros H; repeat (apply elem_of_cons in H as [H|H]; [discriminate H|]); by apply not_elem_of_nil in H.
Qed.

Lemma quiet_settles : @settles quiet_library 1.
Proof. intros cs. exists 0%nat. split; [lia|reflexivity]. Qed.

Lemma prefetches_first_objects_witness :
  take 5 (object_slots (this_offset demo_method) demo_params) = [2; 4] ∧
  runs (@instrument_method quiet_library 1 17 demo_method) jvm_start (λ _ w', ∃ code tail,
    p_calls w' = prelude_calls 3 ++ map J_insert code ++ tail ∧
    j_calls (run_code code (mkJ [] [] 0)) = [(17, [VLocal 2; VLocal 4; VNull; VNull; VNull; VInt 2])]).
Proof.
  split; [reflexivity|].
  eapply runs_mono; [|apply (@prefetches_first_objects quiet_library 1 17 demo_method demo_params 3 jvm_start demo_wf);
    [discriminate|reflexivity|reflexivity|apply quiet_settles]].
  intros u w' (code & tail & H1 & _ & _ & H2 & _). exists code, tail. split; [exact H1|].
  specialize (H2 ltac:(discriminate) []). cbn [length] in H2. rewrite H2. reflexivity.
Defined.

(** C27. A class name without its semicolon makes the parser read behind the end
    of the descriptor: nothing compares the index with its length. *)
Theorem unterminated_name_overruns {E : jenv} fuel idx m ps name max_stack w :
  m_descriptor m = "("%char :: print_params ps ++ "L"%char :: name → ";"%char ∉ name →
  Forall wf_param ps → this_offset m + all_slots ps <= 255 → (length (object_slots (this_offset m) ps) < 5)%nat →
  m_code m = Some max_stack → function_filtered (m_name m) = false →
  instrument_method fuel idx m w = Fault OutOfBounds.
Proof.
  intros Hd Hn Hwf Hs Ho Hc Hname. unfold instrument_method, insert_call. rewrite Hname.
  assert (∃ c, char_at (m_descriptor m) 1 w = Done c w ∧ c ≠ ")"%char) as (c & Hc1 & Hc2).
  { rewrite Hd. destruct ps as [|p ps].
    - exists "L"%char. split; [|done]. by apply (char_at_app _ ["("%char] "L"%char name).
    - inversion_clear Hwf as [|? ? Hp _]. destruct (print_param_head p) as (c & t & Hpc & Hc'). exists c. split; [|done].
      rewrite print_params_cons, Hpc. by apply (char_at_app _ ["("%char] c ((t ++ print_params ps) ++ "L"%char :: name)). }
  rewrite (prog_bind_step _ _ _ _ _ Hc1), (proj2 (Ascii.eqb_neq _ _) Hc2), tell_step, Hc, !tell_step, !jcalls_app. cbv zeta.
  apply prog_bind_fault. pose proof (print_params_length ps Hwf). fold (this_offset m).
  apply (scan_params_off ps _ _ [] "("%char name (this_offset m) 0 0); try done.
  - rewrite Hd. cbn [length]. rewrite length_app. lia.
  - unfold this_offset. by destruct (m_is_static m).
  - by rewrite Z.add_0_r.
  - rewrite Z.add_0_r. unfold PARAM_NUM. lia.
Qed.

Lemma unterminated_name_overruns_witness :
  @instrument_method quiet_library 1 17 (mkMethod "f" true (list_ascii_of_string "(ILjava/lang") (Some 3)) jvm_start = Fault OutOfBounds.
Proof.
  apply (@unterminated_name_overruns quiet_library 1 17 _ [mkParam 0 (JPrim Int)] (list_ascii_of_string "java/lang") 3 jvm_start);
    [reflexivity| | |vm_compute; congruence|vm_compute; lia|reflexivity|reflexivity].
  - intros H. repeat (apply elem_of_cons in H as [H|H]; [discriminate H|]). by apply not_elem_of_nil in H.
  - repeat constructor.
Defined.

(** For a class all of whose methods have descriptors the virtual machine
    allows, the hook returns, and writes the class out once, at the end. *)
Theorem class_hook_runs {E : jenv} fuel ms w :
  Forall (λ m, ∃ ps, wf_method m ps) ms → settles fuel →
  runs (ClassFileLoadHook fuel ms) w (λ _ w', ∃ cs, p_calls w' = p_calls w ++ J_get_methodref :: cs ++ [J_write] ∧ J_write ∉ cs).
Proof.
  intros Hms Hf. unfold ClassFileLoadHook. apply runs_bind. eapply runs_done; [reflexivity|]. cbv beta.
  apply runs_bind. eapply runs_mono; [|by apply instrument_methods_runs]. intros [] w1 (cs & Hc & Hw). cbn beta.
  eapply runs_done; [reflexivity|]. exists cs. split; [|done]. cbn in Hc |- *. rewrite Hc. by rewrite <- !app_assoc.
Qed.

Lemma class_hook_runs_witness :
  runs (@ClassFileLoadHook quiet_library 1 [demo_method; demo_method]) jvm_start (λ _ w', last (p_calls w') = Some J_write).
Proof.
  eapply runs_mono; [|apply (@class_hook_runs quiet_library 1 [demo_method; demo_method] jvm_start);
    [repeat constructor; exists demo_params; apply demo_wf|apply quiet_settles]].
  intros u w' (cs & H & _). rewrite H. cbn [app p_calls jvm_start]. rewrite app_comm_cons. apply last_snoc.
Defined.
