(* ===== verification/JvmLoad.v ===== *)
(** * Loading the JVM agents

    [Agent_OnLoad] of the three agents of [src/jvmti]
    ([ClassInstrumentWithRescribo] and [ClassInstrument] have the same text but
    for the requested version, [MethodEntry] its own), the hook of
    [ClassInstrument], which prints the classes loaded so far, and the one of
    [MethodEntry], which prints the methods that are entered.

    The virtual machine is an environment: it gives the result of every call.
    The state is what the agent has registered with it. *)

From Stdlib Require Import Ascii String.
From S2P Require Import Prelude OctTypes Kernel Prog.

Inductive jevent := CLASS_FILE_LOAD_HOOK | METHOD_ENTRY | METHOD_EXIT.
Inductive capability :=
| can_generate_all_class_hook_events | can_get_bytecodes | can_get_constant_pool
| can_maintain_original_method_order | can_generate_method_entry_events
| can_generate_method_exit_events | can_access_local_variables.

#[export] Instance jevent_dec : EqDecision jevent.
Proof. solve_decision. Defined.

(** Events the machine reports, and events with a callback. *)
Record agent := mkAgent { enabled : list jevent; callbacks : list jevent }.
#[export] Instance agent_eta : Eta agent := λ a, mkAgent (enabled a) (callbacks a).

Inductive acall :=
| A_GetEnv | A_AddCapabilities (cs : list capability)
| A_SetEventNotificationMode (e : jevent) | A_SetEventCallbacks (es : list jevent)
| A_GetLoadedClasses | A_GetClassSignature (class : Z) | A_GetMethodName
| A_print (text : string) (args : list (list ascii)) | A_error (text : string) (code : Z).

(** [ae_env]: the result of [GetEnv] and the pointer after it; [ae_classes]: the
    result of [GetLoadedClasses] and the count it stored; [ae_signature],
    [ae_method]: the strings the calls stored, [None] where they failed and left
    the caller's variable as it was, uninitialised. *)
Class aenv := {
  ae_env : Z * option Z;
  ae_code : list acall → acall → Z;
  ae_classes : Z * Z;
  ae_signature : Z → option (list ascii);
  ae_method : option (list ascii * list ascii)
}.

Abbreviation AP := (prog agent acall).
Definition JNI_OK : Z := 0.
Definition JNI_ERR : Z := -1.

Section Agents.
Context {E : aenv}.
Implicit Types (w : pstate agent acall) (a : agent).

(** A failure is printed, and the agent goes on. *)
Definition get_jvmti : AP (option Z) :=
  r ← ask (λ _ _, ae_env) A_GetEnv;
  (if negb (r.1 =? JNI_OK) || bool_decide (r.2 = None)
   then tell (A_print "Unable to get access to JVMTI version 1.0 " []) else mret tt);;
  mret r.2.

Definition stored {A} (p : option A) : AP A := match p with Some a => mret a | None => crash BadPtr end.

Definition AddCapabilities (jvmti : option Z) (cs : list capability) : AP Z :=
  _ ← nonnull jvmti; ask ae_code (A_AddCapabilities cs).
Definition SetEventNotificationMode (jvmti : option Z) (e : jevent) : AP Z :=
  _ ← nonnull jvmti; r ← ask ae_code (A_SetEventNotificationMode e);
  (if r =? JNI_OK then update (λ a, a <| enabled ::= (e ::.) |>) else mret tt);; mret r.
Definition SetEventCallbacks (jvmti : option Z) (es : list jevent) : AP Z :=
  _ ← nonnull jvmti; r ← ask ae_code (A_SetEventCallbacks es);
  (if r =? JNI_OK then update (λ a, a <| callbacks := es |>) else mret tt);; mret r.

Definition instrument_capabilities : list capability :=
  [can_generate_all_class_hook_events; can_get_bytecodes; can_get_constant_pool; can_maintain_original_method_order].

Definition instrument_Agent_OnLoad : AP Z :=
  jvmti ← get_jvmti;
  error ← AddCapabilities jvmti instrument_capabilities;
  if negb (error =? JNI_OK) then mret JNI_ERR
  else
    error ← SetEventNotificationMode jvmti CLASS_FILE_LOAD_HOOK;
    if negb (error =? JNI_OK) then mret JNI_ERR
    else
      error ← SetEventCallbacks jvmti [CLASS_FILE_LOAD_HOOK];
      if negb (error =? JNI_OK) then mret JNI_ERR else mret JNI_OK.

Definition entry_capabilities : list capability :=
  [can_get_bytecodes; can_get_constant_pool; can_generate_method_entry_events;
   can_generate_method_exit_events; can_access_local_variables].

(** [MethodEntry]: the result of [AddCapabilities] is not looked at. *)
Definition entry_Agent_OnLoad : AP Z :=
  jvmti ← get_jvmti;
  _ ← AddCapabilities jvmti entry_capabilities;
  error ← SetEventCallbacks jvmti [METHOD_ENTRY];
  if negb (error =? JNI_OK) then mret JNI_ERR
  else
    error ← SetEventNotificationMode jvmti METHOD_ENTRY;
    if negb (error =? JNI_OK) then mret JNI_ERR
    else
      error ← SetEventNotificationMode jvmti METHOD_EXIT;
      if negb (error =? JNI_OK) then mret JNI_ERR else mret JNI_OK.

(** The hook of [ClassInstrument]; [error] keeps the result of the first call. *)
Definition print_class (error i : Z) : AP bool :=
  _ ← ask ae_code (A_GetClassSignature i);
  (if negb (error =? JNI_OK) then tell (A_error "ERROR: JVMTI GetClassSignature failed, error code %d !" error) else mret tt);;
  sig ← stored (ae_signature i); tell (A_print "get class signature : %s " [sig]);; mret true.
Definition print_ClassFileLoadHook : AP unit :=
  r ← ask (λ _ _, ae_classes) A_GetLoadedClasses; let '(error, count) := r in
  (if negb (error =? JNI_OK) then tell (A_error "ERROR: JVMTI GetLoadedClasses failed, error code %d ! " error) else mret tt);;
  pfor (Z.to_nat count) 0 (print_class error).

(** The hook of [MethodEntry]: methods without parameters are passed over. *)
Definition MethodEntry : AP unit :=
  m ← ask (λ _ _, ae_method) A_GetMethodName; r ← stored m;
  c ← inside (arr_get r.2 1);
  if Ascii.eqb c ")" then mret tt
  else tell (A_print "Method Entry NAME:%s SIG:%s entered ==>" [r.1; r.2]).

(** ** What loading leaves *)

Lemma get_jvmti_ok w : ∃ cs, get_jvmti w = Done ae_env.2 (mkPstate (p_data w) cs).
Proof.
  unfold get_jvmti. erewrite prog_bind_step by reflexivity. cbv beta.
  destruct (negb _ || _); eexists; (erewrite prog_bind_step by reflexivity); reflexivity.
Qed.

(** The last call made is one the machine refused. *)
Definition refused (w : pstate agent acall) : Prop :=
  ∃ cs c, p_calls w = cs ++ [c] ∧ ae_code cs c ≠ JNI_OK.

Definition reports (expected : agent) (r : Z) (w : pstate agent acall) : Prop :=
  r = JNI_OK ∧ p_data w = expected ∨ r = JNI_ERR ∧ refused w.

(** One call whose failure ends the agent, and what its success leaves. *)
Lemma run_mode j e (k : Z → AP Z) (w : pstate agent acall) expected :
  runs (k JNI_OK) (mkPstate ((p_data w) <| enabled ::= (e ::.) |>) (p_calls w ++ [A_SetEventNotificationMode e])) (reports expected) →
  (∀ r, r ≠ JNI_OK → k r = mret JNI_ERR) → runs (SetEventNotificationMode (Some j) e ≫= k) w (reports expected).
Proof.
  intros Hk Hf. apply runs_bind. unfold SetEventNotificationMode, runs. erewrite prog_bind_step by reflexivity.
  erewrite prog_bind_step by reflexivity. cbv beta. destruct (Z.eqb_spec (ae_code (p_calls w) (A_SetEventNotificationMode e)) JNI_OK) as [Hr|Hr].
  - rewrite Hr. by eexists _, _.
  - eexists _, _. split; [reflexivity|]. rewrite Hf by done. eexists _, _. split; [reflexivity|].
    right. split; [done|]. by eexists _, _.
Qed.

Lemma run_callbacks j es (k : Z → AP Z) (w : pstate agent acall) expected :
  runs (k JNI_OK) (mkPstate ((p_data w) <| callbacks := es |>) (p_calls w ++ [A_SetEventCallbacks es])) (reports expected) →
  (∀ r, r ≠ JNI_OK → k r = mret JNI_ERR) → runs (SetEventCallbacks (Some j) es ≫= k) w (reports expected).
Proof.
  intros Hk Hf. apply runs_bind. unfold SetEventCallbacks, runs. erewrite prog_bind_step by reflexivity.
  erewrite prog_bind_step by reflexivity. cbv beta. destruct (Z.eqb_spec (ae_code (p_calls w) (A_SetEventCallbacks es)) JNI_OK) as [Hr|Hr].
  - rewrite Hr. by eexists _, _.
  - eexists _, _. split; [reflexivity|]. rewrite Hf by done. eexists _, _. split; [reflexivity|].
    right. split; [done|]. by eexists _, _.
Qed.

Lemma failed_returns {r} (m : AP Z) : r ≠ JNI_OK → (if negb (r =? JNI_OK) then mret JNI_ERR else m) = mret JNI_ERR.
Proof. intros Hr. by rewrite (proj2 (Z.eqb_neq _ _) Hr). Qed.

Lemma report_ok expected w : p_data w = expected → runs (mret JNI_OK) w (reports expected).
Proof. intros H. eexists _, _. split; [reflexivity|by left]. Qed.

End Agents.

(** ** Properties *)

(** With an environment the instrumenting agents always return: with
    success, and then the class-file event is reported and has its callback, or
    with an error, and then the last request they made is one the machine
    refused. *)
Theorem instrument_load_reports {E : aenv} j w :
  ae_env.2 = Some j →
  runs instrument_Agent_OnLoad w (reports (mkAgent (CLASS_FILE_LOAD_HOOK :: enabled (p_data w)) [CLASS_FILE_LOAD_HOOK])).
Proof.
  intros Hj. unfold instrument_Agent_OnLoad. destruct (get_jvmti_ok w) as (cs & Hw). apply runs_bind. eapply runs_done; [exact Hw|].
  rewrite Hj. cbv beta. apply runs_bind. eapply runs_done; [reflexivity|]. cbv beta.
  match goal with |- context [negb (?r =? JNI_OK)] => destruct (Z.eqb_spec r JNI_OK) as [Hr|Hr] end; cbn [negb].
  - apply run_mode; [|intros r; apply failed_returns]. apply run_callbacks; [|intros r; apply failed_returns].
    apply report_ok. by destruct w as [[? ?] ?].
  - eexists _, _. split; [reflexivity|]. right. split; [done|]. by eexists _, _.
Qed.

(** [MethodEntry] does not look at the result of [AddCapabilities]: it
    reports success as soon as the machine took the three requests after it,
    and leaves the exit event reported although it has no callback. *)
Theorem entry_load_reports {E : aenv} j w :
  ae_env.2 = Some j →
  runs entry_Agent_OnLoad w (reports (mkAgent (METHOD_EXIT :: METHOD_ENTRY :: enabled (p_data w)) [METHOD_ENTRY])) ∧
  ((∀ cs c, (∀ caps, c ≠ A_AddCapabilities caps) → ae_code cs c = JNI_OK) → runs entry_Agent_OnLoad w (λ r _, r = JNI_OK)).
Proof.
  intros Hj. assert (runs entry_Agent_OnLoad w (reports (mkAgent (METHOD_EXIT :: METHOD_ENTRY :: enabled (p_data w)) [METHOD_ENTRY]))) as Hr.
  { unfold entry_Agent_OnLoad. destruct (get_jvmti_ok w) as (cs & Hw). apply runs_bind. eapply runs_done; [exact Hw|].
    rewrite Hj. cbv beta. apply runs_bind. eapply runs_done; [reflexivity|]. cbv beta.
    apply run_callbacks; [|intros r; apply failed_returns]. apply run_mode; [|intros r; apply failed_returns].
    apply run_mode; [|intros r; apply failed_returns]. apply report_ok. by destruct w as [[? ?] ?]. }
  split; [exact Hr|]. intros Hok. unfold entry_Agent_OnLoad. destruct (get_jvmti_ok w) as (cs & Hw).
  apply runs_bind. eapply runs_done; [exact Hw|]. rewrite Hj. cbv beta. apply runs_bind. eapply runs_done; [reflexivity|]. cbv beta.
  apply runs_bind. eapply runs_done; [unfold SetEventCallbacks; do 2 (erewrite prog_bind_step by reflexivity); cbv beta; rewrite Hok by done; reflexivity|].
  cbv beta. cbn [Z.eqb negb JNI_OK]. apply runs_bind.
  eapply runs_done; [unfold SetEventNotificationMode; do 2 (erewrite prog_bind_step by reflexivity); cbv beta; rewrite Hok by done; reflexivity|].
  cbv beta. cbn [Z.eqb negb JNI_OK]. apply runs_bind.
  eapply runs_done; [unfold SetEventNotificationMode; do 2 (erewrite prog_bind_step by reflexivity); cbv beta; rewrite Hok by done; reflexivity|].
  by eapply runs_done.
Qed.

(** Without an environment the agents print that, and then call through the
    null pointer. *)
Theorem no_environment_faults {E : aenv} w :
  ae_env.2 = None → instrument_Agent_OnLoad w = Fault NullDeref ∧ entry_Agent_OnLoad w = Fault NullDeref.
Proof.
  intros Hn. destruct (get_jvmti_ok w) as (cs & Hw). rewrite Hn in Hw. unfold instrument_Agent_OnLoad, entry_Agent_OnLoad.
  by rewrite !(prog_bind_step _ _ _ _ _ Hw).
Qed.

(** The hook of [ClassInstrument] tests the result of [GetLoadedClasses]
    again where it means the one of [GetClassSignature]: when the first call
    succeeded and the second fails for a class, no error is printed, and the
    string that was never stored is read. *)
Theorem signature_error_unseen {E : aenv} count i w :
  ae_classes = (JNI_OK, count) → 0 <= i < count → (∀ k, 0 <= k < i → ae_signature k ≠ None) → ae_signature i = None →
  print_ClassFileLoadHook w = Fault BadPtr.
Proof.
  intros Hc Hi Hk Hn. unfold print_ClassFileLoadHook. erewrite prog_bind_step by reflexivity. cbv beta. rewrite Hc.
  cbn [Z.eqb negb JNI_OK]. erewrite prog_bind_step by reflexivity.
  assert (∀ n j w, 0 <= j <= i → i < j + Z.of_nat n → pfor n j (print_class 0) w = Fault BadPtr) as Hloop.
  { induction n as [|n IH]; intros j v Hj Hl; [lia|]. destruct (decide (j = i)) as [->|Hne].
    - apply pfor_fault. unfold print_class. erewrite prog_bind_step by reflexivity. cbn [Z.eqb negb JNI_OK].
      erewrite prog_bind_step by reflexivity. by rewrite Hn.
    - destruct (ae_signature j) as [sig|] eqn:Hs; [|by destruct (Hk j ltac:(lia))].
      erewrite pfor_go by (unfold print_class; erewrite prog_bind_step by reflexivity; cbn [Z.eqb negb JNI_OK];
        erewrite prog_bind_step by reflexivity; rewrite Hs; reflexivity).
      apply IH; lia. }
  apply Hloop; lia.
Qed.

Definition willing : aenv :=
  {| ae_env := (0, Some 1); ae_code := λ _ c, match c with A_AddCapabilities _ => 98 | _ => 0 end; ae_classes := (0, 2);
     ae_signature := λ i, if i =? 0 then Some [] else None; ae_method := None |}.
Definition agent_start : pstate agent acall := mkPstate (mkAgent [] []) [].

Lemma instrument_load_reports_witness :
  runs (@instrument_Agent_OnLoad willing) agent_start (λ r _, r = JNI_ERR ∨ r = JNI_OK).
Proof.
  eapply runs_mono; [|apply (@instrument_load_reports willing 1 agent_start eq_refl)].
  intros r w' [[? _]|[? _]]; [by right|by left].
Defined.

Lemma entry_load_reports_witness : runs (@entry_Agent_OnLoad willing) agent_start (λ r _, r = JNI_OK).
Proof.
  apply (@entry_load_reports willing 1 agent_start eq_refl).
  intros cs [| | | | | | | |]; try done. intros H. by destruct (H cs0).
Defined.

Lemma no_environment_faults_witness :
  @instrument_Agent_OnLoad {| ae_env := (-2, None); ae_code := λ _ _, 0; ae_classes := (0, 0); ae_signature := λ _, None; ae_method := None |}
    agent_start = Fault NullDeref.
Proof.
  apply (@no_environment_faults {| ae_env := (-2, None); ae_code := λ _ _, 0; ae_classes := (0, 0); ae_signature := λ _, None; ae_method := None |}).
  reflexivity.
Defined.

Lemma signature_error_unseen_witness : @print_ClassFileLoadHook willing agent_start = Fault BadPtr.
Proof.
  apply (@signature_error_unseen willing 2 1 agent_start); [reflexivity|lia| |reflexivity].
  intros k Hk. assert (k = 0) as -> by lia. discriminate.
Defined.
