(* ===== verification/Clocks.v ===== *)
(** * Timers, clocks and small kernel modules

    The modules of [src/Kernel-dev] that measure time, and those that only
    print: [rdtsc_clock.c], [hrtimer_test.c], [monotonic_clock.c] with its
    header, [extra_functions.c], [use_external_symbol.c], [fs_get_dev.c],
    [kernel_version_utsname.c] and the program [kernel_version_macro.c].

    The two timer modules start a one-shot timer in [timer_init]; its handler
    runs in an interrupt, between any two of their later steps.  A module is an
    instance of [tmodule]: its code up to [hrtimer_start], the rest of
    [timer_init], and the handler; [tstep] is the life of a module with its
    timer, driven by [event]s, each with the clock as read at that moment.

    Shown: which orders of events exist, and that the only one that faults is
    the expiry of a timer whose module was removed; that the counter's
    differences are the cycles that passed, across its wrap-around too; when
    the difference of nanoseconds is the time that passed. *)

From Stdlib Require Import String Floats.SpecFloat.
From S2P Require Import Prelude Kernel.

(** What [printk] and [printf] are called with. *)
Inductive karg := KN (n : Z) | KS (s : string) | KF (x : spec_float).
Definition kmsg : Type := string * list karg.

(** ** The life of a module with a timer *)

(** [D]: the module's variables; [R]: a reading of its clock. *)
Class tmodule (D R : Type) := {
  tm_zero : D;
  tm_before : R → D → D * list kmsg;   (* [timer_init] up to [hrtimer_start] *)
  tm_after : R → D → D * list kmsg;    (* the rest of [timer_init] *)
  tm_expired : R → D → D * list kmsg;  (* [hr_timer_expired] *)
  tm_exit : list kmsg                  (* [timer_exit] *)
}.

Inductive phase := Out | Starting | Running | Gone.
#[export] Instance phase_eq_dec : EqDecision phase.
Proof. solve_decision. Defined.

Record tstate (D : Type) := mkT { t_phase : phase; t_armed : bool; t_data : D; t_log : list kmsg }.
Arguments mkT {D} _ _ _ _.
Arguments t_phase {D} _.
Arguments t_armed {D} _.
Arguments t_data {D} _.
Arguments t_log {D} _.

(** [Insert] runs [timer_init] up to and with [hrtimer_start], [Started] the
    rest of it. *)
Inductive event (R : Type) := Insert (r : R) | Started (r : R) | Expire (r : R) | Remove.
Arguments Insert {R} r.
Arguments Started {R} r.
Arguments Expire {R} r.
Arguments Remove {R}.

Inductive tres (D : Type) := Next (s : tstate D) | Crash (f : fault) | Disabled.
Arguments Next {D} s.
Arguments Crash {D} f.
Arguments Disabled {D}.

Section Life.
Context {D R : Type} {M : tmodule D R}.

Definition tinit : tstate D := mkT Out false tm_zero [].

(** The code of a phase runs on the module's variables. *)
Definition trun_code (code : D → D * list kmsg) (ph : phase) (armed : bool) (s : tstate D) : tstate D :=
  let '(d, msgs) := code (t_data s) in mkT ph armed d (t_log s ++ msgs).

Definition tstep (e : event R) (s : tstate D) : tres D :=
  match e with
  | Insert r =>
      if decide (t_phase s = Out) then Next (trun_code (tm_before r) Starting true s) else Disabled
  | Started r =>
      if decide (t_phase s = Starting) then Next (trun_code (tm_after r) Running (t_armed s) s) else Disabled
  | Expire r =>
      if t_armed s then
        (* the handler is code of the module *)
        if decide (t_phase s = Gone) then Crash UseAfterFree
        (* HRTIMER_NORESTART *)
        else Next (trun_code (tm_expired r) (t_phase s) false s)
      else Disabled
  | Remove =>
      (* timer_exit leaves the timer as it is *)
      if decide (t_phase s = Running) then Next (mkT Gone (t_armed s) (t_data s) (t_log s ++ tm_exit)) else Disabled
  end.

Fixpoint trun (es : list (event R)) (s : tstate D) : tres D :=
  match es with
  | [] => Next s
  | e :: es =>
      match tstep e s with
      | Next s => trun es s
      | Crash f => match es with [] => Crash f | _ :: _ => Disabled end
      | Disabled => Disabled
      end
  end.

End Life.

(** ** The time-stamp counter *)

(** [edx] and [eax] after [RDTSC] or [RDTSCP]. *)
Record cycles := mkCycles { c_high : Z; c_low : Z }.
Definition tsc (c : Z) : cycles := mkCycles (u32 (Z.shiftr c 32)) (u32 c).

(** [(((uint64_t)high << 32) | low)] *)
Definition count64 (c : cycles) : Z := Z.lor (u64 (Z.shiftl (c_high c) 32)) (c_low c).
Definition lat_message (start stop : cycles) : kmsg := ("init lat = %llu cycles "%string, [KN (u64 (count64 stop - count64 start))]).
Definition init_message : kmsg := ("%s, Init self build kernel "%string, [KS "timer_init"]).
Definition exit_message : kmsg := ("Exit self build kernel "%string, []).

(** *** [rdtsc_clock.c] *)

(** [timer_init] with the counter read before and after the delay. *)
Definition rdtsc_timer_init (before after : cycles) : list kmsg := [init_message; lat_message before after].
Definition rdtsc_timer_exit : list kmsg := [exit_message].

(** *** [hrtimer_test.c] *)

Record hrt := mkHrt { cycles_0 : cycles; cycles_mid : cycles; cycles_1 : cycles }.

Definition hrt_before (r : cycles) (d : hrt) : hrt * list kmsg := (mkHrt r (cycles_mid d) (cycles_1 d), [init_message]).
Definition hrt_after (r : cycles) (d : hrt) : hrt * list kmsg :=
  (mkHrt (cycles_0 d) r (cycles_1 d), [lat_message (cycles_0 d) r]).
Definition hrt_expired (r : cycles) (d : hrt) : hrt * list kmsg :=
  (mkHrt (cycles_0 d) (cycles_mid d) r, [(" High-Resolution Timer expired. "%string, []); lat_message (cycles_0 d) r]).
Definition hrt_exit : list kmsg := [exit_message].

#[export] Instance hrtimer_test : tmodule hrt cycles := {|
  tm_zero := mkHrt (mkCycles 0 0) (mkCycles 0 0) (mkCycles 0 0);
  tm_before := hrt_before; tm_after := hrt_after; tm_expired := hrt_expired; tm_exit := hrt_exit |}.

(** ** The raw monotonic clock *)

Record timespec := mkTimespec { tv_sec : Z; tv_nsec : Z }.

(** What [getrawmonotonic] stores: less than a second of nanoseconds. *)
Definition timespec_ok (t : timespec) : Prop := 0 <= tv_sec t ∧ 0 <= tv_nsec t < 1000000000.
Definition nanoseconds (t : timespec) : Z := 1000000000 * tv_sec t + tv_nsec t.

(** [timer_end], with what [getrawmonotonic] stores in [end_time]; a [long]. *)
Definition timer_end (end_time start_time : timespec) : Z := tv_nsec end_time - tv_nsec start_time.
Definition timer_start (start_time : timespec) : timespec := start_time.

Definition mono_before (_ : timespec) (d : timespec) : timespec * list kmsg := (d, [init_message]).
Definition mono_after (r : timespec) (_ : timespec) : timespec * list kmsg := (timer_start r, []).
(** The [long] is printed with [%lu]. *)
Definition mono_expired (r : timespec) (d : timespec) : timespec * list kmsg :=
  (d, [(" High-Resolution Timer expired at time %lu ns. "%string, [KN (u64 (timer_end r d))])]).
Definition mono_exit : list kmsg := [exit_message].

#[export] Instance monotonic_clock : tmodule timespec timespec := {|
  tm_zero := mkTimespec 0 0;
  tm_before := mono_before; tm_after := mono_after; tm_expired := mono_expired; tm_exit := mono_exit |}.

(** ** Modules that print *)

(** [extra_functions.c] exports [print_int_num]; [use_external_symbol.c]
    calls it. *)
Definition print_int_num (num : Z) : Z * list kmsg := (num, [(" Input number is : %d "%string, [KN num])]).
Definition provider_init : Z * list kmsg :=
  (0, (" Provide self defined kernel module function "%string, []) :: (print_int_num 77).2).
Definition provider_exit : list kmsg := [("Delete extra_function module "%string, [])].
Definition user_init : Z * list kmsg :=
  (0, (" Invoke external functions from other modules "%string, []) :: (print_int_num 77).2).
Definition user_exit : list kmsg := [("Delete use_external_symbol module "%string, [])].

(** [fs_get_dev.c] *)
Definition get_dev_init : Z * list kmsg := (0, [("Init self build kernel "%string, [])]).
Definition get_dev_exit : list kmsg := [exit_message].

(** [kernel_version_utsname.c], with the fields of [utsname()]. *)
Definition utsname_init (version release : string) : Z * list kmsg :=
  (0, [("Kernel version %s "%string, [KS version]); ("Kernel release %s "%string, [KS release])]).
Definition utsname_exit : list kmsg := [("%s, exit module "%string, [KS "kernel_version_utsname_eixt"])].

(** [kernel_version_macro.c]; the two macros come from the kernel's headers. *)
Section Version.
Context (KERNEL_VERSION : Z → Z → Z → Z) (LINUX_VERSION_CODE : Z).

Definition version_macro : Z * list kmsg :=
  let cur_kernel_code := u32 LINUX_VERSION_CODE in
  let low_8_bits := Z.shiftl 1 8 - 1 in
  (0, [("the value of KERNEL_VERSION(4,5,0) is %d "%string, [KN (KERNEL_VERSION 4 5 0)]);
       ("Current kernel version code is %u , %u, %u, %u "%string,
        [KN cur_kernel_code; KN (Z.land (Z.shiftr cur_kernel_code 16) low_8_bits);
         KN (Z.land (Z.shiftr cur_kernel_code 8) low_8_bits); KN (Z.land cur_kernel_code low_8_bits)])]).

End Version.

(** ** Properties of the life of a timer module *)

(** The skeleton of a module: its life without variables and messages. *)
Definition skeleton {R} : tmodule unit R := {|
  tm_zero := tt; tm_before := λ _ _, (tt, []); tm_after := λ _ _, (tt, []); tm_expired := λ _ _, (tt, []); tm_exit := [] |}.

Definition bare {D} (s : tstate D) : tstate unit := mkT (t_phase s) (t_armed s) tt [].
Definition bare_res {D} (x : tres D) : tres unit :=
  match x with Next s => Next (bare s) | Crash f => Crash f | Disabled => Disabled end.

Section Traces.
Context {D R : Type} {M : tmodule D R}.
Implicit Types (es : list (event R)) (s : tstate D).

Lemma bare_code code ph armed s : bare (trun_code code ph armed s) = mkT ph armed tt [].
Proof. unfold trun_code. by destruct (code _). Qed.

Lemma tstep_bare e s : bare_res (tstep e s) = tstep (M := skeleton) e (bare s).
Proof.
  destruct e; cbn [tstep bare t_phase t_armed]; repeat case_match; cbn [bare_res]; try done; by rewrite bare_code.
Qed.

(** Which orders of events exist, and which fault, does not depend on what the
    module does. *)
Lemma trun_bare es s : bare_res (trun es s) = trun (M := skeleton) es (bare s).
Proof.
  induction es as [|e es IH] in s |- *; [done|]. cbn [trun]. rewrite <- tstep_bare.
  destruct (tstep e s) as [s'| |]; cbn [bare_res]; [apply IH|by destruct es|done].
Qed.

Definition bare_init : tstate unit := mkT Out false tt [].
Lemma bare_init_eq : bare_init = bare (tinit (M := M)).
Proof. reflexivity. Qed.

(** The complete orders that do not fault. *)
Inductive order : list (event R) → Prop :=
| order_none : order []
| order_insert a : order [Insert a]
| order_started a b : order [Insert a; Started b]
| order_early a c : order [Insert a; Expire c]
| order_late a b c : order [Insert a; Started b; Expire c]
| order_early_started a b c : order [Insert a; Expire c; Started b]
| order_removed a b : order [Insert a; Started b; Remove]
| order_late_removed a b c : order [Insert a; Started b; Expire c; Remove]
| order_early_removed a b c : order [Insert a; Expire c; Started b; Remove].
#[local] Hint Constructors order : core.

(** The next event of a skeleton: [H] excludes those that are disabled. *)
Ltac next_event es H :=
  destruct es as [|[?|?|?|] es]; [first [by auto|right; by do 3 eexists]|..]; try (exfalso; by apply H).

(** The timer fires at most once and nothing else repeats: an execution has
    one of nine orders, or is the one that faults. *)
Lemma trun_orders es :
  trun es tinit ≠ Disabled → order es ∨ ∃ a b c, es = [Insert a; Started b; Remove; Expire c].
Proof.
  intros H. assert (trun (M := skeleton) es bare_init ≠ Disabled) as Hb.
  { rewrite bare_init_eq, <- trun_bare. by destruct (trun es tinit). }
  clear H. next_event es Hb. next_event es Hb; next_event es Hb; next_event es Hb; next_event es Hb.
Qed.

Lemma order_runs es : order es → ∃ s, trun es tinit = Next s.
Proof.
  intros Ho. assert (∃ u, trun (M := skeleton) es bare_init = Next u) as [u Hu] by (destruct Ho; by eexists).
  pose proof (trun_bare es (tinit (M := M))) as H. rewrite <- bare_init_eq in H.
  rewrite Hu in H. destruct (trun es tinit); [by eexists|done..].
Qed.

(** A timer module faults in one order only: its module is removed before the
    timer expires, which [timer_exit] does not cancel. *)
Theorem timer_fault_iff es f :
  trun es tinit = Crash f ↔ f = UseAfterFree ∧ ∃ a b c, es = [Insert a; Started b; Remove; Expire c].
Proof.
  split.
  - intros H. destruct (trun_orders es) as [Ho|(a & b & c & ->)]; [congruence| |].
    + destruct (order_runs es Ho). congruence.
    + split; [|by do 3 eexists]. pose proof (trun_bare [Insert a; Started b; Remove; Expire c] (tinit (M := M))) as Hb.
      rewrite H in Hb. by injection Hb.
  - intros (-> & a & b & c & ->). pose proof (trun_bare [Insert a; Started b; Remove; Expire c] (tinit (M := M))) as Hb.
    destruct (trun _ _); try done. by injection Hb as ->.
Qed.

End Traces.

(** ** Properties of the counter *)

Lemma count64_tsc c : 0 <= c < 2 ^ 64 → count64 (tsc c) = c.
Proof.
  intros Hc. unfold count64, tsc. cbn [c_high c_low]. rewrite shiftr_div by lia.
  rewrite (u32_id (c / 2 ^ 32)) by dlia.
  rewrite (u64_id (Z.shiftl _ _)) by (rewrite shiftl_mul by lia; dlia).
  rewrite lor_shiftl_add; [unfold u32; dlia|lia|apply u32_range].
Qed.

(** [n] cycles after [c] the 64-bit counter has the value [u64 (c + n)], and
    the message shows [n], across a wrap-around too. *)
Lemma lat_message_cycles c n :
  0 <= c < 2 ^ 64 → 0 <= n < 2 ^ 64 →
  lat_message (tsc c) (tsc (u64 (c + n))) = ("init lat = %llu cycles "%string, [KN n]).
Proof.
  intros Hc Hn. unfold lat_message. rewrite !count64_tsc by (done || apply u64_range).
  unfold u64. by rewrite Zminus_mod_idemp_l, Z.add_simpl_l, Z.mod_small.
Qed.

Lemma rdtsc_prints c n :
  0 <= c < 2 ^ 64 → 0 <= n < 2 ^ 64 →
  rdtsc_timer_init (tsc c) (tsc (u64 (c + n))) = [init_message; ("init lat = %llu cycles "%string, [KN n])].
Proof. intros Hc Hn. unfold rdtsc_timer_init. by rewrite lat_message_cycles. Qed.

(** [hrtimer_test.c] shows the cycles from before [hrtimer_start] to the end
    of [timer_init] and to the expiry, whichever comes first. *)
Theorem hrtimer_latencies c n k :
  0 <= c < 2 ^ 64 → 0 <= n < 2 ^ 64 → 0 <= k < 2 ^ 64 →
  let started := ("init lat = %llu cycles "%string, [KN n]) in
  let expired := [(" High-Resolution Timer expired. "%string, []); ("init lat = %llu cycles "%string, [KN k])] in
  let i := Insert (tsc c) in let s := Started (tsc (u64 (c + n))) in let e := Expire (tsc (u64 (c + k))) in
  (∃ d, trun [i; s; e] tinit = Next (mkT Running false d (init_message :: started :: expired))) ∧
  (∃ d, trun [i; e; s] tinit = Next (mkT Running false d (init_message :: expired ++ [started]))).
Proof.
  intros Hc Hn Hk started expired i s e. subst started expired i s e.
  rewrite <- (lat_message_cycles c n Hc Hn), <- (lat_message_cycles c k Hc Hk). split; by eexists.
Qed.

(** ** Properties of the monotonic clock *)

Lemma timespec_order s t : timespec_ok s → timespec_ok t → nanoseconds s <= nanoseconds t → tv_sec s <= tv_sec t.
Proof. unfold timespec_ok, nanoseconds. lia. Qed.

(** When the timer expires after [start_time] is set, the handler shows the
    time that passed exactly if both readings are in the same second: the
    seconds are left out of the difference, and a negative one is shown as
    an unsigned number. *)
Theorem monotonic_elapsed_iff i start stop :
  timespec_ok start → timespec_ok stop → nanoseconds start <= nanoseconds stop →
  ∃ shown, trun [Insert i; Started start; Expire stop] tinit =
      Next (mkT Running false start [init_message; (" High-Resolution Timer expired at time %lu ns. "%string, [KN shown])]) ∧
    (shown = nanoseconds stop - nanoseconds start ↔ tv_sec stop = tv_sec start) ∧
    (tv_nsec stop < tv_nsec start → 2 ^ 64 - 1000000000 < shown).
Proof.
  intros Hs Ht Hle. exists (u64 (timer_end stop start)). split; [reflexivity|].
  pose proof (timespec_order _ _ Hs Ht Hle) as Hsec. unfold timespec_ok, nanoseconds, timer_end, u64 in *.
  split; [split; intros H|]; dlia.
Qed.

(** The timer can expire before [start_time] is set: the handler then shows
    the nanoseconds of the clock itself. *)
Lemma monotonic_early i start stop :
  timespec_ok stop →
  trun [Insert i; Expire stop; Started start] tinit =
    Next (mkT Running false start
      [init_message; (" High-Resolution Timer expired at time %lu ns. "%string, [KN (tv_nsec stop)])]).
Proof.
  intros [_ Hs]. enough (u64 (timer_end stop tm_zero) = tv_nsec stop) as H by (rewrite <- H; reflexivity).
  unfold timer_end. cbn [tm_zero monotonic_clock tv_nsec]. rewrite Z.sub_0_r. apply u64_id. lia.
Qed.

(** ** The version code *)

(** The kernel's headers put the three numbers of a version into 8 bits each
    (16 for the first); the program prints them back. *)
Lemma version_macro_decodes (KV : Z → Z → Z → Z) a b c :
  (∀ a b c, 0 <= c < 256 → KV a b c = a * 65536 + b * 256 + c) →
  0 <= a < 256 → 0 <= b < 256 → 0 <= c < 256 →
  (version_macro KV (KV a b c)).2 =
    [("the value of KERNEL_VERSION(4,5,0) is %d "%string, [KN 263424]);
     ("Current kernel version code is %u , %u, %u, %u "%string, [KN (KV a b c); KN a; KN b; KN c])].
Proof.
  intros Hv Ha Hb Hc. unfold version_macro. cbn [snd]. change (Z.shiftl 1 8 - 1) with (2 ^ 8 - 1).
  rewrite !land_mask, !shiftr_div, !Hv by lia. rewrite u32_id by lia. repeat f_equal; dlia.
Qed.

(** ** Witnesses *)

Lemma hrtimer_latencies_witness :
  ∃ d, trun [Insert (tsc (2 ^ 64 - 1)); Started (tsc 9); Expire (tsc 30)] tinit =
    Next (mkT Running false d [init_message; ("init lat = %llu cycles "%string, [KN 10]);
      (" High-Resolution Timer expired. "%string, []); ("init lat = %llu cycles "%string, [KN 31])]).
Proof. exact (proj1 (hrtimer_latencies (2 ^ 64 - 1) 10 31 ltac:(lia) ltac:(lia) ltac:(lia))). Defined.

Lemma monotonic_elapsed_iff_witness :
  ∃ shown, trun [Insert (mkTimespec 0 0); Started (mkTimespec 7 999999000); Expire (mkTimespec 8 9000)] tinit =
      Next (mkT Running false (mkTimespec 7 999999000)
        [init_message; (" High-Resolution Timer expired at time %lu ns. "%string, [KN shown])]) ∧
    2 ^ 64 - 1000000000 < shown.
Proof.
  destruct (monotonic_elapsed_iff (mkTimespec 0 0) (mkTimespec 7 999999000) (mkTimespec 8 9000)) as (x & H & _ & Hn).
  1, 2: by vm_compute. 1: by vm_compute.
  exists x. split; [exact H|]. apply Hn. reflexivity.
Defined.
