(* ===== verification/Layout.v ===== *)
(** * Where the fields of a structure lie

    Samples of [src/c-test] print sizes and offsets: [macros/field_offset.c],
    [pointer_operation/flexible_array.c], [struct/bit_field.c],
    [struct/struct_size.c], [cplusplus-class/classInstancePadding.cpp] and
    [classInstanceAddr.cpp].  The rules are those of the x86-64 System V ABI,
    for which the repository is built: a field starts at the next multiple of
    its alignment, a structure has the largest alignment of its fields and a
    size that is a multiple of it, and a bit-field does not cross a boundary
    of a storage unit of its declared type.

    Shown: the layout of any structure is sound (fields aligned, in order, apart
    and inside) and leaves no more padding than the alignments need; what
    the samples print; and that [sizeof] of the structures of the driver
    and of the messages, used in other files, is this layout. *)

From Stdlib Require Import String.
From S2P Require Import Prelude OctTypes Kernel ChunkList Clocks.

(** A type: its size and alignment in bytes. *)
Record ctype := mkTy { ty_size : Z; ty_align : Z }.
Definition scalar (n : Z) : ctype := mkTy n n.
Definition ty_char := scalar 1.
Definition ty_short := scalar 2.
Definition ty_int := scalar 4.
Definition ty_long := scalar 8.
Definition ty_pointer := scalar 8.
Definition ty_double := scalar 8.
Definition ty_array (t : ctype) (n : Z) : ctype := mkTy (ty_size t * n) (ty_align t).

Definition round_up (x a : Z) : Z := (x + a - 1) / a * a.

(** The offsets of the fields [fs] from [pos] on, and where the last ends. *)
Fixpoint place (pos : Z) (fs : list ctype) : list Z * Z :=
  match fs with
  | [] => ([], pos)
  | t :: fs =>
      let off := round_up pos (ty_align t) in
      let '(offs, stop) := place (off + ty_size t) fs in (off :: offs, stop)
  end.

Definition offsets (fs : list ctype) : list Z := (place 0 fs).1.
Definition struct_align (fs : list ctype) : Z := foldr Z.max 1 (map ty_align fs).
Definition struct (fs : list ctype) : ctype := mkTy (round_up (place 0 fs).2 (struct_align fs)) (struct_align fs).

(** Bit-fields, each with its type and its width in bits: first bit of each,
    and the end. *)
Fixpoint place_bits (pos : Z) (fs : list (ctype * Z)) : list Z * Z :=
  match fs with
  | [] => ([], pos)
  | (t, w) :: fs =>
      let unit := 8 * ty_size t in
      let off := if pos / unit =? (pos + w - 1) / unit then pos else round_up pos unit in
      let '(offs, stop) := place_bits (off + w) fs in (off :: offs, stop)
  end.
Definition bit_struct (fs : list (ctype * Z)) : ctype :=
  let a := foldr Z.max 1 (map (λ f, ty_align f.1) fs) in mkTy (round_up (round_up (place_bits 0 fs).2 8 / 8) a) a.

(** ** The samples *)

Definition size_of (t : ctype) : Z := ty_size t.

(** [struct test_struct] and the macro [offsetof]. *)
Definition test_struct : list ctype := [ty_int; ty_pointer; ty_pointer].
Definition offsetof (fs : list ctype) (i : nat) : option Z := offsets fs !! i.

(** [field_offset.c]: its messages, then the access through the null pointer. *)
Definition field_offset : list kmsg * fault :=
  ((" virtual address of (TYPE*)0 : 0x%lx "%string, [KN 0])
   :: omap (λ m, x ← offsetof test_struct m.1; Some (m.2, [KN x]))
        [(0%nat, " offset of field priority 0x%lx bytes"%string); (1%nat, " offset of field prev 0x%lx bytes"%string);
         (2%nat, " offset of field next 0x%lx bytes"%string)]
   ++ [(" Going to access the field of the struct and trigger a SEGMETNV "%string, [])], NullDeref).

(** [struct mydata]: a flexible array has no size of its own. *)
Definition mydata : list ctype := [ty_int; ty_array ty_char 0].

(** [flexible_array.c] with the pointer [malloc] returned. *)
Definition flexible_array (tmp : Z) : list kmsg :=
  [("Size of the struct mydata : %d "%string, [KN (size_of (struct mydata))]);
   (""%string, []);
   ("Start address of entire struct : 0x%llx "%string, [KN tmp]);
   ("Start address of the mydata->varDataSize : 0x%llx "%string, [KN (tmp + default 0 (offsetof mydata 0))]);
   ("Start address of the mydata->data : 0x%llx "%string, [KN (tmp + default 0 (offsetof mydata 1))])].

(** [bit_field.c] *)
Definition short_bit_field_1 : list (ctype * Z) := [(ty_short, 3); (ty_short, 4)].
Definition short_bit_field_2 : list (ctype * Z) := [(ty_short, 3); (ty_short, 14)].
Definition int_bit_field_1 : list (ctype * Z) := [(ty_int, 3); (ty_int, 4)].
Definition bit_field : list kmsg :=
  [("test_short_1 : %lu bytes "%string, [KN (size_of (bit_struct short_bit_field_1))]);
   ("test_short_2 : %lu bytes "%string, [KN (size_of (bit_struct short_bit_field_2))]);
   ("test_int_1 : %lu bytes "%string, [KN (size_of (bit_struct int_bit_field_1))])].

(** [struct_size.c] *)
Definition struct_size : list kmsg :=
  [("byte size of unsigned long long %d, unsigned long : %d, unsigned int : %d, long : %d, "%string,
    [KN (size_of ty_long); KN (size_of ty_long); KN (size_of ty_int); KN (size_of ty_long)])].

(** [classInstancePadding.cpp]: the address of an object, its size and the
    addresses of its two fields, for objects at [a]. *)
Definition padding_class : list ctype := [ty_int; ty_double].
Definition padding_class_2 : list ctype := [ty_double; ty_int].
Definition no_padding_class : list ctype := [ty_int; ty_int].
Definition object_message (format : string) (fs : list ctype) (a : Z) : kmsg :=
  (format, KN a :: KN (size_of (struct fs)) :: map (λ o, KN (a + o)) (offsets fs)).
Definition class_padding (a a2 n : Z) : list kmsg :=
  [object_message " padding_class object : address 0x%lx, size 0x%lx. filed#integer_1 0x%lx, field#double_1 0x%lx " padding_class a;
   object_message " obj_padding_2 object address :0x%lx, size 0x%lx. filed#double_1 0x%lx, field#integer_1 0x%lx " padding_class_2 a2;
   object_message " no_padding_class object address :0x%lx, size 0x%lx. filed#integer_1 0x%lx, field#integer_2 0x%lx " no_padding_class n].

(** [classInstanceAddr.cpp]: an object at [a] whose constructor got [inner]
    from [new]; [psize] is the size its first message shows. *)
Definition inner_class : list ctype := [ty_int; ty_double].
Definition outside_class : list ctype := [ty_double; struct inner_class; ty_pointer].
Definition outside_messages (name name_var name_pointer : string) (a psize inner : Z) : list kmsg :=
  [(name, [KN a; KN psize]);
   (name_var, [KN (a + default 0 (offsetof outside_class 1)); KN (size_of (struct inner_class))]);
   (name_pointer, [KN inner; KN (size_of ty_pointer)])].
Definition class_addr (heap heap_inner stack stack_inner : Z) : list kmsg :=
  outside_messages " obj_outside_pointer : address 0x%lx , size 0x%lx "
    " obj_outside_pointer->obj_inner_var :0x%lx , size 0x%lx " " obj_outside_pointer->obj_inner_pointer : 0x%lx, size 0x%lx "
    heap (size_of ty_pointer) heap_inner ++
  (""%string, []) ::
  outside_messages " obj_outside_var : address 0x%lx , size 0x%lx "
    " obj_outside_var.obj_inner_var :0x%lx , size 0x%lx " " obj_outside_var.obj_inner_pointer : 0x%lx, size 0x%lx "
    stack (size_of (struct outside_class)) stack_inner.

(** ** The layout is sound *)

Definition ty_ok (t : ctype) : Prop := 0 <= ty_size t ∧ 0 < ty_align t.

Lemma round_up_spec x a : 0 < a → (a | round_up x a) ∧ x <= round_up x a < x + a.
Proof. intros Ha. split; [by exists ((x + a - 1) / a)|]. unfold round_up. dlia. Qed.

(** The fields from [pos] on: aligned, in order, apart, with less padding
    before each than its alignment. *)
Inductive placed : Z → list ctype → list Z → Z → Prop :=
| placed_nil pos : placed pos [] [] pos
| placed_cons pos t fs off offs stop :
    (ty_align t | off) → pos <= off < pos + ty_align t → placed (off + ty_size t) fs offs stop →
    placed pos (t :: fs) (off :: offs) stop.

Lemma place_placed pos fs : Forall ty_ok fs → placed pos fs (place pos fs).1 (place pos fs).2.
Proof.
  intros Hok. revert pos. induction Hok as [|t fs' [Hs Ha] _ IH]; intros pos; [constructor|]. cbn [place].
  destruct (round_up_spec pos (ty_align t) Ha) as [Hd Hr]. specialize (IH (round_up pos (ty_align t) + ty_size t)).
  destruct (place _ fs') as [offs stop]. by constructor.
Qed.

Lemma placed_stop pos fs offs stop : Forall ty_ok fs → placed pos fs offs stop → pos <= stop.
Proof.
  intros Hok Hp. induction Hp as [|p u us o os e _ Hr _ IH]; [lia|].
  inversion_clear Hok as [|? ? [Hs _] Hfs]. specialize (IH Hfs). lia.
Qed.

Lemma placed_field pos fs offs stop i t off :
  Forall ty_ok fs → placed pos fs offs stop → fs !! i = Some t → offs !! i = Some off →
  (ty_align t | off) ∧ pos <= off ∧ off + ty_size t <= stop.
Proof.
  intros Hok Hp. revert i. induction Hp as [|p u us o os e Hd Hr Hp IH]; intros i; [done|].
  inversion_clear Hok as [|? ? [Hs _] Hfs]. destruct i as [|i]; cbn [lookup list_lookup].
  - intros [= ->] [= ->]. apply placed_stop in Hp; [|done]. split; [done|lia].
  - intros Hi Ho. destruct (IH Hfs i Hi Ho) as (? & ? & ?). split; [done|lia].
Qed.

Lemma placed_apart pos fs offs stop i j t off off' :
  Forall ty_ok fs → placed pos fs offs stop → (i < j)%nat →
  fs !! i = Some t → offs !! i = Some off → offs !! j = Some off' → off + ty_size t <= off'.
Proof.
  intros Hok Hp. revert i j. induction Hp as [|p u us o os e Hd Hr Hp IH]; intros i j; [done|].
  inversion_clear Hok as [|? ? _ Hfs]. destruct j as [|j]; [lia|]. intros Hij. cbn [lookup list_lookup].
  destruct i as [|i]; cbn [lookup list_lookup]; [|intros Hi Ho Hj; apply (IH Hfs i j); done || lia].
  intros [= ->] [= ->] Hj. assert (∃ t', us !! j = Some t') as [t' Ht'].
  { assert (length us = length os) as Hl by (clear -Hp; induction Hp; cbn; congruence).
    apply lookup_lt_Some in Hj. by apply lookup_lt_is_Some; rewrite Hl. }
  by apply (placed_field _ _ _ _ j t' off' Hfs) in Hp as (_ & ? & _).
Qed.

Lemma struct_align_field fs i t : fs !! i = Some t → ty_align t <= struct_align fs.
Proof.
  unfold struct_align. induction fs as [|u fs IH] in i |- *; [done|]. destruct i as [|i]; cbn.
  - intros [= ->]. lia.
  - intros H. specialize (IH _ H). lia.
Qed.

Lemma struct_align_pos fs : 0 < struct_align fs.
Proof. unfold struct_align. induction fs as [|t fs IH]; cbn; lia. Qed.

(** Every structure: each field lies at a multiple of its alignment and inside
    the structure, two fields do not overlap and lie in the order of their
    declaration, and the size is the end of the last field rounded up to the
    alignment. *)
Theorem layout_sound fs :
  Forall ty_ok fs →
  length (offsets fs) = length fs ∧
  (∀ i t off, fs !! i = Some t → offsets fs !! i = Some off →
     (ty_align t | off) ∧ 0 <= off ∧ off + ty_size t <= ty_size (struct fs)) ∧
  (∀ i j t off off', (i < j)%nat → fs !! i = Some t → offsets fs !! i = Some off → offsets fs !! j = Some off' →
     off + ty_size t <= off') ∧
  (ty_align (struct fs) | ty_size (struct fs)) ∧
  ty_size (struct fs) < (place 0 fs).2 + ty_align (struct fs).
Proof.
  intros Hok. pose proof (place_placed 0 fs Hok) as Hp. unfold offsets. cbn [struct ty_size ty_align].
  destruct (round_up_spec (place 0 fs).2 _ (struct_align_pos fs)) as [Hd Hr]. repeat apply conj.
  - clear -Hp. induction Hp; cbn; congruence.
  - intros i t off Ht Ho. destruct (placed_field _ _ _ _ i t off Hok Hp Ht Ho) as (? & ? & ?). split; [done|lia].
  - intros i j t off off'. by eapply placed_apart.
  - done.
  - lia.
Qed.

(** ** What the samples show *)

(** The offsets [field_offset.c] prints, and its end. *)
Example field_offset_shown :
  map (λ m, m.2) field_offset.1 = [[KN 0]; [KN 0]; [KN 8]; [KN 16]; []] ∧ field_offset.2 = NullDeref.
Proof. split; reflexivity. Qed.

(** Reordering two fields does not save the padding at the end: the comment of
    [padding_class_2] expects none. *)
Example padding_both : ty_size (struct padding_class) = 16 ∧ ty_size (struct padding_class_2) = 16 ∧ ty_size (struct no_padding_class) = 8.
Proof. repeat split. Qed.

(** The sizes the comment of [bit_field.c] lists. *)
Example bit_field_shown : map (λ m, m.2) bit_field = [[KN 2]; [KN 4]; [KN 4]].
Proof. reflexivity. Qed.

Example flexible_array_shown a :
  map (λ m, m.2) (flexible_array a) = [[KN 4]; []; [KN a]; [KN (a + 0)]; [KN (a + 4)]].
Proof. reflexivity. Qed.

(** The structures of the driver and of the messages have the sizes the other
    files use. *)
Example driver_sizes :
  ty_size (struct [ty_int; ty_long; ty_int]) = sizeof_chunk ∧
  ty_size (struct [ty_array ty_long MAX_CHUNKS; ty_array ty_int MAX_CHUNKS; ty_int; ty_int]) = sizeof_message.
Proof. split; reflexivity. Qed.

(** ** Witness *)

Lemma layout_sound_witness :
  ty_size (struct test_struct) = 24 ∧ length (offsets test_struct) = length test_struct.
Proof.
  split; [reflexivity|]. apply (layout_sound test_struct). unfold test_struct, ty_int, ty_pointer, scalar.
  repeat constructor; discriminate.
Defined.
