(* ===== verification/Samples.v ===== *)
(** * Samples of C and C++, and the InfiniBand device check

    The programs of [src/c-test] on pointers, memory, control flow and method
    calls, and [Check_IB_device/client.c].

    A heap has an object for each allocation, [None] once it is freed; a
    pointer is a location or null.  Objects hold [int]s, doubles and pointers
    as their structures do, an uninitialised field being what the environment
    says.

    Shown: which of the samples fault, and where; that a copy of an object shares
    what its pointer leads to; that the loop of
    [memory_leak.c] loses one object in each round; that a chain of tests of a
    type tag calls the method of the object's class; that the two macros of
    division agree; and that the device check leaves the device list
    allocated, and the device open on one path. *)

From Stdlib Require Import String Floats.SpecFloat.
From S2P Require Import Prelude BitOps Kernel Prog Clocks Layout.

(** ** Memory *)

Inductive obj :=
| OInt (v : Z)
| OPtr (p : option nat)                   (* a pointer variable *)
| OPtrs (ps : list (option nat))          (* an array of pointers *)
| OInternal (a : Z) (b : spec_float)      (* struct internal, class inner_class *)
| OOutside (double_2 : spec_float) (integer_1 : Z) (double_1 : spec_float) (inner : option nat).  (* class outside_class *)

Abbreviation heap := (list (option obj)).
Abbreviation CP := (prog heap kmsg).

(** What an [int], a double and a pointer that were never written hold, whether
    [malloc] fails, and the addresses of objects. *)
Class cenv := {
  c_int : Z; c_double : spec_float; c_ptr : option nat;
  c_malloc : list kmsg → heap → bool; c_addr : nat → Z
}.

Section Pointers.
Context {E : cenv}.

Definition alloc (o : obj) : CP (option nat) := λ w,
  if c_malloc (p_calls w) (p_data w)
  then Done (Some (length (p_data w))) (mkPstate (p_data w ++ [Some o]) (p_calls w))
  else Done None w.

(** A local variable whose address is taken. *)
Definition local (o : obj) : CP (option nat) := λ w,
  Done (Some (length (p_data w))) (mkPstate (p_data w ++ [Some o]) (p_calls w)).

(** The object a pointer leads to. *)
Definition deref (p : option nat) : CP (nat * obj) :=
  l ← nonnull p; o ← data (λ h, h !! l);
  match o with Some (Some o) => mret (l, o) | Some None => crash UseAfterFree | None => crash OutOfBounds end.
Definition assign (p : option nat) (f : obj → option obj) : CP unit :=
  lo ← deref p; o ← inside (f lo.2); update (λ h, <[lo.1 := Some o]> h).
Definition read {A} (p : option nat) (f : obj → option A) : CP A :=
  lo ← deref p; inside (f lo.2).
Definition free (p : option nat) : CP unit :=
  match p with
  | None => mret tt
  | Some _ => lo ← deref p; update (λ h, <[lo.1 := None]> h)
  end.

Definition get_int (o : obj) : option Z := match o with OInt v => Some v | _ => None end.
Definition get_ptr (o : obj) : option (option nat) := match o with OPtr p => Some p | _ => None end.
Definition set_int (v : Z) (o : obj) : option obj := match o with OInt _ => Some (OInt v) | _ => None end.
Definition set_ptr (p : option nat) (o : obj) : option obj := match o with OPtr _ => Some (OPtr p) | _ => None end.
Definition get_a (o : obj) : option Z := match o with OInternal a _ => Some a | _ => None end.
Definition get_b (o : obj) : option spec_float := match o with OInternal _ b => Some b | _ => None end.
Definition set_a (v : Z) (o : obj) : option obj := match o with OInternal _ b => Some (OInternal v b) | _ => None end.
Definition set_b (v : spec_float) (o : obj) : option obj := match o with OInternal a _ => Some (OInternal a v) | _ => None end.

Definition addr (p : option nat) : Z := match p with None => 0 | Some l => c_addr l end.
Definition say (s : string) (args : list karg) : CP unit := tell (s, args).

(** ** [pointer_parameter.c] *)

(** 7.7: the nearest number of 53 bits. *)
Definition d77 : spec_float := S754_finite false 8669429282688205 (-50).

(** The new structure and its two fields. *)
Definition new_internal : CP (option nat) :=
  p ← alloc (OInternal c_int c_double); assign p (set_a 7);; assign p (set_b d77);; mret p.

Definition init_internal_pointer_1 (p_ptr : option nat) : CP unit :=
  p ← read p_ptr get_ptr;
  match p with
  | None =>
      q ← alloc (OInternal c_int c_double); assign p_ptr (set_ptr q);;
      q ← read p_ptr get_ptr; assign q (set_a 7);;
      q ← read p_ptr get_ptr; assign q (set_b d77)
  | Some _ => mret tt
  end.

(** The parameter is a copy: what it is set to is lost. *)
Definition init_internal_pointer_2 (p : option nat) : CP unit :=
  match p with None => _ ← new_internal; mret tt | Some _ => mret tt end.

(** [main] up to the message about [p_2], with the two variables. *)
Definition pointer_parameter_start : CP (option nat * option nat) :=
  p_1 ← local (OPtr None); p_2 ← local (OPtr None);
  init_internal_pointer_1 p_1;;
  v_2 ← read p_2 get_ptr; init_internal_pointer_2 v_2;;
  v_1 ← read p_1 get_ptr; a ← read v_1 get_a; say "p_1->a : %d " [KN a];;
  v_1 ← read p_1 get_ptr; b ← read v_1 get_b; say "p_1->b : %f " [KF b];;
  say "Accessing the fields of p_2 causes segment fault." [];;
  mret (p_1, p_2).

(** [main]: the fields of [p_2]. *)
Definition pointer_parameter : CP Z :=
  v ← pointer_parameter_start; let p_2 := v.2 in
  v_2 ← read p_2 get_ptr; say "p_2 : 0x%x " [KN (u32 (addr v_2))];;
  v_2 ← read p_2 get_ptr; a ← read v_2 get_a; say "p_2->a : %d " [KN a];;
  v_2 ← read p_2 get_ptr; b ← read v_2 get_b; say "p_2->b : %f " [KF b];;
  mret 0.

(** ** [dangling_pointer.c] and [memory_leak.c] *)

Definition dangling_pointer : CP Z :=
  p ← alloc (OInt c_int); assign p (set_int 1);; free p;;
  x ← read p get_int; say "value of pointer is : %d " [KN x];; mret 0.

(** One round of the endless loop, and [n] of them. *)
Definition leak_round : CP unit :=
  p ← alloc (OInt c_int); assign p (set_int 1);;
  x ← read p get_int; say "value of pointer is : %d " [KN x].
Fixpoint memory_leak (n : nat) : CP unit :=
  match n with O => mret tt | S n => leak_round;; memory_leak n end.

(** ** [pointer_of_pointer.c], [struct_pointer.c] and [reference_and_pointer.cpp] *)

Definition get_elem (i : nat) (o : obj) : option (option nat) := match o with OPtrs l => l !! i | _ => None end.
Definition set_elem (i : nat) (p : option nat) (o : obj) : option obj :=
  match o with OPtrs l => if Nat.ltb i (length l) then Some (OPtrs (<[i := p]> l)) else None | _ => None end.

(** [junk]: what the uninitialised [a] holds. *)
Definition pointer_of_pointer (junk : Z) : CP Z :=
  b ← local (OPtr None);
  say " &(b) is 0x%lx, a is 0x%lx " [KN (addr b); KN junk];;
  say "Warning : a can be any random value or null" [];;
  a ← alloc (OPtrs [None; None]);
  p ← alloc (OInt c_int); assign a (set_elem 0 p);;
  p ← alloc (OInt c_int); assign a (set_elem 1 p);;
  a0 ← read a (get_elem 0); assign a0 (set_int 10);;
  a1 ← read a (get_elem 1); assign a1 (set_int 20);;
  a0 ← read a (get_elem 0); say " a is 0x%lx , *a is 0x%lx " [KN (addr a); KN (addr a0)];;
  a1 ← read a (get_elem 1); say " a + 1 is 0x%lx, *(a+1) is 0x%lx " [KN (addr a + 8); KN (addr a1)];;
  x ← read a0 get_int;
  say " *(a[0]) is %d, a[0] is 0x%lx, &a[0] is 0x%lx " [KN x; KN (addr a0); KN (addr a)];;
  x ← read a1 get_int;
  say " *(a[1]) is %d, a[1] is 0x%lx, &a[1] is 0x%lx " [KN x; KN (addr a1); KN (addr a + 8)];;
  say " *a[1] is %d, &(*a)[1] is 0x%lx " [KN x; KN (addr a0 + 4)];;
  say " *a[1] is %d, &(*a) + 1 is 0x%lx " [KN x; KN (addr a + 8)];;
  say " *a[1] is %d, (int**)&(*a) + 1 is 0x%lx " [KN x; KN (addr a + 8)];;
  mret 0.

(** The parameter of [print_pte] is a copy of the structure. *)
Definition print_pte (pte : Z) : CP unit :=
  p ← local (OInt pte); x ← read p get_int;
  say "pte_t 0x%llx, val is 0x%llx " [KN (addr p); KN x].
Definition struct_pointer : CP Z :=
  ptr ← alloc (OInt c_int); assign ptr (set_int 102);;
  x ← read ptr get_int; say "pte pointer ptr 0x%llx, val 0x%llx " [KN (addr ptr); KN x];;
  x ← read ptr get_int; print_pte x;; mret 0.

(** A reference is its variable; a pointer to it has its address. *)
Definition reference_and_pointer : CP Z :=
  a ← local (OInt 8); let b := a in c ← local (OPtr a); v ← read c get_ptr;
  say " addr of a 0x%lx, addr of b 0x%lx, value of c 0x%lx " [KN (addr a); KN (addr b); KN (addr v)];; mret 0.

(** ** [classInstanceCast.cpp] *)

(** The constructor of [inner_class]; [new] does not give null. *)
Definition minus_one : spec_float := S754_finite true 4503599627370496 (-52).
Definition new_inner : CP (option nat) := local (OInternal (-1) minus_one).

(** The object on the stack, with the constructors of its class. *)
Definition outside_var : CP (option nat) :=
  p ← local (OOutside c_double (-1) minus_one c_ptr); q ← new_inner;
  assign p (λ o, match o with OOutside d i b _ => Some (OOutside d i b q) | _ => None end);; mret p.

Definition get_outside (o : obj) : option (Z * spec_float * option nat) :=
  match o with OOutside _ i b q => Some (i, b, q) | _ => None end.

(** The lines about the object at [p], whose own size is shown as [psize],
    up to the pointer; the names of the object and empty lines are left out. *)
Definition show_outside (p : option nat) (psize : Z) : CP (option nat) :=
  v ← read p get_outside; let '(i, b, q) := v in
  say " address 0x%lx , size 0x%lx " [KN (addr p); KN psize];;
  say "obj_inner_var :0x%lx , size 0x%lx "
    [KN (addr p + default 0 (offsetof outside_class 1)); KN (size_of (struct inner_class))];;
  say "obj_inner_var.integer_1 %d " [KN i];; say "obj_inner_var.double_1 %f " [KF b];;
  say "obj_inner_pointer : 0x%lx, size 0x%lx " [KN (addr q); KN (size_of ty_pointer)];; mret q.

Definition show_inner (q : option nat) : CP unit :=
  x ← read q get_a; say "obj_inner_pointer->integer_1 %d " [KN x];;
  y ← read q get_b; say "obj_inner_pointer->double_1 %f " [KF y].

(** [malloc] runs no constructor; the copy is that of all bytes. *)
Definition class_cast_copy (p v : option nat) : CP unit :=
  o ← read v Some; assign p (λ old, match old, o with OOutside _ _ _ _, OOutside _ _ _ _ => Some o | _, _ => None end).

Definition class_cast_start : CP (option nat * option nat) :=
  p ← alloc (OOutside c_double c_int c_double c_ptr); v ← outside_var;
  say "obj_outside_pointer : allocated by malloc : " [];;
  q ← show_outside p (size_of ty_pointer);
  match q with Some _ => show_inner q | None => say "Can't print a pointer with 0x0. " [] end;;
  mret (p, v).

Definition class_cast_end (p v : option nat) : CP Z :=
  class_cast_copy p v;;
  say "obj_outside_pointer : after memcpy : " [];;
  q ← show_outside p (size_of ty_pointer); show_inner q;;
  say "The compared value:" [];;
  q ← show_outside v (size_of (struct outside_class)); show_inner q;; mret 0.

Definition class_cast : CP Z := pv ← class_cast_start; class_cast_end pv.1 pv.2.

End Pointers.

(** ** Control flow and arithmetic *)

(** [goto_test.c], for any [a]: the labels fall through. *)
Definition goto_test (a : Z) : list kmsg :=
  let out := [("Finished. "%string, [])] in
  let flag_5 := ("under flag_5 "%string, []) :: out in
  let flag_1 := ("under flag_1 "%string, []) :: flag_5 in
  (" a is with flag_%d "%string, [KN a]) :: (if a =? 1 then flag_1 else if a =? 5 then flag_5 else flag_1).

(** The macro [sector_div] of [macro.c]: its value, and [n] afterwards; [None]
    for the division by zero and for the quotient outside [int]. *)
Definition sector_div (n b : Z) : option (Z * Z) :=
  if (b =? 0) || ((n =? - 2 ^ 31) && (b =? -1)) then None else Some (Z.rem n b, Z.quot n b).
Definition macro_main (n b : Z) : option (list kmsg) :=
  r ← sector_div n b;
  Some [("n%b is : %d "%string, [KN (Z.rem n b)]); ("n/b is : %d "%string, [KN (Z.quot n b)]);
        ("sector_div(n,b) return value : %d, n is : %d ,b is %d "%string, [KN r.1; KN r.2; KN b])].

(** [ops_priority.c]: an assignment is an expression. *)
Definition ops_priority (a b c : Z) : list kmsg :=
  let b := c in let a := b in [("a : %d, b:%d, c:%d "%string, [KN a; KN b; KN c])].

(** [function_pointer/basic.c] *)
Definition max (a b : Z) : Z := if a >=? b then a else b.
Definition function_pointer : list kmsg := let func_p := max in [(" max(5,7) = %d "%string, [KN (func_p 5 7)])].

(** [shift.c] and [mask_test.c] *)
Definition shift_main (a : Z) : list kmsg :=
  [("a:0x%llx, RMEM_LOGICAL_SECT_SHIFT: 0x%llx, a<<RMEM_LOGICAL_SECT_SHIFT:0x%llx "%string,
    [KN a; KN 9; KN (u64 (Z.shiftl a 9))]);
   ("a<<8:0x%llx, a<<9:0x%llx "%string, [KN (u64 (Z.shiftl a 8)); KN (u64 (Z.shiftl a 9))])].
Definition GB_MASK : Z := Z.shiftl 1 30 - 1.
Definition mask_test : list kmsg := [("GB_MASK 0x%llx "%string, [KN GB_MASK])].

(** [pointer_addr_check.c]: the top four bits of an address. *)
Definition pointer_addr_check (address comp : Z) : list kmsg :=
  [if Z.shiftr address 60 =? comp then ("Equal."%string, []) else ("Not Equal. "%string, []);
   (" addr: 0x%lx. (size_t)addr >> 60 0x%lx "%string, [KN address; KN (Z.shiftr address 60)]);
   (" comp : 0x%lx "%string, [KN comp])].

(** ** Characters *)

(** [char_length.c]; the sizes are those of the array and of the pointer. *)
Definition char_length : list kmsg :=
  let a := "abcd"%string in let b := "abcd"%string in
  [("The length of char a[5] is : %lu "%string, [KN (size_of (ty_array ty_char 5))]);
   ("Content %s "%string, [KS a]);
   ("The length of char* b = (char*)malloc(sizeof(char) * 5) is : %lu "%string, [KN (size_of ty_pointer)]);
   ("strlen of b is : %lu "%string, [KN (Z.of_nat (String.length b))]);
   ("Content %s "%string, [KS b])].

(** [char_val.c] *)
Definition char_val (val : Z) : list kmsg :=
  let val := u8 val in [("passed in char %c "%string, [KN val]); ("print as unsigned char %u "%string, [KN val])].

(** [2_dimensional_char_array.c] *)
Definition server_ips : list string := ["10.0.0.2"; "10.0.0.4"]%string.
Definition char_array : list kmsg :=
  imap (λ i ip, ("mem_server_ip[%d] %s, len %lu "%string, [KN (Z.of_nat i); KS ip; KN (Z.of_nat (String.length ip))])) server_ips.

(** ** Methods *)

(** [vtable.cpp]: the class of the object decides. *)
Inductive klass := Klass | InstanceKlass | InstanceMirrorKlass.
Definition virtual_oop_size (c : klass) : Z := match c with Klass => 1 | _ => 2 end.
Definition vtable : list kmsg :=
  let tmp_sub := InstanceKlass in let tmp_base := tmp_sub in
  [("tmp_sub->oop_size() %d "%string, [KN (virtual_oop_size tmp_sub)]);
   ("tmp_base->oop_size() %d "%string, [KN (virtual_oop_size tmp_base)])].

(** [simulate_vtable.cpp]: an object has the [flag] its constructors set, the
    base class's first; a pointer to the base class does not show the class. *)
Record instance := mkInstance { in_class : klass; flag : Z }.
Definition new_instance (c : klass) : instance :=
  let base := mkInstance c 0 in
  match c with
  | Klass => base
  | InstanceKlass => mkInstance c 1
  | InstanceMirrorKlass => mkInstance c 2
  end.

(** What the method of a class prints. *)
Definition oop_size (c : klass) : kmsg :=
  match c with
  | Klass => ("This is the base class "%string, [])
  | InstanceKlass => ("This is InstanceKlass "%string, [])
  | InstanceMirrorKlass => ("This is InstanceMirrorKlass "%string, [])
  end.

(** The tests of the flag, with the cast each leads to. *)
Definition dispatch (tmp_base : instance) : kmsg :=
  if flag tmp_base =? 1 then oop_size InstanceKlass
  else if flag tmp_base =? 2 then oop_size InstanceMirrorKlass
  else oop_size Klass.

Definition simulate_vtable : list kmsg :=
  let tmp_sub := new_instance InstanceKlass in
  let tmp_sub2 := new_instance InstanceMirrorKlass in
  [("#1 InstanceKlass "%string, []); oop_size InstanceKlass;
   ("#2, Base class points to InstanceKlass "%string, []); dispatch tmp_sub;
   ("#3, InstanceMirrorKlass "%string, []); oop_size InstanceMirrorKlass;
   ("#4, Base class points to InstanceMirroeKlas "%string, []); dispatch tmp_sub2].

(** [non-virtual-method.cpp]: fields and plain methods follow the type of the
    pointer, virtual ones the object. *)
Inductive person := Father | Son.
Record human := mkHuman { dynamic : person; father_field : Z; son_field : Z }.
Definition new_father : human := mkHuman Father 0 0.
Definition new_son : human := mkHuman Son 0 1.
Definition person_field (static : person) (h : human) : Z := match static with Father => father_field h | Son => son_field h end.
Definition person_name (static : person) : string := match static with Father => "I'm father" | Son => "I'm son" end.
Definition person_status (h : human) : string := match dynamic h with Father => "I'm fathering." | Son => "I'm sonning." end.
Definition person_message (static : person) (h : human) : kmsg :=
  (" field: %d, name : %s , status : %s "%string, [KN (person_field static h); KS (person_name static); KS (person_status h)]).
Definition non_virtual_method : list kmsg :=
  [(" father : "%string, []); person_message Father new_father;
   (" son : "%string, []); person_message Son new_son;
   ("Let father points to son's instance : "%string, []);
   (" pointted to son_instance's father : "%string, []); person_message Father new_son].

(** [array_size.c]: [memset] sets each byte of an [int] array; [a] and [b] are
    the addresses of the array and of the allocation, [at_b] that of the
    pointer. *)
Definition memset_int (c : Z) : Z := i32 (BitOps.of_le_bytes (replicate 4 (u8 c))).
Definition array_size (a at_b b : Z) : list kmsg :=
  [("size of array int a[3]:%lu bytes "%string, [KN (size_of (ty_array ty_int 3))]);
   ("size of array int *b = malloc(sizeof(int)*5):%lu bytes "%string, [KN (size_of ty_pointer)]);
   ("&a : 0x%lx "%string, [KN a]); ("a : 0x%lx "%string, [KN a]);
   ("&b : 0x%lx "%string, [KN at_b]); ("b : 0x%lx "%string, [KN b])] ++
  imap (λ i x, ("a[%d] :%d "%string, [KN (Z.of_nat i); KN x])) (replicate 3 (memset_int (-1))) ++
  imap (λ i x, ("b[%d]: %d "%string, [KN (Z.of_nat i); KN x])) (replicate 5 (memset_int (-1))).

(** ** [Check_IB_device/client.c] *)

Inductive icall :=
| I_get_device_list
| I_open_device (d : option Z)
| I_malloc_attr
| I_query_device (ctx : Z)
| I_close_device (ctx : Z)
| I_printf (m : kmsg)
| I_free_device_list
| I_free_attr.

(** [ibv_get_device_list] gives null or a list of devices that ends with a
    null; opening and the allocation give null or something; the two others
    give 0 or an error. *)
Class ibenv := {
  i_list : option (list Z);
  i_open : option Z → option Z;
  i_malloc : bool;
  i_query : Z → Z;
  i_attr : Z → Z * Z * Z * Z;      (* max_mr_size, max_qp, max_qp_wr, max_sge *)
  i_close : Z → Z
}.

Abbreviation IP := (prog unit icall).

Section Device.
Context {E : ibenv}.

Definition iprint (s : string) (args : list karg) : IP unit := tell (I_printf (s, args)).

(** From [malloc] on, with the open device. *)
Definition query_and_close (ctx : Z) : IP Z :=
  device_attr ← ask (λ _ _, i_malloc) I_malloc_attr;
  _ ← nonnull (if device_attr : bool then Some tt else None);
  ret ← ask (λ _ _, i_query ctx) (I_query_device ctx);
  if negb (ret =? 0) then iprint "ibv_query_device failed. " [];; mret (-1)
  else
    let '(max_mr_size, max_qp, max_qp_wr, max_sge) := i_attr ctx in
    iprint "max_mr_size: 0x%lx " [KN max_mr_size];; iprint "max_qp: 0x%x " [KN max_qp];;
    iprint "max_qp_wr: 0x%x " [KN max_qp_wr];; iprint "max_sge: 0x%x " [KN max_sge];;
    ret ← ask (λ _ _, i_close ctx) (I_close_device ctx);
    (if negb (ret =? 0) then iprint "Error, failed to close the device '%s'" [] else mret tt);;
    mret ret.

(** The device's name is left out of the messages. *)
Definition check_ib : IP Z :=
  device_list ← ask (λ _ _, i_list) I_get_device_list;
  match device_list with
  | None => iprint "ibv_get_device_list failed. " [];; mret (-1)
  | Some devs =>
      ctx ← ask (λ _ _, i_open (head devs)) (I_open_device (head devs));
      match ctx with
      | None => iprint "Error, failed to open the device '%s'" [];; mret (-1)
      | Some ctx => iprint "The device '%s' was opened" [];; query_and_close ctx
      end
  end.

End Device.

(** ** Which samples fault *)

Section Runs.
Context {E : cenv}.
Definition memory : Prop := ∀ cs h, c_malloc cs h = true.

Lemma alloc_run o w :
  memory → alloc o w = Done (Some (length (p_data w))) (mkPstate (p_data w ++ [Some o]) (p_calls w)).
Proof. intros Hm. unfold alloc. by rewrite Hm. Qed.

Lemma deref_run l o w : p_data w !! l = Some (Some o) → deref (Some l) w = Done (l, o) w.
Proof. intros Hl. unfold deref. do 2 gstep. by rewrite Hl. Qed.

Lemma read_run {A} l o (f : obj → option A) x w :
  p_data w !! l = Some (Some o) → f o = Some x → read (Some l) f w = Done x w.
Proof. intros Hl Hf. unfold read. rewrite (prog_bind_step _ _ _ _ _ (deref_run _ _ _ Hl)). cbn [snd]. by rewrite Hf. Qed.

Lemma assign_run l o (f : obj → option obj) o' w :
  p_data w !! l = Some (Some o) → f o = Some o' →
  assign (Some l) f w = Done tt (mkPstate (<[l := Some o']> (p_data w)) (p_calls w)).
Proof.
  intros Hl Hf. unfold assign. rewrite (prog_bind_step _ _ _ _ _ (deref_run _ _ _ Hl)). cbn [snd fst]. by rewrite Hf.
Qed.

(** The heap with a new object at its end. *)
Lemma lookup_end {A} (l : list A) x : (l ++ [x]) !! length l = Some x.
Proof. by apply (list_lookup_middle _ []). Qed.
Lemma insert_end {A} (l : list A) x y : <[length l := y]> (l ++ [x]) = l ++ [y].
Proof. rewrite insert_app_r_alt by lia. by rewrite Nat.sub_diag. Qed.

(** [dangling_pointer.c] reads the object it has freed. *)
Theorem dangling_faults w : memory → dangling_pointer w = Fault UseAfterFree.
Proof.
  intros Hm. unfold dangling_pointer. set (l := length (p_data w)).
  rewrite (prog_bind_step _ _ _ _ _ (alloc_run _ w Hm)).
  rewrite (prog_bind_step _ _ _ _ _ (assign_run _ (OInt c_int) (set_int 1) (OInt 1) (mkPstate _ _) (lookup_end _ _) eq_refl)).
  cbn [p_data p_calls]. rewrite insert_end.
  erewrite prog_bind_step.
  2: { unfold free. rewrite (prog_bind_step _ _ _ _ _ (deref_run l (OInt 1) (mkPstate _ _) (lookup_end _ _))).
       reflexivity. }
  cbn [p_data p_calls fst]. apply prog_bind_fault. unfold read. apply prog_bind_fault. unfold deref. do 2 gstep.
  cbn [p_data]. subst l. by rewrite insert_end, lookup_end.
Qed.

(** [n] rounds of [memory_leak.c] leave [n] more objects, none of them freed,
    and have printed 1 each time. *)
Theorem memory_leak_grows n w :
  memory →
  memory_leak n w = Done tt (mkPstate (p_data w ++ replicate n (Some (OInt 1)))
                                      (p_calls w ++ replicate n ("value of pointer is : %d "%string, [KN 1]))).
Proof.
  intros Hm. induction n as [|n IH] in w |- *; cbn [memory_leak replicate].
  - rewrite !app_nil_r. by destruct w.
  - assert (leak_round w = Done tt (mkPstate (p_data w ++ [Some (OInt 1)])
        (p_calls w ++ [("value of pointer is : %d "%string, [KN 1])]))) as Hr.
    { unfold leak_round. rewrite (prog_bind_step _ _ _ _ _ (alloc_run _ w Hm)).
      rewrite (prog_bind_step _ _ _ _ _ (assign_run _ (OInt c_int) (set_int 1) (OInt 1) (mkPstate _ _) (lookup_end _ _) eq_refl)).
      cbn [p_data p_calls]. rewrite insert_end.
      by rewrite (prog_bind_step _ _ _ _ _ (read_run _ (OInt 1) get_int 1 (mkPstate _ _) (lookup_end _ _) eq_refl)). }
    rewrite (prog_bind_step _ _ _ _ _ Hr), IH. cbn [p_data p_calls]. by rewrite <- !app_assoc.
Qed.

(** [pointer_parameter.c]: the structure is reached through the first
    variable and shown, the second variable is still null when its fields
    are read. *)
Theorem pointer_parameter_faults cs :
  memory →
  runs pointer_parameter_start (mkPstate [] cs) (λ v w', v = (Some 0%nat, Some 1%nat) ∧
    p_data w' !! 0%nat = Some (Some (OPtr (Some 2%nat))) ∧ p_data w' !! 1%nat = Some (Some (OPtr None)) ∧
    p_calls w' = cs ++ [("p_1->a : %d "%string, [KN 7]); ("p_1->b : %f "%string, [KF d77]);
                        ("Accessing the fields of p_2 causes segment fault."%string, [])]) ∧
  pointer_parameter (mkPstate [] cs) = Fault NullDeref.
Proof.
  intros Hm.
  assert (∃ w', pointer_parameter_start (mkPstate [] cs) = Done (Some 0%nat, Some 1%nat) w' ∧
    p_data w' = [Some (OPtr (Some 2%nat)); Some (OPtr None); Some (OInternal 7 d77); Some (OInternal 7 d77)] ∧
    p_calls w' = cs ++ [("p_1->a : %d "%string, [KN 7]); ("p_1->b : %f "%string, [KF d77]);
                        ("Accessing the fields of p_2 causes segment fault."%string, [])]) as (w' & Hs & Hd & Hc).
  { unfold pointer_parameter_start. do 2 gstep. unfold init_internal_pointer_1, init_internal_pointer_2, new_internal.
    eexists. split; [|split].
    - repeat first [rewrite prog_bind_unfold|rewrite alloc_run by done|progress cbn -[alloc]]. reflexivity.
    - reflexivity.
    - cbn. by rewrite <- !app_assoc. }
  split.
  - eapply runs_done; [exact Hs|]. by rewrite Hd, Hc.
  - assert (p_data w' !! 1%nat = Some (Some (OPtr None))) as H1 by by rewrite Hd.
    unfold pointer_parameter. rewrite (prog_bind_step _ _ _ _ _ Hs). cbn [snd].
    rewrite (prog_bind_step _ _ _ _ _ (read_run 1 (OPtr None) get_ptr None w' H1 eq_refl)).
    gstep. erewrite prog_bind_step; [|eapply (read_run 1 (OPtr None) get_ptr None); [exact H1|done]]. reflexivity.
Qed.

(** [pointer_of_pointer.c]: whatever the uninitialised pointer holds, the two
    integers are reached through the array, and the addresses relate as the
    comment at its end has them: [a + 1] is 8 bytes after [a], and
    [&( *a)[1]] 4 bytes after [a[0]]. *)
Theorem pointer_of_pointer_output junk cs :
  memory →
  let b := c_addr 0 in let a := c_addr 1 in let a0 := c_addr 2 in let a1 := c_addr 3 in
  runs (pointer_of_pointer junk) (mkPstate [] cs) (λ r w', r = 0 ∧ map snd (p_calls w') = map snd cs ++
    [[KN b; KN junk]; []; [KN a; KN a0]; [KN (a + 8); KN a1]; [KN 10; KN a0; KN a]; [KN 20; KN a1; KN (a + 8)];
     [KN 20; KN (a0 + 4)]; [KN 20; KN (a + 8)]; [KN 20; KN (a + 8)]]).
Proof.
  intros Hm b a a0 a1. eapply runs_done.
  - unfold pointer_of_pointer. repeat first [rewrite prog_bind_unfold|rewrite alloc_run by done|progress cbn -[alloc]].
    reflexivity.
  - split; [done|]. cbn. by rewrite !map_app, <- !app_assoc.
Qed.

(** What [classInstanceCast.cpp] shows of an object at [l]. *)
Definition outside_lines (l : nat) (psize : Z) (i : Z) (b : spec_float) (q : option nat) : list kmsg :=
  [(" address 0x%lx , size 0x%lx "%string, [KN (c_addr l); KN psize]);
   ("obj_inner_var :0x%lx , size 0x%lx "%string, [KN (c_addr l + 8); KN 16]);
   ("obj_inner_var.integer_1 %d "%string, [KN i]); ("obj_inner_var.double_1 %f "%string, [KF b]);
   ("obj_inner_pointer : 0x%lx, size 0x%lx "%string, [KN (addr q); KN 8])].
Definition inner_lines (a : Z) (b : spec_float) : list kmsg :=
  [("obj_inner_pointer->integer_1 %d "%string, [KN a]); ("obj_inner_pointer->double_1 %f "%string, [KF b])].

Lemma show_outside_run l psize d i b q h cs :
  h !! l = Some (Some (OOutside d i b q)) →
  show_outside (Some l) psize (mkPstate h cs) = Done q (mkPstate h (cs ++ outside_lines l psize i b q)).
Proof.
  intros Hl. unfold show_outside.
  rewrite (prog_bind_step _ _ _ _ _ (read_run l _ get_outside (i, b, q) (mkPstate h cs) Hl eq_refl)).
  do 5 gstep. unfold mret, prog_ret. cbn [p_data p_calls]. by rewrite <- !app_assoc.
Qed.

Lemma show_inner_run l a b h cs :
  h !! l = Some (Some (OInternal a b)) → show_inner (Some l) (mkPstate h cs) = Done tt (mkPstate h (cs ++ inner_lines a b)).
Proof.
  intros Hl. unfold show_inner. rewrite (prog_bind_step _ _ _ _ _ (read_run l _ get_a a (mkPstate h cs) Hl eq_refl)). gstep.
  rewrite (prog_bind_step _ _ _ _ _ (read_run l _ get_b b (mkPstate h _) Hl eq_refl)). unfold say, tell. cbn [p_data p_calls].
  by rewrite <- app_assoc.
Qed.

(** From the copy on, for any two objects of the class: both show the values
    of the second, and what its pointer leads to is shared. *)
Lemma class_cast_end_run l m n d i b q d' i' b' x y h cs :
  h !! l = Some (Some (OOutside d i b q)) → h !! m = Some (Some (OOutside d' i' b' (Some n))) →
  h !! n = Some (Some (OInternal x y)) → l ≠ m →
  let h' := <[l := Some (OOutside d' i' b' (Some n))]> h in
  class_cast_end (Some l) (Some m) (mkPstate h cs) = Done 0 (mkPstate h' (cs ++
    ("obj_outside_pointer : after memcpy : "%string, []) :: outside_lines l 8 i' b' (Some n) ++ inner_lines x y ++
    ("The compared value:"%string, []) :: outside_lines m 32 i' b' (Some n) ++ inner_lines x y)) ∧ h' !! l = h' !! m.
Proof.
  intros Hl Hm Hn Hlm h'. assert (h' !! l = Some (Some (OOutside d' i' b' (Some n)))) as Hl'.
  { apply list_lookup_insert_eq. by eapply lookup_lt_Some. }
  assert (h' !! m = Some (Some (OOutside d' i' b' (Some n)))) as Hm' by (unfold h'; by rewrite list_lookup_insert_ne).
  assert (h' !! n = Some (Some (OInternal x y))) as Hn'.
  { unfold h'. rewrite list_lookup_insert_ne; [done|]. intros ->. congruence. }
  split; [|congruence]. unfold class_cast_end, class_cast_copy.
  rewrite (prog_bind_step _ _ _ tt (mkPstate h' cs)).
  2: { rewrite (prog_bind_step _ _ _ _ _ (read_run m _ Some _ (mkPstate h cs) Hm eq_refl)).
       exact (assign_run l _ _ _ (mkPstate h cs) Hl eq_refl). }
  gstep. rewrite (prog_bind_step _ _ _ _ _ (show_outside_run l 8 _ _ _ _ h' _ Hl')).
  rewrite (prog_bind_step _ _ _ _ _ (show_inner_run n _ _ h' _ Hn')). gstep.
  rewrite (prog_bind_step _ _ _ _ _ (show_outside_run m 32 _ _ _ _ h' _ Hm')).
  rewrite (prog_bind_step _ _ _ _ _ (show_inner_run n _ _ h' _ Hn')). unfold mret, prog_ret. cbn [p_data p_calls].
  by rewrite <- !app_assoc.
Qed.

(** [classInstanceCast.cpp], when the pointer inside the allocated object
    happens to be null: after the copy both objects lead to one and the same
    inner object, and every value shown for them is the one the constructors
    have set. *)
Theorem class_cast_shares cs :
  memory → c_ptr = None →
  runs class_cast (mkPstate [] cs) (λ r w', r = 0 ∧ p_data w' !! 0%nat = p_data w' !! 1%nat ∧
    ∃ start, p_calls w' = cs ++ start ++
      ("obj_outside_pointer : after memcpy : "%string, []) :: outside_lines 0 8 (-1) minus_one (Some 2%nat) ++ inner_lines (-1) minus_one ++
      ("The compared value:"%string, []) :: outside_lines 1 32 (-1) minus_one (Some 2%nat) ++ inner_lines (-1) minus_one).
Proof.
  intros Hm Hp. set (p := OOutside c_double c_int c_double c_ptr). set (h := [Some p; Some (OOutside c_double (-1) minus_one (Some 2%nat)); Some (OInternal (-1) minus_one)]).
  unfold class_cast. apply runs_bind. unfold class_cast_start. apply runs_bind. eapply runs_done; [by apply alloc_run|].
  apply runs_bind. eapply (runs_done _ _ (Some 1%nat) (mkPstate h cs)); [reflexivity|]. apply runs_bind. eapply runs_done; [reflexivity|].
  apply runs_bind. eapply runs_done; [exact (show_outside_run 0 8 c_double c_int c_double c_ptr h _ eq_refl)|]. rewrite Hp.
  apply runs_bind. eapply runs_done; [reflexivity|]. eapply runs_done; [reflexivity|]. cbn [fst snd p_data p_calls].
  destruct (class_cast_end_run 0 1 2 c_double c_int c_double c_ptr c_double (-1) minus_one (-1) minus_one h
    (((cs ++ [("obj_outside_pointer : allocated by malloc : "%string, [])]) ++ outside_lines 0 8 c_int c_double None) ++
      [("Can't print a pointer with 0x0. "%string, [])])
    eq_refl eq_refl eq_refl ltac:(done)) as [Hrun Heq].
  eapply runs_done; [exact Hrun|]. split; [done|]. split; [exact Heq|]. cbn [p_calls].
  exists (("obj_outside_pointer : allocated by malloc : "%string, []) :: outside_lines 0 8 c_int c_double None ++
          [("Can't print a pointer with 0x0. "%string, [])]).
  rewrite <- !app_assoc. reflexivity.
Qed.

(** When it is not null it leads nowhere: the program faults before the copy. *)
Lemma class_cast_faults l cs :
  memory → c_ptr = Some l → (3 <= l)%nat → class_cast (mkPstate [] cs) = Fault OutOfBounds.
Proof.
  intros Hm Hp Hl. unfold class_cast, class_cast_start. apply prog_bind_fault. 
  rewrite (prog_bind_step _ _ _ _ _ (alloc_run _ _ Hm)). destruct E as [ci cd cp cm ca]. cbn in Hp. subst cp.
  destruct l as [|[|[|l]]]; [lia..|]. reflexivity.
Qed.

End Runs.

(** ** Control flow, arithmetic and methods *)

(** [macro.c]: for every pair the division does not fault on, the macro's
    value and the new [n] are the remainder and the quotient printed before,
    and they give back the old [n]. *)
Lemma sector_div_spec n b r : sector_div n b = Some r → r = (Z.rem n b, Z.quot n b) ∧ n = b * r.2 + r.1.
Proof.
  unfold sector_div. destruct (Z.eqb_spec b 0); [done|]. cbn [orb]. case_match; [done|]. intros [= <-].
  split; [done|]. cbn. by apply Z.quot_rem'.
Qed.

Example macro_shown :
  macro_main 1023 128 = Some [("n%b is : %d "%string, [KN 127]); ("n/b is : %d "%string, [KN 7]);
    ("sector_div(n,b) return value : %d, n is : %d ,b is %d "%string, [KN 127; KN 7; KN 128])].
Proof. reflexivity. Qed.

(** [goto_test.c]: without a jump the code under the first label runs too. *)
Lemma goto_falls_through a : a ≠ 1 → a ≠ 5 → tail (goto_test a) = tail (goto_test 1).
Proof. intros H1 H5. unfold goto_test. by destruct (Z.eqb_spec a 1), (Z.eqb_spec a 5). Qed.

(** [pointer_addr_check.c] tests the top four bits of a 64-bit address. *)
Lemma addr_check_nibble high low comp :
  0 <= low < 2 ^ 60 → (Z.shiftr (Z.lor (Z.shiftl high 60) low) 60 =? comp) = (high =? comp).
Proof. intros Hl. rewrite lor_shiftl_add, shiftr_div by lia. f_equal. dlia. Qed.

Example addr_check_shown : head (pointer_addr_check 16045704242598689470 13) = Some ("Equal."%string, []).
Proof. reflexivity. Qed.

Example minus_ones : memset_int (-1) = -1.
Proof. reflexivity. Qed.

(** [simulate_vtable.cpp]: the tests of the flag call the method of the class
    whose constructor made the object. *)
Theorem dispatch_simulates c : dispatch (new_instance c) = oop_size (in_class (new_instance c)).
Proof. by destruct c. Qed.

Example simulate_vtable_shown :
  simulate_vtable !! 1%nat = simulate_vtable !! 3%nat ∧ simulate_vtable !! 5%nat = simulate_vtable !! 7%nat.
Proof. split; reflexivity. Qed.

(** [non-virtual-method.cpp]: a son seen as a father keeps its status only. *)
Example son_as_father :
  person_message Father new_son =
    (" field: %d, name : %s , status : %s "%string, [KN 0; KS "I'm father"; KS "I'm sonning."]).
Proof. reflexivity. Qed.

(** ** The device check *)

Section Check.
Context {E : ibenv}.

Definition is_close (c : icall) : bool := match c with I_close_device _ => true | _ => false end.
Definition is_free (c : icall) : bool := match c with I_free_device_list | I_free_attr => true | _ => false end.

(** The device check returns unless its allocation fails.  When it has opened
    a device it closes it exactly if the query succeeds, and its result is
    then that of the closing; the list and the attributes stay allocated. *)
Theorem check_ib_result devs ctx cs :
  i_list = Some devs → i_open (head devs) = Some ctx →
  if i_malloc
  then runs check_ib (mkPstate tt cs) (λ r w', ∃ new, p_calls w' = cs ++ new ∧
      r = (if i_query ctx =? 0 then i_close ctx else -1) ∧
      existsb is_close new = (i_query ctx =? 0) ∧ existsb is_free new = false)
  else check_ib (mkPstate tt cs) = Fault NullDeref.
Proof.
  intros Hl Ho. destruct i_malloc eqn:Hm.
  - destruct (i_attr ctx) as [[[x y] z] t] eqn:Ha. destruct (i_query ctx =? 0) eqn:Hq; [destruct (i_close ctx =? 0) eqn:Hc|].
    all: eapply runs_done; [unfold check_ib, query_and_close;
      repeat first [gstep|rewrite Hl|rewrite Ho|rewrite Hm|rewrite Hq|rewrite Ha|rewrite Hc|progress cbn [negb]]; reflexivity|].
    all: eexists; split; [cbn [p_calls]; by rewrite <- !app_assoc|]; done.
  - unfold check_ib, query_and_close. by repeat first [gstep|rewrite Hl|rewrite Ho|rewrite Hm].
Qed.

End Check.

(** ** Witnesses *)

#[local] Instance plain_memory : cenv :=
  {| c_int := 5; c_double := S754_zero false; c_ptr := None; c_malloc := λ _ _, true; c_addr := λ l, 4096 + 32 * Z.of_nat l |}.

Lemma memory_leak_grows_witness :
  memory_leak 2 (mkPstate [] []) = Done tt (mkPstate [Some (OInt 1); Some (OInt 1)]
    [("value of pointer is : %d "%string, [KN 1]); ("value of pointer is : %d "%string, [KN 1])]).
Proof. exact (memory_leak_grows 2 (mkPstate [] []) (λ _ _, eq_refl)). Defined.

#[local] Instance failing_query : ibenv :=
  {| i_list := Some [7]; i_open := λ d, d; i_malloc := true; i_query := λ _, 22; i_attr := λ _, (0, 0, 0, 0); i_close := λ _, 0 |}.

Lemma check_ib_result_witness :
  runs check_ib (mkPstate tt []) (λ r w', ∃ new, p_calls w' = [] ++ new ∧ r = -1 ∧
    existsb is_close new = false ∧ existsb is_free new = false).
Proof. exact (check_ib_result [7] 7 [] eq_refl eq_refl). Defined.
